(** * Hybrid DAG-based multi-core scheduler (scheduler.c)

    A shallow embedding of the scheduler core of [scheduler.c]: the task
    graph, the Rate-Monotonic priority assignment, the readiness test, the
    selection of the next task and the discrete-event simulation loop,
    followed by the properties established about them.

    Conventions of the embedding.
    - A C [int] is a [Z]; every arithmetic operation of the source is
      written with the 32-bit two's-complement wrap-around ([wrap]).
    - An array is a [list]; positions are [nat], stored ids are [Z] as in
      the source ([-1] is the "none" sentinel of [core_assigned],
      [start_time], [finish_time] and of the selection result).
    - [Core.current_task] is a [Task*] into [dag->tasks] in the source; it
      is the position of that task here ([None] for [NULL]).
    - The globals [simulation_time], [completed_tasks], [cores] and the
      graph are the fields of one record [Sim] threaded through the loop;
      [quantum] and [debug_mode] are only read while a run is in progress
      and are parameters.
    - What the source prints or sleeps is appended to [console]. The
      [name] field ("Task<id>") is only ever printed and is left out. *)

From Stdlib Require Import ZArith Lia Bool List.
From stdpp Require Import base option list.

Open Scope Z_scope.

(** ** Machine integers *)

Definition INT_MIN : Z := -2147483648.
Definition INT_MAX : Z := 2147483647.

Definition wrap (z : Z) : Z := (z + 2147483648) mod 4294967296 - 2147483648.

Definition int_add (a b : Z) : Z := wrap (a + b).
Definition int_sub (a b : Z) : Z := wrap (a - b).
Definition int_mul (a b : Z) : Z := wrap (a * b).
(** C division truncates toward zero. *)
Definition int_div (a b : Z) : Z := wrap (Z.quot a b).
(** C remainder has the sign of the dividend. *)
Definition int_rem (a b : Z) : Z := wrap (Z.rem a b).

Definition in_int (z : Z) : Prop := INT_MIN <= z <= INT_MAX.

(** ** Constants *)

Definition MAX_TASKS : Z := 100.
Definition MAX_CORES : Z := 16.
Definition MIN_QUANTUM : Z := 10.
Definition DEFAULT_QUANTUM : Z := 50.
(** The bound of the safety check at the end of the loop body. *)
Definition TIME_LIMIT : Z := 10000.
(** The argument of the [delay_ms] call of the loop body. *)
Definition TICK_DELAY_MS : Z := 10.

(** ** Data model *)

Record Task := mkTask {
  task_id : Z;
  duration : Z;
  period : Z;
  priority : Z;
  dependencies : list Z;      (* the first [dep_count] entries of the array *)
  completed : bool;
  remaining_time : Z;
  core_assigned : Z;
  start_time : Z;
  finish_time : Z
}.

Definition dep_count (t : Task) : Z := Z.of_nat (length (dependencies t)).

Record DAG := mkDAG {
  tasks : list Task;
  adjacency_matrix : list (list Z);
  has_cycles : bool
}.

Definition num_tasks (dag : DAG) : Z := Z.of_nat (length (tasks dag)).

Record Core := mkCore {
  core_id : Z;
  current_task : option nat;
  time_slice_remaining : Z;
  is_idle : bool;
  total_idle_time : Z
}.

(** Field updates. *)

Definition set_priority (v : Z) (t : Task) : Task :=
  mkTask (task_id t) (duration t) (period t) v (dependencies t) (completed t)
         (remaining_time t) (core_assigned t) (start_time t) (finish_time t).

Definition set_duration (v : Z) (t : Task) : Task :=
  mkTask (task_id t) v (period t) (priority t) (dependencies t) (completed t)
         (remaining_time t) (core_assigned t) (start_time t) (finish_time t).

Definition set_period (v : Z) (t : Task) : Task :=
  mkTask (task_id t) (duration t) v (priority t) (dependencies t) (completed t)
         (remaining_time t) (core_assigned t) (start_time t) (finish_time t).

Definition set_dependencies (v : list Z) (t : Task) : Task :=
  mkTask (task_id t) (duration t) (period t) (priority t) v (completed t)
         (remaining_time t) (core_assigned t) (start_time t) (finish_time t).

Definition set_completed (v : bool) (t : Task) : Task :=
  mkTask (task_id t) (duration t) (period t) (priority t) (dependencies t) v
         (remaining_time t) (core_assigned t) (start_time t) (finish_time t).

Definition set_remaining_time (v : Z) (t : Task) : Task :=
  mkTask (task_id t) (duration t) (period t) (priority t) (dependencies t)
         (completed t) v (core_assigned t) (start_time t) (finish_time t).

Definition set_core_assigned (v : Z) (t : Task) : Task :=
  mkTask (task_id t) (duration t) (period t) (priority t) (dependencies t)
         (completed t) (remaining_time t) v (start_time t) (finish_time t).

Definition set_start_time (v : Z) (t : Task) : Task :=
  mkTask (task_id t) (duration t) (period t) (priority t) (dependencies t)
         (completed t) (remaining_time t) (core_assigned t) v (finish_time t).

Definition set_finish_time (v : Z) (t : Task) : Task :=
  mkTask (task_id t) (duration t) (period t) (priority t) (dependencies t)
         (completed t) (remaining_time t) (core_assigned t) (start_time t) v.

Definition set_tasks (v : list Task) (dag : DAG) : DAG :=
  mkDAG v (adjacency_matrix dag) (has_cycles dag).

Definition set_adjacency_matrix (v : list (list Z)) (dag : DAG) : DAG :=
  mkDAG (tasks dag) v (has_cycles dag).

Definition set_has_cycles (v : bool) (dag : DAG) : DAG :=
  mkDAG (tasks dag) (adjacency_matrix dag) v.

(** [dag->tasks[i]] for a stored id [i]. *)
Definition get_task (dag : DAG) (i : Z) : option Task :=
  if i <? 0 then None else tasks dag !! Z.to_nat i.

(** ** Console *)

Inductive Event := Started | Preempted | Completed.

Inductive Output :=
| TraceLine (time core : Z) (ev : Event) (task per prio remaining : Z)
| CompletedLine (task core dur per prio : Z)
| ExecutingLine (task core per prio : Z)
| PriorityLine (task per prio : Z)
| ProgressBar (progress total : Z)
| Usleep (us : Z)
| TimeLimitLine
| InvalidTaskCountLine
| InvalidPeriodLine
| InvalidTaskIdLine
| InvalidDependencyLine
| SelfDependencyLine
| AddedLine (task depends_on : Z)
| DuplicateLine
| CycleWarningLine
| SampleCreatedLine (count : Z).

(** [delay_ms]: sleeps only for arguments in (0, 100]. *)
Definition delay_ms (ms : Z) : list Output :=
  if (0 <? ms) && (ms <=? 100) then [Usleep (int_mul ms 1000)] else [].

(** [print_execution_trace]: prints only in debug mode. *)
Definition print_execution_trace (debug_mode : bool) (time core_id : Z)
    (task : Task) (event : Event) : list Output :=
  if debug_mode
  then [TraceLine time core_id event (task_id task) (period task)
                  (priority task) (remaining_time task)]
  else [].

(** ** Priority assigner *)

(** The priority [apply_rate_monotonic_scheduling] stores for a period. *)
Definition rms_priority (period : Z) : Z :=
  if period =? 0 then 1
  else
    let p := int_sub 10 (int_div (int_mul period 9) 1000) in
    let p := if p <? 1 then 1 else p in
    if p >? 10 then 10 else p.

Definition apply_rate_monotonic_scheduling (dag : DAG) : DAG :=
  set_tasks (map (fun t => set_priority (rms_priority (period t)) t) (tasks dag)) dag.

(** What the same call prints in debug mode. *)
Definition rms_debug_lines (debug_mode : bool) (dag : DAG) : list Output :=
  if debug_mode
  then map (fun t => PriorityLine (task_id t) (period t) (rms_priority (period t)))
           (tasks dag)
  else [].

(** ** Readiness evaluator *)

(** [dag->tasks[dep_id].completed]; an id outside the array designates no
    task and is read as not completed (graphs built by [create_dag] and
    its callers never store such an id). *)
Definition task_completed (dag : DAG) (dep_id : Z) : bool :=
  match get_task dag dep_id with
  | Some t => completed t
  | None => false
  end.

Definition is_task_ready (dag : DAG) (task_id : nat) : bool :=
  match tasks dag !! task_id with
  | None => false
  | Some t =>
      if completed t then false
      else forallb (task_completed dag) (dependencies t)
  end.

(** One iteration of the scan of [find_highest_priority_ready_task]; the
    accumulator is [(highest_priority, selected_task)]. *)
Definition find_step (dag : DAG) (acc : Z * Z) (i : nat) : Z * Z :=
  let '(highest_priority, selected_task) := acc in
  match tasks dag !! i with
  | None => acc
  | Some t =>
      if is_task_ready dag i && (core_assigned t =? -1) then
        if (selected_task =? -1) || (priority t >? highest_priority) then
          (priority t, Z.of_nat i)
        else if (priority t =? highest_priority)
                && (period t <? from_option period 0 (get_task dag selected_task))
        then (highest_priority, Z.of_nat i)
        else acc
      else acc
  end.

Definition find_highest_priority_ready_task (dag : DAG) : Z :=
  snd (fold_left (find_step dag) (seq 0 (length (tasks dag))) (-1, -1)).

Definition reset_task (t : Task) : Task :=
  mkTask (task_id t) (duration t) (period t) (priority t) (dependencies t)
         false (duration t) (-1) (-1) (-1).

Definition reset_dag_execution (dag : DAG) : DAG :=
  set_tasks (map reset_task (tasks dag)) dag.

(** ** Graph store *)

(** [create_dag] leaves [duration], [period], [priority] and
    [remaining_time] unset; both callers write them before they are read.
    They are 0 here. *)
Definition new_task (i : nat) : Task :=
  mkTask (Z.of_nat i) 0 0 0 [] false 0 (-1) (-1) (-1).

Definition create_dag (num_tasks : Z) : DAG :=
  let n := Z.to_nat num_tasks in
  mkDAG (map new_task (seq 0 n)) (replicate n (replicate n 0)) false.

(** The two writes that record "task depends on depends_on":
    [adjacency_matrix[depends_on][task] = 1] and the append to the
    dependency list of [task]. *)
Definition add_dependency (dag : DAG) (task depends_on : Z) : DAG :=
  let m := alter (fun row => <[Z.to_nat task := 1]> row) (Z.to_nat depends_on)
                 (adjacency_matrix dag) in
  let ts := alter (fun t => set_dependencies (dependencies t ++ [depends_on]) t)
                  (Z.to_nat task) (tasks dag) in
  set_tasks ts (set_adjacency_matrix m dag).

(** *** Cycle detection *)

Record DfsState := mkDfs {
  visited : list bool;
  rec_stack : list bool;
  has_cycle : bool
}.

Definition edge (dag : DAG) (u v : nat) : bool :=
  match adjacency_matrix dag !! u with
  | Some row => negb (from_option (Z.eqb 0) true (row !! v))
  | None => false
  end.

(** [fuel] bounds the recursion depth; every nested call marks a node not
    visited before, so [length (tasks dag)] levels are never exceeded. *)
Fixpoint dfs_cycle_detection (fuel : nat) (dag : DAG) (node : nat)
    (st : DfsState) : DfsState :=
  match fuel with
  | O => st
  | S fuel' =>
      if has_cycle st then st
      else
        let st1 := mkDfs (<[node := true]> (visited st))
                         (<[node := true]> (rec_stack st)) false in
        let visit (st : DfsState) (i : nat) : DfsState :=
          if has_cycle st then st
          else if edge dag node i then
            if negb (from_option (fun b => b) false (visited st !! i)) then
              dfs_cycle_detection fuel' dag i st
            else if from_option (fun b => b) false (rec_stack st !! i) then
              mkDfs (visited st) (rec_stack st) true
            else st
          else st in
        let st2 := fold_left visit (seq 0 (length (tasks dag))) st1 in
        if has_cycle st2 then st2
        else mkDfs (visited st2) (<[node := false]> (rec_stack st2)) false
  end.

Definition detect_cycles (dag : DAG) : DAG * list Output :=
  let n := length (tasks dag) in
  let start (st : DfsState) (i : nat) : DfsState :=
    if negb (from_option (fun b => b) false (visited st !! i))
    then dfs_cycle_detection (S n) dag i st
    else st in
  let st := fold_left start (seq 0 n)
                      (mkDfs (replicate n false) (replicate n false) false) in
  (set_has_cycles (has_cycle st) dag,
   if has_cycle st then [CycleWarningLine] else []).

(** *** The sample graph *)

Definition sample_durations : list Z :=
  [172; 105; 252; 91; 120; 138; 47; 65; 185; 78].
Definition sample_periods : list Z :=
  [500; 200; 800; 300; 250; 350; 150; 400; 600; 100].
Definition sample_dependencies : list (Z * Z) :=
  [(1, 0); (2, 0); (3, 1); (4, 1); (5, 2); (6, 3); (6, 4); (7, 5); (8, 6);
   (9, 7); (9, 8)].

Definition set_workload (durations periods : list Z) (dag : DAG) : DAG :=
  set_tasks
    (imap (fun i t =>
             let d := from_option (fun x => x) 0 (durations !! i) in
             set_period (from_option (fun x => x) 0 (periods !! i))
               (set_remaining_time d (set_duration d t)))
          (tasks dag))
    dag.

Definition create_sample_dag (debug_mode : bool) : DAG * list Output :=
  let dag := set_workload sample_durations sample_periods (create_dag 10) in
  let out := rms_debug_lines debug_mode dag in
  let dag := apply_rate_monotonic_scheduling dag in
  let dag := fold_left (fun dag '(task, depends_on) =>
                          add_dependency dag task depends_on)
                       sample_dependencies dag in
  let '(dag, warn) := detect_cycles dag in
  (dag, out ++ warn ++ [SampleCreatedLine 10]).

(** *** A graph read from standard input

    The input is the sequence of integers [scanf] reads. A read from an
    exhausted input leaves the source's variable unset; the model stops
    with [None] there. *)

(** The per-task loop: execution time, then period (a negative period is
    replaced by 500). *)
Fixpoint read_tasks (count : nat) (i : nat) (dag : DAG) (input : list Z)
    : option (DAG * list Z * list Output) :=
  match count with
  | O => Some (dag, input, [])
  | S count' =>
      match input with
      | d :: p :: rest =>
          let bad := p <? 0 in
          let p' := if bad then 500 else p in
          let ts := alter (fun t => set_period p'
                                      (set_remaining_time d (set_duration d t)))
                          i (tasks dag) in
          match read_tasks count' (S i) (set_tasks ts dag) rest with
          | Some (dag', rest', out) =>
              Some (dag', rest', (if bad then [InvalidPeriodLine] else []) ++ out)
          | None => None
          end
      | _ => None
      end
  end.

Definition has_dependency (dag : DAG) (task depends_on : Z) : bool :=
  match get_task dag task with
  | Some t => existsb (Z.eqb depends_on) (dependencies t)
  | None => false
  end.

(** Print [line], then go on with the rest of the loop. *)
Definition report (line : Output) (r : option (DAG * list Output))
    : option (DAG * list Output) :=
  match r with
  | Some (dag', out) => Some (dag', line :: out)
  | None => None
  end.

(** The [while (true)] loop of dependency declarations. *)
Fixpoint read_dependencies (dag : DAG) (input : list Z)
    : option (DAG * list Output) :=
  match input with
  | [] => None
  | task :: rest =>
      if task =? -1 then Some (dag, [])
      else if (task <? 0) || (task >=? num_tasks dag) then
        report InvalidTaskIdLine (read_dependencies dag rest)
      else
        match rest with
        | [] => None
        | depends_on :: rest' =>
            if (depends_on <? 0) || (depends_on >=? num_tasks dag) then
              report InvalidDependencyLine (read_dependencies dag rest')
            else if task =? depends_on then
              report SelfDependencyLine (read_dependencies dag rest')
            else if has_dependency dag task depends_on then
              report DuplicateLine (read_dependencies dag rest')
            else
              report (AddedLine task depends_on)
                     (read_dependencies (add_dependency dag task depends_on) rest')
        end
  end.

Definition create_custom_dag (debug_mode : bool) (input : list Z)
    : option (DAG * list Output) :=
  match input with
  | [] => None
  | n :: rest =>
      let bad := (n <? 1) || (n >? MAX_TASKS) in
      let num_tasks := if bad then 5 else n in
      let dag := create_dag num_tasks in
      match read_tasks (Z.to_nat num_tasks) 0 dag rest with
      | None => None
      | Some (dag, rest, out1) =>
          let out2 := rms_debug_lines debug_mode dag in
          let dag := apply_rate_monotonic_scheduling dag in
          match read_dependencies dag rest with
          | None => None
          | Some (dag, out3) =>
              let '(dag, out4) := detect_cycles dag in
              Some (dag, (if bad then [InvalidTaskCountLine] else [])
                           ++ out1 ++ out2 ++ out3 ++ out4)
          end
      end
  end.

(** ** Scheduler engine *)

Record Sim := mkSim {
  dag : DAG;
  cores : list Core;
  simulation_time : Z;
  completed_tasks : Z;
  console : list Output
}.

Definition set_task (k : nat) (t : Task) (s : Sim) : Sim :=
  mkSim (set_tasks (<[k := t]> (tasks (dag s))) (dag s)) (cores s)
        (simulation_time s) (completed_tasks s) (console s).

Definition set_core (i : nat) (c : Core) (s : Sim) : Sim :=
  mkSim (dag s) (<[i := c]> (cores s)) (simulation_time s)
        (completed_tasks s) (console s).

Definition set_completed_tasks (v : Z) (s : Sim) : Sim :=
  mkSim (dag s) (cores s) (simulation_time s) v (console s).

Definition set_simulation_time (v : Z) (s : Sim) : Sim :=
  mkSim (dag s) (cores s) v (completed_tasks s) (console s).

Definition print (out : list Output) (s : Sim) : Sim :=
  mkSim (dag s) (cores s) (simulation_time s) (completed_tasks s)
        (console s ++ out).

Definition new_core (i : nat) : Core := mkCore (Z.of_nat i) None 0 true 0.

Inductive Exit := AllCompleted | TimeLimitExceeded.

Section Run.

(** The globals [quantum] and [debug_mode], the [num_cores] argument and
    the argument the loop body passes to [delay_ms] ([TICK_DELAY_MS] in
    the source). *)
Variable quantum : Z.
Variable debug_mode : bool.
Variable num_cores : Z.
Variable tick_delay : Z.

(** The state before the loop. *)
Definition init_sim (g : DAG) : Sim :=
  mkSim (reset_dag_execution g) (map new_core (seq 0 (Z.to_nat num_cores))) 0 0 [].

(** Body of the first [for] loop ("Check for completed tasks") for
    core [i]. *)
Definition check_completed (s : Sim) (i : nat) : Sim :=
  match cores s !! i with
  | None => s
  | Some c =>
      if is_idle c then s
      else
        match current_task c with
        | None => s
        | Some k =>
            match tasks (dag s) !! k with
            | None => s
            | Some t =>
                let t := set_remaining_time (int_sub (remaining_time t) 1) t in
                let c := mkCore (core_id c) (current_task c)
                                (int_sub (time_slice_remaining c) 1)
                                (is_idle c) (total_idle_time c) in
                if remaining_time t <=? 0 then
                  let t := set_finish_time (simulation_time s)
                             (set_core_assigned (-1) (set_completed true t)) in
                  let s := set_task k t s in
                  let s := set_completed_tasks (int_add (completed_tasks s) 1) s in
                  let s := print (print_execution_trace debug_mode
                                    (simulation_time s) (Z.of_nat i) t Completed
                                  ++ [CompletedLine (task_id t) (Z.of_nat i)
                                        (duration t) (period t) (priority t)]) s in
                  set_core i (mkCore (core_id c) None 0 true (total_idle_time c)) s
                else if time_slice_remaining c <=? 0 then
                  let s := print (print_execution_trace debug_mode
                                    (simulation_time s) (Z.of_nat i) t Preempted) s in
                  let t := set_core_assigned (-1) t in
                  let s := set_task k t s in
                  set_core i (mkCore (core_id c) None (time_slice_remaining c)
                                     true (total_idle_time c)) s
                else
                  set_core i c (set_task k t s)
            end
        end
  end.

(** Body of the second [for] loop ("Assign tasks to idle cores") for
    core [i]. *)
Definition assign_idle (s : Sim) (i : nat) : Sim :=
  match cores s !! i with
  | None => s
  | Some c =>
      if is_idle c then
        let selected := find_highest_priority_ready_task (dag s) in
        if selected =? -1 then s
        else
          match get_task (dag s) selected with
          | None => s
          | Some t =>
              let c := mkCore (core_id c) (Some (Z.to_nat selected)) quantum
                              false (total_idle_time c) in
              let t := set_core_assigned (Z.of_nat i) t in
              let t := if start_time t =? -1
                       then set_start_time (simulation_time s) t else t in
              let s := set_core i c (set_task (Z.to_nat selected) t s) in
              print (print_execution_trace debug_mode (simulation_time s)
                       (Z.of_nat i) t Started
                     ++ [ExecutingLine (task_id t) (Z.of_nat i)
                           (period t) (priority t)]) s
          end
      else s
  end.

(** Body of the third [for] loop: an idle core counts the tick as idle. *)
Definition count_idle (s : Sim) (i : nat) : Sim :=
  match cores s !! i with
  | None => s
  | Some c =>
      if is_idle c then
        set_core i (mkCore (core_id c) (current_task c) (time_slice_remaining c)
                           (is_idle c) (int_add (total_idle_time c) 1)) s
      else s
  end.

Definition core_ids : list nat := seq 0 (Z.to_nat num_cores).

(** The loop body after the two passes over the cores: the clock, the
    idle accounting, the progress bar and the pacing delay. *)
Definition end_of_tick (s : Sim) : Sim :=
  let s := set_simulation_time (int_add (simulation_time s) 1) s in
  let s := fold_left count_idle core_ids s in
  let s := if int_rem (simulation_time s) 20 =? 0
           then print [ProgressBar (completed_tasks s) (num_tasks (dag s))] s
           else s in
  print (delay_ms tick_delay) s.

(** One iteration of the [while] loop, up to the safety check. *)
Definition simulation_tick (s : Sim) : Sim :=
  let s := fold_left check_completed core_ids s in
  let s := fold_left assign_idle core_ids s in
  end_of_tick s.

(** The [while] loop. Each unit of [fuel] pays for one evaluation of the
    loop condition; [None] means the fuel ran out. *)
Fixpoint simulation_loop (fuel : nat) (s : Sim) : option (Sim * Exit) :=
  match fuel with
  | O => None
  | S fuel' =>
      if completed_tasks s <? num_tasks (dag s) then
        let s := simulation_tick s in
        if simulation_time s >? TIME_LIMIT
        then Some (print [TimeLimitLine] s, TimeLimitExceeded)
        else simulation_loop fuel' s
      else Some (s, AllCompleted)
  end.

(** Enough for every run: the clock starts at 0, gains 1 per iteration
    and the loop is left once it exceeds [TIME_LIMIT]. *)
Definition run_fuel : nat := S (Z.to_nat TIME_LIMIT).

Definition run_simulation (g : DAG) : option (Sim * Exit) :=
  simulation_loop run_fuel (init_sim g).

End Run.

(** [simulate_hybrid_scheduler] up to the point where the loop halts; the
    result tables printed afterwards are the views below. *)
Definition simulate_hybrid_scheduler (quantum : Z) (debug_mode : bool)
    (g : DAG) (num_cores : Z) : option (Sim * Exit) :=
  run_simulation quantum debug_mode num_cores TICK_DELAY_MS g.

(** What [main] does with the core count and the quantum it reads for
    menu entry 4 before it starts a run. *)
Definition checked_num_cores (n : Z) : Z :=
  if (n <? 1) || (n >? MAX_CORES) then 4 else n.

Definition checked_quantum (q : Z) : Z :=
  if q <? MIN_QUANTUM then DEFAULT_QUANTUM else q.

(** ** Metrics *)

Definition turnaround (t : Task) : Z := int_sub (finish_time t) (start_time t).

Definition busy_time (s : Sim) (c : Core) : Z :=
  int_sub (simulation_time s) (total_idle_time c).

(** What a run reports per task and per core. *)
Definition task_times (s : Sim) : list (Z * Z) :=
  map (fun t => (start_time t, finish_time t)) (tasks (dag s)).

Definition core_times (s : Sim) : list (Z * Z) :=
  map (fun c => (busy_time s c, total_idle_time c)) (cores s).

Definition trace_lines (out : list Output) : list Output :=
  List.filter (fun o => match o with TraceLine _ _ _ _ _ _ _ => true | _ => false end) out.

(** * Vocabulary of the properties *)

(** ** Readiness and selection, as the design states them *)

(** Not completed, and every id of the dependency set designates a
    completed task. *)
Definition ready (dag : DAG) (i : nat) : Prop :=
  exists t, tasks dag !! i = Some t /\ completed t = false /\
    forall d, d ∈ dependencies t ->
      exists td, get_task dag d = Some td /\ completed td = true.

(** A candidate of the selection: ready and bound to no core. *)
Definition candidate (dag : DAG) (i : nat) (t : Task) : Prop :=
  tasks dag !! i = Some t /\ ready dag i /\ core_assigned t = -1.

(** [preferred a b]: the selection ranks [a] strictly before [b]. *)
Definition preferred (a b : Task) : Prop :=
  priority a > priority b \/ (priority a = priority b /\ period a < period b).

(** The state of the scan after the positions below [m]. *)
Definition scanned (dag : DAG) (m : nat) (acc : Z * Z) : Prop :=
  (acc = (-1, -1) /\ forall j tj, (j < m)%nat -> ~ candidate dag j tj)
  \/ (exists r tr, acc = (priority tr, Z.of_nat r) /\ (r < m)%nat /\
        candidate dag r tr /\
        (forall j tj, (j < m)%nat -> candidate dag j tj -> ~ preferred tj tr) /\
        (forall j tj, (j < r)%nat -> candidate dag j tj -> preferred tr tj)).

(** The key the selection ranks a task by: priority, then period. *)
Definition key (t : Task) : Z * Z := (priority t, period t).

(** [beats a b]: a task of key [a] is preferred to a task of key [b]. *)
Definition beats (a b : Z * Z) : Prop :=
  a.1 > b.1 \/ (a.1 = b.1 /\ a.2 < b.2).

Definition key_at (ks : list (Z * Z)) (i : nat) : Z * Z :=
  from_option (fun k => k) (0, 0) (ks !! i).

(** Task [i] is selected before task [j] whenever both are candidates:
    [j] is not preferred to [i], and on a tie [i] is the smaller id. *)
Definition before (ks : list (Z * Z)) (i j : nat) : Prop :=
  ~ beats (key_at ks j) (key_at ks i) /\
  (~ beats (key_at ks i) (key_at ks j) -> (i < j)%nat).

(** [order] lists ids from the first to the last the selection would
    take, for tasks of keys [ks]. *)
Fixpoint in_selection_order (ks : list (Z * Z)) (order : list nat) : Prop :=
  match order with
  | [] => True
  | i :: rest => Forall (before ks i) rest /\ in_selection_order ks rest
  end.

(** [order] mentions every id below [n]. *)
Definition covers (order : list nat) (n : nat) : bool :=
  forallb (fun i => existsb (Nat.eqb i) order) (seq 0 n).

(** The test of the scan: ready and bound to no core. *)
Definition is_candidate (dag : DAG) (i : nat) : bool :=
  match tasks dag !! i with
  | Some t => is_task_ready dag i && (core_assigned t =? -1)
  | None => false
  end.

(** The first candidate met along [order]. *)
Fixpoint first_of (dag : DAG) (order : list nat) : Z :=
  match order with
  | [] => -1
  | i :: rest => if is_candidate dag i then Z.of_nat i else first_of dag rest
  end.

(** ** Priorities and ids *)

(** Up to this period [period * 9] fits an [int]. *)
Definition MAX_EXACT_PERIOD : Z := 238609294.

(** An id the dependency loop accepts. *)
Definition valid_id (dag : DAG) (i : Z) : Prop := 0 <= i < num_tasks dag.

(** ** States of a run *)

(** The state at the head of the loop after [n] iterations. *)
Definition state_after (n : nat) (quantum : Z) (debug_mode : bool)
    (num_cores : Z) (g : DAG) : Sim :=
  Nat.iter n (simulation_tick quantum debug_mode num_cores TICK_DELAY_MS)
           (init_sim num_cores g).

(** Two states that differ at most in what was printed or slept. *)
Definition same_schedule (s1 s2 : Sim) : Prop :=
  dag s1 = dag s2 /\ cores s1 = cores s2 /\
  simulation_time s1 = simulation_time s2 /\
  completed_tasks s1 = completed_tasks s2.

Definition all_idle (s : Sim) : Prop :=
  forall i c, cores s !! i = Some c -> is_idle c = true.

(** Every core is idle and the selection finds nothing. *)
Definition stuck (s : Sim) : Prop :=
  all_idle s /\ find_highest_priority_ready_task (dag s) = -1.

(** A running core is bound to a task that is ready (hence not completed)
    and that names this core in [core_assigned]. *)
Definition bound (s : Sim) (i : nat) (c : Core) : Prop :=
  is_idle c = false ->
  exists k t, current_task c = Some k /\ tasks (dag s) !! k = Some t /\
    completed t = false /\ core_assigned t = Z.of_nat i /\ ready (dag s) k.

Definition cores_bound (s : Sim) : Prop :=
  forall i c, cores s !! i = Some c -> bound s i c.

(** What holds of a task when the clock shows [time]. *)
Definition task_ok (time : Z) (t : Task) : Prop :=
  start_time t <= time /\
  (completed t = true -> start_time t <= finish_time t) /\
  (1 <= duration t <= INT_MAX ->
     if completed t then remaining_time t = 0
     else 1 <= remaining_time t <= duration t).

(** The invariant of the loop. *)
Definition engine_inv (s : Sim) : Prop :=
  cores_bound s /\ Forall (task_ok (simulation_time s)) (tasks (dag s)).

(** ** Example inputs *)

(** The graph [create_custom_dag] builds from the integers [input]
    (the empty graph when the input ends too early). *)
Definition custom_dag (input : list Z) : DAG :=
  from_option fst (create_dag 0) (create_custom_dag false input).

(** The period [create_custom_dag] stores for an entered period. *)
Definition entered_period (p : Z) : Z := if p <? 0 then 500 else p.

(** Three tasks of durations 4, 2, 3 entered with the periods [p0], [p1],
    [p2], no dependencies. *)
Definition scenario_dag (p0 p1 p2 : Z) : DAG :=
  custom_dag [3; 4; p0; 2; p1; 3; p2; -1].

(** The same with one common period. *)
Definition three_tasks (p : Z) : DAG := scenario_dag p p p.

(** The three tasks with their keys (priority, period) as given. *)
Definition ranked (k0 k1 k2 : Z * Z) : DAG :=
  mkDAG [mkTask 0 4 k0.2 k0.1 [] false 4 (-1) (-1) (-1);
         mkTask 1 2 k1.2 k1.1 [] false 2 (-1) (-1) (-1);
         mkTask 2 3 k2.2 k2.1 [] false 3 (-1) (-1) (-1)]
        [[0; 0; 0]; [0; 0; 0]; [0; 0; 0]] false.

(** Task 0 has period 1000, task 1 is aperiodic; both get priority 1. *)
Definition mixed_pair : DAG := custom_dag [2; 5; 1000; 5; 0; -1].

(** Two tasks, each declared to depend on the other. *)
Definition two_cycle (d0 p0 d1 p1 : Z) : DAG :=
  custom_dag [2; d0; p0; d1; p1; 0; 1; 1; 0; -1].

(** Two tasks without dependencies, and the same with "0 depends on 1". *)
Definition pair_dag : DAG := custom_dag [2; 5; 100; 5; 100; -1].

Definition pair_dag_01 : DAG := custom_dag [2; 5; 100; 5; 100; 0; 1; -1].

(** A single task of duration 0, which [create_custom_dag] accepts. *)
Definition zero_duration_dag : DAG := custom_dag [1; 0; 100; -1].

(** [three_tasks 100] on one core with quantum 2, at the head of the
    iteration in which task 0 is preempted (tick 2) ... *)
Definition s2 : Sim := state_after 2 2 true 1 (three_tasks 100).

(** ... and of the one in which task 1, started at tick 4, has one tick
    of work and one tick of quantum left (tick 6). *)
Definition s6 : Sim := state_after 6 2 true 1 (three_tasks 100).

(** * Vocabulary of the further properties *)

(** A task bound to a core is the current task of that core, which runs;
    a completed task is bound to no core. *)
Definition tasks_bound (s : Sim) : Prop :=
  forall k t, tasks (dag s) !! k = Some t ->
    (completed t = true -> core_assigned t = -1) /\
    (core_assigned t = -1 \/
     exists i c, core_assigned t = Z.of_nat i /\ cores s !! i = Some c /\
       is_idle c = false /\ current_task c = Some k).

(** An idle core holds no task. *)
Definition idle_unbound (s : Sim) : Prop :=
  forall i c, cores s !! i = Some c -> is_idle c = true -> current_task c = None.

Definition binding_inv (s : Sim) : Prop := tasks_bound s /\ idle_unbound s.

(** The states of a run between iterations: at the head of the loop
    after some number of iterations, and the state the run ends in. *)
Definition in_run (quantum : Z) (debug_mode : bool) (num_cores : Z) (g : DAG)
    (s : Sim) : Prop :=
  (exists m, Z.of_nat m <= 10001 /\
     s = state_after m quantum debug_mode num_cores g) \/
  (exists e, simulate_hybrid_scheduler quantum debug_mode g num_cores = Some (s, e)).

(** ** Sums over the task and core arrays *)

Definition total {A} (f : A -> Z) (l : list A) : Z :=
  foldr (fun a n => f a + n) 0 l.

(** The number of tasks marked completed. *)
Definition count_completed (g : DAG) : Z :=
  total (fun t => if completed t then 1 else 0) (tasks g).

(** The loop's counter agrees with the flags, and the task count fits an
    [int]. *)
Definition count_inv (s : Sim) : Prop :=
  num_tasks (dag s) <= INT_MAX /\ completed_tasks s = count_completed (dag s).

(** What a run never writes: the description of a task and the graph. *)
Definition static (t : Task) : Z * Z * Z * Z * list Z :=
  (task_id t, duration t, period t, priority t, dependencies t).

Definition same_graph (g g' : DAG) : Prop :=
  map static (tasks g') = map static (tasks g) /\
  adjacency_matrix g' = adjacency_matrix g /\
  has_cycles g' = has_cycles g.

(** The core array has [num_cores] entries, entry [i] has id [i], and no
    core has been idle for longer than the clock shows. *)
Definition cores_inv (num_cores : Z) (s : Sim) : Prop :=
  length (cores s) = Z.to_nat num_cores /\
  forall i c, cores s !! i = Some c ->
    core_id c = Z.of_nat i /\ 0 <= total_idle_time c <= simulation_time s.

(** The same during the third pass, when core [j] is the next to be
    looked at: the cores from [j] on have not counted this tick yet. *)
Definition cores_counting (num_cores : Z) (j : nat) (s : Sim) : Prop :=
  length (cores s) = Z.to_nat num_cores /\
  forall i c, cores s !! i = Some c ->
    core_id c = Z.of_nat i /\ 0 <= total_idle_time c /\
    total_idle_time c + (if decide (j <= i)%nat then 1 else 0) <= simulation_time s.

(** A running core has between 1 and [quantum] ticks of its slice left. *)
Definition slice_inv (quantum : Z) (s : Sim) : Prop :=
  forall i c, cores s !! i = Some c -> is_idle c = false ->
    1 <= time_slice_remaining c <= quantum.

(** The times of a task. A task that has not started is untouched; a task
    that has started did so at a tick not later than the clock, when each
    task it depends on was completed and had finished; it has a finish
    time exactly when it is completed. *)
Definition timing_ok (s : Sim) (t : Task) : Prop :=
  (start_time t = -1 /\ completed t = false /\ core_assigned t = -1 /\
   remaining_time t = duration t /\ finish_time t = -1) \/
  (0 <= start_time t <= simulation_time s /\
   (if completed t
    then start_time t <= finish_time t <= simulation_time s
    else finish_time t = -1) /\
   forall d, d ∈ dependencies t ->
     exists td, get_task (dag s) d = Some td /\ completed td = true /\
       finish_time td <= start_time t).

Definition timing_inv (s : Sim) : Prop :=
  forall k t, tasks (dag s) !! k = Some t -> timing_ok s t.

(** The invariants of the loop taken together. *)
Definition full_inv (num_cores : Z) (s : Sim) : Prop :=
  engine_inv s /\ binding_inv s /\ cores_inv num_cores s /\ timing_inv s /\
  0 <= simulation_time s.

(** How far a task can have come. A completed task finished after it
    started, and at least [duration] ticks after. A started task that is
    not completed has executed at most as many ticks as have passed since
    its start; [late] says that the tick it is about to execute has not
    been counted yet. *)
Definition progress_ok (late : bool) (time : Z) (t : Task) : Prop :=
  if completed t then
    start_time t < finish_time t /\
    (1 <= duration t <= INT_MAX -> duration t <= finish_time t - start_time t)
  else
    start_time t <> -1 ->
    start_time t + (if late then 1 else 0) <= time /\
    (1 <= duration t <= INT_MAX ->
     duration t - remaining_time t + (if late then 1 else 0)
     <= time - start_time t).

(** When the first pass is about to look at core [j], the tasks on the
    cores from [j] on have their tick still to come. *)
Definition progress_inv (j : nat) (s : Sim) : Prop :=
  forall k t, tasks (dag s) !! k = Some t ->
    progress_ok (bool_decide (Z.of_nat j <= core_assigned t))
                (simulation_time s) t.

(** While the second pass has come to core [j]: an idle core among those
    already looked at means the selection finds nothing. *)
Definition idle_means_no_work (j : nat) (s : Sim) : Prop :=
  forall i c, (i < j)%nat -> cores s !! i = Some c -> is_idle c = true ->
    find_highest_priority_ready_task (dag s) = -1.

(** ** Work and busy time *)

Definition durations_ok (g : DAG) : Prop :=
  Forall (fun t => 1 <= duration t <= INT_MAX) (tasks g).

(** The number of running cores among [cs]. *)
Definition running (cs : list Core) : Z :=
  total (fun c => if is_idle c then 0 else 1) cs.

(** The ticks of execution the tasks have received. *)
Definition work_done (g : DAG) : Z :=
  total (fun t => duration t - remaining_time t) (tasks g).

(** The ticks the cores have not been idle. *)
Definition busy_total (s : Sim) : Z :=
  total (fun c => simulation_time s - total_idle_time c) (cores s).

(** When the first pass is about to look at core [j]: the cores from [j]
    on that run have been charged for a tick their task has not received
    yet. *)
Definition accounting (j : nat) (s : Sim) : Prop :=
  durations_ok (dag s) /\
  busy_total s = work_done (dag s) + running (drop j (cores s)).

(** After the first pass every charged tick has been received. *)
Definition accounted (s : Sim) : Prop :=
  durations_ok (dag s) /\ busy_total s = work_done (dag s).

(** What the third pass does to a core. *)
Definition count_tick (c : Core) : Core :=
  if is_idle c
  then mkCore (core_id c) (current_task c) (time_slice_remaining c)
              (is_idle c) (int_add (total_idle_time c) 1)
  else c.

(** ** Tasks that can never start *)

(** Every member of [S] depends on a member of [S] or on an id that
    designates no task: a dependency cycle is such a set. *)
Definition blocked_set (g : DAG) (S : nat -> Prop) : Prop :=
  forall k, S k ->
    exists t d, tasks g !! k = Some t /\ d ∈ dependencies t /\
      (get_task g d = None \/ (0 <= d /\ S (Z.to_nat d))).

Definition blocked_inv (g : DAG) (S : nat -> Prop) (s : Sim) : Prop :=
  same_graph g (dag s) /\
  forall k, S k ->
    exists t, tasks (dag s) !! k = Some t /\ completed t = false /\
      start_time t = -1.

(** ** Acyclic graphs *)

(** [rank] orders the tasks so that every dependency designates a task of
    smaller rank: the graph has no cycle and no dangling id. *)
Definition ranked_graph (g : DAG) (rank : nat -> nat) : Prop :=
  forall k t d, tasks g !! k = Some t -> d ∈ dependencies t ->
    0 <= d < num_tasks g /\ (rank (Z.to_nat d) < rank k)%nat.

(** A test that is enough: every task depends on tasks of smaller id
    only. *)
Definition forward_task (k : nat) (t : Task) : bool :=
  forallb (fun d => (0 <=? d) && (d <? Z.of_nat k)) (dependencies t).

Definition forward_graph (g : DAG) : bool :=
  forallb (fun k => from_option (forward_task k) true (tasks g !! k))
          (seq 0 (length (tasks g))).

(** ** Graphs as [create_dag] and [add_dependency] build them *)

(** The matrix is square, of the size of the task array; task [k] has id
    [k]; a dependency list holds ids of other tasks of the graph, each
    once; and the matrix has an edge from [u] to [v] exactly when [u] is in
    the dependency list of [v]. *)
Definition wf_graph (g : DAG) : Prop :=
  length (adjacency_matrix g) = length (tasks g) /\
  (forall u row, adjacency_matrix g !! u = Some row ->
     length row = length (tasks g)) /\
  (forall k t, tasks g !! k = Some t ->
     task_id t = Z.of_nat k /\ NoDup (dependencies t) /\
     forall d, d ∈ dependencies t -> 0 <= d < num_tasks g /\ d <> Z.of_nat k) /\
  (forall u v, edge g u v = true <->
     exists t, tasks g !! v = Some t /\ Z.of_nat u ∈ dependencies t).

(** A task as the two constructors leave it: nothing of a run recorded,
    the whole duration left, a period that is not negative and the
    priority of that period. *)
Definition described (t : Task) : Prop :=
  completed t = false /\ core_assigned t = -1 /\ start_time t = -1 /\
  finish_time t = -1 /\ remaining_time t = duration t /\ 0 <= period t /\
  priority t = rms_priority (period t).

(** The same before the priorities are assigned. *)
Definition entered (t : Task) : Prop :=
  completed t = false /\ core_assigned t = -1 /\ start_time t = -1 /\
  finish_time t = -1 /\ remaining_time t = duration t /\ 0 <= period t.

(** The task count [create_custom_dag] uses for an entered count. *)
Definition entered_count (n : Z) : Z :=
  if (n <? 1) || (n >? MAX_TASKS) then 5 else n.

(** ** Cycles *)

(** There is a path of one or more edges of the adjacency matrix from [u]
    to [w]. *)
Inductive reaches (g : DAG) : nat -> nat -> Prop :=
| reaches_arc u v : edge g u v = true -> reaches g u v
| reaches_step u v w : reaches g u v -> edge g v w = true -> reaches g u w.

Definition has_cycle_path (g : DAG) : Prop := exists u, reaches g u u.

(** The flag at position [i] of one of the two arrays of the search. *)
Definition marked (l : list bool) (i : nat) : bool :=
  from_option (fun b => b) false (l !! i).

(** Visited and not on the recursion stack: the search of [u] is over. *)
Definition black (st : DfsState) (u : nat) : Prop :=
  marked (visited st) u = true /\ marked (rec_stack st) u = false.

Definition unvisited (st : DfsState) : Z :=
  total (fun b : bool => if b then 0 else 1) (visited st).

(** The state of a search that has found no cycle: the nodes on the stack
    are visited, and every edge from a node whose search is over leads to a
    node whose search was over before. *)
Definition dfs_ok (g : DAG) (st : DfsState) : Prop :=
  length (visited st) = length (tasks g) /\
  length (rec_stack st) = length (tasks g) /\
  (forall u, marked (rec_stack st) u = true -> marked (visited st) u = true) /\
  exists rank : nat -> nat,
    forall u v, black st u -> edge g u v = true ->
      black st v /\ (rank v < rank u)%nat.

(** The edges of the matrix stay within the task array. *)
Definition arcs_bounded (g : DAG) : Prop :=
  forall u v, edge g u v = true ->
    (u < length (tasks g))%nat /\ (v < length (tasks g))%nat.

(** The body of the [for] loop of [dfs_cycle_detection] for the node [i],
    with [fuel] levels of recursion left. *)
Definition dfs_visit (fuel : nat) (g : DAG) (node : nat) (st : DfsState)
    (i : nat) : DfsState :=
  if has_cycle st then st
  else if edge g node i then
    if negb (marked (visited st) i) then dfs_cycle_detection fuel g i st
    else if marked (rec_stack st) i then mkDfs (visited st) (rec_stack st) true
    else st
  else st.

(** The body of the [for] loop of [detect_cycles]. *)
Definition dfs_start (g : DAG) (st : DfsState) (i : nat) : DfsState :=
  if negb (marked (visited st) i)
  then dfs_cycle_detection (S (length (tasks g))) g i st
  else st.

(** An idle core has no slice left. *)
Definition idle_slice_inv (s : Sim) : Prop :=
  forall i c, cores s !! i = Some c -> is_idle c = true ->
    time_slice_remaining c = 0.

(** A task that was preempted in this tick: it has one tick less left
    and is unbound, or has been started again on a core with a whole
    quantum. *)
Definition requeued (quantum : Z) (s : Sim) (k : nat) (t : Task) : Prop :=
  exists t', tasks (dag s) !! k = Some t' /\
    remaining_time t' = remaining_time t - 1 /\ completed t' = false /\
    start_time t' = start_time t /\
    (core_assigned t' = -1 \/
     exists i c, core_assigned t' = Z.of_nat i /\ cores s !! i = Some c /\
       is_idle c = false /\ current_task c = Some k /\
       time_slice_remaining c = quantum).


(** What the first pass has made of the task [t] that core [i] was
    running with [c] at the head of the iteration: completed it, taken it
    off the core, or let it run on. *)
Definition advance_outcome (time : Z) (i k : nat) (c : Core) (t : Task)
    (a : Sim) : Prop :=
  if remaining_time t =? 1 then
    tasks (dag a) !! k
    = Some (set_finish_time time (set_core_assigned (-1)
              (set_completed true (set_remaining_time 0 t))))
  else if time_slice_remaining c =? 1 then
    tasks (dag a) !! k
    = Some (set_core_assigned (-1) (set_remaining_time (remaining_time t - 1) t))
  else
    cores a !! i = Some (mkCore (core_id c) (Some k) (time_slice_remaining c - 1)
                                false (total_idle_time c)) /\
    tasks (dag a) !! k = Some (set_remaining_time (remaining_time t - 1) t).

(** The same at the end of the iteration: a task taken off the core may
    have been started again. *)
Definition tick_outcome (quantum : Z) (time : Z) (i k : nat) (c : Core)
    (t : Task) (a : Sim) : Prop :=
  if remaining_time t =? 1 then
    tasks (dag a) !! k
    = Some (set_finish_time time (set_core_assigned (-1)
              (set_completed true (set_remaining_time 0 t))))
  else if time_slice_remaining c =? 1 then requeued quantum a k t
  else
    cores a !! i = Some (mkCore (core_id c) (Some k) (time_slice_remaining c - 1)
                                false (total_idle_time c)) /\
    tasks (dag a) !! k = Some (set_remaining_time (remaining_time t - 1) t).

(** ** What a later state keeps of an earlier one *)

(** From [s] to [s']: a task that had started keeps its start time, a
    completed task is the same record, and no task has more execution left
    (for durations of at least 1). *)
Definition settled (s s' : Sim) : Prop :=
  forall k t, tasks (dag s) !! k = Some t ->
    exists t', tasks (dag s') !! k = Some t' /\
      (start_time t <> -1 -> start_time t' = start_time t) /\
      (completed t = true -> t' = t) /\
      (1 <= duration t <= INT_MAX -> remaining_time t' <= remaining_time t).

(** ** The console *)

Definition count_lines (p : Output -> bool) (out : list Output) : Z :=
  total (fun o => if p o then 1 else 0) out.

Definition is_completed_line (o : Output) : bool :=
  match o with CompletedLine _ _ _ _ _ => true | _ => false end.

Definition is_executing_line (o : Output) : bool :=
  match o with ExecutingLine _ _ _ _ => true | _ => false end.

Definition is_progress_bar (o : Output) : bool :=
  match o with ProgressBar _ _ => true | _ => false end.

(** The pacing sleep of one tick: [usleep(10000)]. *)
Definition is_tick_sleep (o : Output) : bool :=
  match o with Usleep us => us =? 10000 | _ => false end.

Definition is_trace_line (o : Output) : bool :=
  match o with TraceLine _ _ _ _ _ _ _ => true | _ => false end.

Definition is_trace (ev : Event) (o : Output) : bool :=
  match o, ev with
  | TraceLine _ _ Started _ _ _ _, Started => true
  | TraceLine _ _ Preempted _ _ _ _, Preempted => true
  | TraceLine _ _ Completed _ _ _ _, Completed => true
  | _, _ => false
  end.

(** What has been printed, against the state. *)
Definition console_inv (debug_mode : bool) (s : Sim) : Prop :=
  count_lines is_completed_line (console s) = completed_tasks s /\
  count_lines is_tick_sleep (console s) = simulation_time s /\
  count_lines is_progress_bar (console s) = simulation_time s / 20 /\
  completed_tasks s + running (cores s)
  <= count_lines is_executing_line (console s) /\
  if debug_mode then
    count_lines (is_trace Started) (console s)
    = count_lines is_executing_line (console s) /\
    count_lines (is_trace Completed) (console s) = completed_tasks s /\
    count_lines is_executing_line (console s)
    = completed_tasks s + running (cores s)
      + count_lines (is_trace Preempted) (console s)
  else count_lines is_trace_line (console s) = 0.

(** ** The comparison run of the menu *)

(** What [run_performance_comparison] does with the global [current_dag]:
    the graph it leaves there, what was printed while a missing graph was
    created, the two counts of the header, and the run. *)
Record Comparison := mkComparison {
  created : bool;
  creation_output : list Output;
  reported_tasks : Z;
  reported_cores : Z;
  comparison_run : option (Sim * Exit);
  current_dag : option DAG
}.

Definition run_performance_comparison (quantum : Z) (debug_mode : bool)
    (current : option DAG) (num_cores : Z) : Comparison :=
  let '(g, was_missing, out) :=
    match current with
    | Some g => (g, false, [])
    | None => let '(g, out) := create_sample_dag debug_mode in (g, true, out)
    end in
  let r := simulate_hybrid_scheduler quantum debug_mode g num_cores in
  mkComparison was_missing out (num_tasks g) num_cores r
    (Some (from_option (fun x => dag x.1) g r)).

(** Menu entry 4 of [main]: the core count and the quantum that were read
    are checked, then the comparison is run. *)
Definition menu_run_comparison (entered_cores entered_quantum : Z)
    (debug_mode : bool) (current : option DAG) : Comparison :=
  run_performance_comparison (checked_quantum entered_quantum) debug_mode
    current (checked_num_cores entered_cores).

(** ** Dependency chains *)

(** [chain g l]: every task of the list depends on the one before it. *)
Fixpoint chain (g : DAG) (l : list nat) : Prop :=
  match l with
  | [] => True
  | [k] => True
  | k1 :: ((k2 :: _) as rest) =>
      (exists t2, tasks g !! k2 = Some t2 /\ Z.of_nat k1 ∈ dependencies t2) /\
      chain g rest
  end.

(** The durations of the tasks of a list, added up. *)
Definition chain_duration (g : DAG) (l : list nat) : Z :=
  total (fun k => from_option duration 0 (tasks g !! k)) l.

(** * Properties *)

(** ** Readiness and selection *)

Lemma task_completed_spec dag d :
  task_completed dag d = true <->
  exists td, get_task dag d = Some td /\ completed td = true.
Proof.
  unfold task_completed. destruct (get_task dag d) as [td|].
  - split; [eauto | intros (? & [= <-] & ?); done].
  - split; [done | intros (? & ? & ?); done].
Qed.

Lemma is_task_ready_spec dag i : is_task_ready dag i = true <-> ready dag i.
Proof.
  unfold is_task_ready, ready. destruct (tasks dag !! i) as [t|] eqn:Ht.
  - destruct (completed t) eqn:Hc.
    + split; [done | intros (? & [= <-] & ? & _); congruence].
    + rewrite forallb_forall. split.
      * intros H. exists t. repeat split; try done.
        intros d Hd. apply task_completed_spec, H, list_elem_of_In, Hd.
      * intros (t' & [= <-] & _ & H) d Hd.
        apply task_completed_spec, H, list_elem_of_In, Hd.
  - split; [done | intros (? & ? & _); done].
Qed.

Lemma candidate_dec dag i t :
  tasks dag !! i = Some t ->
  is_task_ready dag i && (core_assigned t =? -1) = true <-> candidate dag i t.
Proof.
  intros Ht. unfold candidate. rewrite andb_true_iff, is_task_ready_spec, Z.eqb_eq.
  tauto.
Qed.

Lemma candidate_inj dag i t t' : candidate dag i t -> candidate dag i t' -> t = t'.
Proof. intros (H & _) (H' & _). congruence. Qed.

Lemma get_task_of_nat dag r : get_task dag (Z.of_nat r) = tasks dag !! r.
Proof.
  unfold get_task. destruct (Z.ltb_spec (Z.of_nat r) 0); [lia|].
  by rewrite Nat2Z.id.
Qed.

Lemma find_step_scanned dag m acc :
  (m < length (tasks dag))%nat ->
  scanned dag m acc -> scanned dag (S m) (find_step dag acc m).
Proof.
  intros Hm Hacc. destruct (lookup_lt_is_Some_2 _ _ Hm) as [t Ht].
  unfold find_step. destruct acc as [h sel]. rewrite Ht.
  destruct (is_task_ready dag m && (core_assigned t =? -1)) eqn:Hc.
  - apply (candidate_dec _ _ _ Ht) in Hc.
    destruct Hacc as [[[= -> ->] Hnone] | (r & tr & [= -> ->] & Hr & Hcr & Hbest & Hfirst)].
    + simpl. right. exists m, t. split_and!; try done; try lia.
      * intros j tj Hj Hcj [Hp|[Hp Hq]].
        -- assert (j = m) as -> by (destruct (decide (j = m)); [done|];
             exfalso; apply (Hnone j tj); [lia|done]).
           rewrite (candidate_inj _ _ _ _ Hcj Hc) in Hp. lia.
        -- assert (j = m) as -> by (destruct (decide (j = m)); [done|];
             exfalso; apply (Hnone j tj); [lia|done]).
           rewrite (candidate_inj _ _ _ _ Hcj Hc) in Hq. lia.
      * intros j tj Hj Hcj. exfalso. apply (Hnone j tj); [lia|done].
    + destruct (Z.eqb_spec (Z.of_nat r) (-1)); [lia|]. simpl.
      rewrite get_task_of_nat. destruct Hcr as (Htr & Hrr & Har).
      rewrite Htr. simpl.
      destruct (Z.gtb_spec (priority t) (priority tr)) as [Hgt|Hle].
      { right. exists m, t. split_and!; try done; try lia.
        - intros j tj Hj Hcj Hpref. destruct (decide (j = m)) as [->|].
          + rewrite (candidate_inj _ _ _ _ Hcj Hc) in Hpref.
            unfold preferred in *. lia.
          + assert (~ preferred tj tr) by (apply (Hbest j); [lia|done]).
            unfold preferred in *. lia.
        - intros j tj Hj Hcj.
          assert (~ preferred tj tr) by (apply (Hbest j); [lia|done]).
          unfold preferred in *. lia. }
      destruct (Z.eqb_spec (priority t) (priority tr)) as [Heq|Hne]; simpl.
      * destruct (Z.ltb_spec (period t) (period tr)) as [Hlt|Hge].
        { right. exists m, t. rewrite Heq. split_and!; try done; try lia.
          - intros j tj Hj Hcj Hpref. destruct (decide (j = m)) as [->|].
            + rewrite (candidate_inj _ _ _ _ Hcj Hc) in Hpref.
              unfold preferred in *. lia.
            + assert (~ preferred tj tr) by (apply (Hbest j); [lia|done]).
              unfold preferred in *. lia.
          - intros j tj Hj Hcj.
            assert (~ preferred tj tr) by (apply (Hbest j); [lia|done]).
            unfold preferred in *. lia. }
        right. exists r, tr. split_and!; try done; try lia.
        intros j tj Hj Hcj Hpref. destruct (decide (j = m)) as [->|].
        -- rewrite (candidate_inj _ _ _ _ Hcj Hc) in Hpref.
           unfold preferred in *. lia.
        -- apply (Hbest j tj); [lia|done|done].
      * right. exists r, tr. split_and!; try done; try lia.
        intros j tj Hj Hcj Hpref. destruct (decide (j = m)) as [->|].
        -- rewrite (candidate_inj _ _ _ _ Hcj Hc) in Hpref.
           unfold preferred in *. lia.
        -- apply (Hbest j tj); [lia|done|done].
  - assert (forall tj, ~ candidate dag m tj) as Hnc.
    { intros tj Hcj. assert (tj = t) as -> by (destruct Hcj; congruence).
      apply (candidate_dec _ _ _ Ht) in Hcj. congruence. }
    destruct Hacc as [[-> Hnone] | (r & tr & -> & Hr & Hcr & Hbest & Hfirst)].
    + left. split; [done|]. intros j tj Hj Hcj.
      destruct (decide (j = m)) as [->|]; [by apply (Hnc tj)|].
      apply (Hnone j tj); [lia|done].
    + right. exists r, tr. split_and!; try done; try lia.
      intros j tj Hj Hcj. destruct (decide (j = m)) as [->|]; [by destruct (Hnc tj)|].
      apply (Hbest j tj); [lia|done].
Qed.

Lemma find_scanned dag m :
  (m <= length (tasks dag))%nat ->
  scanned dag m (fold_left (find_step dag) (seq 0 m) (-1, -1)).
Proof.
  induction m as [|m IH]; intros Hm.
  - left. split; [done|]. intros; lia.
  - rewrite seq_S, fold_left_app. simpl. apply find_step_scanned; [lia|].
    apply IH. lia.
Qed.

(** The result of the selection, as two cases. *)
Lemma find_highest_priority_ready_task_cases dag :
  (find_highest_priority_ready_task dag = -1 /\
   forall j tj, ~ candidate dag j tj)
  \/ (exists r tr, find_highest_priority_ready_task dag = Z.of_nat r /\
        candidate dag r tr /\
        (forall j tj, candidate dag j tj -> ~ preferred tj tr) /\
        (forall j tj, (j < r)%nat -> candidate dag j tj -> preferred tr tj)).
Proof.
  unfold find_highest_priority_ready_task.
  destruct (find_scanned dag (length (tasks dag)) (le_n _))
    as [[-> Hnone] | (r & tr & -> & Hr & Hcr & Hbest & Hfirst)].
  - left. split; [done|]. intros j tj Hcj. apply (Hnone j tj); [|done].
    destruct Hcj as (H & _). by apply lookup_lt_Some in H.
  - right. exists r, tr. split_and!; try done.
    intros j tj Hcj. apply (Hbest j tj); [|done].
    destruct Hcj as (H & _). by apply lookup_lt_Some in H.
Qed.

(** C2. [find_highest_priority_ready_task] returns -1 when no task is
    ready and unassigned; otherwise it returns a ready, unassigned task
    such that every other ready, unassigned task has a lower priority, or
    the same priority and a period at least as large. Readiness is decided
    by [is_task_ready] exactly as stated: the task is not completed and
    every id of its dependency set designates a completed task. *)
Theorem find_highest_priority_ready_task_correct (dag : DAG) :
  (forall i, is_task_ready dag i = true <-> ready dag i) /\
  ((forall j tj, ~ candidate dag j tj) ->
     find_highest_priority_ready_task dag = -1) /\
  (forall j tj, candidate dag j tj ->
     exists r tr, find_highest_priority_ready_task dag = Z.of_nat r /\
       candidate dag r tr /\
       forall j' tj', candidate dag j' tj' ->
         priority tj' < priority tr \/
         (priority tj' = priority tr /\ period tr <= period tj')).
Proof.
  split; [apply is_task_ready_spec|]. split.
  - intros Hnone.
    destruct (find_highest_priority_ready_task_cases dag)
      as [[H _] | (r & tr & _ & Hc & _)]; [done|].
    destruct (Hnone r tr Hc).
  - intros j tj Hc.
    destruct (find_highest_priority_ready_task_cases dag)
      as [[_ Hnone] | (r & tr & Hr & Hcr & Hbest & _)].
    + destruct (Hnone j tj Hc).
    + exists r, tr. split_and!; try done.
      intros j' tj' Hc'. specialize (Hbest j' tj' Hc').
      unfold preferred in Hbest. lia.
Qed.

Lemma find_highest_priority_ready_task_correct_witness :
  find_highest_priority_ready_task (two_cycle 3 100 2 100) = -1 /\
  exists r tr, find_highest_priority_ready_task (three_tasks 100) = Z.of_nat r /\
    candidate (three_tasks 100) r tr /\
    forall j' tj', candidate (three_tasks 100) j' tj' ->
      priority tj' < priority tr \/
      (priority tj' = priority tr /\ period tr <= period tj').
Proof.
  split.
  - apply (proj1 (proj2 (find_highest_priority_ready_task_correct
                           (two_cycle 3 100 2 100)))).
    intros j tj (_ & Hr & _). apply is_task_ready_spec in Hr.
    destruct j as [|[|j]]; vm_compute in Hr; discriminate.
  - apply (proj2 (proj2 (find_highest_priority_ready_task_correct (three_tasks 100)))
             0%nat (mkTask 0 4 100 10 [] false 4 (-1) (-1) (-1))).
    split; [reflexivity|].
    split; [apply is_task_ready_spec; reflexivity | reflexivity].
Defined.

(** Selection on a full tie. *)

Lemma find_first_of_ties dag r tr j tj :
  find_highest_priority_ready_task dag = Z.of_nat r ->
  tasks dag !! r = Some tr ->
  candidate dag j tj ->
  priority tj = priority tr -> period tj = period tr -> (r <= j)%nat.
Proof.
  intros Hr Htr Hc Hp Hq.
  destruct (find_highest_priority_ready_task_cases dag)
    as [[H _] | (r' & tr' & Hr' & Hcr & _ & Hfirst)]; [lia|].
  assert (r' = r) as -> by lia.
  assert (tr' = tr) as -> by (destruct Hcr; congruence).
  destruct (Nat.le_gt_cases r j) as [|Hlt]; [done|].
  specialize (Hfirst j tj Hlt Hc). unfold preferred in Hfirst. lia.
Qed.

(** A candidate that no candidate is preferred to, and that precedes every
    candidate tied with it, is the one selected. *)
Lemma find_unique dag k t :
  candidate dag k t ->
  (forall j tj, candidate dag j tj -> ~ preferred tj t) ->
  (forall j tj, candidate dag j tj ->
     priority tj = priority t -> period tj = period t -> (k <= j)%nat) ->
  find_highest_priority_ready_task dag = Z.of_nat k.
Proof.
  intros Hc Hbest Hfirst.
  destruct (find_highest_priority_ready_task_cases dag)
    as [[_ Hnone] | (r & tr & Hr & Hcr & Hbest' & Hfirst')].
  { destruct (Hnone k t Hc). }
  rewrite Hr. f_equal.
  specialize (Hbest r tr Hcr). specialize (Hbest' k t Hc).
  assert (priority tr = priority t /\ period tr = period t) as [Hp Hq]
    by (unfold preferred in *; lia).
  specialize (Hfirst r tr Hcr Hp Hq).
  destruct (Nat.le_gt_cases r k) as [|Hlt]; [lia|].
  specialize (Hfirst' k t Hlt Hc). unfold preferred in Hfirst'. lia.
Qed.

(** ** The per-core steps, branch by branch *)

Section Steps.

Variable debug_mode : bool.
Variables (s : Sim) (i k : nat) (c : Core) (t : Task).
Hypothesis Hcore : cores s !! i = Some c.
Hypothesis Hbusy : is_idle c = false.
Hypothesis Hcur : current_task c = Some k.
Hypothesis Htask : tasks (dag s) !! k = Some t.

Lemma check_completed_completes :
  int_sub (remaining_time t) 1 <= 0 ->
  let t2 := set_finish_time (simulation_time s)
              (set_core_assigned (-1) (set_completed true (set_remaining_time (int_sub (remaining_time t) 1) t))) in
  check_completed debug_mode s i =
    mkSim (set_tasks (<[k := t2]> (tasks (dag s))) (dag s))
          (<[i := mkCore (core_id c) None 0 true (total_idle_time c)]> (cores s))
          (simulation_time s)
          (int_add (completed_tasks s) 1)
          (console s
             ++ print_execution_trace debug_mode (simulation_time s)
                  (Z.of_nat i) t2 Completed
             ++ [CompletedLine (task_id t) (Z.of_nat i) (duration t)
                   (period t) (priority t)]).
Proof.
  intros Hdone. unfold check_completed. rewrite Hcore, Hbusy, Hcur, Htask.
  cbn [remaining_time set_remaining_time].
  destruct (Z.leb_spec (int_sub (remaining_time t) 1) 0); [|lia].
  reflexivity.
Qed.

Lemma check_completed_preempts :
  0 < int_sub (remaining_time t) 1 ->
  int_sub (time_slice_remaining c) 1 <= 0 ->
  check_completed debug_mode s i =
    mkSim (set_tasks (<[k := set_core_assigned (-1) (set_remaining_time (int_sub (remaining_time t) 1) t)]> (tasks (dag s))) (dag s))
          (<[i := mkCore (core_id c) None (int_sub (time_slice_remaining c) 1)
                    true (total_idle_time c)]> (cores s))
          (simulation_time s)
          (completed_tasks s)
          (console s
             ++ print_execution_trace debug_mode (simulation_time s)
                  (Z.of_nat i) (set_remaining_time (int_sub (remaining_time t) 1) t) Preempted).
Proof.
  intros Hleft Hslice. unfold check_completed.
  rewrite Hcore, Hbusy, Hcur, Htask.
  cbn [remaining_time set_remaining_time time_slice_remaining].
  destruct (Z.leb_spec (int_sub (remaining_time t) 1) 0); [lia|].
  destruct (Z.leb_spec (int_sub (time_slice_remaining c) 1) 0); [|lia].
  reflexivity.
Qed.

Lemma check_completed_continues :
  0 < int_sub (remaining_time t) 1 ->
  0 < int_sub (time_slice_remaining c) 1 ->
  check_completed debug_mode s i =
    mkSim (set_tasks (<[k := (set_remaining_time (int_sub (remaining_time t) 1) t)]> (tasks (dag s))) (dag s))
          (<[i := mkCore (core_id c) (Some k) (int_sub (time_slice_remaining c) 1)
                    false (total_idle_time c)]> (cores s))
          (simulation_time s)
          (completed_tasks s)
          (console s).
Proof.
  intros Hleft Hslice. unfold check_completed.
  rewrite Hcore, Hbusy, Hcur, Htask.
  cbn [remaining_time set_remaining_time time_slice_remaining].
  destruct (Z.leb_spec (int_sub (remaining_time t) 1) 0); [lia|].
  destruct (Z.leb_spec (int_sub (time_slice_remaining c) 1) 0); [lia|].
  reflexivity.
Qed.

End Steps.

(** C3. In the advance step of a running core, a task whose remaining
    time reaches 0 is marked completed (flag set, finish time recorded,
    unbound from the core, completed count incremented, a "Completed"
    line printed and nothing else), whatever the value of the quantum
    counter: also when the counter reaches 0 on the same tick. *)
Theorem completion_checked_before_quantum_expiry
    (debug_mode : bool) (s : Sim) (i k : nat) (c : Core) (t : Task) :
  cores s !! i = Some c ->
  is_idle c = false ->
  current_task c = Some k ->
  tasks (dag s) !! k = Some t ->
  int_sub (remaining_time t) 1 <= 0 ->
  let s' := check_completed debug_mode s i in
  exists t' c',
    tasks (dag s') !! k = Some t' /\
    completed t' = true /\
    finish_time t' = simulation_time s /\
    core_assigned t' = -1 /\
    remaining_time t' = int_sub (remaining_time t) 1 /\
    cores s' !! i = Some c' /\
    is_idle c' = true /\ current_task c' = None /\
    time_slice_remaining c' = 0 /\
    completed_tasks s' = int_add (completed_tasks s) 1 /\
    console s' =
      console s
        ++ print_execution_trace debug_mode (simulation_time s) (Z.of_nat i) t' Completed
        ++ [CompletedLine (task_id t) (Z.of_nat i) (duration t) (period t) (priority t)].
Proof.
  intros Hcore Hbusy Hcur Htask Hdone s'. subst s'.
  rewrite (check_completed_completes debug_mode s i k c t Hcore Hbusy Hcur Htask Hdone).
  cbn [dag cores tasks set_tasks completed_tasks console].
  eexists _, (mkCore (core_id c) None 0 true (total_idle_time c)). split.
  { apply list_lookup_insert_eq. by apply lookup_lt_Some in Htask. }
  split_and!; try reflexivity.
  apply list_lookup_insert_eq. by apply lookup_lt_Some in Hcore.
Qed.


Lemma completion_checked_before_quantum_expiry_witness :
  (exists c t, cores s6 !! 0%nat = Some c /\ tasks (dag s6) !! 1%nat = Some t /\
     int_sub (remaining_time t) 1 = 0 /\ int_sub (time_slice_remaining c) 1 = 0) /\
  exists t' c',
    tasks (dag (check_completed true s6 0)) !! 1%nat = Some t' /\
    completed t' = true /\ finish_time t' = 6 /\ core_assigned t' = -1 /\
    remaining_time t' = 0 /\
    cores (check_completed true s6 0) !! 0%nat = Some c' /\
    is_idle c' = true /\ current_task c' = None /\
    time_slice_remaining c' = 0 /\
    completed_tasks (check_completed true s6 0) = 2 /\
    console (check_completed true s6 0) =
      console s6 ++ [TraceLine 6 0 Completed 1 100 10 0; CompletedLine 1 0 2 100 10].
Proof.
  split.
  - eexists _, _. split_and!; [vm_compute; reflexivity ..].
  - destruct (completion_checked_before_quantum_expiry true s6 0 1
                (mkCore 0 (Some 1%nat) 1 false 0)
                (mkTask 1 2 100 10 [] false 1 0 4 (-1))
                ltac:(vm_compute; reflexivity) eq_refl eq_refl ltac:(vm_compute; reflexivity)
                ltac:(vm_compute; discriminate))
      as (t' & c' & Ht' & Hdone & Hfin & Hcore & Hrem & Hc' & Hidle & Hcur
          & Hslice & Hcount & Hout).
    exists t', c'.
    vm_compute in Ht'. injection Ht' as <-.
    (split; [vm_compute; reflexivity|]).
    (split; [exact Hdone|]).
    (split; [rewrite Hfin; vm_compute; reflexivity|]).
    (split; [exact Hcore|]).
    (split; [rewrite Hrem; vm_compute; reflexivity|]).
    (split; [exact Hc'|]).
    (split; [exact Hidle|]).
    (split; [exact Hcur|]).
    (split; [exact Hslice|]).
    (split; [rewrite Hcount; vm_compute; reflexivity|]).
    (rewrite Hout; vm_compute; reflexivity).
Defined.

(** Readiness under an update of one task *)

Lemma ready_after_update dag k t t' i :
  tasks dag !! k = Some t ->
  dependencies t' = dependencies t ->
  (completed t = true -> completed t' = true) ->
  i <> k ->
  ready dag i -> ready (set_tasks (<[k := t']> (tasks dag)) dag) i.
Proof.
  intros Hk Hdeps Hmono Hik (ti & Hi & Hci & Hd).
  exists ti. cbn [tasks set_tasks]. split_and!; try done.
  - rewrite list_lookup_insert_ne; done.
  - intros d Hin. destruct (Hd d Hin) as (td & Htd & Hctd).
    revert Htd. unfold get_task. cbn [tasks set_tasks].
    destruct (d <? 0); [done|]. intros Htd.
    destruct (decide (Z.to_nat d = k)) as [Heq|Hne].
    + subst k. exists t'. rewrite list_lookup_insert_eq by (by apply lookup_lt_Some in Hk).
      split; [done|]. apply Hmono. congruence.
    + exists td. by rewrite list_lookup_insert_ne.
Qed.

Lemma ready_update_self dag k t t' :
  tasks dag !! k = Some t ->
  dependencies t' = dependencies t ->
  completed t' = false ->
  ready dag k -> ready (set_tasks (<[k := t']> (tasks dag)) dag) k.
Proof.
  intros Hk Hdeps Hc' (tk & Hk' & Hck & Hd).
  assert (tk = t) as -> by congruence.
  exists t'. cbn [tasks set_tasks].
  rewrite list_lookup_insert_eq by (by apply lookup_lt_Some in Hk).
  split_and!; try done.
  intros d Hin. rewrite Hdeps in Hin. destruct (Hd d Hin) as (td & Htd & Hctd).
  revert Htd. unfold get_task. cbn [tasks set_tasks].
  destruct (d <? 0); [done|]. intros Htd.
  destruct (decide (Z.to_nat d = k)) as [Heq|Hne]; [subst k; congruence|].
  exists td. by rewrite list_lookup_insert_ne.
Qed.

(** ** Priorities *)

Lemma rms_priority_bounds p : 1 <= rms_priority p <= 10.
Proof.
  unfold rms_priority. destruct (p =? 0); [lia|].
  set (x := int_sub 10 (int_div (int_mul p 9) 1000)).
  destruct (Z.ltb_spec x 1).
  - destruct (Z.gtb_spec 1 10); lia.
  - destruct (Z.gtb_spec x 10); lia.
Qed.

Lemma rms_priority_aperiodic : rms_priority 0 = 1.
Proof. reflexivity. Qed.

Lemma wrap_id z : in_int z -> wrap z = z.
Proof.
  unfold in_int, INT_MIN, INT_MAX, wrap. intros H.
  rewrite Z.mod_small; lia.
Qed.

Lemma rms_priority_exact p :
  0 < p <= MAX_EXACT_PERIOD ->
  rms_priority p = Z.max 1 (10 - p * 9 / 1000).
Proof.
  unfold MAX_EXACT_PERIOD. intros Hp. unfold rms_priority.
  destruct (Z.eqb_spec p 0); [lia|].
  unfold int_sub, int_div, int_mul.
  rewrite (wrap_id (p * 9)) by (unfold in_int, INT_MIN, INT_MAX; lia).
  rewrite Z.quot_div_nonneg by lia.
  assert (0 <= p * 9 / 1000 <= 2147483646 / 1000) as Hq.
  { split; [apply Z.div_pos; lia | apply Z.div_le_mono; lia]. }
  change (2147483646 / 1000) with 2147483 in Hq.
  rewrite (wrap_id (p * 9 / 1000)) by (unfold in_int, INT_MIN, INT_MAX; lia).
  rewrite wrap_id by (unfold in_int, INT_MIN, INT_MAX; lia).
  destruct (Z.ltb_spec (10 - p * 9 / 1000) 1).
  - destruct (Z.gtb_spec 1 10); lia.
  - destruct (Z.gtb_spec (10 - p * 9 / 1000) 10); lia.
Qed.

(** Where the product does not overflow the assignment is monotonic. *)
Lemma rms_priority_monotonic p1 p2 :
  0 < p1 -> p1 < p2 -> p2 <= MAX_EXACT_PERIOD ->
  rms_priority p2 <= rms_priority p1.
Proof.
  intros H1 H12 H2. rewrite !rms_priority_exact by lia.
  assert (p1 * 9 / 1000 <= p2 * 9 / 1000) by (apply Z.div_le_mono; lia).
  lia.
Qed.

Lemma apply_rate_monotonic_scheduling_priority dag i t :
  tasks (apply_rate_monotonic_scheduling dag) !! i = Some t ->
  priority t = rms_priority (period t).
Proof.
  unfold apply_rate_monotonic_scheduling. cbn [tasks set_tasks].
  rewrite list_lookup_fmap. destruct (tasks dag !! i); [|done].
  intros [= <-]. reflexivity.
Qed.

(** C4 (evaluation at the failing input). For the periods 1000 and
    238609295 the product [period * 9] of the second exceeds [INT_MAX];
    the wrapped value is negative and the priority stored is 10, above
    the priority 1 stored for the shorter period 1000. *)
Theorem rms_priority_overflow_not_monotonic :
  1000 < 238609295 /\
  int_mul 238609295 9 = -2147483641 /\
  rms_priority 1000 = 1 /\ rms_priority 238609295 = 10.
Proof. split_and!; [lia | reflexivity ..]. Qed.

(** C10. The priority assignment gives an aperiodic task (period 0) the
    priority 1. Wherever priorities are those of the assignment, an
    aperiodic task that is ready and unassigned keeps every ready,
    unassigned task of the same priority 1 and of positive period from
    being selected: the selection returns neither "none" nor such a
    task. *)
Theorem aperiodic_wins_lowest_bucket :
  (forall dag i t,
     tasks (apply_rate_monotonic_scheduling dag) !! i = Some t ->
     priority t = rms_priority (period t) /\ (period t = 0 -> priority t = 1)) /\
  (forall dag a b ta tb,
     candidate dag a ta -> period ta = 0 ->
     priority ta = rms_priority (period ta) ->
     candidate dag b tb -> 0 < period tb -> priority tb = priority ta ->
     priority tb = 1 /\
     find_highest_priority_ready_task dag <> -1 /\
     find_highest_priority_ready_task dag <> Z.of_nat b).
Proof.
  split.
  - intros dag i t Ht.
    pose proof (apply_rate_monotonic_scheduling_priority dag i t Ht) as Hp.
    split; [done|]. intros Hz. by rewrite Hp, Hz.
  - intros dag a b ta tb Ha Hpa Hprio Hb Hpb Hsame.
    rewrite Hpa in Hprio. change (rms_priority 0) with 1 in Hprio.
    split; [lia|].
    destruct (find_highest_priority_ready_task_cases dag)
      as [[_ Hnone] | (r & tr & Hr & Hcr & Hbest & _)].
    { destruct (Hnone a ta Ha). }
    rewrite Hr. split; [lia|].
    intros Heq. apply Nat2Z.inj in Heq. subst r.
    assert (tr = tb) as -> by (destruct Hcr, Hb; congruence).
    apply (Hbest a ta Ha). right. lia.
Qed.

Lemma aperiodic_wins_lowest_bucket_witness :
  find_highest_priority_ready_task mixed_pair <> -1 /\
  find_highest_priority_ready_task mixed_pair <> 0.
Proof.
  refine (proj2 (proj2 aperiodic_wins_lowest_bucket mixed_pair 1%nat 0%nat
            (mkTask 1 5 0 1 [] false 5 (-1) (-1) (-1))
            (mkTask 0 5 1000 1 [] false 5 (-1) (-1) (-1)) _ eq_refl eq_refl _ _ eq_refl)).
  - split_and!; [reflexivity | apply is_task_ready_spec; reflexivity | reflexivity].
  - split_and!; [reflexivity | apply is_task_ready_spec; reflexivity | reflexivity].
  - reflexivity.
Defined.

(** ** Dependency declarations *)

Lemma valid_id_test dag i :
  valid_id dag i -> (i <? 0) || (i >=? num_tasks dag) = false.
Proof.
  unfold valid_id. intros H.
  destruct (Z.ltb_spec i 0); [lia|]. destruct (Z.geb_spec i (num_tasks dag)); [lia|done].
Qed.

Lemma invalid_id_test dag i :
  ~ valid_id dag i -> (i <? 0) || (i >=? num_tasks dag) = true.
Proof.
  unfold valid_id. intros H.
  destruct (Z.ltb_spec i 0); [done|]. destruct (Z.geb_spec i (num_tasks dag)); [done|lia].
Qed.

Lemma has_dependency_spec dag task depends_on :
  has_dependency dag task depends_on = true <->
  exists t, get_task dag task = Some t /\ depends_on ∈ dependencies t.
Proof.
  unfold has_dependency. destruct (get_task dag task) as [t|].
  - rewrite existsb_exists. split.
    + intros (x & Hin & Heq). apply Z.eqb_eq in Heq. subst x.
      exists t. split; [done|]. by apply list_elem_of_In.
    + intros (t' & [= <-] & Hin). exists depends_on.
      split; [by apply list_elem_of_In | apply Z.eqb_refl].
  - split; [done | intros (? & ? & _); done].
Qed.

(** C8. In the dependency loop of [create_custom_dag] a declaration with
    an out-of-range task id (other than the terminator -1), with an
    out-of-range depends-on id, with both ids equal, or repeating an edge
    already present is reported and leaves the graph as it was: the loop
    goes on with the rest of the input from the same graph. A later valid
    declaration is then applied: it is the next step of the same loop, and
    it appends the id to the dependency list of the task. *)
Theorem read_dependencies_rejects (dag : DAG) (task depends_on : Z) (rest : list Z) :
  (task <> -1 -> ~ valid_id dag task ->
     read_dependencies dag (task :: rest)
     = report InvalidTaskIdLine (read_dependencies dag rest)) /\
  (valid_id dag task -> ~ valid_id dag depends_on ->
     read_dependencies dag (task :: depends_on :: rest)
     = report InvalidDependencyLine (read_dependencies dag rest)) /\
  (valid_id dag task -> task = depends_on ->
     read_dependencies dag (task :: depends_on :: rest)
     = report SelfDependencyLine (read_dependencies dag rest)) /\
  (valid_id dag task -> valid_id dag depends_on -> task <> depends_on ->
     (exists t, get_task dag task = Some t /\ depends_on ∈ dependencies t) ->
     read_dependencies dag (task :: depends_on :: rest)
     = report DuplicateLine (read_dependencies dag rest)) /\
  (valid_id dag task -> valid_id dag depends_on -> task <> depends_on ->
     ~ (exists t, get_task dag task = Some t /\ depends_on ∈ dependencies t) ->
     read_dependencies dag (task :: depends_on :: rest)
     = report (AddedLine task depends_on)
         (read_dependencies (add_dependency dag task depends_on) rest)
     /\ has_dependency (add_dependency dag task depends_on) task depends_on = true).
Proof.
  split_and!.
  - intros Hterm Hbad. cbn [read_dependencies].
    destruct (Z.eqb_spec task (-1)); [done|].
    by rewrite (invalid_id_test _ _ Hbad).
  - intros Htask Hbad. cbn [read_dependencies].
    destruct (Z.eqb_spec task (-1)); [unfold valid_id in Htask; lia|].
    by rewrite (valid_id_test _ _ Htask), (invalid_id_test _ _ Hbad).
  - intros Htask <-. cbn [read_dependencies].
    destruct (Z.eqb_spec task (-1)); [unfold valid_id in Htask; lia|].
    by rewrite (valid_id_test _ _ Htask), Z.eqb_refl.
  - intros Htask Hdep Hne Hdup. cbn [read_dependencies].
    destruct (Z.eqb_spec task (-1)); [unfold valid_id in Htask; lia|].
    rewrite (valid_id_test _ _ Htask), (valid_id_test _ _ Hdep).
    destruct (Z.eqb_spec task depends_on); [done|].
    apply has_dependency_spec in Hdup. by rewrite Hdup.
  - intros Htask Hdep Hne Hnew. split.
    + cbn [read_dependencies].
      destruct (Z.eqb_spec task (-1)); [unfold valid_id in Htask; lia|].
      rewrite (valid_id_test _ _ Htask), (valid_id_test _ _ Hdep).
      destruct (Z.eqb_spec task depends_on); [done|].
      destruct (has_dependency dag task depends_on) eqn:Hdup; [|done].
      apply has_dependency_spec in Hdup. done.
    + apply has_dependency_spec. unfold get_task, add_dependency.
      cbn [tasks set_tasks set_adjacency_matrix].
      destruct (Z.ltb_spec task 0); [unfold valid_id in Htask; lia|].
      assert (Z.to_nat task < length (tasks dag))%nat as Hlt
        by (unfold valid_id, num_tasks in Htask; lia).
      destruct (lookup_lt_is_Some_2 _ _ Hlt) as [t Ht].
      exists (set_dependencies (dependencies t ++ [depends_on]) t). split.
      * by rewrite list_lookup_alter_eq, Ht.
      * cbn. apply elem_of_app. right. apply list_elem_of_singleton. done.
Qed.

Lemma read_dependencies_rejects_witness :
  read_dependencies pair_dag [7; 0; 1; -1]
    = report InvalidTaskIdLine (read_dependencies pair_dag [0; 1; -1]) /\
  read_dependencies pair_dag [0; 5; 0; 1; -1]
    = report InvalidDependencyLine (read_dependencies pair_dag [0; 1; -1]) /\
  read_dependencies pair_dag [0; 0; 0; 1; -1]
    = report SelfDependencyLine (read_dependencies pair_dag [0; 1; -1]) /\
  read_dependencies pair_dag_01 [0; 1; 1; 0; -1]
    = report DuplicateLine (read_dependencies pair_dag_01 [1; 0; -1]) /\
  read_dependencies pair_dag [0; 1; -1]
    = report (AddedLine 0 1) (read_dependencies (add_dependency pair_dag 0 1) [-1]) /\
  fmap (fun r => map dependencies (tasks r.1))
       (read_dependencies pair_dag [7; 0; 5; 0; 0; 0; 1; 0; 1; 1; 0; -1])
    = Some [[1]; [0]].
Proof.
  assert (num_tasks pair_dag = 2) as Hn by reflexivity.
  assert (num_tasks pair_dag_01 = 2) as Hn' by reflexivity.
  split_and!.
  - apply (proj1 (read_dependencies_rejects pair_dag 7 0 [0; 1; -1]));
      unfold valid_id; lia.
  - apply (proj1 (proj2 (read_dependencies_rejects pair_dag 0 5 [0; 1; -1])));
      unfold valid_id; lia.
  - apply (proj1 (proj2 (proj2 (read_dependencies_rejects pair_dag 0 0 [0; 1; -1]))));
      unfold valid_id; lia.
  - apply (proj1 (proj2 (proj2 (proj2
             (read_dependencies_rejects pair_dag_01 0 1 [1; 0; -1])))));
      [unfold valid_id; lia | unfold valid_id; lia | lia |].
    apply has_dependency_spec. reflexivity.
  - apply (proj2 (proj2 (proj2 (proj2
             (read_dependencies_rejects pair_dag 0 1 [-1])))));
      [unfold valid_id; lia | unfold valid_id; lia | lia |].
    intros H. apply has_dependency_spec in H. discriminate H.
  - reflexivity.
Defined.

(** ** The loop: clock and termination *)

Lemma fold_left_invariant {A B} (P : A -> Prop) (f : A -> B -> A) (l : list B) (a : A) :
  (forall a b, P a -> P (f a b)) -> P a -> P (fold_left f l a).
Proof.
  intros Hstep. revert a. induction l as [|b l IH]; intros a Ha; [done|].
  simpl. apply IH, Hstep, Ha.
Qed.

Lemma fold_left_related {A1 A2 B} (R : A1 -> A2 -> Prop)
    (f1 : A1 -> B -> A1) (f2 : A2 -> B -> A2) (l : list B) (a1 : A1) (a2 : A2) :
  (forall a1 a2 b, R a1 a2 -> R (f1 a1 b) (f2 a2 b)) ->
  R a1 a2 -> R (fold_left f1 l a1) (fold_left f2 l a2).
Proof.
  intros Hstep. revert a1 a2. induction l as [|b l IH]; intros a1 a2 Ha; [done|].
  simpl. apply IH, Hstep, Ha.
Qed.

Section Clock.

Variables (quantum : Z) (debug_mode : bool) (num_cores tick_delay : Z).

Lemma check_completed_time s i :
  simulation_time (check_completed debug_mode s i) = simulation_time s.
Proof. unfold check_completed. repeat case_match; reflexivity. Qed.

Lemma assign_idle_time s i :
  simulation_time (assign_idle quantum debug_mode s i) = simulation_time s.
Proof. unfold assign_idle. repeat case_match; reflexivity. Qed.

Lemma count_idle_time s i :
  simulation_time (count_idle s i) = simulation_time s.
Proof. unfold count_idle. repeat case_match; reflexivity. Qed.

Lemma simulation_tick_time s :
  simulation_time (simulation_tick quantum debug_mode num_cores tick_delay s)
  = int_add (simulation_time s) 1.
Proof.
  unfold simulation_tick, end_of_tick. cbn [print simulation_time].
  match goal with
  | |- simulation_time (if ?b then _ else _) = _ => destruct b
  end; cbn [print simulation_time].
  all: apply (fold_left_invariant
                (fun s' => simulation_time s' = int_add (simulation_time s) 1));
    [intros a b <-; apply count_idle_time|].
  all: cbn [set_simulation_time simulation_time]; f_equal.
  all: apply (fold_left_invariant (fun s' => simulation_time s' = simulation_time s));
    [intros a b <-; apply assign_idle_time|].
  all: apply (fold_left_invariant (fun s' => simulation_time s' = simulation_time s));
    [intros a b <-; apply check_completed_time | reflexivity].
Qed.

Lemma int_add_1 z : 0 <= z <= TIME_LIMIT -> int_add z 1 = z + 1.
Proof.
  unfold TIME_LIMIT. intros H. apply wrap_id.
  unfold in_int, INT_MIN, INT_MAX. lia.
Qed.

(** The loop never runs out of fuel when it starts with the clock in
    [0, TIME_LIMIT] and one unit of fuel per tick left before the bound. *)
Lemma simulation_loop_total fuel s :
  0 <= simulation_time s <= TIME_LIMIT ->
  (Z.to_nat (TIME_LIMIT + 1 - simulation_time s) <= fuel)%nat ->
  exists r, simulation_loop quantum debug_mode num_cores tick_delay fuel s = Some r.
Proof.
  revert s. induction fuel as [|fuel IH]; intros s Ht Hfuel; [lia|].
  cbn [simulation_loop]. destruct (completed_tasks s <? num_tasks (dag s)); [|eauto].
  pose proof (simulation_tick_time s) as Htick. rewrite int_add_1 in Htick by done.
  destruct (Z.gtb_spec
              (simulation_time
                 (simulation_tick quantum debug_mode num_cores tick_delay s))
              TIME_LIMIT); [eauto|].
  apply IH; lia.
Qed.

Lemma run_simulation_total g :
  exists r, run_simulation quantum debug_mode num_cores tick_delay g = Some r.
Proof.
  apply simulation_loop_total; cbn; unfold run_fuel, TIME_LIMIT; lia.
Qed.

End Clock.

(** ** Determinism: the console does not feed back *)

Section Noninterference.

Variables (quantum num_cores : Z).
Variables (debug1 debug2 : bool) (delay1 delay2 : Z).

Ltac same_start :=
  let H := fresh in
  intros H; destruct H as (Hd & Hc & Ht & Hn);
  match goal with
  | s1 : Sim, s2 : Sim |- _ =>
      destruct s1, s2; cbn [dag cores simulation_time completed_tasks] in *; subst
  end.

Lemma check_completed_same s1 s2 i :
  same_schedule s1 s2 ->
  same_schedule (check_completed debug1 s1 i) (check_completed debug2 s2 i).
Proof.
  same_start. unfold check_completed, same_schedule.
  cbn [dag cores simulation_time completed_tasks].
  repeat case_match; done.
Qed.

Lemma assign_idle_same s1 s2 i :
  same_schedule s1 s2 ->
  same_schedule (assign_idle quantum debug1 s1 i) (assign_idle quantum debug2 s2 i).
Proof.
  same_start. unfold assign_idle, same_schedule.
  cbn [dag cores simulation_time completed_tasks].
  repeat case_match; done.
Qed.

Lemma count_idle_same s1 s2 i :
  same_schedule s1 s2 -> same_schedule (count_idle s1 i) (count_idle s2 i).
Proof.
  same_start. unfold count_idle, same_schedule.
  cbn [dag cores simulation_time completed_tasks].
  repeat case_match; done.
Qed.

Lemma print_same out1 out2 s1 s2 :
  same_schedule s1 s2 -> same_schedule (print out1 s1) (print out2 s2).
Proof. same_start. done. Qed.

Lemma simulation_tick_same s1 s2 :
  same_schedule s1 s2 ->
  same_schedule (simulation_tick quantum debug1 num_cores delay1 s1)
                (simulation_tick quantum debug2 num_cores delay2 s2).
Proof.
  intros H. unfold simulation_tick, end_of_tick. apply print_same.
  assert (same_schedule
    (fold_left count_idle (core_ids num_cores)
       (set_simulation_time
          (int_add (simulation_time
             (fold_left (assign_idle quantum debug1) (core_ids num_cores)
                (fold_left (check_completed debug1) (core_ids num_cores) s1))) 1)
          (fold_left (assign_idle quantum debug1) (core_ids num_cores)
             (fold_left (check_completed debug1) (core_ids num_cores) s1))))
    (fold_left count_idle (core_ids num_cores)
       (set_simulation_time
          (int_add (simulation_time
             (fold_left (assign_idle quantum debug2) (core_ids num_cores)
                (fold_left (check_completed debug2) (core_ids num_cores) s2))) 1)
          (fold_left (assign_idle quantum debug2) (core_ids num_cores)
             (fold_left (check_completed debug2) (core_ids num_cores) s2)))))
    as Hsame.
  { apply (fold_left_related same_schedule); [intros; by apply count_idle_same|].
    assert (same_schedule
      (fold_left (assign_idle quantum debug1) (core_ids num_cores)
         (fold_left (check_completed debug1) (core_ids num_cores) s1))
      (fold_left (assign_idle quantum debug2) (core_ids num_cores)
         (fold_left (check_completed debug2) (core_ids num_cores) s2)))
      as (Hd & Hc & Ht & Hn).
    { apply (fold_left_related same_schedule); [intros; by apply assign_idle_same|].
      apply (fold_left_related same_schedule); [intros; by apply check_completed_same|].
      done. }
    unfold same_schedule, set_simulation_time.
    cbn [dag cores simulation_time completed_tasks]. by rewrite Hd, Hc, Ht, Hn. }
  destruct Hsame as (Hd & Hc & Ht & Hn). rewrite Hd, Ht, Hn.
  case_match; [apply print_same|]; done.
Qed.

Lemma simulation_loop_same fuel s1 s2 :
  same_schedule s1 s2 ->
  match simulation_loop quantum debug1 num_cores delay1 fuel s1,
        simulation_loop quantum debug2 num_cores delay2 fuel s2 with
  | Some (s1', e1), Some (s2', e2) => same_schedule s1' s2' /\ e1 = e2
  | None, None => True
  | _, _ => False
  end.
Proof.
  revert s1 s2. induction fuel as [|fuel IH]; intros s1 s2 H; [done|].
  cbn [simulation_loop].
  pose proof (simulation_tick_same s1 s2 H) as Htick.
  destruct H as (Hd & Hc & Ht & Hn). rewrite Hd, Hn.
  destruct (completed_tasks s2 <? num_tasks (dag s2)); [|done].
  destruct Htick as (Hd' & Hc' & Ht' & Hn'). rewrite Ht'.
  match goal with
  | |- context [?a >? TIME_LIMIT] => destruct (a >? TIME_LIMIT)
  end.
  - split; [|done]. by apply print_same.
  - by apply IH.
Qed.

End Noninterference.

(** ** A run leaves nothing behind that the reset keeps *)

Lemma reset_update_task g k t t' :
  tasks g !! k = Some t ->
  reset_task t' = reset_task t ->
  reset_dag_execution (set_tasks (<[k := t']> (tasks g)) g) = reset_dag_execution g.
Proof.
  intros Ht Heq. unfold reset_dag_execution, set_tasks. cbn [tasks adjacency_matrix has_cycles].
  f_equal. rewrite list_fmap_insert, Heq. apply list_insert_id.
  by rewrite list_lookup_fmap, Ht.
Qed.

Section Reset.

Variables (quantum : Z) (debug_mode : bool) (num_cores tick_delay : Z).

Lemma check_completed_reset s i :
  reset_dag_execution (dag (check_completed debug_mode s i))
  = reset_dag_execution (dag s).
Proof.
  unfold check_completed. repeat case_match; try reflexivity.
  all: cbn [dag set_core set_task print set_completed_tasks];
    by apply (reset_update_task _ _ _ _ ltac:(eassumption)).
Qed.

Lemma assign_idle_reset s i :
  reset_dag_execution (dag (assign_idle quantum debug_mode s i))
  = reset_dag_execution (dag s).
Proof.
  unfold assign_idle. repeat case_match; try reflexivity.
  all: cbn [dag set_core set_task print].
  all: match goal with
       | H : get_task _ _ = Some _ |- _ =>
           unfold get_task in H; destruct (_ <? 0); [done|];
           by apply (reset_update_task _ _ _ _ H)
       end.
Qed.

Lemma count_idle_reset s i : dag (count_idle s i) = dag s.
Proof. unfold count_idle. repeat case_match; reflexivity. Qed.

Lemma simulation_tick_reset s :
  reset_dag_execution (dag (simulation_tick quantum debug_mode num_cores tick_delay s))
  = reset_dag_execution (dag s).
Proof.
  unfold simulation_tick, end_of_tick.
  set (s2 := fold_left (assign_idle quantum debug_mode) (core_ids num_cores)
               (fold_left (check_completed debug_mode) (core_ids num_cores) s)).
  assert (reset_dag_execution (dag s2) = reset_dag_execution (dag s)) as <-.
  { apply (fold_left_invariant
             (fun s' => reset_dag_execution (dag s') = reset_dag_execution (dag s))).
    { intros a b <-. apply assign_idle_reset. }
    apply (fold_left_invariant
             (fun s' => reset_dag_execution (dag s') = reset_dag_execution (dag s)));
      [|done].
    intros a b <-. apply check_completed_reset. }
  f_equal.
  assert (dag (fold_left count_idle (core_ids num_cores)
                 (set_simulation_time (int_add (simulation_time s2) 1) s2))
          = dag s2) as Hd.
  { apply (fold_left_invariant (fun s' => dag s' = dag s2)); [|done].
    intros a b <-. apply count_idle_reset. }
  match goal with
  | |- context [if ?b then _ else _] => destruct b
  end; exact Hd.
Qed.

Lemma simulation_loop_reset fuel s s' e :
  simulation_loop quantum debug_mode num_cores tick_delay fuel s = Some (s', e) ->
  reset_dag_execution (dag s') = reset_dag_execution (dag s).
Proof.
  revert s. induction fuel as [|fuel IH]; intros s; [done|].
  cbn [simulation_loop].
  destruct (completed_tasks s <? num_tasks (dag s)); [|by intros [= <- <-]].
  match goal with
  | |- context [?a >? TIME_LIMIT] => destruct (a >? TIME_LIMIT)
  end.
  - intros [= <- <-]. apply simulation_tick_reset.
  - intros H. rewrite (IH _ H). apply simulation_tick_reset.
Qed.

Lemma reset_dag_execution_idem g :
  reset_dag_execution (reset_dag_execution g) = reset_dag_execution g.
Proof.
  unfold reset_dag_execution, set_tasks. cbn. f_equal.
  rewrite <- list_fmap_compose. by apply list_fmap_ext.
Qed.

(** A second run on the graph a run leaves starts from the same state. *)
Lemma run_simulation_again g s e :
  run_simulation quantum debug_mode num_cores tick_delay g = Some (s, e) ->
  init_sim num_cores (dag s) = init_sim num_cores g.
Proof.
  intros Hrun. apply simulation_loop_reset in Hrun.
  unfold init_sim. f_equal. rewrite Hrun. cbn [init_sim dag].
  apply reset_dag_execution_idem.
Qed.

End Reset.

(** C6. For a given graph, core count and quantum the run is a function
    of these alone: it always halts, and whatever the debug flag and the
    argument of the pacing delay (the source passes 10; 0 removes the
    sleep), two runs leave the loop the same way with the same graph
    state, hence the same start and finish times, the same cores, hence
    the same idle and busy counters, and the same clock. This also holds
    when the second run is made on the graph as the first run left it:
    the reset at the start of a run overwrites all that a run changes. *)
Theorem simulation_deterministic (quantum num_cores : Z) (g : DAG)
    (debug1 debug2 : bool) (delay1 delay2 : Z) :
  exists s1 s2 e,
    run_simulation quantum debug1 num_cores delay1 g = Some (s1, e) /\
    run_simulation quantum debug2 num_cores delay2 g = Some (s2, e) /\
    run_simulation quantum debug2 num_cores delay2 (dag s1) = Some (s2, e) /\
    task_times s1 = task_times s2 /\
    core_times s1 = core_times s2 /\
    simulation_time s1 = simulation_time s2 /\
    dag s1 = dag s2 /\ cores s1 = cores s2 /\
    completed_tasks s1 = completed_tasks s2.
Proof.
  destruct (run_simulation_total quantum debug1 num_cores delay1 g) as [[s1 e1] H1].
  destruct (run_simulation_total quantum debug2 num_cores delay2 g) as [[s2 e2] H2].
  pose proof (simulation_loop_same quantum num_cores debug1 debug2 delay1 delay2
                run_fuel (init_sim num_cores g) (init_sim num_cores g)) as H.
  pose proof (run_simulation_again quantum debug1 num_cores delay1 g s1 e1 H1)
    as Hagain.
  unfold run_simulation in H1, H2 |- *. rewrite H1, H2 in H.
  destruct H as [(Hd & Hc & Ht & Hn) ->]; [done|].
  exists s1, s2, e2. rewrite Hagain. split_and!; try done.
  - unfold task_times. by rewrite Hd.
  - unfold core_times, busy_time. by rewrite Hc, Ht.
Qed.

(** ** Runs in which nothing can start *)

Section Stuck.

Variables (quantum : Z) (debug_mode : bool) (num_cores tick_delay : Z).

Lemma check_completed_idle s i :
  all_idle s -> check_completed debug_mode s i = s.
Proof.
  intros Hidle. unfold check_completed.
  destruct (cores s !! i) as [c|] eqn:Hc; [|done].
  by rewrite (Hidle i c Hc).
Qed.

Lemma assign_idle_none s i :
  find_highest_priority_ready_task (dag s) = -1 ->
  assign_idle quantum debug_mode s i = s.
Proof.
  intros Hnone. unfold assign_idle. rewrite Hnone.
  destruct (cores s !! i) as [c|]; [|done]. by destruct (is_idle c).
Qed.

Lemma count_idle_stuck s i :
  all_idle s ->
  all_idle (count_idle s i) /\ dag (count_idle s i) = dag s /\
  completed_tasks (count_idle s i) = completed_tasks s.
Proof.
  intros Hidle. unfold count_idle.
  destruct (cores s !! i) as [c|] eqn:Hc; [|done].
  rewrite (Hidle i c Hc). split_and!; try done.
  intros j cj. cbn [cores set_core].
  destruct (decide (i = j)) as [<-|Hne].
  - rewrite list_lookup_insert_eq by (by apply lookup_lt_Some in Hc).
    by intros [= <-].
  - rewrite list_lookup_insert_ne by done. apply Hidle.
Qed.

Lemma simulation_tick_stuck s :
  stuck s ->
  stuck (simulation_tick quantum debug_mode num_cores tick_delay s) /\
  dag (simulation_tick quantum debug_mode num_cores tick_delay s) = dag s /\
  completed_tasks (simulation_tick quantum debug_mode num_cores tick_delay s)
  = completed_tasks s.
Proof.
  intros [Hidle Hnone]. unfold simulation_tick, end_of_tick.
  replace (fold_left (check_completed debug_mode) (core_ids num_cores) s) with s
    by (symmetry; apply (fold_left_invariant (fun s' => s' = s)); [|done];
        intros a b ->; by apply check_completed_idle).
  replace (fold_left (assign_idle quantum debug_mode) (core_ids num_cores) s) with s
    by (symmetry; apply (fold_left_invariant (fun s' => s' = s)); [|done];
        intros a b ->; by apply assign_idle_none).
  set (s1 := set_simulation_time (int_add (simulation_time s) 1) s).
  assert (all_idle (fold_left count_idle (core_ids num_cores) s1) /\
          dag (fold_left count_idle (core_ids num_cores) s1) = dag s /\
          completed_tasks (fold_left count_idle (core_ids num_cores) s1)
          = completed_tasks s) as (Hidle' & Hdag & Hcount).
  { apply (fold_left_invariant
             (fun s' => all_idle s' /\ dag s' = dag s /\
                        completed_tasks s' = completed_tasks s)); [|done].
    intros a b (Ha & Hd & Hn).
    destruct (count_idle_stuck a b Ha) as (Ha' & Hd' & Hn').
    split_and!; [done | congruence ..]. }
  match goal with
  | |- context [if ?b then _ else _] => destruct b
  end; unfold stuck, all_idle, print in *; cbn [dag cores completed_tasks];
    rewrite Hdag; done.
Qed.

Lemma state_stuck n s :
  stuck s ->
  stuck (Nat.iter n (simulation_tick quantum debug_mode num_cores tick_delay) s) /\
  dag (Nat.iter n (simulation_tick quantum debug_mode num_cores tick_delay) s)
  = dag s /\
  completed_tasks
    (Nat.iter n (simulation_tick quantum debug_mode num_cores tick_delay) s)
  = completed_tasks s.
Proof.
  intros Hs. induction n as [|n (IH & Hd & Hn)]; [done|].
  rewrite !Nat.iter_succ.
  destruct (simulation_tick_stuck _ IH) as (H1 & H2 & H3).
  split_and!; [done | congruence ..].
Qed.

(** A stuck run leaves the loop through the safety check, with the
    clock one past the bound. *)
Lemma simulation_loop_stuck fuel s :
  stuck s ->
  completed_tasks s < num_tasks (dag s) ->
  0 <= simulation_time s <= TIME_LIMIT ->
  (Z.to_nat (TIME_LIMIT + 1 - simulation_time s) <= fuel)%nat ->
  exists s',
    simulation_loop quantum debug_mode num_cores tick_delay fuel s
    = Some (s', TimeLimitExceeded) /\
    simulation_time s' = TIME_LIMIT + 1 /\
    dag s' = dag s /\ completed_tasks s' = completed_tasks s.
Proof.
  revert s. induction fuel as [|fuel IH]; intros s Hs Hless Ht Hfuel; [lia|].
  cbn [simulation_loop].
  destruct (Z.ltb_spec (completed_tasks s) (num_tasks (dag s))); [|lia].
  pose proof (simulation_tick_time quantum debug_mode num_cores tick_delay s) as Htick.
  rewrite int_add_1 in Htick by done.
  destruct (simulation_tick_stuck s Hs) as (Hs' & Hd & Hn).
  destruct (Z.gtb_spec
              (simulation_time
                 (simulation_tick quantum debug_mode num_cores tick_delay s))
              TIME_LIMIT) as [Hover|Hunder].
  - eexists. split; [reflexivity|]. cbn [print simulation_time dag completed_tasks].
    split_and!; try done. lia.
  - destruct (IH (simulation_tick quantum debug_mode num_cores tick_delay s))
      as (s' & Hrun & Htime & Hd' & Hn'); try done; try lia.
    + congruence.
    + exists s'. split_and!; congruence.
Qed.

End Stuck.

(** After a reset no task is completed, so only a task without
    dependencies can be ready. *)
Lemma reset_ready_no_dependencies g i :
  ready (reset_dag_execution g) i ->
  exists t, tasks g !! i = Some t /\ dependencies t = [].
Proof.
  intros (t' & Ht' & _ & Hdeps). unfold reset_dag_execution in *.
  cbn [tasks set_tasks] in Ht'. rewrite list_lookup_fmap in Ht'.
  destruct (tasks g !! i) as [t|] eqn:Ht; [|done].
  injection Ht' as <-. exists t. split; [done|].
  destruct (dependencies t) as [|d ds] eqn:Hd; [done|]. exfalso.
  destruct (Hdeps d) as (td & Htd & Hc).
  { cbn. rewrite Hd. apply list_elem_of_here. }
  unfold get_task in Htd. cbn [tasks set_tasks] in Htd.
  destruct (d <? 0); [done|]. rewrite list_lookup_fmap in Htd.
  destruct (tasks g !! Z.to_nat d); [|done]. injection Htd as <-. done.
Qed.

Lemma two_cycle_stuck num_cores g tA tB :
  tasks g = [tA; tB] ->
  1 ∈ dependencies tA -> 0 ∈ dependencies tB ->
  stuck (init_sim num_cores g).
Proof.
  intros Hg HA HB. split.
  - intros i c. cbn [init_sim cores]. rewrite list_lookup_fmap.
    destruct (seq 0 (Z.to_nat num_cores) !! i); [|done]. by intros [= <-].
  - cbn [init_sim dag].
    destruct (find_highest_priority_ready_task_cases (reset_dag_execution g))
      as [[H _] | (r & tr & _ & (_ & Hr & _) & _)]; [done|].
    destruct (reset_ready_no_dependencies g r Hr) as (t & Ht & Hnil).
    rewrite Hg in Ht. destruct r as [|[|r]]; [| |done].
    + injection Ht as <-. rewrite Hnil in HA. by apply not_elem_of_nil in HA.
    + injection Ht as <-. rewrite Hnil in HB. by apply not_elem_of_nil in HB.
Qed.

(** C5. For a graph of exactly two tasks each depending on the other, no
    iteration of the loop completes a task, so the completed count stays
    0 and never equals the total 2; the run nevertheless halts: it leaves
    the loop through the safety check, with the clock at 10001. *)
Theorem two_cycle_halts_at_time_limit (quantum : Z) (debug_mode : bool)
    (num_cores : Z) (g : DAG) (tA tB : Task) :
  tasks g = [tA; tB] ->
  1 ∈ dependencies tA ->
  0 ∈ dependencies tB ->
  (forall n, let s := state_after n quantum debug_mode num_cores g in
     completed_tasks s = 0 /\ num_tasks (dag s) = 2 /\
     forall k t, tasks (dag s) !! k = Some t -> completed t = false) /\
  exists s,
    simulate_hybrid_scheduler quantum debug_mode g num_cores
    = Some (s, TimeLimitExceeded) /\
    simulation_time s = 10001 /\
    completed_tasks s = 0 /\ num_tasks (dag s) = 2.
Proof.
  intros Hg HA HB.
  pose proof (two_cycle_stuck num_cores g tA tB Hg HA HB) as Hstuck.
  assert (dag (init_sim num_cores g) = reset_dag_execution g) as Hinit by done.
  assert (num_tasks (reset_dag_execution g) = 2) as Hnum.
  { unfold num_tasks, reset_dag_execution. cbn [tasks set_tasks].
    by rewrite length_map, Hg. }
  split.
  - intros n s. subst s. unfold state_after.
    destruct (state_stuck quantum debug_mode num_cores TICK_DELAY_MS n _ Hstuck)
      as (_ & Hd & Hn).
    rewrite Hn, Hd, Hinit. split_and!; try done.
    intros k t. unfold reset_dag_execution. cbn [tasks set_tasks].
    rewrite list_lookup_fmap. destruct (tasks g !! k); [|done]. by intros [= <-].
  - destruct (simulation_loop_stuck quantum debug_mode num_cores TICK_DELAY_MS
                run_fuel (init_sim num_cores g) Hstuck)
      as (s & Hrun & Ht & Hd & Hn).
    + rewrite Hinit, Hnum. cbn. lia.
    + cbn. unfold TIME_LIMIT. lia.
    + cbn. unfold run_fuel, TIME_LIMIT. lia.
    + exists s. split_and!; try done. by rewrite Hd, Hinit.
Qed.

Lemma two_cycle_halts_at_time_limit_witness :
  has_cycles (two_cycle 3 100 2 100) = true /\
  exists s,
    simulate_hybrid_scheduler 50 false (two_cycle 3 100 2 100) 4
    = Some (s, TimeLimitExceeded) /\
    simulation_time s = 10001 /\
    completed_tasks s = 0 /\ num_tasks (dag s) = 2.
Proof.
  split; [reflexivity|].
  refine (proj2 (two_cycle_halts_at_time_limit 50 false 4 (two_cycle 3 100 2 100)
            (mkTask 0 3 100 10 [1] false 3 (-1) (-1) (-1))
            (mkTask 1 2 100 10 [0] false 2 (-1) (-1) (-1)) eq_refl _ _)).
  - apply list_elem_of_here.
  - apply list_elem_of_here.
Defined.

(** ** The engine invariant *)

Lemma assign_idle_starts quantum debug_mode s i c k t :
  cores s !! i = Some c ->
  is_idle c = true ->
  find_highest_priority_ready_task (dag s) = Z.of_nat k ->
  tasks (dag s) !! k = Some t ->
  let t' := set_core_assigned (Z.of_nat i) t in
  let t' := if start_time t =? -1 then set_start_time (simulation_time s) t' else t' in
  assign_idle quantum debug_mode s i =
    mkSim (set_tasks (<[k := t']> (tasks (dag s))) (dag s))
          (<[i := mkCore (core_id c) (Some k) quantum false (total_idle_time c)]>
             (cores s))
          (simulation_time s)
          (completed_tasks s)
          (console s
             ++ print_execution_trace debug_mode (simulation_time s) (Z.of_nat i) t' Started
             ++ [ExecutingLine (task_id t) (Z.of_nat i) (period t) (priority t)]).
Proof.
  intros Hcore Hidle Hsel Htask. unfold assign_idle.
  rewrite Hcore, Hidle, Hsel, get_task_of_nat, Htask, Nat2Z.id.
  destruct (Z.eqb_spec (Z.of_nat k) (-1)); [lia|].
  cbn [start_time set_core_assigned].
  destruct (start_time t =? -1); reflexivity.
Qed.

Lemma cores_bound_update s i c c' k t t' time' count' out' :
  cores_bound s ->
  cores s !! i = Some c ->
  tasks (dag s) !! k = Some t ->
  completed t = false ->
  dependencies t' = dependencies t ->
  core_assigned t = Z.of_nat i \/ core_assigned t = -1 ->
  (is_idle c' = false ->
     current_task c' = Some k /\ completed t' = false /\
     core_assigned t' = Z.of_nat i /\ ready (dag s) k) ->
  cores_bound (mkSim (set_tasks (<[k := t']> (tasks (dag s))) (dag s))
                     (<[i := c']> (cores s)) time' count' out').
Proof.
  intros Hinv Hcore Htask Hopen Hdeps Hown Hnew j cj. cbn [cores].
  pose proof (lookup_lt_Some _ _ _ Hcore) as Hi.
  pose proof (lookup_lt_Some _ _ _ Htask) as Hk.
  destruct (decide (i = j)) as [<-|Hne].
  - rewrite list_lookup_insert_eq by done. intros [= <-] Hrun.
    destruct (Hnew Hrun) as (Hcur & Hc & Ha & Hr).
    exists k, t'. cbn [dag tasks set_tasks].
    rewrite list_lookup_insert_eq by done. split_and!; try done.
    by apply (ready_update_self _ _ t).
  - rewrite list_lookup_insert_ne by done. intros Hcj Hrun.
    destruct (Hinv j cj Hcj Hrun) as (kj & tj & Hcur & Htj & Hc & Ha & Hr).
    assert (kj <> k) as Hkj.
    { intros ->. assert (tj = t) as -> by congruence. lia. }
    exists kj, tj. cbn [dag tasks set_tasks].
    rewrite list_lookup_insert_ne by done. split_and!; try done.
    apply (ready_after_update _ _ t); try done. congruence.
Qed.

Lemma cores_bound_update_core s i c c' :
  cores_bound s ->
  cores s !! i = Some c ->
  is_idle c' = is_idle c -> current_task c' = current_task c ->
  cores_bound (set_core i c' s).
Proof.
  intros Hinv Hcore Hidle Hcur j cj. unfold set_core, bound. cbn [cores dag].
  pose proof (lookup_lt_Some _ _ _ Hcore) as Hi.
  destruct (decide (i = j)) as [<-|Hne].
  - rewrite list_lookup_insert_eq by done. intros [= <-] Hrun.
    rewrite Hidle in Hrun. rewrite Hcur. apply (Hinv i c Hcore Hrun).
  - rewrite list_lookup_insert_ne by done. apply Hinv.
Qed.

Lemma task_ok_later time time' t : task_ok time t -> time <= time' -> task_ok time' t.
Proof. intros (H1 & H2 & H3) Hle. split_and!; [lia | done ..]. Qed.

Lemma int_sub_1 z : 1 <= z <= INT_MAX -> int_sub z 1 = z - 1.
Proof.
  intros H. apply wrap_id. unfold in_int, INT_MIN, INT_MAX in *. lia.
Qed.

Section Invariant.

Variables (quantum : Z) (debug_mode : bool) (num_cores tick_delay : Z).

Lemma check_completed_inv s i :
  engine_inv s -> engine_inv (check_completed debug_mode s i).
Proof.
  intros [Hcores Htasks].
  destruct (cores s !! i) as [c|] eqn:Hcore;
    [|unfold check_completed; by rewrite Hcore].
  destruct (is_idle c) eqn:Hidle;
    [unfold check_completed; by rewrite Hcore, Hidle|].
  destruct (Hcores i c Hcore Hidle) as (k & t & Hcur & Htask & Hc & Ha & Hr).
  pose proof (Forall_lookup_1 _ _ _ _ Htasks Htask) as (Hstart & Hfin & Hrem).
  rewrite Hc in Hrem.
  destruct (Z.le_gt_cases (int_sub (remaining_time t) 1) 0) as [Hdone|Hleft].
  - rewrite (check_completed_completes debug_mode s i k c t Hcore Hidle Hcur
               Htask Hdone).
    split.
    + apply (cores_bound_update s i c _ k t _ _ _ _ Hcores Hcore Htask Hc);
          [reflexivity | by left |].
      cbn. done.
    + cbn [dag tasks set_tasks simulation_time]. apply Forall_insert; [done|].
      split_and!; cbn; try done.
      intros Hdur. specialize (Hrem Hdur).
      rewrite int_sub_1 in Hdone |- * by lia. lia.
  - assert (1 <= duration t <= INT_MAX ->
            1 <= int_sub (remaining_time t) 1 <= duration t) as Hrem'.
    { intros Hdur. specialize (Hrem Hdur).
      rewrite int_sub_1 in Hleft |- * by lia. lia. }
    destruct (Z.le_gt_cases (int_sub (time_slice_remaining c) 1) 0)
      as [Hslice|Hslice].
    + rewrite (check_completed_preempts debug_mode s i k c t Hcore Hidle Hcur
                 Htask Hleft Hslice).
      split.
      * apply (cores_bound_update s i c _ k t _ _ _ _ Hcores Hcore Htask Hc);
          [reflexivity | by left |].
        cbn. done.
      * cbn [dag tasks set_tasks simulation_time]. apply Forall_insert; [done|].
        split_and!; cbn; try done. by rewrite Hc.
    + rewrite (check_completed_continues debug_mode s i k c t Hcore Hidle Hcur
                 Htask Hleft Hslice).
      split.
      * apply (cores_bound_update s i c _ k t _ _ _ _ Hcores Hcore Htask Hc);
          [reflexivity | by left |].
        cbn. done.
      * cbn [dag tasks set_tasks simulation_time]. apply Forall_insert; [done|].
        split_and!; cbn; try done. by rewrite Hc.
Qed.

Lemma assign_idle_inv s i :
  engine_inv s -> engine_inv (assign_idle quantum debug_mode s i).
Proof.
  intros [Hcores Htasks].
  destruct (cores s !! i) as [c|] eqn:Hcore;
    [|unfold assign_idle; by rewrite Hcore].
  destruct (is_idle c) eqn:Hidle;
    [|unfold assign_idle; by rewrite Hcore, Hidle].
  destruct (find_highest_priority_ready_task_cases (dag s))
    as [[Hnone _] | (k & t & Hsel & (Htask & Hready & Ha) & _)].
  { unfold assign_idle. by rewrite Hcore, Hidle, Hnone. }
  pose proof Hready as (t0 & Ht0 & Hc & _).
  assert (t0 = t) as -> by congruence.
  pose proof (Forall_lookup_1 _ _ _ _ Htasks Htask) as (Hstart & Hfin & Hrem).
  rewrite (assign_idle_starts quantum debug_mode s i c k t Hcore Hidle Hsel Htask).
  split.
  - apply (cores_bound_update s i c _ k t _ _ _ _ Hcores Hcore Htask Hc).
    { by destruct (start_time t =? -1). }
    { by right. }
    intros _. by destruct (start_time t =? -1).
  - cbn [dag tasks set_tasks simulation_time]. apply Forall_insert; [done|].
    destruct (Z.eqb_spec (start_time t) (-1)); split_and!; cbn; try done.
    all: rewrite Hc; done.
Qed.

Lemma count_idle_inv s i : engine_inv s -> engine_inv (count_idle s i).
Proof.
  intros [Hcores Htasks]. unfold count_idle.
  destruct (cores s !! i) as [c|] eqn:Hcore; [|done].
  destruct (is_idle c) eqn:Hidle; [|done].
  split; [|done]. apply (cores_bound_update_core s i c); done.
Qed.

Lemma simulation_tick_inv s :
  engine_inv s ->
  0 <= simulation_time s <= TIME_LIMIT ->
  engine_inv (simulation_tick quantum debug_mode num_cores tick_delay s).
Proof.
  intros Hinv Htime. unfold simulation_tick, end_of_tick.
  set (s1 := fold_left (check_completed debug_mode) (core_ids num_cores) s).
  set (s2 := fold_left (assign_idle quantum debug_mode) (core_ids num_cores) s1).
  assert (engine_inv s2 /\ simulation_time s2 = simulation_time s) as [[Hc2 Ht2] Htime2].
  { apply (fold_left_invariant
             (fun s' => engine_inv s' /\ simulation_time s' = simulation_time s)).
    { intros a b [Ha <-]. split; [by apply assign_idle_inv|].
      apply assign_idle_time. }
    apply (fold_left_invariant
             (fun s' => engine_inv s' /\ simulation_time s' = simulation_time s));
      [|done].
    intros a b [Ha <-]. split; [by apply check_completed_inv|].
    apply check_completed_time. }
  set (s3 := set_simulation_time (int_add (simulation_time s2) 1) s2).
  assert (engine_inv s3) as Hinv3.
  { split; [done|]. cbn [s3 set_simulation_time dag simulation_time].
    rewrite Htime2, int_add_1 by done.
    eapply Forall_impl; [exact Ht2|]. intros t Ht.
    apply (task_ok_later (simulation_time s2)); [done|lia]. }
  assert (engine_inv (fold_left count_idle (core_ids num_cores) s3)) as [Hc4 Ht4].
  { apply (fold_left_invariant engine_inv); [|done].
    intros a b. apply count_idle_inv. }
  match goal with
  | |- context [if ?b then _ else _] => destruct b
  end; done.
Qed.

End Invariant.

Section InvariantOfRuns.

Variables (quantum : Z) (debug_mode : bool) (num_cores : Z).

Lemma init_sim_inv g : engine_inv (init_sim num_cores g).
Proof.
  split.
  - intros i c. cbn [init_sim cores]. rewrite list_lookup_fmap.
    destruct (seq 0 (Z.to_nat num_cores) !! i); [|done].
    intros [= <-]. intros Hrun. done.
  - cbn [init_sim dag simulation_time reset_dag_execution tasks set_tasks].
    apply Forall_fmap, Forall_forall. intros t _.
    split_and!; cbn; [lia | done | lia].
Qed.

Lemma state_after_inv m g :
  Z.of_nat m <= 10001 ->
  engine_inv (state_after m quantum debug_mode num_cores g) /\
  simulation_time (state_after m quantum debug_mode num_cores g) = Z.of_nat m.
Proof.
  unfold state_after. induction m as [|m IH]; intros Hm.
  - split; [apply init_sim_inv | done].
  - destruct IH as [Hinv Htime]; [lia|]. rewrite Nat.iter_succ.
    assert (0 <= Z.of_nat m <= TIME_LIMIT) by (unfold TIME_LIMIT; lia).
    split.
    + apply simulation_tick_inv; [done|]. by rewrite Htime.
    + rewrite simulation_tick_time, Htime, int_add_1 by done. lia.
Qed.

Lemma simulation_loop_inv tick_delay fuel s s' e :
  engine_inv s ->
  0 <= simulation_time s <= TIME_LIMIT ->
  simulation_loop quantum debug_mode num_cores tick_delay fuel s = Some (s', e) ->
  engine_inv s'.
Proof.
  revert s. induction fuel as [|fuel IH]; intros s Hinv Htime; [done|].
  cbn [simulation_loop].
  destruct (completed_tasks s <? num_tasks (dag s)); [|by intros [= <- <-]].
  pose proof (simulation_tick_inv quantum debug_mode num_cores tick_delay s
                Hinv Htime) as Hinv'.
  pose proof (simulation_tick_time quantum debug_mode num_cores tick_delay s)
    as Htick.
  rewrite int_add_1 in Htick by done.
  destruct (Z.gtb_spec
              (simulation_time
                 (simulation_tick quantum debug_mode num_cores tick_delay s))
              TIME_LIMIT).
  - by intros [= <- <-].
  - apply IH; [done|lia].
Qed.

End InvariantOfRuns.

(** The state of a run when the first pass of iteration [m] reaches core
    [i]: the cores before [i] have been advanced. *)
Lemma advance_pass_inv quantum debug_mode num_cores g m i :
  Z.of_nat m <= 10001 ->
  engine_inv (fold_left (check_completed debug_mode) (seq 0 i)
                (state_after m quantum debug_mode num_cores g)).
Proof.
  intros Hm. apply (fold_left_invariant engine_inv).
  - intros a b. apply check_completed_inv.
  - by apply state_after_inv.
Qed.

Lemma engine_inv_completed s k t :
  engine_inv s ->
  tasks (dag s) !! k = Some t ->
  completed t = true ->
  start_time t <= finish_time t /\
  (1 <= duration t <= INT_MAX -> remaining_time t = 0).
Proof.
  intros [_ Htasks] Ht Hc.
  destruct (Forall_lookup_1 _ _ _ _ Htasks Ht) as (_ & Hfin & Hrem).
  rewrite Hc in Hrem. split; [by apply Hfin | done].
Qed.

(** C7 (as stated, refuted). A task of duration 0 is started at tick 0
    and marked completed at tick 1 with its remaining-time counter at -1,
    not 0. *)
Lemma zero_duration_completes_below_zero :
  exists s,
    simulate_hybrid_scheduler 50 false zero_duration_dag 1 = Some (s, AllCompleted) /\
    tasks (dag s) = [mkTask 0 0 100 10 [] true (-1) (-1) 0 1] /\
    ~ (forall k t, tasks (dag s) !! k = Some t -> completed t = true ->
         start_time t <= finish_time t /\ remaining_time t = 0).
Proof.
  eexists. split; [vm_compute; reflexivity|]. split; [reflexivity|].
  intros H. destruct (H 0%nat _ eq_refl eq_refl) as [_ Hrem]. discriminate Hrem.
Qed.

(** C7 (amended). In every state of a run at the head of the loop and in
    the state the run halts in, a completed task has a finish time
    greater than or equal to its start time; if its duration is at least
    1, its remaining-time counter is exactly 0. At the moment a task is
    marked completed (the first pass of an iteration reaches a running
    core whose task has no time left) its finish time is the clock, its
    start time is not later, and, if its duration is at least 1, its
    remaining-time counter is exactly 0. *)
Theorem completed_task_times (quantum : Z) (debug_mode : bool) (num_cores : Z)
    (g : DAG) :
  (forall m k t,
     Z.of_nat m <= 10001 ->
     tasks (dag (state_after m quantum debug_mode num_cores g)) !! k = Some t ->
     completed t = true ->
     start_time t <= finish_time t /\
     (1 <= duration t <= INT_MAX -> remaining_time t = 0)) /\
  (forall s e k t,
     simulate_hybrid_scheduler quantum debug_mode g num_cores = Some (s, e) ->
     tasks (dag s) !! k = Some t ->
     completed t = true ->
     start_time t <= finish_time t /\
     (1 <= duration t <= INT_MAX -> remaining_time t = 0)) /\
  (forall m i c k t,
     Z.of_nat m <= 10001 ->
     let s := fold_left (check_completed debug_mode) (seq 0 i)
                (state_after m quantum debug_mode num_cores g) in
     cores s !! i = Some c ->
     is_idle c = false ->
     current_task c = Some k ->
     tasks (dag s) !! k = Some t ->
     int_sub (remaining_time t) 1 <= 0 ->
     exists t',
       tasks (dag (check_completed debug_mode s i)) !! k = Some t' /\
       completed t = false /\ completed t' = true /\
       finish_time t' = simulation_time s /\
       start_time t' <= finish_time t' /\
       (1 <= duration t <= INT_MAX -> remaining_time t' = 0)).
Proof.
  split_and!.
  - intros m k t Hm. apply engine_inv_completed.
    by apply state_after_inv.
  - intros s e k t Hrun. apply engine_inv_completed.
    apply (simulation_loop_inv quantum debug_mode num_cores TICK_DELAY_MS run_fuel
             (init_sim num_cores g) s e); [apply init_sim_inv | | exact Hrun].
    cbn. unfold TIME_LIMIT. lia.
  - intros m i c k t Hm s Hcore Hbusy Hcur Htask Hdone.
    pose proof (advance_pass_inv quantum debug_mode num_cores g m i Hm) as Hinv.
    fold s in Hinv.
    pose proof (check_completed_inv debug_mode s i Hinv) as Hinv'.
    assert (completed t = false) as Hopen.
    { destruct Hinv as [Hb _].
      destruct (Hb i c Hcore Hbusy) as (k' & t0 & Hcur' & Ht0 & Hc0 & _).
      congruence. }
    revert Hinv'.
    rewrite (check_completed_completes debug_mode s i k c t Hcore Hbusy Hcur Htask
               Hdone).
    intros Hinv'. eexists. split.
    { cbn [dag tasks set_tasks]. apply list_lookup_insert_eq.
      by apply lookup_lt_Some in Htask. }
    split; [done|]. split; [reflexivity|]. split; [reflexivity|].
    eapply (engine_inv_completed _ k) in Hinv'.
    + exact Hinv'.
    + cbn [dag tasks set_tasks]. apply list_lookup_insert_eq.
      by apply lookup_lt_Some in Htask.
    + reflexivity.
Qed.

Lemma completed_task_times_witness :
  (exists t, tasks (dag (state_after 5 2 true 1 (three_tasks 100))) !! 0%nat = Some t /\
     completed t = true /\ start_time t = 0 /\ finish_time t = 4 /\
     remaining_time t = 0) /\
  (exists s e t, simulate_hybrid_scheduler 2 true (three_tasks 100) 1 = Some (s, e) /\
     tasks (dag s) !! 2%nat = Some t /\ start_time t <= finish_time t /\
     remaining_time t = 0) /\
  (exists t', tasks (dag (check_completed true s6 0)) !! 1%nat = Some t' /\
     completed t' = true /\ finish_time t' = 6 /\ remaining_time t' = 0).
Proof.
  split_and!.
  - exists (mkTask 0 4 100 10 [] true 0 (-1) 0 4).
    split; [vm_compute; reflexivity|]. split; [reflexivity|].
    split; [reflexivity|]. split; [reflexivity|].
    refine (proj2 (proj1 (completed_task_times 2 true 1 (three_tasks 100))
              5%nat 0%nat (mkTask 0 4 100 10 [] true 0 (-1) 0 4) _ _ eq_refl) _).
    + lia.
    + vm_compute; reflexivity.
    + unfold INT_MAX. cbn. lia.
  - destruct (run_simulation_total 2 true 1 TICK_DELAY_MS (three_tasks 100))
      as [[s e] Hrun].
    exists s, e, (mkTask 2 3 100 10 [] true 0 (-1) 6 9).
    assert (tasks (dag s) !! 2%nat = Some (mkTask 2 3 100 10 [] true 0 (-1) 6 9))
      as Ht.
    { revert Hrun. unfold run_simulation. vm_compute. intros [= <- _]. reflexivity. }
    split; [exact Hrun|]. split; [exact Ht|].
    destruct (proj1 (proj2 (completed_task_times 2 true 1 (three_tasks 100)))
                s e 2%nat _ Hrun Ht eq_refl) as [Hle Hrem].
    split; [exact Hle|]. apply Hrem. unfold INT_MAX. cbn. lia.
  - destruct (proj2 (proj2 (completed_task_times 2 true 1 (three_tasks 100)))
                6%nat 0%nat (mkCore 0 (Some 1%nat) 1 false 0) 1%nat
                (mkTask 1 2 100 10 [] false 1 0 4 (-1))
                ltac:(lia) ltac:(vm_compute; reflexivity) eq_refl eq_refl
                ltac:(vm_compute; reflexivity) ltac:(vm_compute; discriminate))
      as (t' & Ht' & _ & Hc & Hfin & _ & Hrem).
    exists t'. split; [exact Ht'|]. split; [exact Hc|].
    split; [rewrite Hfin; vm_compute; reflexivity|].
    apply Hrem. unfold INT_MAX. cbn. lia.
Defined.


(** ** Preemption and reselection *)

(** A task preempted by the advance step is a candidate in the state the
    step leaves. *)
Lemma preempted_is_candidate debug_mode s i c k t :
  cores s !! i = Some c ->
  is_idle c = false ->
  current_task c = Some k ->
  tasks (dag s) !! k = Some t ->
  ready (dag s) k ->
  0 < int_sub (remaining_time t) 1 ->
  int_sub (time_slice_remaining c) 1 <= 0 ->
  candidate (dag (check_completed debug_mode s i)) k
    (set_core_assigned (-1) (set_remaining_time (int_sub (remaining_time t) 1) t)).
Proof.
  intros Hcore Hbusy Hcur Htask Hready Hleft Hslice.
  rewrite (check_completed_preempts debug_mode s i k c t Hcore Hbusy Hcur Htask
             Hleft Hslice).
  cbn [dag]. split_and!.
  - cbn [tasks set_tasks]. apply list_lookup_insert_eq.
    by apply lookup_lt_Some in Htask.
  - apply (ready_update_self _ _ t); try done.
    destruct Hready as (t0 & Ht0 & Hc0 & _). cbn. congruence.
  - reflexivity.
Qed.

(** C9. On a full tie (same priority, same period) the selection returns
    the candidate with the smallest id. In particular, in every run, a
    task preempted for quantum expiry when the first pass reaches its core
    is a candidate again at once, in the state the advance step leaves
    (the one the second pass of the same iteration starts from when it is
    the last core), and no fully tied candidate with a larger id is
    selected ahead of it. *)
Theorem full_tie_selects_smallest_id :
  (forall dag r tr j tj,
     find_highest_priority_ready_task dag = Z.of_nat r ->
     tasks dag !! r = Some tr ->
     candidate dag j tj ->
     priority tj = priority tr -> period tj = period tr -> (r <= j)%nat) /\
  (forall quantum debug_mode num_cores g m i c k t,
     Z.of_nat m <= 10001 ->
     let s := fold_left (check_completed debug_mode) (seq 0 i)
                (state_after m quantum debug_mode num_cores g) in
     cores s !! i = Some c ->
     is_idle c = false ->
     current_task c = Some k ->
     tasks (dag s) !! k = Some t ->
     0 < int_sub (remaining_time t) 1 ->
     int_sub (time_slice_remaining c) 1 <= 0 ->
     let s' := check_completed debug_mode s i in
     exists t',
       candidate (dag s') k t' /\
       priority t' = priority t /\ period t' = period t /\
       remaining_time t' = int_sub (remaining_time t) 1 /\
       forall j tj, candidate (dag s') j tj ->
         priority tj = priority t -> period tj = period t -> (k < j)%nat ->
         find_highest_priority_ready_task (dag s') <> Z.of_nat j).
Proof.
  split; [apply find_first_of_ties|].
  intros quantum debug_mode num_cores g m i c k t Hm s Hcore Hbusy Hcur Htask
    Hleft Hslice s'.
  assert (ready (dag s) k) as Hready.
  { destruct (advance_pass_inv quantum debug_mode num_cores g m i Hm) as [Hb _].
    destruct (Hb i c Hcore Hbusy) as (k' & t' & Hcur' & _ & _ & _ & Hr).
    assert (k' = k) as -> by congruence. exact Hr. }
  pose proof (preempted_is_candidate debug_mode s i c k t Hcore Hbusy Hcur Htask
                Hready Hleft Hslice) as Hcand.
  fold s' in Hcand. eexists. split; [exact Hcand|]. split_and!; try reflexivity.
  intros j tj Hcj Hp Hq Hkj Hsel.
  assert (j <= k)%nat; [|lia].
  apply (find_first_of_ties _ j tj k _ Hsel (proj1 Hcj) Hcand); done.
Qed.

Lemma full_tie_selects_smallest_id_witness :
  s2 = fold_left (check_completed true) (seq 0 0) (state_after 2 2 true 1 (three_tasks 100)) /\
  find_highest_priority_ready_task (dag (check_completed true s2 0)) = 0 /\
  forall j tj, candidate (dag (check_completed true s2 0)) j tj ->
    priority tj = 10 -> period tj = 100 -> (0 < j)%nat ->
    find_highest_priority_ready_task (dag (check_completed true s2 0)) <> Z.of_nat j.
Proof.
  split; [reflexivity|]. split; [vm_compute; reflexivity|].
  destruct (proj2 full_tie_selects_smallest_id 2 true 1 (three_tasks 100)
              2%nat 0%nat
              (mkCore 0 (Some 0%nat) 1 false 0) 0%nat
              (mkTask 0 4 100 10 [] false 3 0 0 (-1))
              ltac:(lia)
              ltac:(vm_compute; reflexivity) eq_refl eq_refl
              ltac:(vm_compute; reflexivity)
              ltac:(vm_compute; reflexivity)
              ltac:(vm_compute; discriminate))
    as (t' & _ & _ & _ & _ & H).
  exact H.
Defined.

(** ** Selection along a known order *)

Lemma is_candidate_spec dag i :
  is_candidate dag i = true <-> exists t, candidate dag i t.
Proof.
  unfold is_candidate. destruct (tasks dag !! i) as [t|] eqn:Ht.
  - rewrite (candidate_dec _ _ _ Ht). split; [eauto|].
    intros (t' & Hc). assert (t' = t) as -> by (destruct Hc; congruence).
    exact Hc.
  - split; [done|]. intros (t & Ht' & _). congruence.
Qed.

Lemma first_of_spec dag order :
  (first_of dag order = -1 /\ forall i, i ∈ order -> is_candidate dag i = false)
  \/ (exists pre k post,
        order = pre ++ k :: post /\ first_of dag order = Z.of_nat k /\
        is_candidate dag k = true /\
        forall i, i ∈ pre -> is_candidate dag i = false).
Proof.
  induction order as [|i rest IH].
  - left. split; [done|]. intros i Hi. by apply not_elem_of_nil in Hi.
  - cbn [first_of]. destruct (is_candidate dag i) eqn:Hi.
    + right. exists [], i, rest. split_and!; try done.
      intros j Hj. by apply not_elem_of_nil in Hj.
    + destruct IH as [[Hnone Hall] | (pre & k & post & -> & Hk & Hck & Hpre)].
      * left. split; [done|]. intros j Hj.
        apply elem_of_cons in Hj as [->|Hj]; [done | by apply Hall].
      * right. exists (i :: pre), k, post. split_and!; try done.
        intros j Hj. apply elem_of_cons in Hj as [->|Hj]; [done | by apply Hpre].
Qed.

Lemma in_selection_order_app ks pre k post :
  in_selection_order ks (pre ++ k :: post) -> Forall (before ks k) post.
Proof.
  induction pre as [|i pre IH]; cbn [in_selection_order app].
  - by intros [H _].
  - intros [_ H]. by apply IH.
Qed.

Lemma covers_elem order n i : covers order n = true -> (i < n)%nat -> i ∈ order.
Proof.
  unfold covers. rewrite forallb_forall. intros H Hi.
  specialize (H i). rewrite existsb_exists in H.
  destruct H as (j & Hj & Heq).
  - apply in_seq. lia.
  - apply Nat.eqb_eq in Heq. subst j. by apply list_elem_of_In.
Qed.

Lemma key_at_task dag i t :
  tasks dag !! i = Some t -> key_at (map key (tasks dag)) i = key t.
Proof. intros Ht. unfold key_at. by rewrite list_lookup_fmap, Ht. Qed.

(** On a graph whose ids [order] lists in selection order, the selection
    returns the first candidate along [order]. *)
Lemma find_ordered dag order :
  in_selection_order (map key (tasks dag)) order ->
  covers order (length (tasks dag)) = true ->
  find_highest_priority_ready_task dag = first_of dag order.
Proof.
  intros Hord Hcov.
  assert (forall j tj, candidate dag j tj -> j ∈ order /\ is_candidate dag j = true)
    as Hin.
  { intros j tj Hc. split.
    - apply (covers_elem _ _ _ Hcov). destruct Hc as (Ht & _).
      by apply lookup_lt_Some in Ht.
    - apply is_candidate_spec. eauto. }
  destruct (first_of_spec dag order)
    as [[-> Hall] | (pre & k & post & -> & -> & Hk & Hpre)].
  - destruct (find_highest_priority_ready_task_cases dag)
      as [[H _] | (r & tr & _ & Hc & _)]; [done|].
    destruct (Hin r tr Hc) as [Hr Hcr]. rewrite (Hall r Hr) in Hcr. done.
  - apply is_candidate_spec in Hk as (t & Hc).
    pose proof (in_selection_order_app _ _ _ _ Hord) as Hpost.
    assert (forall j tj, candidate dag j tj -> j = k \/ before (map key (tasks dag)) k j)
      as Hcases.
    { intros j tj Hcj. destruct (Hin j tj Hcj) as [Hj Hbj].
      apply elem_of_app in Hj as [Hj|Hj].
      - rewrite (Hpre j Hj) in Hbj. done.
      - apply elem_of_cons in Hj as [->|Hj]; [by left|]. right.
        rewrite Forall_forall in Hpost. by apply Hpost. }
    apply (find_unique dag k t Hc).
    + intros j tj Hcj Hpref. destruct (Hcases j tj Hcj) as [->|[Hnot _]].
      * rewrite (candidate_inj _ _ _ _ Hcj Hc) in Hpref.
        unfold preferred in Hpref. lia.
      * rewrite (key_at_task dag j tj (proj1 Hcj)),
          (key_at_task dag k t (proj1 Hc)) in Hnot.
        apply Hnot. exact Hpref.
    + intros j tj Hcj Hp Hq. destruct (Hcases j tj Hcj) as [->|[_ Htie]]; [done|].
      rewrite (key_at_task dag j tj (proj1 Hcj)),
        (key_at_task dag k t (proj1 Hc)) in Htie.
      apply Nat.lt_le_incl, Htie. unfold beats, key. cbn. lia.
Qed.

Lemma in_selection_order_eq ks ks' order :
  in_selection_order ks order -> ks' = ks -> in_selection_order ks' order.
Proof. by intros H ->. Qed.

(** ** The three-task scenario on one core *)

Lemma scenario_dag_ranked p0 p1 p2 :
  scenario_dag p0 p1 p2
  = ranked (rms_priority (entered_period p0), entered_period p0)
           (rms_priority (entered_period p1), entered_period p1)
           (rms_priority (entered_period p2), entered_period p2).
Proof. destruct p0, p1, p2; cbv -[rms_priority]; reflexivity. Qed.

Section OneCore.

Variables (quantum : Z) (debug_mode : bool) (tick_delay : Z).

Lemma simulation_tick_one_core s :
  simulation_tick quantum debug_mode 1 tick_delay s
  = end_of_tick 1 tick_delay
      (assign_idle quantum debug_mode (check_completed debug_mode s 0) 0).
Proof. reflexivity. Qed.

Lemma simulation_loop_continue fuel s s' :
  (completed_tasks s <? num_tasks (dag s)) = true ->
  simulation_tick quantum debug_mode 1 tick_delay s = s' ->
  (simulation_time s' >? TIME_LIMIT) = false ->
  simulation_loop quantum debug_mode 1 tick_delay (S fuel) s
  = simulation_loop quantum debug_mode 1 tick_delay fuel s'.
Proof. intros Hc <- Ht. cbn [simulation_loop]. by rewrite Hc, Ht. Qed.

Lemma simulation_loop_done fuel s :
  (completed_tasks s <? num_tasks (dag s)) = false ->
  simulation_loop quantum debug_mode 1 tick_delay (S fuel) s
  = Some (s, AllCompleted).
Proof. intros Hc. cbn [simulation_loop]. by rewrite Hc. Qed.

End OneCore.

Lemma simulation_loop_more_fuel quantum debug_mode num_cores tick_delay fuel k s r :
  simulation_loop quantum debug_mode num_cores tick_delay fuel s = Some r ->
  simulation_loop quantum debug_mode num_cores tick_delay (fuel + k) s = Some r.
Proof.
  revert s. induction fuel as [|fuel IH]; intros s; [done|].
  cbn [simulation_loop Nat.add].
  destruct (completed_tasks s <? num_tasks (dag s)); [|done].
  match goal with
  | |- context [?a >? TIME_LIMIT] => destruct (a >? TIME_LIMIT)
  end; [done | apply IH].
Qed.

(** One iteration on one core from a state whose tasks [order] lists in
    selection order (by [Hord]). *)
Ltac ordered_tick order Hord :=
  etransitivity;
  [ apply simulation_loop_continue;
    [ vm_compute; reflexivity
    | rewrite simulation_tick_one_core; unfold assign_idle;
      rewrite (find_ordered _ order);
      [ vm_compute; reflexivity
      | apply (in_selection_order_eq _ _ _ Hord); vm_compute; reflexivity
      | vm_compute; reflexivity ]
    | vm_compute; reflexivity ]
  | ].

(** The whole run: ten iterations, then the loop condition fails. *)
Ltac ordered_run order Hord :=
  eexists; split;
  [ do 10 ordered_tick order Hord;
    apply simulation_loop_done; vm_compute; reflexivity
  | vm_compute; split_and!;
    first [ reflexivity | discriminate | intro; discriminate
          | solve [repeat first [left; reflexivity | right]] ] ].

Lemma ranked_run debug_mode k0 k1 k2 :
  in_selection_order [k0; k1; k2] [0; 1; 2]%nat ->
  exists s,
    simulation_loop 2 debug_mode 1 TICK_DELAY_MS 11 (init_sim 1 (ranked k0 k1 k2))
    = Some (s, AllCompleted) /\
    trace_lines (console s) =
      (if debug_mode then
         [TraceLine 0 0 Started 0 k0.2 k0.1 4;
          TraceLine 2 0 Preempted 0 k0.2 k0.1 2;
          TraceLine 2 0 Started 0 k0.2 k0.1 2;
          TraceLine 4 0 Completed 0 k0.2 k0.1 0;
          TraceLine 4 0 Started 1 k1.2 k1.1 2;
          TraceLine 6 0 Completed 1 k1.2 k1.1 0;
          TraceLine 6 0 Started 2 k2.2 k2.1 3;
          TraceLine 8 0 Preempted 2 k2.2 k2.1 1;
          TraceLine 8 0 Started 2 k2.2 k2.1 1;
          TraceLine 9 0 Completed 2 k2.2 k2.1 0]
       else []) /\
    task_times s = [(0, 4); (4, 6); (6, 9)] /\
    map total_idle_time (cores s) = [1] /\
    simulation_time s = 10.
Proof.
  intros Hord. destruct k0 as [prio0 per0], k1 as [prio1 per1], k2 as [prio2 per2].
  destruct debug_mode; ordered_run [0; 1; 2]%nat Hord.
Qed.

Ltac eval_keys :=
  repeat match goal with
         | |- context [key_at ?l ?i] =>
             let v := eval vm_compute in (key_at l i) in
             change (key_at l i) with v
         end.

(** Whatever the keys, one of the six orders is the selection order. *)
Lemma beats_dec a b : beats a b \/ ~ beats a b.
Proof. unfold beats. lia. Qed.

Ltac solve_order :=
  cbn [in_selection_order]; rewrite !Forall_cons, !Forall_nil;
  unfold before; eval_keys; unfold beats in *; cbn [fst snd] in *;
  split_and!; try done; try lia; intros; lia.

Lemma selection_order_exists k0 k1 k2 :
  in_selection_order [k0; k1; k2] [0; 1; 2]%nat \/
  in_selection_order [k0; k1; k2] [0; 2; 1]%nat \/
  in_selection_order [k0; k1; k2] [1; 0; 2]%nat \/
  in_selection_order [k0; k1; k2] [1; 2; 0]%nat \/
  in_selection_order [k0; k1; k2] [2; 0; 1]%nat \/
  in_selection_order [k0; k1; k2] [2; 1; 0]%nat.
Proof.
  destruct (beats_dec k1 k0) as [H10|H10], (beats_dec k2 k0) as [H20|H20],
           (beats_dec k2 k1) as [H21|H21];
    destruct k0 as [a0 b0], k1 as [a1 b1], k2 as [a2 b2].
  - do 5 right. solve_order.
  - do 3 right. left. solve_order.
  - exfalso. unfold beats in *. cbn [fst snd] in *. lia.
  - do 2 right. left. solve_order.
  - do 4 right. left. solve_order.
  - exfalso. unfold beats in *. cbn [fst snd] in *. lia.
  - right. left. solve_order.
  - left. solve_order.
Qed.

(** Whatever the periods, the run executes the three tasks one after the
    other, each to completion, in selection order; it halts with the clock
    at 10 and the idle counter at 1, and never with the finish times 6, 4,
    9 of a rotation between task 0 and task 1. *)
Lemma scenario_any_periods debug_mode p0 p1 p2 :
  exists s,
    simulate_hybrid_scheduler 2 debug_mode (scenario_dag p0 p1 p2) 1
    = Some (s, AllCompleted) /\
    In (task_times s)
       [[(0, 4); (4, 6); (6, 9)]; [(0, 4); (7, 9); (4, 7)];
        [(2, 6); (0, 2); (6, 9)]; [(5, 9); (0, 2); (2, 5)];
        [(3, 7); (7, 9); (0, 3)]; [(5, 9); (3, 5); (0, 3)]] /\
    task_times s <> [(0, 6); (2, 4); (6, 9)] /\
    map total_idle_time (cores s) = [1] /\
    simulation_time s = 10.
Proof.
  rewrite scenario_dag_ranked.
  generalize (rms_priority (entered_period p0), entered_period p0).
  generalize (rms_priority (entered_period p1), entered_period p1).
  generalize (rms_priority (entered_period p2), entered_period p2).
  intros k2 k1 k0.
  assert (exists s,
    simulation_loop 2 debug_mode 1 TICK_DELAY_MS 11 (init_sim 1 (ranked k0 k1 k2))
    = Some (s, AllCompleted) /\
    In (task_times s)
       [[(0, 4); (4, 6); (6, 9)]; [(0, 4); (7, 9); (4, 7)];
        [(2, 6); (0, 2); (6, 9)]; [(5, 9); (0, 2); (2, 5)];
        [(3, 7); (7, 9); (0, 3)]; [(5, 9); (3, 5); (0, 3)]] /\
    task_times s <> [(0, 6); (2, 4); (6, 9)] /\
    map total_idle_time (cores s) = [1] /\
    simulation_time s = 10) as (s & Hrun & Hrest).
  { destruct (selection_order_exists k0 k1 k2)
      as [H | [H | [H | [H | [H | H]]]]];
      destruct k0 as [prio0 per0], k1 as [prio1 per1], k2 as [prio2 per2];
      destruct debug_mode.
    - ordered_run [0; 1; 2]%nat H.
    - ordered_run [0; 1; 2]%nat H.
    - ordered_run [0; 2; 1]%nat H.
    - ordered_run [0; 2; 1]%nat H.
    - ordered_run [1; 0; 2]%nat H.
    - ordered_run [1; 0; 2]%nat H.
    - ordered_run [1; 2; 0]%nat H.
    - ordered_run [1; 2; 0]%nat H.
    - ordered_run [2; 0; 1]%nat H.
    - ordered_run [2; 0; 1]%nat H.
    - ordered_run [2; 1; 0]%nat H.
    - ordered_run [2; 1; 0]%nat H. }
  exists s. split; [|exact Hrest].
  unfold simulate_hybrid_scheduler, run_simulation.
  replace run_fuel with (11 + (run_fuel - 11))%nat by (vm_compute; reflexivity).
  by apply simulation_loop_more_fuel.
Qed.

(** C1 (as stated, refuted). With the three periods equal (100) the run
    does not interleave task 1 between the two slices of task 0: the
    finish times are 4, 6, 9 for tasks 0, 1, 2, not 6, 4, 9, and the idle
    counter of the core is 1 when the loop halts, not 0. The same times
    result when the quantum 2 is entered at the menu, where [main]
    replaces it by 50. *)
Lemma scenario_schedule_not_round_robin :
  exists s s',
    simulate_hybrid_scheduler 2 true (three_tasks 100) 1 = Some (s, AllCompleted) /\
    task_times s = [(0, 4); (4, 6); (6, 9)] /\
    task_times s <> [(0, 6); (2, 4); (6, 9)] /\
    map total_idle_time (cores s) = [1] /\
    map total_idle_time (cores s) <> [0] /\
    checked_quantum 2 = 50 /\
    simulate_hybrid_scheduler (checked_quantum 2) true (three_tasks 100)
      (checked_num_cores 1) = Some (s', AllCompleted) /\
    task_times s' = [(0, 4); (4, 6); (6, 9)] /\
    map total_idle_time (cores s') = [1].
Proof.
  eexists _, _. split; [vm_compute; reflexivity|].
  split; [reflexivity|]. split; [discriminate|]. split; [reflexivity|].
  split; [discriminate|]. split; [reflexivity|].
  split; [vm_compute; reflexivity|]. split; reflexivity.
Qed.

(** C1 (amended). Three tasks of durations 4, 2, 3 whose periods let the
    selection rank them task 0, task 1, task 2 (no task is preferred to
    one of smaller id; three equal periods do), no dependencies, 1 core,
    quantum 2. Task 0 runs ticks [0,2), is preempted with 2 remaining and
    is selected again at once; it runs [2,4) and completes with finish
    time 4. Task 1 runs [4,6) and completes with finish time 6. Task 2
    runs [6,8), is preempted with 1 remaining, is selected again at once,
    runs [8,9) and completes with finish time 9. The iteration that
    records this last completion finds nothing to start, so the loop halts
    with the clock at 10 and the idle counter of the core at 1. The trace
    lines are printed in debug mode only; the times and counters do not
    depend on it. *)
Theorem scenario_schedule (debug_mode : bool) (p0 p1 p2 : Z) :
  let k0 := (rms_priority (entered_period p0), entered_period p0) in
  let k1 := (rms_priority (entered_period p1), entered_period p1) in
  let k2 := (rms_priority (entered_period p2), entered_period p2) in
  ~ beats k1 k0 -> ~ beats k2 k0 -> ~ beats k2 k1 ->
  exists s,
    simulate_hybrid_scheduler 2 debug_mode (scenario_dag p0 p1 p2) 1
    = Some (s, AllCompleted) /\
    trace_lines (console s) =
      (if debug_mode then
         [TraceLine 0 0 Started 0 k0.2 k0.1 4;
          TraceLine 2 0 Preempted 0 k0.2 k0.1 2;
          TraceLine 2 0 Started 0 k0.2 k0.1 2;
          TraceLine 4 0 Completed 0 k0.2 k0.1 0;
          TraceLine 4 0 Started 1 k1.2 k1.1 2;
          TraceLine 6 0 Completed 1 k1.2 k1.1 0;
          TraceLine 6 0 Started 2 k2.2 k2.1 3;
          TraceLine 8 0 Preempted 2 k2.2 k2.1 1;
          TraceLine 8 0 Started 2 k2.2 k2.1 1;
          TraceLine 9 0 Completed 2 k2.2 k2.1 0]
       else []) /\
    task_times s = [(0, 4); (4, 6); (6, 9)] /\
    map total_idle_time (cores s) = [1] /\
    simulation_time s = 10.
Proof.
  intros k0 k1 k2 H10 H20 H21. rewrite scenario_dag_ranked.
  fold k0. fold k1. fold k2. clearbody k0 k1 k2.
  destruct (ranked_run debug_mode k0 k1 k2) as (s & Hrun & Hrest).
  { solve_order. }
  exists s. split; [|exact Hrest].
  unfold simulate_hybrid_scheduler, run_simulation.
  replace run_fuel with (11 + (run_fuel - 11))%nat by (vm_compute; reflexivity).
  by apply simulation_loop_more_fuel.
Qed.

Lemma scenario_schedule_witness :
  exists s,
    simulate_hybrid_scheduler 2 true (three_tasks 100) 1 = Some (s, AllCompleted) /\
    trace_lines (console s) =
      [TraceLine 0 0 Started 0 100 10 4;
       TraceLine 2 0 Preempted 0 100 10 2;
       TraceLine 2 0 Started 0 100 10 2;
       TraceLine 4 0 Completed 0 100 10 0;
       TraceLine 4 0 Started 1 100 10 2;
       TraceLine 6 0 Completed 1 100 10 0;
       TraceLine 6 0 Started 2 100 10 3;
       TraceLine 8 0 Preempted 2 100 10 1;
       TraceLine 8 0 Started 2 100 10 1;
       TraceLine 9 0 Completed 2 100 10 0] /\
    task_times s = [(0, 4); (4, 6); (6, 9)] /\
    map total_idle_time (cores s) = [1] /\
    simulation_time s = 10.
Proof.
  apply (scenario_schedule true 100 100 100);
    unfold beats; cbn; lia.
Defined.

(** * Further properties of the scheduler engine *)

(** ** A scheme for invariants of a run *)

Lemma set_simulation_time_inv s v :
  engine_inv s -> simulation_time s <= v -> engine_inv (set_simulation_time v s).
Proof.
  intros [Hb Ht] Hv. split; [exact Hb|].
  cbn [set_simulation_time dag simulation_time].
  eapply Forall_impl; [exact Ht|]. intros t Hok.
  by apply (task_ok_later (simulation_time s)).
Qed.

Lemma fold_left_seq_invariant {A} (Q : nat -> A -> Prop) (f : A -> nat -> A)
    (n : nat) (a : A) :
  Q 0%nat a ->
  (forall j a, (j < n)%nat -> Q j a -> Q (S j) (f a j)) ->
  Q n (fold_left f (seq 0 n) a).
Proof.
  intros H0 Hstep. induction n as [|n IH]; [done|].
  rewrite seq_S, fold_left_app. cbn [fold_left Nat.add]. apply Hstep; [lia|].
  apply IH. intros j a' Hj. apply Hstep. lia.
Qed.

(** The end of an iteration, for a property that each of its steps keeps. *)
Section EndOfTick.

Variables (num_cores tick_delay : Z).
Variable P : Sim -> Prop.

Hypothesis P_clock : forall s,
  engine_inv s -> 0 <= simulation_time s <= TIME_LIMIT -> P s ->
  P (set_simulation_time (simulation_time s + 1) s).
Hypothesis P_idle : forall s i, engine_inv s -> P s -> P (count_idle s i).
Hypothesis P_print : forall s out, P s -> P (print out s).

Lemma end_of_tick_invariant s :
  engine_inv s -> 0 <= simulation_time s <= TIME_LIMIT -> P s ->
  P (end_of_tick num_cores tick_delay s).
Proof.
  intros Hinv Htime HP. unfold end_of_tick. apply P_print.
  rewrite int_add_1 by done.
  assert (engine_inv (set_simulation_time (simulation_time s + 1) s)) as Hinv'
    by (apply set_simulation_time_inv; [done | lia]).
  assert (engine_inv (fold_left count_idle (core_ids num_cores)
                        (set_simulation_time (simulation_time s + 1) s)) /\
          P (fold_left count_idle (core_ids num_cores)
               (set_simulation_time (simulation_time s + 1) s))) as [_ H].
  { apply (fold_left_invariant (fun s' => engine_inv s' /\ P s')).
    - intros a b [Ha HPa]. split; [by apply count_idle_inv | by apply P_idle].
    - split; [done | by apply P_clock]. }
  match goal with
  | |- context [if ?b then _ else _] => destruct b
  end; [by apply P_print | done].
Qed.

End EndOfTick.

(** The two passes over the cores, for a property that each step keeps. *)
Section TickInvariant.

Variables (quantum : Z) (debug_mode : bool) (num_cores tick_delay : Z).
Variable P : Sim -> Prop.

Hypothesis P_check : forall s i,
  engine_inv s -> P s -> P (check_completed debug_mode s i).
Hypothesis P_assign : forall s i,
  engine_inv s -> P s -> P (assign_idle quantum debug_mode s i).
Hypothesis P_end : forall s,
  engine_inv s -> 0 <= simulation_time s <= TIME_LIMIT -> P s ->
  P (end_of_tick num_cores tick_delay s).

Lemma advance_phase_invariant l s :
  engine_inv s -> P s ->
  engine_inv (fold_left (check_completed debug_mode) l s) /\
  P (fold_left (check_completed debug_mode) l s) /\
  simulation_time (fold_left (check_completed debug_mode) l s)
  = simulation_time s.
Proof.
  intros Hinv HP.
  apply (fold_left_invariant
           (fun s' => engine_inv s' /\ P s' /\ simulation_time s' = simulation_time s));
    [|done].
  intros a b (Ha & HPa & <-). split_and!.
  - by apply check_completed_inv.
  - by apply P_check.
  - apply check_completed_time.
Qed.

Lemma assign_phase_invariant l s :
  engine_inv s -> P s ->
  engine_inv (fold_left (assign_idle quantum debug_mode) l s) /\
  P (fold_left (assign_idle quantum debug_mode) l s) /\
  simulation_time (fold_left (assign_idle quantum debug_mode) l s)
  = simulation_time s.
Proof.
  intros Hinv HP.
  apply (fold_left_invariant
           (fun s' => engine_inv s' /\ P s' /\ simulation_time s' = simulation_time s));
    [|done].
  intros a b (Ha & HPa & <-). split_and!.
  - by apply assign_idle_inv.
  - by apply P_assign.
  - apply assign_idle_time.
Qed.

Lemma simulation_tick_invariant s :
  engine_inv s -> 0 <= simulation_time s <= TIME_LIMIT -> P s ->
  P (simulation_tick quantum debug_mode num_cores tick_delay s).
Proof.
  intros Hinv Htime HP. unfold simulation_tick.
  destruct (advance_phase_invariant (core_ids num_cores) s Hinv HP)
    as (Hinv1 & HP1 & Ht1).
  destruct (assign_phase_invariant (core_ids num_cores) _ Hinv1 HP1)
    as (Hinv2 & HP2 & Ht2).
  apply P_end; [done | | done]. rewrite Ht2, Ht1. done.
Qed.

End TickInvariant.

(** A property that an iteration keeps holds along the loop. *)
Section LoopInvariant.

Variables (quantum : Z) (debug_mode : bool) (num_cores tick_delay : Z).
Variable P : Sim -> Prop.

Hypothesis P_tick : forall s,
  engine_inv s -> 0 <= simulation_time s <= TIME_LIMIT -> P s ->
  P (simulation_tick quantum debug_mode num_cores tick_delay s).
Hypothesis P_print : forall s out, P s -> P (print out s).

Lemma simulation_loop_invariant fuel s s' e :
  engine_inv s -> 0 <= simulation_time s <= TIME_LIMIT -> P s ->
  simulation_loop quantum debug_mode num_cores tick_delay fuel s = Some (s', e) ->
  P s'.
Proof.
  revert s. induction fuel as [|fuel IH]; intros s Hinv Htime HP; [done|].
  cbn [simulation_loop].
  destruct (completed_tasks s <? num_tasks (dag s)); [|by intros [= <- <-]].
  pose proof (simulation_tick_inv quantum debug_mode num_cores tick_delay s
                Hinv Htime) as Hinv'.
  pose proof (P_tick s Hinv Htime HP) as HP'.
  pose proof (simulation_tick_time quantum debug_mode num_cores tick_delay s)
    as Htick.
  rewrite int_add_1 in Htick by done.
  destruct (Z.gtb_spec
              (simulation_time
                 (simulation_tick quantum debug_mode num_cores tick_delay s))
              TIME_LIMIT).
  - intros [= <- <-]. by apply P_print.
  - apply IH; [done | lia | done].
Qed.

End LoopInvariant.

(** Such a property holds in every state of a run at the head of the
    loop and in the state the run ends in. *)
Section RunInvariant.

Variables (quantum : Z) (debug_mode : bool) (num_cores : Z).
Variable P : Sim -> Prop.

Hypothesis P_tick : forall s,
  engine_inv s -> 0 <= simulation_time s <= TIME_LIMIT -> P s ->
  P (simulation_tick quantum debug_mode num_cores TICK_DELAY_MS s).

Lemma state_after_invariant g m :
  P (init_sim num_cores g) ->
  Z.of_nat m <= 10001 ->
  P (state_after m quantum debug_mode num_cores g).
Proof.
  intros Hinit. unfold state_after. induction m as [|m IH]; intros Hm; [done|].
  rewrite Nat.iter_succ.
  destruct (state_after_inv quantum debug_mode num_cores m g) as [Hinv Htime];
    [lia|].
  unfold state_after in Hinv, Htime.
  apply P_tick; try done.
  - rewrite Htime. unfold TIME_LIMIT. lia.
  - apply IH. lia.
Qed.

Lemma run_invariant g s e :
  (forall s out, P s -> P (print out s)) ->
  P (init_sim num_cores g) ->
  simulate_hybrid_scheduler quantum debug_mode g num_cores = Some (s, e) ->
  P s.
Proof.
  intros P_print Hinit Hrun.
  apply (simulation_loop_invariant quantum debug_mode num_cores TICK_DELAY_MS P
           P_tick P_print run_fuel (init_sim num_cores g) s e); try done.
  all: try apply init_sim_inv.
  all: cbn; unfold TIME_LIMIT; lia.
Qed.

End RunInvariant.

(** ** The states a run ends in *)

Lemma state_after_S m quantum debug_mode num_cores g :
  state_after (S m) quantum debug_mode num_cores g
  = simulation_tick quantum debug_mode num_cores TICK_DELAY_MS
      (state_after m quantum debug_mode num_cores g).
Proof. unfold state_after. by rewrite Nat.iter_succ. Qed.

Lemma same_schedule_refl s : same_schedule s s.
Proof. done. Qed.

Lemma same_schedule_print s out : same_schedule (print out s) s.
Proof. done. Qed.

(** The loop, entered at the head state [m], ends in a later head state;
    on exhaustion of the time limit that state is the one after 10001
    iterations, and the count was short at the head before it. *)
Lemma simulation_loop_ends quantum debug_mode num_cores g fuel m s e :
  Z.of_nat m <= 10000 ->
  simulation_loop quantum debug_mode num_cores TICK_DELAY_MS fuel
    (state_after m quantum debug_mode num_cores g) = Some (s, e) ->
  exists m', (m <= m')%nat /\
    same_schedule s (state_after m' quantum debug_mode num_cores g) /\
    match e with
    | AllCompleted =>
        Z.of_nat m' <= 10000 /\ num_tasks (dag s) <= completed_tasks s
    | TimeLimitExceeded =>
        Z.of_nat m' = 10001 /\
        exists s0, s0 = state_after (Nat.pred m') quantum debug_mode num_cores g /\
          completed_tasks s0 < num_tasks (dag s0)
    end.
Proof.
  revert m. induction fuel as [|fuel IH]; intros m Hm; [done|].
  cbn [simulation_loop].
  destruct (Z.ltb_spec (completed_tasks (state_after m quantum debug_mode num_cores g))
              (num_tasks (dag (state_after m quantum debug_mode num_cores g))))
    as [Hshort|Hall].
  2:{ intros [= <- <-]. exists m. split_and!; [lia | done | lia | lia]. }
  rewrite <- state_after_S.
  destruct (state_after_inv quantum debug_mode num_cores (S m) g) as [_ Htime];
    [lia|].
  rewrite Htime.
  destruct (Z.gtb_spec (Z.of_nat (S m)) TIME_LIMIT) as [Hover|Hin].
  - intros [= <- <-]. exists (S m). unfold TIME_LIMIT in Hover.
    split_and!; [lia | done | lia |]. eexists. split; [reflexivity|]. done.
  - intros Hrun. unfold TIME_LIMIT in Hin.
    destruct (IH (S m)) as (m' & Hle & Hrest); [lia | done |].
    exists m'. split; [lia | done].
Qed.

Lemma run_ends quantum debug_mode num_cores g s e :
  simulate_hybrid_scheduler quantum debug_mode g num_cores = Some (s, e) ->
  exists m,
    same_schedule s (state_after m quantum debug_mode num_cores g) /\
    match e with
    | AllCompleted =>
        Z.of_nat m <= 10000 /\ num_tasks (dag s) <= completed_tasks s
    | TimeLimitExceeded =>
        Z.of_nat m = 10001 /\
        exists s0, s0 = state_after (Nat.pred m) quantum debug_mode num_cores g /\
          completed_tasks s0 < num_tasks (dag s0)
    end.
Proof.
  intros Hrun.
  destruct (simulation_loop_ends quantum debug_mode num_cores g run_fuel 0 s e)
    as (m & _ & H); [lia | exact Hrun | by exists m].
Qed.

(** ** The per-core steps, case by case *)

(** The first pass leaves a missing or idle core alone; on a running core
    it takes one of three branches. *)
Lemma check_completed_cases debug_mode s i :
  engine_inv s ->
  (check_completed debug_mode s i = s /\
   forall c, cores s !! i = Some c -> is_idle c = true) \/
  exists c k t,
    cores s !! i = Some c /\ is_idle c = false /\ current_task c = Some k /\
    tasks (dag s) !! k = Some t /\ completed t = false /\
    core_assigned t = Z.of_nat i /\ ready (dag s) k /\
    task_ok (simulation_time s) t /\
    ((int_sub (remaining_time t) 1 <= 0 /\
      check_completed debug_mode s i =
        mkSim (set_tasks (<[k := set_finish_time (simulation_time s)
                                   (set_core_assigned (-1) (set_completed true (set_remaining_time (int_sub (remaining_time t) 1) t)))]>
                            (tasks (dag s))) (dag s))
              (<[i := mkCore (core_id c) None 0 true (total_idle_time c)]> (cores s))
              (simulation_time s)
              (int_add (completed_tasks s) 1)
              (console s
                 ++ print_execution_trace debug_mode (simulation_time s)
                      (Z.of_nat i)
                      (set_finish_time (simulation_time s)
                         (set_core_assigned (-1) (set_completed true (set_remaining_time (int_sub (remaining_time t) 1) t))))
                      Completed
                 ++ [CompletedLine (task_id t) (Z.of_nat i) (duration t)
                       (period t) (priority t)])) \/
     (0 < int_sub (remaining_time t) 1 /\
      int_sub (time_slice_remaining c) 1 <= 0 /\
      check_completed debug_mode s i =
        mkSim (set_tasks (<[k := set_core_assigned (-1) (set_remaining_time (int_sub (remaining_time t) 1) t)]> (tasks (dag s))) (dag s))
              (<[i := mkCore (core_id c) None (int_sub (time_slice_remaining c) 1)
                        true (total_idle_time c)]> (cores s))
              (simulation_time s)
              (completed_tasks s)
              (console s
                 ++ print_execution_trace debug_mode (simulation_time s)
                      (Z.of_nat i) (set_remaining_time (int_sub (remaining_time t) 1) t) Preempted)) \/
     (0 < int_sub (remaining_time t) 1 /\
      0 < int_sub (time_slice_remaining c) 1 /\
      check_completed debug_mode s i =
        mkSim (set_tasks (<[k := set_remaining_time (int_sub (remaining_time t) 1) t]> (tasks (dag s))) (dag s))
              (<[i := mkCore (core_id c) (Some k) (int_sub (time_slice_remaining c) 1)
                        false (total_idle_time c)]> (cores s))
              (simulation_time s)
              (completed_tasks s)
              (console s))).
Proof.
  intros [Hcores Htasks].
  destruct (cores s !! i) as [c|] eqn:Hcore;
    [|left; unfold check_completed; by rewrite Hcore].
  destruct (is_idle c) eqn:Hidle.
  { left. unfold check_completed. rewrite Hcore, Hidle. split; [done|].
    by intros c' [= <-]. }
  destruct (Hcores i c Hcore Hidle) as (k & t & Hcur & Htask & Hc & Ha & Hr).
  pose proof (Forall_lookup_1 _ _ _ _ Htasks Htask) as Hok.
  right. exists c, k, t. split_and!; try done.
  destruct (Z.le_gt_cases (int_sub (remaining_time t) 1) 0) as [Hdone|Hleft].
  { left. split; [done|]. by apply check_completed_completes. }
  right.
  destruct (Z.le_gt_cases (int_sub (time_slice_remaining c) 1) 0)
    as [Hslice|Hslice].
  - left. split_and!; try done. by apply check_completed_preempts.
  - right. split_and!; try done. by apply check_completed_continues.
Qed.

(** The second pass leaves a core alone unless it is idle and the
    selection finds a task, which it then starts on the core. *)
Lemma assign_idle_cases quantum debug_mode s i :
  (assign_idle quantum debug_mode s i = s /\
   forall c, cores s !! i = Some c -> is_idle c = true ->
     find_highest_priority_ready_task (dag s) = -1) \/
  exists c k t,
    cores s !! i = Some c /\ is_idle c = true /\
    find_highest_priority_ready_task (dag s) = Z.of_nat k /\
    candidate (dag s) k t /\ completed t = false /\
    assign_idle quantum debug_mode s i =
      mkSim (set_tasks (<[k := if start_time t =? -1
                               then set_start_time (simulation_time s)
                                      (set_core_assigned (Z.of_nat i) t)
                               else set_core_assigned (Z.of_nat i) t]>
                          (tasks (dag s))) (dag s))
            (<[i := mkCore (core_id c) (Some k) quantum false (total_idle_time c)]>
               (cores s))
            (simulation_time s)
            (completed_tasks s)
            (console s
               ++ print_execution_trace debug_mode (simulation_time s) (Z.of_nat i)
                    (if start_time t =? -1
                     then set_start_time (simulation_time s)
                            (set_core_assigned (Z.of_nat i) t)
                     else set_core_assigned (Z.of_nat i) t) Started
               ++ [ExecutingLine (task_id t) (Z.of_nat i) (period t) (priority t)]).
Proof.
  destruct (cores s !! i) as [c|] eqn:Hcore;
    [|left; unfold assign_idle; by rewrite Hcore].
  destruct (is_idle c) eqn:Hidle.
  2:{ left. unfold assign_idle. rewrite Hcore, Hidle. split; [done|].
      intros c' [= <-]. congruence. }
  destruct (find_highest_priority_ready_task_cases (dag s))
    as [[Hnone _] | (k & t & Hsel & (Htask & Hready & Ha) & _)].
  { left. unfold assign_idle. by rewrite Hcore, Hidle, Hnone. }
  pose proof Hready as (t0 & Ht0 & Hc & _).
  assert (t0 = t) as -> by congruence.
  right. exists c, k, t. split_and!; try done.
  by rewrite (assign_idle_starts quantum debug_mode s i c k t Hcore Hidle Hsel Htask).
Qed.

(** The third pass counts a tick for an idle core and nothing else. *)
Lemma count_idle_cases s i :
  count_idle s i = s \/
  exists c, cores s !! i = Some c /\ is_idle c = true /\
    count_idle s i =
      set_core i (mkCore (core_id c) (current_task c) (time_slice_remaining c)
                         true (int_add (total_idle_time c) 1)) s.
Proof.
  unfold count_idle. destruct (cores s !! i) as [c|] eqn:Hcore; [|by left].
  destruct (is_idle c) eqn:Hidle; [|by left].
  right. by exists c.
Qed.

(** ** Tasks and cores agree on who runs what *)

Lemma binding_update s i c c' k t t' time' count' out' :
  binding_inv s ->
  cores s !! i = Some c ->
  tasks (dag s) !! k = Some t ->
  core_assigned t = Z.of_nat i \/ (core_assigned t = -1 /\ is_idle c = true) ->
  (is_idle c' = true /\ current_task c' = None /\ core_assigned t' = -1) \/
  (is_idle c' = false /\ current_task c' = Some k /\
   core_assigned t' = Z.of_nat i /\ completed t' = false) ->
  binding_inv (mkSim (set_tasks (<[k := t']> (tasks (dag s))) (dag s))
                     (<[i := c']> (cores s)) time' count' out').
Proof.
  intros [Htb Hiu] Hcore Htask Hown Hnew.
  pose proof (lookup_lt_Some _ _ _ Hcore) as Hi.
  pose proof (lookup_lt_Some _ _ _ Htask) as Hk.
  split.
  - intros k' t''. cbn [dag tasks set_tasks cores].
    destruct (decide (k = k')) as [<-|Hne].
    + rewrite list_lookup_insert_eq by done. intros [= <-].
      destruct Hnew as [(Hidle & Hcur & Ha) | (Hidle & Hcur & Ha & Hc)].
      * split; [done | by left].
      * split; [congruence|]. right. exists i, c'.
        rewrite list_lookup_insert_eq by done. done.
    + rewrite list_lookup_insert_ne by done. intros Ht''.
      destruct (Htb k' t'' Ht'') as [Hdone Hb]. split; [done|].
      destruct Hb as [Hb | (i' & c'' & Ha & Hc'' & Hidle & Hcur)]; [by left|].
      right. exists i', c''. split_and!; try done.
      rewrite list_lookup_insert_ne; [done|]. intros <-.
      assert (c'' = c) as -> by congruence.
      destruct Hown as [Hown | [_ Hown]]; [|congruence].
      destruct (Htb k t Htask) as [_ [Hb | (i0 & c0 & Ha0 & Hc0 & _ & Hcur0)]];
        [lia|].
      assert (i0 = i) as -> by lia. congruence.
  - intros i' c''. cbn [cores].
    destruct (decide (i = i')) as [<-|Hne].
    + rewrite list_lookup_insert_eq by done. intros [= <-] Hidle.
      destruct Hnew as [(_ & Hcur & _) | (Hrun & _)]; [done | congruence].
    + rewrite list_lookup_insert_ne by done. apply Hiu.
Qed.

Lemma binding_update_core s i c c' :
  binding_inv s ->
  cores s !! i = Some c ->
  is_idle c' = is_idle c -> current_task c' = current_task c ->
  binding_inv (set_core i c' s).
Proof.
  intros [Htb Hiu] Hcore Hidle Hcur.
  pose proof (lookup_lt_Some _ _ _ Hcore) as Hi.
  split.
  - intros k t Ht. cbn [set_core dag cores] in *.
    destruct (Htb k t Ht) as [Hdone Hb]. split; [done|].
    destruct Hb as [Hb | (i' & c'' & Ha & Hc'' & Hidle' & Hcur')]; [by left|].
    right. destruct (decide (i = i')) as [<-|Hne].
    + exists i, c'. rewrite list_lookup_insert_eq by done.
      assert (c'' = c) as -> by congruence. split_and!; congruence.
    + exists i', c''. by rewrite list_lookup_insert_ne.
  - intros i' c''. cbn [set_core cores].
    destruct (decide (i = i')) as [<-|Hne].
    + rewrite list_lookup_insert_eq by done. intros [= <-] Hidle'.
      rewrite Hcur. apply (Hiu i c Hcore). congruence.
    + rewrite list_lookup_insert_ne by done. apply Hiu.
Qed.

Lemma binding_inv_ext s s' :
  dag s' = dag s -> cores s' = cores s -> binding_inv s -> binding_inv s'.
Proof.
  unfold binding_inv, tasks_bound, idle_unbound. by intros -> ->.
Qed.

Lemma check_completed_binding debug_mode s i :
  engine_inv s -> binding_inv s -> binding_inv (check_completed debug_mode s i).
Proof.
  intros Hinv Hb.
  destruct (check_completed_cases debug_mode s i Hinv)
    as [[-> _] | (c & k & t & Hcore & Hidle & Hcur & Htask & Hc & Ha & Hr & Hok &
              [(_ & ->) | [(_ & _ & ->) | (_ & _ & ->)]])]; [done| ..].
  all: apply (binding_update s i c _ k t); try done; [by left|].
  - by left.
  - by left.
  - right. done.
Qed.

Lemma assign_idle_binding quantum debug_mode s i :
  binding_inv s -> binding_inv (assign_idle quantum debug_mode s i).
Proof.
  intros Hb.
  destruct (assign_idle_cases quantum debug_mode s i)
    as [[-> _] | (c & k & t & Hcore & Hidle & Hsel & (Htask & Hr & Ha) & Hc & ->)];
    [done|].
  apply (binding_update s i c _ k t); try done; [by right|].
  right. by destruct (start_time t =? -1).
Qed.

Lemma count_idle_binding s i : binding_inv s -> binding_inv (count_idle s i).
Proof.
  intros Hb.
  destruct (count_idle_cases s i) as [-> | (c & Hcore & Hidle & ->)]; [done|].
  by apply (binding_update_core s i c).
Qed.

Lemma init_sim_binding num_cores g : binding_inv (init_sim num_cores g).
Proof.
  split.
  - intros k t. cbn [init_sim dag reset_dag_execution tasks set_tasks].
    rewrite list_lookup_fmap. destruct (tasks g !! k); [|done].
    intros [= <-]. split; [done | by left].
  - intros i c. cbn [init_sim cores]. rewrite list_lookup_fmap.
    destruct (seq 0 (Z.to_nat num_cores) !! i); [|done].
    by intros [= <-].
Qed.

Lemma simulation_tick_binding quantum debug_mode num_cores tick_delay s :
  engine_inv s -> 0 <= simulation_time s <= TIME_LIMIT ->
  binding_inv s ->
  binding_inv (simulation_tick quantum debug_mode num_cores tick_delay s).
Proof.
  apply simulation_tick_invariant.
  - apply check_completed_binding.
  - intros s' i _. apply assign_idle_binding.
  - apply end_of_tick_invariant.
    + intros s' _ _. by apply binding_inv_ext.
    + intros s' i _. apply count_idle_binding.
    + intros s' out. by apply binding_inv_ext.
Qed.

Lemma state_after_binding quantum debug_mode num_cores g m :
  Z.of_nat m <= 10001 ->
  binding_inv (state_after m quantum debug_mode num_cores g).
Proof.
  apply state_after_invariant.
  - apply simulation_tick_binding.
  - apply init_sim_binding.
Qed.

Lemma in_run_invariant quantum debug_mode num_cores g (P : Sim -> Prop) s :
  (forall s, engine_inv s -> 0 <= simulation_time s <= TIME_LIMIT -> P s ->
     P (simulation_tick quantum debug_mode num_cores TICK_DELAY_MS s)) ->
  (forall s out, P s -> P (print out s)) ->
  P (init_sim num_cores g) ->
  in_run quantum debug_mode num_cores g s -> P s.
Proof.
  intros Htick Hprint Hinit [(m & Hm & ->) | (e & Hrun)].
  - by apply state_after_invariant.
  - by apply (run_invariant quantum debug_mode num_cores P Htick g s e).
Qed.

Lemma in_run_inv quantum debug_mode num_cores g s :
  in_run quantum debug_mode num_cores g s -> engine_inv s.
Proof.
  intros [(m & Hm & ->) | (e & Hrun)].
  - by apply state_after_inv.
  - apply (simulation_loop_inv quantum debug_mode num_cores TICK_DELAY_MS run_fuel
             (init_sim num_cores g) s e); [apply init_sim_inv | | exact Hrun].
    cbn. unfold TIME_LIMIT. lia.
Qed.

Lemma in_run_time quantum debug_mode num_cores g s :
  in_run quantum debug_mode num_cores g s -> 0 <= simulation_time s <= 10001.
Proof.
  intros [(m & Hm & ->) | (e & Hrun)].
  - destruct (state_after_inv quantum debug_mode num_cores m g Hm) as [_ ->]. lia.
  - destruct (run_ends _ _ _ _ _ _ Hrun) as (m & (_ & _ & -> & _) & Hm).
    assert (Z.of_nat m <= 10001) as Hle by (destruct e; lia).
    destruct (state_after_inv quantum debug_mode num_cores m g Hle) as [_ ->]. lia.
Qed.

Lemma in_run_binding quantum debug_mode num_cores g s :
  in_run quantum debug_mode num_cores g s -> binding_inv s.
Proof.
  apply in_run_invariant.
  - apply simulation_tick_binding.
  - intros s' out. by apply binding_inv_ext.
  - apply init_sim_binding.
Qed.

(** X1. Between the iterations of a run and when it ends, tasks and cores
    agree on who runs what: a running core holds a task that is not
    completed and whose [core_assigned] is this core; an idle core holds
    no task; a task whose [core_assigned] is not -1 is the current task of
    that core, which is running; a completed task has [core_assigned] -1.
    So no task is on two cores at once. *)
Theorem task_core_agreement (quantum : Z) (debug_mode : bool) (num_cores : Z)
    (g : DAG) (s : Sim) :
  in_run quantum debug_mode num_cores g s ->
  (forall i c, cores s !! i = Some c -> is_idle c = false ->
     exists k t, current_task c = Some k /\ tasks (dag s) !! k = Some t /\
       completed t = false /\ core_assigned t = Z.of_nat i) /\
  (forall i c, cores s !! i = Some c -> is_idle c = true ->
     current_task c = None) /\
  (forall k t, tasks (dag s) !! k = Some t -> core_assigned t <> -1 ->
     exists i c, core_assigned t = Z.of_nat i /\ cores s !! i = Some c /\
       is_idle c = false /\ current_task c = Some k) /\
  (forall k t, tasks (dag s) !! k = Some t -> completed t = true ->
     core_assigned t = -1) /\
  (forall i j ci cj k,
     cores s !! i = Some ci -> cores s !! j = Some cj ->
     is_idle ci = false -> is_idle cj = false ->
     current_task ci = Some k -> current_task cj = Some k -> i = j).
Proof.
  intros Hrun.
  pose proof (in_run_inv _ _ _ _ _ Hrun) as [Hcores _].
  pose proof (in_run_binding _ _ _ _ _ Hrun) as [Htb Hiu].
  split_and!.
  - intros i c Hc Hbusy.
    destruct (Hcores i c Hc Hbusy) as (k & t & ? & ? & ? & ? & _).
    by exists k, t.
  - exact Hiu.
  - intros k t Ht Ha. by destruct (Htb k t Ht) as [_ [?|?]].
  - intros k t Ht. by destruct (Htb k t Ht) as [? _].
  - intros i j ci cj k Hi Hj Hbi Hbj Hki Hkj.
    destruct (Hcores i ci Hi Hbi) as (k1 & t1 & ? & ? & _ & ? & _).
    destruct (Hcores j cj Hj Hbj) as (k2 & t2 & ? & ? & _ & ? & _).
    assert (k1 = k) as -> by congruence. assert (k2 = k) as -> by congruence.
    assert (t1 = t2) as -> by congruence. lia.
Qed.

Lemma task_core_agreement_witness :
  in_run 2 true 2 (three_tasks 100) (state_after 2 2 true 2 (three_tasks 100)) /\
  (forall k t,
     tasks (dag (state_after 2 2 true 2 (three_tasks 100))) !! k = Some t ->
     core_assigned t <> -1 ->
     exists i c, core_assigned t = Z.of_nat i /\
       cores (state_after 2 2 true 2 (three_tasks 100)) !! i = Some c /\
       is_idle c = false /\ current_task c = Some k).
Proof.
  assert (in_run 2 true 2 (three_tasks 100)
            (state_after 2 2 true 2 (three_tasks 100))) as Hrun.
  { left. exists 2%nat. split; [lia | reflexivity]. }
  split; [exact Hrun|].
  exact (proj1 (proj2 (proj2
           (task_core_agreement 2 true 2 (three_tasks 100) _ Hrun)))).
Defined.

(** ** Sums *)

Lemma total_insert {A} (f : A -> Z) l k x old :
  l !! k = Some old -> total f (<[k := x]> l) = total f l - f old + f x.
Proof.
  unfold total. revert k. induction l as [|a l IH]; intros [|k]; try done.
  - intros [= ->]. cbn. lia.
  - intros H. change (f a + foldr (fun a n => f a + n) 0 (<[k := x]> l)
                      = f a + foldr (fun a n => f a + n) 0 l - f old + f x).
    rewrite (IH k H). lia.
Qed.

Lemma total_bounds {A} (f : A -> Z) l a b :
  (forall x, x ∈ l -> a <= f x <= b) ->
  a * Z.of_nat (length l) <= total f l <= b * Z.of_nat (length l).
Proof.
  unfold total. induction l as [|x l IH]; intros H; cbn [foldr length]; [lia|].
  pose proof (H x ltac:(left)) as Hx.
  destruct IH as [IH1 IH2]; [intros y Hy; apply H; by right|].
  lia.
Qed.

Lemma total_ext {A} (f g : A -> Z) l :
  (forall x, x ∈ l -> f x = g x) -> total f l = total g l.
Proof.
  unfold total. induction l as [|x l IH]; intros H; cbn; [done|].
  rewrite (H x) by left. rewrite IH; [done|].
  intros y Hy. apply H. by right.
Qed.

Lemma total_fmap {A B} (f : B -> Z) (h : A -> B) l :
  total f (h <$> l) = total (fun a => f (h a)) l.
Proof. unfold total. induction l as [|x l IH]; cbn; [done|]. by rewrite IH. Qed.

Lemma total_zero {A} (f : A -> Z) l :
  (forall x, x ∈ l -> f x = 0) -> total f l = 0.
Proof.
  intros H. pose proof (total_bounds f l 0 0) as Hb.
  destruct Hb; [intros x Hx; rewrite (H x Hx); lia | lia].
Qed.

(** ** The completed count *)

Lemma count_completed_bounds g : 0 <= count_completed g <= num_tasks g.
Proof.
  unfold count_completed, num_tasks.
  pose proof (total_bounds (fun t => if completed t then 1 else 0) (tasks g) 0 1)
    as H.
  destruct H; [intros t _; destruct (completed t); lia | lia].
Qed.

Lemma count_completed_open g k t :
  tasks g !! k = Some t -> completed t = false ->
  count_completed g < num_tasks g.
Proof.
  intros Ht Hc.
  pose proof (count_completed_bounds
                (set_tasks (<[k := set_completed true t]> (tasks g)) g)) as H.
  unfold count_completed, num_tasks in *. cbn [tasks set_tasks] in H.
  rewrite (total_insert _ _ _ _ t Ht), length_insert in H.
  cbn in H. rewrite Hc in H. lia.
Qed.

Lemma count_completed_all g :
  num_tasks g <= count_completed g ->
  forall k t, tasks g !! k = Some t -> completed t = true.
Proof.
  intros Hall k t Ht. destruct (completed t) eqn:Hc; [done|].
  pose proof (count_completed_open g k t Ht Hc). lia.
Qed.

Lemma count_inv_ext s s' :
  dag s' = dag s -> completed_tasks s' = completed_tasks s ->
  count_inv s -> count_inv s'.
Proof. unfold count_inv. by intros -> ->. Qed.

Lemma check_completed_count debug_mode s i :
  engine_inv s -> count_inv s -> count_inv (check_completed debug_mode s i).
Proof.
  intros Hinv [Hn Hcount].
  destruct (check_completed_cases debug_mode s i Hinv)
    as [[-> _] | (c & k & t & Hcore & Hidle & Hcur & Htask & Hc & Ha & Hr & Hok &
              [(_ & ->) | [(_ & _ & ->) | (_ & _ & ->)]])]; [done| ..].
  all: unfold count_inv, count_completed, num_tasks in *.
  all: cbn [dag tasks set_tasks completed_tasks].
  all: rewrite length_insert, (total_insert _ _ _ _ t Htask).
  all: split; [done|]; cbn; rewrite Hc.
  - pose proof (count_completed_open (dag s) k t Htask Hc) as Hlt.
    pose proof (count_completed_bounds (dag s)) as Hb.
    unfold count_completed, num_tasks in *.
    unfold int_add. rewrite wrap_id; [lia|].
    unfold in_int, INT_MIN, INT_MAX in *. lia.
  - lia.
  - lia.
Qed.

Lemma assign_idle_count quantum debug_mode s i :
  count_inv s -> count_inv (assign_idle quantum debug_mode s i).
Proof.
  intros [Hn Hcount].
  destruct (assign_idle_cases quantum debug_mode s i)
    as [[-> _] | (c & k & t & Hcore & Hidle & Hsel & (Htask & Hr & Ha) & Hc & ->)];
    [done|].
  unfold count_inv, count_completed, num_tasks in *.
  cbn [dag tasks set_tasks completed_tasks].
  rewrite length_insert, (total_insert _ _ _ _ t Htask).
  split; [done|]. destruct (start_time t =? -1); cbn; lia.
Qed.

Lemma count_idle_dag s i : dag (count_idle s i) = dag s.
Proof. unfold count_idle. repeat case_match; reflexivity. Qed.

Lemma count_idle_completed_tasks s i :
  completed_tasks (count_idle s i) = completed_tasks s.
Proof. unfold count_idle. repeat case_match; reflexivity. Qed.

Lemma simulation_tick_count quantum debug_mode num_cores tick_delay s :
  engine_inv s -> 0 <= simulation_time s <= TIME_LIMIT ->
  count_inv s ->
  count_inv (simulation_tick quantum debug_mode num_cores tick_delay s).
Proof.
  apply simulation_tick_invariant.
  - apply check_completed_count.
  - intros s' i _. apply assign_idle_count.
  - apply end_of_tick_invariant.
    + intros s' _ _. by apply count_inv_ext.
    + intros s' i _. apply count_inv_ext;
        [apply count_idle_dag | apply count_idle_completed_tasks].
    + intros s' out. by apply count_inv_ext.
Qed.

Lemma init_sim_count num_cores g :
  num_tasks g <= INT_MAX -> count_inv (init_sim num_cores g).
Proof.
  intros Hn. unfold count_inv, count_completed, num_tasks in *.
  cbn [init_sim dag reset_dag_execution tasks set_tasks completed_tasks].
  rewrite length_map. split; [done|].
  rewrite total_fmap. symmetry. by apply total_zero.
Qed.

Lemma in_run_count quantum debug_mode num_cores g s :
  num_tasks g <= INT_MAX ->
  in_run quantum debug_mode num_cores g s -> count_inv s.
Proof.
  intros Hn. apply in_run_invariant.
  - apply simulation_tick_count.
  - intros s' out. by apply count_inv_ext.
  - by apply init_sim_count.
Qed.

(** ** What a run leaves as it was *)

Lemma same_graph_refl g : same_graph g g.
Proof. done. Qed.

Lemma same_graph_update g g' k t t' :
  same_graph g g' -> tasks g' !! k = Some t -> static t' = static t ->
  same_graph g (set_tasks (<[k := t']> (tasks g')) g').
Proof.
  intros (Hs & Ha & Hc) Ht Hst. split_and!; try done.
  cbn [tasks set_tasks]. rewrite list_fmap_insert, Hst, list_insert_id; [done|].
  by rewrite list_lookup_fmap, Ht.
Qed.

Lemma check_completed_graph debug_mode g s i :
  engine_inv s -> same_graph g (dag s) ->
  same_graph g (dag (check_completed debug_mode s i)).
Proof.
  intros Hinv Hg.
  destruct (check_completed_cases debug_mode s i Hinv)
    as [[-> _] | (c & k & t & Hcore & Hidle & Hcur & Htask & Hc & Ha & Hr & Hok &
              [(_ & ->) | [(_ & _ & ->) | (_ & _ & ->)]])]; [done| ..].
  all: cbn [dag]; by apply (same_graph_update g (dag s) k t).
Qed.

Lemma assign_idle_graph quantum debug_mode g s i :
  same_graph g (dag s) ->
  same_graph g (dag (assign_idle quantum debug_mode s i)).
Proof.
  intros Hg.
  destruct (assign_idle_cases quantum debug_mode s i)
    as [[-> _] | (c & k & t & Hcore & Hidle & Hsel & (Htask & Hr & Ha) & Hc & ->)];
    [done|].
  cbn [dag]. apply (same_graph_update g (dag s) k t); try done.
  by destruct (start_time t =? -1).
Qed.

Lemma simulation_tick_graph quantum debug_mode num_cores tick_delay g s :
  engine_inv s -> 0 <= simulation_time s <= TIME_LIMIT ->
  same_graph g (dag s) ->
  same_graph g (dag (simulation_tick quantum debug_mode num_cores tick_delay s)).
Proof.
  apply (simulation_tick_invariant quantum debug_mode num_cores tick_delay
           (fun s => same_graph g (dag s))).
  - apply check_completed_graph.
  - intros s' i _. apply assign_idle_graph.
  - apply (end_of_tick_invariant num_cores tick_delay
             (fun s => same_graph g (dag s))).
    + done.
    + intros s' i _. by rewrite count_idle_dag.
    + done.
Qed.

Lemma reset_dag_execution_graph g : same_graph g (reset_dag_execution g).
Proof.
  split_and!; try done.
  cbn [reset_dag_execution tasks set_tasks]. rewrite <- list_fmap_compose.
  by apply list_fmap_ext.
Qed.

Lemma in_run_graph quantum debug_mode num_cores g s :
  in_run quantum debug_mode num_cores g s -> same_graph g (dag s).
Proof.
  apply (in_run_invariant quantum debug_mode num_cores g
           (fun s => same_graph g (dag s))).
  - apply simulation_tick_graph.
  - done.
  - apply reset_dag_execution_graph.
Qed.

Lemma same_graph_lookup g g' k t' :
  same_graph g g' -> tasks g' !! k = Some t' ->
  exists t, tasks g !! k = Some t /\ static t' = static t.
Proof.
  intros (Hs & _) Ht'.
  assert (map static (tasks g') !! k = Some (static t')) as H
    by (by rewrite list_lookup_fmap, Ht').
  rewrite Hs, list_lookup_fmap in H.
  destruct (tasks g !! k) as [t|]; [|done]. exists t. split; [done|].
  cbn in H. congruence.
Qed.

Lemma same_graph_num_tasks g g' : same_graph g g' -> num_tasks g' = num_tasks g.
Proof.
  intros (Hs & _). unfold num_tasks. f_equal.
  by rewrite <- (length_map static (tasks g')), Hs, length_map.
Qed.

Lemma simulation_loop_time_limit_line quantum debug_mode num_cores tick_delay
    fuel s s' :
  simulation_loop quantum debug_mode num_cores tick_delay fuel s
    = Some (s', TimeLimitExceeded) ->
  exists out, console s' = out ++ [TimeLimitLine].
Proof.
  revert s. induction fuel as [|fuel IH]; intros s; [done|].
  cbn [simulation_loop].
  destruct (completed_tasks s <? num_tasks (dag s)); [|done].
  destruct (simulation_time _ >? TIME_LIMIT).
  - intros [= <-]. by eexists.
  - apply IH.
Qed.

(** X2. How a run ends, for a graph whose task count fits an [int]. The
    counter [completed_tasks] equals the number of tasks marked
    completed. If the loop is left because the counter reached the task
    count, the clock is at most 10000, every task is completed and
    unbound, and every core is idle and holds no task. If it is left by
    the safety limit, the clock is exactly 10001, the last line printed is
    the time-limit message, and some task was not completed at the head of
    the last iteration. *)
Theorem run_exit (quantum : Z) (debug_mode : bool) (num_cores : Z)
    (g : DAG) (s : Sim) (e : Exit) :
  num_tasks g <= INT_MAX ->
  simulate_hybrid_scheduler quantum debug_mode g num_cores = Some (s, e) ->
  completed_tasks s = count_completed (dag s) /\
  match e with
  | AllCompleted =>
      simulation_time s <= 10000 /\
      completed_tasks s = num_tasks (dag s) /\
      (forall k t, tasks (dag s) !! k = Some t ->
         completed t = true /\ core_assigned t = -1) /\
      (forall i c, cores s !! i = Some c ->
         is_idle c = true /\ current_task c = None)
  | TimeLimitExceeded =>
      simulation_time s = 10001 /\
      (exists out, console s = out ++ [TimeLimitLine]) /\
      (exists m k t, Z.of_nat m = 10000 /\
         tasks (dag (state_after m quantum debug_mode num_cores g)) !! k
           = Some t /\ completed t = false)
  end.
Proof.
  intros Hn Hrun.
  assert (in_run quantum debug_mode num_cores g s) as Hin
    by (right; by exists e).
  pose proof (in_run_count _ _ _ _ _ Hn Hin) as [Hn' Hcount].
  pose proof (in_run_binding _ _ _ _ _ Hin) as [Htb Hiu].
  pose proof (in_run_inv _ _ _ _ _ Hin) as [Hcores _].
  split; [done|].
  destruct (run_ends _ _ _ _ _ _ Hrun) as (m & (_ & _ & Htime & _) & Hm).
  destruct e.
  - destruct Hm as [Hm Hall].
    destruct (state_after_inv quantum debug_mode num_cores m g) as [_ Hclock];
      [lia|].
    assert (forall k t, tasks (dag s) !! k = Some t -> completed t = true) as Hdone.
    { apply count_completed_all. by rewrite <- Hcount. }
    split_and!.
    + rewrite Htime, Hclock. done.
    + pose proof (count_completed_bounds (dag s)). lia.
    + intros k t Ht. split; [by apply (Hdone k)|].
      apply (Htb k t Ht). by apply (Hdone k).
    + intros i c Hc. destruct (is_idle c) eqn:Hidle.
      * split; [done|]. by apply (Hiu i).
      * destruct (Hcores i c Hc Hidle) as (k & t & _ & Ht & Hopen & _).
        rewrite (Hdone k t Ht) in Hopen. done.
  - destruct Hm as (Hm & s0 & -> & Hshort).
    destruct (state_after_inv quantum debug_mode num_cores m g) as [_ Hclock];
      [lia|].
    split_and!.
    + rewrite Htime, Hclock. done.
    + apply (simulation_loop_time_limit_line _ _ _ _ _ _ _ Hrun).
    + assert (in_run quantum debug_mode num_cores g
                (state_after (Nat.pred m) quantum debug_mode num_cores g)) as Hin0.
      { left. exists (Nat.pred m). split; [lia | done]. }
      pose proof (in_run_count _ _ _ _ _ Hn Hin0) as [_ Hcount0].
      rewrite Hcount0 in Hshort.
      exists (Nat.pred m).
      destruct (decide (Forall (fun t => completed t = true)
                          (tasks (dag (state_after (Nat.pred m) quantum debug_mode
                                         num_cores g))))) as [Hall|Hopen].
      * exfalso. unfold count_completed, num_tasks in Hshort.
        pose proof (total_bounds (fun t => if completed t then 1 else 0)
                      (tasks (dag (state_after (Nat.pred m) quantum debug_mode
                                     num_cores g))) 1 1) as Hb.
        destruct Hb; [|lia]. intros t Ht.
        rewrite (proj1 (Forall_forall _ _) Hall t Ht). lia.
      * apply (not_Forall_Exists _) in Hopen.
        apply Exists_exists in Hopen as (t & Ht & Hc).
        apply list_elem_of_lookup in Ht as [k Hk].
        exists k, t. split; [lia|]. split; [done|].
        cbn in Hc. by destruct (completed t).
Qed.

Lemma run_exit_witness :
  num_tasks (three_tasks 100) <= INT_MAX /\
  exists s e, simulate_hybrid_scheduler 2 true (three_tasks 100) 2 = Some (s, e) /\
    completed_tasks s = count_completed (dag s).
Proof.
  assert (num_tasks (three_tasks 100) <= INT_MAX) as Hn by (vm_compute; discriminate).
  split; [exact Hn|].
  destruct (run_simulation_total 2 true 2 TICK_DELAY_MS (three_tasks 100))
    as [[s e] Hrun].
  exists s, e. split; [exact Hrun|].
  exact (proj1 (run_exit 2 true 2 (three_tasks 100) s e Hn Hrun)).
Defined.

(** X3. A run never rewrites the graph: between iterations and at the end,
    every task has the id, duration, period, priority and dependency list
    it had in the graph the run was given, the number of tasks, the
    adjacency matrix and the cycle flag are unchanged. *)
Theorem run_keeps_graph (quantum : Z) (debug_mode : bool) (num_cores : Z)
    (g : DAG) (s : Sim) :
  in_run quantum debug_mode num_cores g s ->
  num_tasks (dag s) = num_tasks g /\
  adjacency_matrix (dag s) = adjacency_matrix g /\
  has_cycles (dag s) = has_cycles g /\
  (forall k t', tasks (dag s) !! k = Some t' ->
     exists t, tasks g !! k = Some t /\
       task_id t' = task_id t /\ duration t' = duration t /\
       period t' = period t /\ priority t' = priority t /\
       dependencies t' = dependencies t).
Proof.
  intros Hin. pose proof (in_run_graph _ _ _ _ _ Hin) as Hg.
  split_and!.
  - by apply same_graph_num_tasks.
  - apply Hg.
  - apply Hg.
  - intros k t' Ht'.
    destruct (same_graph_lookup g (dag s) k t' Hg Ht') as (t & Ht & Hst).
    exists t. unfold static in Hst. split; [done|].
    split_and!; congruence.
Qed.

Lemma run_keeps_graph_witness :
  in_run 2 true 2 (three_tasks 100) (state_after 3 2 true 2 (three_tasks 100)) /\
  num_tasks (dag (state_after 3 2 true 2 (three_tasks 100)))
  = num_tasks (three_tasks 100).
Proof.
  assert (in_run 2 true 2 (three_tasks 100)
            (state_after 3 2 true 2 (three_tasks 100))) as Hrun.
  { left. exists 3%nat. split; [lia | reflexivity]. }
  split; [exact Hrun|].
  exact (proj1 (run_keeps_graph 2 true 2 (three_tasks 100) _ Hrun)).
Defined.

(** ** Idle time *)

Lemma cores_inv_update num_cores s i c c' dag' count' out' :
  cores_inv num_cores s ->
  cores s !! i = Some c ->
  core_id c' = core_id c -> total_idle_time c' = total_idle_time c ->
  cores_inv num_cores
    (mkSim dag' (<[i := c']> (cores s)) (simulation_time s) count' out').
Proof.
  intros [Hlen Hc] Hcore Hid Hidle.
  pose proof (lookup_lt_Some _ _ _ Hcore) as Hi.
  split; cbn [cores simulation_time]; [by rewrite length_insert|].
  intros j cj. destruct (decide (i = j)) as [<-|Hne].
  - rewrite list_lookup_insert_eq by done. intros [= <-].
    rewrite Hid, Hidle. by apply Hc.
  - rewrite list_lookup_insert_ne by done. apply Hc.
Qed.

Lemma check_completed_cores debug_mode num_cores s i :
  engine_inv s -> cores_inv num_cores s ->
  cores_inv num_cores (check_completed debug_mode s i).
Proof.
  intros Hinv Hc.
  destruct (check_completed_cases debug_mode s i Hinv)
    as [[-> _] | (c & k & t & Hcore & Hidle & Hcur & Htask & _ & _ & _ & _ &
              [(_ & ->) | [(_ & _ & ->) | (_ & _ & ->)]])]; [done| ..].
  all: by apply (cores_inv_update num_cores s i c).
Qed.

Lemma assign_idle_cores quantum debug_mode num_cores s i :
  cores_inv num_cores s ->
  cores_inv num_cores (assign_idle quantum debug_mode s i).
Proof.
  intros Hc.
  destruct (assign_idle_cases quantum debug_mode s i)
    as [[-> _] | (c & k & t & Hcore & Hidle & Hsel & _ & _ & ->)]; [done|].
  by apply (cores_inv_update num_cores s i c).
Qed.

Lemma count_idle_counting num_cores s j :
  0 <= simulation_time s <= TIME_LIMIT + 1 ->
  cores_counting num_cores j s ->
  cores_counting num_cores (S j) (count_idle s j).
Proof.
  intros Htime [Hlen Hc].
  destruct (count_idle_cases s j) as [-> | (c & Hcore & Hidle & ->)].
  - split; [done|]. intros i c Hcore.
    destruct (Hc i c Hcore) as (Hid & H0 & Hle). split_and!; try done.
    repeat case_decide; lia.
  - pose proof (lookup_lt_Some _ _ _ Hcore) as Hj.
    split; cbn [set_core cores simulation_time]; [by rewrite length_insert|].
    intros i ci. destruct (decide (j = i)) as [<-|Hne].
    + rewrite list_lookup_insert_eq by done. intros [= <-]. cbn.
      destruct (Hc j c Hcore) as (Hid & H0 & Hle).
      rewrite decide_True in Hle by lia. rewrite decide_False by lia.
      unfold int_add. rewrite wrap_id; [split_and!; [done|lia|lia]|].
      unfold in_int, INT_MIN, INT_MAX, TIME_LIMIT in *. lia.
    + rewrite list_lookup_insert_ne by done. intros Hcore'.
      destruct (Hc i ci Hcore') as (Hid & H0 & Hle). split_and!; try done.
      repeat case_decide; lia.
Qed.

Lemma end_of_tick_cores num_cores tick_delay s :
  0 <= simulation_time s <= TIME_LIMIT ->
  cores_inv num_cores s ->
  cores_inv num_cores (end_of_tick num_cores tick_delay s).
Proof.
  intros Htime [Hlen Hc]. unfold end_of_tick. rewrite int_add_1 by done.
  assert (cores_counting num_cores (Z.to_nat num_cores)
            (fold_left count_idle (core_ids num_cores)
               (set_simulation_time (simulation_time s + 1) s)) /\
          simulation_time (fold_left count_idle (core_ids num_cores)
               (set_simulation_time (simulation_time s + 1) s))
          = simulation_time s + 1) as [[Hlen' Hc'] Ht'].
  { unfold core_ids.
    apply (fold_left_seq_invariant
             (fun j s' => cores_counting num_cores j s' /\
                          simulation_time s' = simulation_time s + 1)).
    - split; [|done]. split; [done|]. intros i c Hcore.
      destruct (Hc i c Hcore) as (Hid & H0 & Hle). cbn. split_and!; try done.
      case_decide; lia.
    - intros j a _ [Ha Hta]. split.
      + apply count_idle_counting; [lia | done].
      + by rewrite count_idle_time. }
  assert (cores_inv num_cores
            (fold_left count_idle (core_ids num_cores)
               (set_simulation_time (simulation_time s + 1) s))) as Hfinal.
  { split; [done|]. intros i c Hcore.
    destruct (Hc' i c Hcore) as (Hid & H0 & Hle). split; [done|].
    case_decide; lia. }
  match goal with
  | |- context [if ?b then _ else _] => destruct b
  end; exact Hfinal.
Qed.

Lemma simulation_tick_cores quantum debug_mode num_cores tick_delay s :
  engine_inv s -> 0 <= simulation_time s <= TIME_LIMIT ->
  cores_inv num_cores s ->
  cores_inv num_cores (simulation_tick quantum debug_mode num_cores tick_delay s).
Proof.
  apply simulation_tick_invariant.
  - apply check_completed_cores.
  - intros s' i _. apply assign_idle_cores.
  - intros s' _. apply end_of_tick_cores.
Qed.

Lemma init_sim_cores num_cores g : cores_inv num_cores (init_sim num_cores g).
Proof.
  split; cbn [init_sim cores simulation_time].
  - by rewrite length_map, length_seq.
  - intros i c. rewrite list_lookup_fmap.
    destruct (seq 0 (Z.to_nat num_cores) !! i) as [j|] eqn:Hj; [|done].
    apply lookup_seq in Hj as [-> _]. intros [= <-]. cbn. lia.
Qed.

Lemma in_run_cores quantum debug_mode num_cores g s :
  in_run quantum debug_mode num_cores g s -> cores_inv num_cores s.
Proof.
  apply in_run_invariant.
  - apply simulation_tick_cores.
  - done.
  - apply init_sim_cores.
Qed.

(** X4. Between iterations and at the end of a run there are as many
    cores as the run was started with, core [i] has id [i], and the idle
    time of a core lies between 0 and the clock; so the busy time the
    report computes, clock minus idle time, does not wrap and lies between
    0 and the clock as well. *)
Theorem idle_time_within_clock (quantum : Z) (debug_mode : bool)
    (num_cores : Z) (g : DAG) (s : Sim) :
  in_run quantum debug_mode num_cores g s ->
  length (cores s) = Z.to_nat num_cores /\
  forall i c, cores s !! i = Some c ->
    core_id c = Z.of_nat i /\
    0 <= total_idle_time c <= simulation_time s /\
    busy_time s c = simulation_time s - total_idle_time c /\
    0 <= busy_time s c <= simulation_time s.
Proof.
  intros Hin. destruct (in_run_cores _ _ _ _ _ Hin) as [Hlen Hc].
  pose proof (in_run_time _ _ _ _ _ Hin) as Htime.
  split; [done|]. intros i c Hcore.
  destruct (Hc i c Hcore) as [Hid Hidle].
  assert (busy_time s c = simulation_time s - total_idle_time c) as Hbusy.
  { unfold busy_time, int_sub. apply wrap_id.
    unfold in_int, INT_MIN, INT_MAX. lia. }
  split_and!; try done; lia.
Qed.

Lemma idle_time_within_clock_witness :
  in_run 2 true 2 (three_tasks 100) (state_after 4 2 true 2 (three_tasks 100)) /\
  length (cores (state_after 4 2 true 2 (three_tasks 100))) = Z.to_nat 2.
Proof.
  assert (in_run 2 true 2 (three_tasks 100)
            (state_after 4 2 true 2 (three_tasks 100))) as Hrun.
  { left. exists 4%nat. split; [lia | reflexivity]. }
  split; [exact Hrun|].
  exact (proj1 (idle_time_within_clock 2 true 2 (three_tasks 100) _ Hrun)).
Defined.

(** ** The time slice *)

Lemma slice_inv_update quantum s i c c' dag' time' count' out' :
  slice_inv quantum s ->
  cores s !! i = Some c ->
  (is_idle c' = false -> 1 <= time_slice_remaining c' <= quantum) ->
  slice_inv quantum (mkSim dag' (<[i := c']> (cores s)) time' count' out').
Proof.
  intros Hs Hcore Hnew j cj. cbn [cores].
  pose proof (lookup_lt_Some _ _ _ Hcore) as Hi.
  destruct (decide (i = j)) as [<-|Hne].
  - rewrite list_lookup_insert_eq by done. by intros [= <-].
  - rewrite list_lookup_insert_ne by done. apply Hs.
Qed.

Lemma check_completed_slice quantum debug_mode s i :
  quantum <= INT_MAX ->
  engine_inv s -> slice_inv quantum s ->
  slice_inv quantum (check_completed debug_mode s i).
Proof.
  intros Hq Hinv Hs.
  destruct (check_completed_cases debug_mode s i Hinv)
    as [[-> _] | (c & k & t & Hcore & Hidle & Hcur & Htask & _ & _ & _ & _ &
              [(_ & ->) | [(_ & _ & ->) | (_ & Hleft & ->)]])]; [done| ..].
  all: apply (slice_inv_update quantum s i c); try done.
  intros _. cbn. pose proof (Hs i c Hcore Hidle) as Hr.
  rewrite int_sub_1 in Hleft |- * by lia. lia.
Qed.

Lemma assign_idle_slice quantum debug_mode s i :
  1 <= quantum ->
  slice_inv quantum s -> slice_inv quantum (assign_idle quantum debug_mode s i).
Proof.
  intros Hq Hs.
  destruct (assign_idle_cases quantum debug_mode s i)
    as [[-> _] | (c & k & t & Hcore & Hidle & Hsel & _ & _ & ->)]; [done|].
  apply (slice_inv_update quantum s i c); try done; cbn; lia.
Qed.

Lemma count_idle_slice quantum s i :
  slice_inv quantum s -> slice_inv quantum (count_idle s i).
Proof.
  intros Hs.
  destruct (count_idle_cases s i) as [-> | (c & Hcore & Hidle & ->)]; [done|].
  apply (slice_inv_update quantum s i c); try done.
Qed.

Lemma simulation_tick_slice quantum debug_mode num_cores tick_delay s :
  1 <= quantum <= INT_MAX ->
  engine_inv s -> 0 <= simulation_time s <= TIME_LIMIT ->
  slice_inv quantum s ->
  slice_inv quantum (simulation_tick quantum debug_mode num_cores tick_delay s).
Proof.
  intros Hq. apply simulation_tick_invariant.
  - intros s' i. apply check_completed_slice. lia.
  - intros s' i _. apply assign_idle_slice. lia.
  - apply end_of_tick_invariant.
    + done.
    + intros s' i _. apply count_idle_slice.
    + done.
Qed.

Lemma in_run_slice quantum debug_mode num_cores g s :
  1 <= quantum <= INT_MAX ->
  in_run quantum debug_mode num_cores g s -> slice_inv quantum s.
Proof.
  intros Hq. apply in_run_invariant.
  - intros s'. by apply simulation_tick_slice.
  - done.
  - intros i c. cbn [init_sim cores]. rewrite list_lookup_fmap.
    destruct (seq 0 (Z.to_nat num_cores) !! i); [|done]. by intros [= <-].
Qed.

(** ** Start and finish times, and the order of dependent tasks *)

Lemma get_task_update g k t' d td :
  get_task g d = Some td ->
  (forall t, tasks g !! k = Some t -> completed t = false) ->
  completed td = true ->
  get_task (set_tasks (<[k := t']> (tasks g)) g) d = Some td.
Proof.
  unfold get_task. cbn [tasks set_tasks]. destruct (d <? 0); [done|].
  intros Hd Hk Hc. destruct (decide (k = Z.to_nat d)) as [->|Hne].
  - rewrite (Hk td Hd) in Hc. done.
  - by rewrite list_lookup_insert_ne.
Qed.

Lemma timing_ok_frame s s' k t0 t' t :
  tasks (dag s) !! k = Some t0 -> completed t0 = false ->
  dag s' = set_tasks (<[k := t']> (tasks (dag s))) (dag s) ->
  simulation_time s <= simulation_time s' ->
  timing_ok s t -> timing_ok s' t.
Proof.
  intros Hk Hopen Hdag Htime [H | (Hstart & Hfin & Hdeps)]; [by left|].
  right. split; [lia|]. split.
  - revert Hfin. destruct (completed t); [lia | done].
  - intros d Hd. destruct (Hdeps d Hd) as (td & Htd & Hc & Hle).
    exists td. split_and!; try done. rewrite Hdag.
    apply get_task_update; try done. intros t1 Ht1. congruence.
Qed.

Lemma timing_inv_update s k t t' cores' count' out' :
  timing_inv s ->
  tasks (dag s) !! k = Some t -> completed t = false ->
  timing_ok (mkSim (set_tasks (<[k := t']> (tasks (dag s))) (dag s)) cores'
               (simulation_time s) count' out') t' ->
  timing_inv (mkSim (set_tasks (<[k := t']> (tasks (dag s))) (dag s)) cores'
                (simulation_time s) count' out').
Proof.
  intros Hinv Hk Hopen Hnew k' t''. cbn [dag tasks set_tasks].
  pose proof (lookup_lt_Some _ _ _ Hk) as Hlt.
  destruct (decide (k = k')) as [<-|Hne].
  - rewrite list_lookup_insert_eq by done. by intros [= <-].
  - rewrite list_lookup_insert_ne by done. intros Ht''.
    apply (timing_ok_frame s _ k t t'); try done. by apply (Hinv k').
Qed.

Lemma timing_inv_ext s s' :
  dag s' = dag s -> simulation_time s <= simulation_time s' ->
  timing_inv s -> timing_inv s'.
Proof.
  intros Hdag Htime Hinv k t. rewrite Hdag. intros Ht.
  destruct (Hinv k t Ht) as [H | (Hstart & Hfin & Hdeps)]; [by left|].
  right. split; [lia|]. split.
  - revert Hfin. destruct (completed t); [lia | done].
  - intros d Hd. destruct (Hdeps d Hd) as (td & Htd & Hc & Hle).
    exists td. by rewrite Hdag.
Qed.

Lemma check_completed_timing debug_mode s i :
  engine_inv s -> timing_inv s -> timing_inv (check_completed debug_mode s i).
Proof.
  intros Hinv Ht.
  destruct (check_completed_cases debug_mode s i Hinv)
    as [[-> _] | (c & k & t & Hcore & Hidle & Hcur & Htask & Hc & Ha & Hr & Hok &
              [(_ & ->) | [(_ & _ & ->) | (_ & _ & ->)]])]; [done| ..].
  all: apply (timing_inv_update s k t); try done.
  all: destruct (Ht k t Htask) as [(_ & _ & Hun & _) | (Hstart & Hfin & Hdeps)];
    [lia|].
  all: rewrite Hc in Hfin.
  all: right; cbn; rewrite ?Hc; split_and!; try done; try lia.
  all: intros d Hd; destruct (Hdeps d Hd) as (td & Htd & Hcd & Hle).
  all: exists td; split_and!; try done.
  all: apply (get_task_update (dag s)); try done.
  all: intros t1 Ht1; congruence.
Qed.

Lemma assign_idle_timing quantum debug_mode s i :
  0 <= simulation_time s ->
  timing_inv s -> timing_inv (assign_idle quantum debug_mode s i).
Proof.
  intros Htime Ht.
  destruct (assign_idle_cases quantum debug_mode s i)
    as [[-> _] | (c & k & t & Hcore & Hidle & Hsel & (Htask & Hr & Ha) & Hc & ->)];
    [done|].
  apply (timing_inv_update s k t); try done.
  destruct Hr as (t0 & Ht0 & _ & Hready).
  assert (t0 = t) as -> by congruence.
  right. destruct (Ht k t Htask) as [(Hs & _ & _ & _ & Hf) | (Hstart & Hfin & Hdeps)].
  - rewrite Hs. cbn. rewrite Hc. split_and!; try done; try lia.
    intros d Hd. destruct (Hready d Hd) as (td & Htd & Hcd).
    exists td. split_and!; try done.
    + apply (get_task_update (dag s)); try done. intros t1 Ht1; congruence.
    + unfold get_task in Htd. destruct (d <? 0); [done|].
      destruct (Ht _ _ Htd) as [(_ & Hopen & _) | (_ & Hfd & _)]; [congruence|].
      rewrite Hcd in Hfd. lia.
  - rewrite Hc in Hfin.
    destruct (Z.eqb_spec (start_time t) (-1)) as [Heq|Hne]; [lia|].
    cbn. rewrite Hc. split_and!; try done; try lia.
    intros d Hd. destruct (Hdeps d Hd) as (td & Htd & Hcd & Hle).
    exists td. split_and!; try done.
    apply (get_task_update (dag s)); try done. intros t1 Ht1; congruence.
Qed.

Lemma simulation_tick_timing quantum debug_mode num_cores tick_delay s :
  engine_inv s -> 0 <= simulation_time s <= TIME_LIMIT ->
  timing_inv s ->
  timing_inv (simulation_tick quantum debug_mode num_cores tick_delay s).
Proof.
  intros Hinv Htime Hs.
  refine (proj2 (simulation_tick_invariant quantum debug_mode num_cores tick_delay
                   (fun s => 0 <= simulation_time s /\ timing_inv s) _ _ _
                   s Hinv Htime (conj (proj1 Htime) Hs))).
  - intros s' i Hinv' [H0 Ht]. split.
    + by rewrite check_completed_time.
    + by apply check_completed_timing.
  - intros s' i _ [H0 Ht]. split.
    + by rewrite assign_idle_time.
    + by apply assign_idle_timing.
  - intros s' _ Htime' [_ Ht]. unfold end_of_tick.
    rewrite int_add_1 by done.
    assert (0 <= simulation_time s' + 1 /\
            simulation_time (fold_left count_idle (core_ids num_cores)
              (set_simulation_time (simulation_time s' + 1) s'))
            = simulation_time s' + 1 /\
            timing_inv (fold_left count_idle (core_ids num_cores)
              (set_simulation_time (simulation_time s' + 1) s'))) as (H0 & Hclock & H).
    { split; [lia|].
      apply (fold_left_invariant
               (fun a => simulation_time a = simulation_time s' + 1 /\ timing_inv a)).
      - intros a b [Hta Ha]. split; [by rewrite count_idle_time|].
        apply (timing_inv_ext a); [apply count_idle_dag | | done].
        rewrite count_idle_time. lia.
      - split; [done|]. apply (timing_inv_ext s'); [done | cbn; lia | done]. }
    match goal with
    | |- context [if ?b then _ else _] => destruct b
    end; cbn [print simulation_time]; (split; [lia|]).
    all: eapply timing_inv_ext; [ | | exact H]; cbn; try done; lia.
Qed.

Lemma init_sim_timing num_cores g : timing_inv (init_sim num_cores g).
Proof.
  intros k t. cbn [init_sim dag reset_dag_execution tasks set_tasks].
  rewrite list_lookup_fmap. destruct (tasks g !! k); [|done].
  intros [= <-]. by left.
Qed.

Lemma in_run_timing quantum debug_mode num_cores g s :
  in_run quantum debug_mode num_cores g s -> timing_inv s.
Proof.
  apply in_run_invariant.
  - apply simulation_tick_timing.
  - intros s' out. by apply timing_inv_ext.
  - apply init_sim_timing.
Qed.

(** X5. The order of dependent tasks. Between iterations and at the end
    of a run: a task that has started did so at a tick between 0 and the
    clock, and every task it depends on is completed and finished no
    later than that start; a task that has not started is not completed,
    bound to no core, has its whole duration left and no finish time; a
    task that is not completed has no finish time; a completed task has
    start <= finish <= clock. *)
Theorem dependencies_finish_first (quantum : Z) (debug_mode : bool)
    (num_cores : Z) (g : DAG) (s : Sim) :
  in_run quantum debug_mode num_cores g s ->
  forall k t, tasks (dag s) !! k = Some t ->
    (start_time t = -1 \/ 0 <= start_time t <= simulation_time s) /\
    (start_time t = -1 ->
       completed t = false /\ core_assigned t = -1 /\
       remaining_time t = duration t /\ finish_time t = -1) /\
    (completed t = false -> finish_time t = -1) /\
    (completed t = true ->
       0 <= start_time t /\ start_time t <= finish_time t /\
       finish_time t <= simulation_time s) /\
    (start_time t <> -1 ->
       forall d, d ∈ dependencies t ->
         exists td, get_task (dag s) d = Some td /\ completed td = true /\
           finish_time td <= start_time t).
Proof.
  intros Hin k t Ht.
  destruct (in_run_timing _ _ _ _ _ Hin k t Ht)
    as [(Hs & Hc & Ha & Hr & Hf) | (Hstart & Hfin & Hdeps)].
  - split_and!; try done; try congruence. by left.
  - split_and!; try done; try lia.
    all: intros Hc; rewrite Hc in Hfin; first [done | lia].
Qed.

Lemma dependencies_finish_first_witness :
  in_run 2 true 2 pair_dag_01 (state_after 6 2 true 2 pair_dag_01) /\
  forall k t, tasks (dag (state_after 6 2 true 2 pair_dag_01)) !! k = Some t ->
    start_time t <> -1 ->
    forall d, d ∈ dependencies t ->
      exists td, get_task (dag (state_after 6 2 true 2 pair_dag_01)) d = Some td /\
        completed td = true /\ finish_time td <= start_time t.
Proof.
  assert (in_run 2 true 2 pair_dag_01 (state_after 6 2 true 2 pair_dag_01))
    as Hrun.
  { left. exists 6%nat. split; [lia | reflexivity]. }
  split; [exact Hrun|]. intros k t Ht.
  exact (proj2 (proj2 (proj2 (proj2
           (dependencies_finish_first 2 true 2 pair_dag_01 _ Hrun k t Ht))))).
Defined.

(** ** The invariants together, and properties that depend on the pass *)

Lemma end_of_tick_time num_cores tick_delay s :
  simulation_time (end_of_tick num_cores tick_delay s)
  = int_add (simulation_time s) 1.
Proof.
  unfold end_of_tick. cbn [print simulation_time].
  match goal with
  | |- simulation_time (if ?b then _ else _) = _ => destruct b
  end; cbn [print simulation_time].
  all: apply (fold_left_invariant
                (fun s' => simulation_time s' = int_add (simulation_time s) 1));
    [intros a b <-; apply count_idle_time | done].
Qed.

Lemma end_of_tick_dag num_cores tick_delay s :
  dag (end_of_tick num_cores tick_delay s) = dag s.
Proof.
  unfold end_of_tick. cbn [print dag].
  match goal with
  | |- dag (if ?b then _ else _) = _ => destruct b
  end; cbn [print dag].
  all: apply (fold_left_invariant (fun s' => dag s' = dag s));
    [intros a b <-; apply count_idle_dag | done].
Qed.

Lemma end_of_tick_completed_tasks num_cores tick_delay s :
  completed_tasks (end_of_tick num_cores tick_delay s) = completed_tasks s.
Proof.
  unfold end_of_tick. cbn [print completed_tasks].
  match goal with
  | |- completed_tasks (if ?b then _ else _) = _ => destruct b
  end; cbn [print completed_tasks].
  all: apply (fold_left_invariant
                (fun s' => completed_tasks s' = completed_tasks s));
    [intros a b <-; apply count_idle_completed_tasks | done].
Qed.

(** The third pass changes nothing of a core but its idle time. *)
Lemma count_idle_core s j i c' :
  cores (count_idle s j) !! i = Some c' ->
  exists c, cores s !! i = Some c /\ is_idle c' = is_idle c /\
    current_task c' = current_task c /\
    time_slice_remaining c' = time_slice_remaining c /\
    core_id c' = core_id c.
Proof.
  destruct (count_idle_cases s j) as [-> | (c & Hcore & Hidle & ->)];
    [by exists c'|].
  cbn [set_core cores]. pose proof (lookup_lt_Some _ _ _ Hcore) as Hj.
  destruct (decide (j = i)) as [<-|Hne].
  - rewrite list_lookup_insert_eq by done. intros [= <-]. by exists c.
  - rewrite list_lookup_insert_ne by done. by exists c'.
Qed.

Lemma end_of_tick_core num_cores tick_delay s i c' :
  cores (end_of_tick num_cores tick_delay s) !! i = Some c' ->
  exists c, cores s !! i = Some c /\ is_idle c' = is_idle c /\
    current_task c' = current_task c /\
    time_slice_remaining c' = time_slice_remaining c /\
    core_id c' = core_id c.
Proof.
  unfold end_of_tick. cbn [print cores].
  assert (forall a, cores (if int_rem (simulation_time a) 20 =? 0
                           then print [ProgressBar (completed_tasks a)
                                         (num_tasks (dag a))] a
                           else a) = cores a) as ->
    by (intros a; by destruct (_ =? 0)).
  revert c'.
  apply (fold_left_invariant
           (fun s' => forall c', cores s' !! i = Some c' ->
              exists c, cores s !! i = Some c /\ is_idle c' = is_idle c /\
                current_task c' = current_task c /\
                time_slice_remaining c' = time_slice_remaining c /\
                core_id c' = core_id c)).
  - intros a j Ha c' Hc'.
    destruct (count_idle_core a j i c' Hc') as (c1 & Hc1 & ? & ? & ? & ?).
    destruct (Ha c1 Hc1) as (c & Hc & ? & ? & ? & ?).
    exists c. split_and!; congruence.
  - intros c' Hc'. by exists c'.
Qed.

Lemma end_of_tick_inv num_cores tick_delay s :
  engine_inv s -> 0 <= simulation_time s <= TIME_LIMIT ->
  engine_inv (end_of_tick num_cores tick_delay s).
Proof.
  intros Hinv Htime.
  apply (end_of_tick_invariant num_cores tick_delay engine_inv); try done.
  - intros s' Hinv' _ _. apply set_simulation_time_inv; [done | lia].
  - intros s' i _. apply count_idle_inv.
Qed.

Lemma end_of_tick_binding num_cores tick_delay s :
  engine_inv s -> 0 <= simulation_time s <= TIME_LIMIT ->
  binding_inv s -> binding_inv (end_of_tick num_cores tick_delay s).
Proof.
  apply end_of_tick_invariant.
  - intros s' _ _. by apply binding_inv_ext.
  - intros s' i _. apply count_idle_binding.
  - intros s' out. by apply binding_inv_ext.
Qed.

Lemma check_completed_full debug_mode num_cores s i :
  full_inv num_cores s -> full_inv num_cores (check_completed debug_mode s i).
Proof.
  intros (Hinv & Hb & Hc & Ht & H0). split_and!.
  - by apply check_completed_inv.
  - by apply check_completed_binding.
  - by apply check_completed_cores.
  - by apply check_completed_timing.
  - by rewrite check_completed_time.
Qed.

Lemma assign_idle_full quantum debug_mode num_cores s i :
  full_inv num_cores s ->
  full_inv num_cores (assign_idle quantum debug_mode s i).
Proof.
  intros (Hinv & Hb & Hc & Ht & H0). split_and!.
  - by apply assign_idle_inv.
  - by apply assign_idle_binding.
  - by apply assign_idle_cores.
  - by apply assign_idle_timing.
  - by rewrite assign_idle_time.
Qed.

Lemma end_of_tick_full num_cores tick_delay s :
  0 <= simulation_time s <= TIME_LIMIT ->
  full_inv num_cores s -> full_inv num_cores (end_of_tick num_cores tick_delay s).
Proof.
  intros Htime (Hinv & Hb & Hc & Ht & H0). split_and!.
  - by apply end_of_tick_inv.
  - by apply end_of_tick_binding.
  - by apply end_of_tick_cores.
  - apply (timing_inv_ext s); [apply end_of_tick_dag | | done].
    rewrite end_of_tick_time, int_add_1 by done. lia.
  - rewrite end_of_tick_time, int_add_1 by done. lia.
Qed.

Lemma init_sim_full num_cores g : full_inv num_cores (init_sim num_cores g).
Proof.
  split_and!.
  - apply init_sim_inv.
  - apply init_sim_binding.
  - apply init_sim_cores.
  - apply init_sim_timing.
  - done.
Qed.

Lemma full_inv_print num_cores s out :
  full_inv num_cores s -> full_inv num_cores (print out s).
Proof.
  intros (Hinv & Hb & Hc & Ht & H0). split_and!; done.
Qed.

(** An iteration, for a property that depends on how far the two passes
    over the cores have come: [Q j] holds when the first pass is about to
    look at core [j], [R j] when the second is. *)
Section Passes.

Variables (quantum : Z) (debug_mode : bool) (num_cores tick_delay : Z).
Variables (P P' : Sim -> Prop) (Q R : nat -> Sim -> Prop).

Hypothesis H_enter : forall s, full_inv num_cores s -> P s -> Q 0%nat s.
Hypothesis H_check : forall s j,
  (j < Z.to_nat num_cores)%nat ->
  full_inv num_cores s -> Q j s -> Q (S j) (check_completed debug_mode s j).
Hypothesis H_between : forall s,
  full_inv num_cores s -> Q (Z.to_nat num_cores) s -> R 0%nat s.
Hypothesis H_assign : forall s j,
  (j < Z.to_nat num_cores)%nat ->
  full_inv num_cores s -> R j s -> R (S j) (assign_idle quantum debug_mode s j).
Hypothesis H_end : forall s,
  full_inv num_cores s -> 0 <= simulation_time s <= TIME_LIMIT ->
  R (Z.to_nat num_cores) s -> P' (end_of_tick num_cores tick_delay s).

Lemma simulation_tick_passes s :
  full_inv num_cores s -> 0 <= simulation_time s <= TIME_LIMIT -> P s ->
  full_inv num_cores (simulation_tick quantum debug_mode num_cores tick_delay s) /\
  P' (simulation_tick quantum debug_mode num_cores tick_delay s).
Proof.
  intros Hinv Htime HP. unfold simulation_tick, core_ids.
  set (s1 := fold_left (check_completed debug_mode) (seq 0 (Z.to_nat num_cores)) s).
  assert (full_inv num_cores s1 /\ Q (Z.to_nat num_cores) s1 /\
          simulation_time s1 = simulation_time s) as (Hinv1 & HQ & Ht1).
  { apply (fold_left_seq_invariant
             (fun j a => full_inv num_cores a /\ Q j a /\
                         simulation_time a = simulation_time s)).
    - split_and!; [done | by apply H_enter | done].
    - intros j a Hj (Ha & HQa & <-). split_and!.
      + by apply check_completed_full.
      + by apply H_check.
      + apply check_completed_time. }
  set (s2 := fold_left (assign_idle quantum debug_mode)
               (seq 0 (Z.to_nat num_cores)) s1).
  assert (full_inv num_cores s2 /\ R (Z.to_nat num_cores) s2 /\
          simulation_time s2 = simulation_time s) as (Hinv2 & HR & Ht2).
  { apply (fold_left_seq_invariant
             (fun j a => full_inv num_cores a /\ R j a /\
                         simulation_time a = simulation_time s)).
    - split_and!; [done | by apply H_between | done].
    - intros j a Hj (Ha & HRa & <-). split_and!.
      + by apply assign_idle_full.
      + by apply H_assign.
      + apply assign_idle_time. }
  split.
  - apply end_of_tick_full; [by rewrite Ht2 | done].
  - apply H_end; [done | by rewrite Ht2 | done].
Qed.

End Passes.

Lemma simulation_tick_full quantum debug_mode num_cores tick_delay s :
  full_inv num_cores s -> 0 <= simulation_time s <= TIME_LIMIT ->
  full_inv num_cores (simulation_tick quantum debug_mode num_cores tick_delay s).
Proof.
  intros Hinv Htime.
  by apply (simulation_tick_passes quantum debug_mode num_cores tick_delay
              (fun _ => True) (fun _ => True) (fun _ _ => True) (fun _ _ => True)).
Qed.

Lemma in_run_full quantum debug_mode num_cores g s :
  in_run quantum debug_mode num_cores g s -> full_inv num_cores s.
Proof.
  apply in_run_invariant.
  - intros s' _ Htime Hf. by apply simulation_tick_full.
  - intros s' out. apply full_inv_print.
  - apply init_sim_full.
Qed.

(** A property that an iteration keeps, given the invariants, holds
    between the iterations of a run and at its end. *)
Lemma in_run_invariant_full quantum debug_mode num_cores g (P : Sim -> Prop) s :
  (forall s, full_inv num_cores s -> 0 <= simulation_time s <= TIME_LIMIT ->
     P s -> P (simulation_tick quantum debug_mode num_cores TICK_DELAY_MS s)) ->
  (forall s out, P s -> P (print out s)) ->
  P (init_sim num_cores g) ->
  in_run quantum debug_mode num_cores g s -> P s.
Proof.
  intros Htick Hprint Hinit Hin.
  apply (in_run_invariant quantum debug_mode num_cores g
           (fun s => full_inv num_cores s /\ P s) s); try done.
  - intros s' _ Htime [Hf HP]. split.
    + by apply simulation_tick_full.
    + by apply Htick.
  - intros s' out [Hf HP]. split; [by apply full_inv_print | by apply Hprint].
  - split; [apply init_sim_full | done].
Qed.

(** ** Turnaround *)

Lemma progress_ok_weaken time t : progress_ok true time t -> progress_ok false time t.
Proof.
  unfold progress_ok. destruct (completed t); [done|].
  intros H Hs. destruct (H Hs) as [H1 H2]. split; [lia|].
  intros Hd. specialize (H2 Hd). lia.
Qed.

Lemma progress_ok_mono b b' time t :
  (b' = true -> b = true) -> progress_ok b time t -> progress_ok b' time t.
Proof.
  destruct b, b'; try done.
  - intros _. apply progress_ok_weaken.
  - intros H. by specialize (H eq_refl).
Qed.

Lemma full_inv_core_assigned num_cores s k t :
  full_inv num_cores s -> tasks (dag s) !! k = Some t ->
  core_assigned t < Z.of_nat (Z.to_nat num_cores).
Proof.
  intros (_ & [Htb _] & [Hlen _] & _) Ht.
  destruct (Htb k t Ht) as [_ [-> | (i & c & -> & Hc & _)]]; [lia|].
  apply lookup_lt_Some in Hc. lia.
Qed.

Lemma check_completed_progress debug_mode num_cores s j :
  full_inv num_cores s -> progress_inv j s ->
  progress_inv (S j) (check_completed debug_mode s j).
Proof.
  intros (Hinv & Hb & Hcs & Ht & H0) Hp.
  assert (forall k t, tasks (dag s) !! k = Some t ->
            progress_ok (bool_decide (Z.of_nat (S j) <= core_assigned t))
              (simulation_time s) t) as Hweak.
  { intros k t Hk. eapply progress_ok_mono; [|by apply (Hp k)].
    rewrite !bool_decide_eq_true. lia. }
  destruct (check_completed_cases debug_mode s j Hinv)
    as [[-> _] | (c & k & t & Hcore & Hidle & Hcur & Htask & Hc & Ha & Hr & Hok &
              Hcases)]; [done|].
  pose proof (lookup_lt_Some _ _ _ Htask) as Hlt.
  pose proof (Hp k t Htask) as Hpk. unfold progress_ok in Hpk.
  rewrite Hc, Ha, bool_decide_true in Hpk by lia.
  destruct (Ht k t Htask) as [(_ & _ & Hun & _) | (Hstart & _)]; [lia|].
  destruct Hpk as [Hlate Hwork]; [lia|].
  destruct Hok as (_ & _ & Hrem). rewrite Hc in Hrem.
  intros k' t'. rewrite check_completed_time.
  destruct Hcases as [(Hdone & ->) | [(Hleft & _ & ->) | (Hleft & _ & ->)]].
  all: cbn [dag tasks set_tasks].
  all: destruct (decide (k = k')) as [<-|Hne];
    [rewrite list_lookup_insert_eq by done; intros [= <-]
    |rewrite list_lookup_insert_ne by done; apply Hweak].
  - unfold progress_ok. cbn. split; [lia|]. intros Hd.
    specialize (Hrem Hd). specialize (Hwork Hd).
    rewrite int_sub_1 in Hdone by lia. lia.
  - unfold progress_ok. cbn. rewrite Hc, bool_decide_false by lia.
    intros _. split; [lia|]. intros Hd.
    specialize (Hrem Hd). specialize (Hwork Hd).
    rewrite int_sub_1 by lia. lia.
  - unfold progress_ok. cbn. rewrite Hc, Ha, bool_decide_false by lia.
    intros _. split; [lia|]. intros Hd.
    specialize (Hrem Hd). specialize (Hwork Hd).
    rewrite int_sub_1 by lia. lia.
Qed.

Lemma assign_idle_progress quantum debug_mode num_cores s j :
  full_inv num_cores s ->
  progress_inv (Z.to_nat num_cores) s ->
  progress_inv (Z.to_nat num_cores) (assign_idle quantum debug_mode s j).
Proof.
  intros (Hinv & Hb & Hcs & Ht & H0) Hp.
  destruct (assign_idle_cases quantum debug_mode s j)
    as [[-> _] | (c & k & t & Hcore & Hidle & Hsel & (Htask & Hr & Ha) & Hc & ->)];
    [done|].
  pose proof (lookup_lt_Some _ _ _ Htask) as Hlt.
  pose proof (lookup_lt_Some _ _ _ Hcore) as Hj.
  destruct Hcs as [Hlen _].
  intros k' t'. cbn [dag tasks set_tasks simulation_time].
  destruct (decide (k = k')) as [<-|Hne];
    [rewrite list_lookup_insert_eq by done; intros [= <-]
    |rewrite list_lookup_insert_ne by done; apply Hp].
  pose proof (Hp k t Htask) as Hpk. unfold progress_ok in *.
  rewrite Hc, Ha, bool_decide_false in Hpk by lia.
  destruct (Z.eqb_spec (start_time t) (-1)) as [Heq|Hne]; cbn; rewrite Hc.
  - rewrite bool_decide_false by lia. intros _. split; [lia|].
    destruct (Ht k t Htask) as [(_ & _ & _ & Hrem & _) | (Hstart & _)]; lia.
  - rewrite bool_decide_false by lia. done.
Qed.

Lemma end_of_tick_progress num_cores tick_delay s :
  full_inv num_cores s -> 0 <= simulation_time s <= TIME_LIMIT ->
  progress_inv (Z.to_nat num_cores) s ->
  progress_inv 0 (end_of_tick num_cores tick_delay s).
Proof.
  intros Hfull Htime Hp k t.
  rewrite end_of_tick_dag, end_of_tick_time, int_add_1 by done. intros Hk.
  pose proof (full_inv_core_assigned num_cores s k t Hfull Hk) as Hca.
  pose proof (Hp k t Hk) as Hpk. unfold progress_ok in *.
  rewrite bool_decide_false in Hpk by lia.
  destruct (completed t); [done|]. intros Hs.
  destruct (Hpk Hs) as [H1 H2]. split.
  - case_bool_decide; lia.
  - intros Hd. specialize (H2 Hd). case_bool_decide; lia.
Qed.

Lemma simulation_tick_progress quantum debug_mode num_cores tick_delay s :
  full_inv num_cores s -> 0 <= simulation_time s <= TIME_LIMIT ->
  progress_inv 0 s ->
  progress_inv 0 (simulation_tick quantum debug_mode num_cores tick_delay s).
Proof.
  intros Hfull Htime Hp.
  apply (simulation_tick_passes quantum debug_mode num_cores tick_delay
           (progress_inv 0) (progress_inv 0) progress_inv
           (fun _ => progress_inv (Z.to_nat num_cores))); try done.
  - intros s' j _. apply check_completed_progress.
  - intros s' j _. apply assign_idle_progress.
  - apply end_of_tick_progress.
Qed.

Lemma in_run_progress quantum debug_mode num_cores g s :
  in_run quantum debug_mode num_cores g s -> progress_inv 0 s.
Proof.
  apply in_run_invariant_full.
  - apply simulation_tick_progress.
  - done.
  - intros k t. cbn [init_sim dag reset_dag_execution tasks set_tasks].
    rewrite list_lookup_fmap. destruct (tasks g !! k); [|done].
    intros [= <-]. unfold progress_ok. cbn. done.
Qed.

(** X6. Turnaround. Between iterations and at the end of a run, a
    completed task finished strictly after it started, its start and
    finish lie between 0 and the clock, the turnaround the report
    computes is finish minus start without wrap-around, and for a duration
    of at least 1 the turnaround is at least the duration. *)
Theorem turnaround_at_least_duration (quantum : Z) (debug_mode : bool)
    (num_cores : Z) (g : DAG) (s : Sim) :
  in_run quantum debug_mode num_cores g s ->
  forall k t, tasks (dag s) !! k = Some t -> completed t = true ->
    0 <= start_time t /\ start_time t < finish_time t /\
    finish_time t <= simulation_time s /\
    turnaround t = finish_time t - start_time t /\
    (1 <= duration t <= INT_MAX -> duration t <= turnaround t).
Proof.
  intros Hin k t Ht Hc.
  pose proof (in_run_progress _ _ _ _ _ Hin k t Ht) as Hp.
  unfold progress_ok in Hp. rewrite Hc in Hp. destruct Hp as [Hlt Hdur].
  pose proof (in_run_time _ _ _ _ _ Hin) as Htime.
  destruct (in_run_timing _ _ _ _ _ Hin k t Ht)
    as [(_ & Hopen & _) | (Hstart & Hfin & _)]; [congruence|].
  rewrite Hc in Hfin.
  assert (turnaround t = finish_time t - start_time t) as Hturn.
  { unfold turnaround, int_sub. apply wrap_id.
    unfold in_int, INT_MIN, INT_MAX. lia. }
  split_and!; try done; try lia. all: rewrite Hturn; done.
Qed.

Lemma turnaround_at_least_duration_witness :
  in_run 2 true 1 (three_tasks 100) (state_after 5 2 true 1 (three_tasks 100)) /\
  tasks (dag (state_after 5 2 true 1 (three_tasks 100))) !! 0%nat
    = Some (mkTask 0 4 100 10 [] true 0 (-1) 0 4) /\
  4 <= turnaround (mkTask 0 4 100 10 [] true 0 (-1) 0 4).
Proof.
  assert (in_run 2 true 1 (three_tasks 100)
            (state_after 5 2 true 1 (three_tasks 100))) as Hrun.
  { left. exists 5%nat. split; [lia | reflexivity]. }
  assert (tasks (dag (state_after 5 2 true 1 (three_tasks 100))) !! 0%nat
          = Some (mkTask 0 4 100 10 [] true 0 (-1) 0 4)) as Ht
    by (vm_compute; reflexivity).
  split; [exact Hrun|]. split; [exact Ht|].
  refine (proj2 (proj2 (proj2 (proj2
            (turnaround_at_least_duration 2 true 1 (three_tasks 100) _ Hrun
               0%nat _ Ht eq_refl)))) _).
  unfold INT_MAX. cbn. lia.
Defined.

(** ** No core idles while a task could start *)

Lemma assign_idle_work quantum debug_mode s j :
  idle_means_no_work j s ->
  idle_means_no_work (S j) (assign_idle quantum debug_mode s j).
Proof.
  intros Hw i c Hi.
  destruct (cores s !! j) as [cj|] eqn:Hcore.
  2:{ unfold assign_idle. rewrite Hcore. intros Hc Hidle.
      assert (i <> j) by (intros ->; congruence).
      apply (Hw i c); [lia | done | done]. }
  destruct (is_idle cj) eqn:Hidlej.
  2:{ unfold assign_idle. rewrite Hcore, Hidlej. intros Hc Hidle.
      assert (i <> j) by (intros ->; congruence).
      apply (Hw i c); [lia | done | done]. }
  destruct (find_highest_priority_ready_task_cases (dag s))
    as [[Hnone _] | (k & t & Hsel & (Htask & Hready & Ha) & _)].
  { unfold assign_idle. rewrite Hcore, Hidlej, Hnone. cbn. done. }
  rewrite (assign_idle_starts quantum debug_mode s j cj k t Hcore Hidlej Hsel Htask).
  cbn [cores dag]. pose proof (lookup_lt_Some _ _ _ Hcore) as Hj.
  destruct (decide (j = i)) as [<-|Hne].
  - rewrite list_lookup_insert_eq by done. by intros [= <-].
  - rewrite list_lookup_insert_ne by done. intros Hc Hidle.
    assert (find_highest_priority_ready_task (dag s) = -1) as Hnone
      by (apply (Hw i c); [lia | done | done]).
    lia.
Qed.

Lemma simulation_tick_work quantum debug_mode num_cores tick_delay s :
  full_inv num_cores s -> 0 <= simulation_time s <= TIME_LIMIT ->
  forall i c,
    cores (simulation_tick quantum debug_mode num_cores tick_delay s) !! i = Some c ->
    is_idle c = true ->
    find_highest_priority_ready_task
      (dag (simulation_tick quantum debug_mode num_cores tick_delay s)) = -1.
Proof.
  intros Hfull Htime.
  refine (proj2 (simulation_tick_passes quantum debug_mode num_cores tick_delay
                   (fun _ => True)
                   (fun s' => forall i c, cores s' !! i = Some c ->
                      is_idle c = true ->
                      find_highest_priority_ready_task (dag s') = -1)
                   (fun _ _ => True) idle_means_no_work _ _ _ _ _
                   s Hfull Htime I)); try done.
  - intros s' _ _ i c Hi. lia.
  - intros s' j _ _. apply assign_idle_work.
  - intros s' (_ & _ & [Hlen _] & _) _ Hw i c Hc Hidle.
    rewrite end_of_tick_dag.
    destruct (end_of_tick_core _ _ _ _ _ Hc) as (c0 & Hc0 & Hidle0 & _).
    apply (Hw i c0); [|done|congruence].
    apply lookup_lt_Some in Hc0. lia.
Qed.

(** X7. Work conservation. After at least one iteration (the clock is not
    0), between iterations and at the end of a run: if some core is idle,
    the selection finds nothing, and no task is ready and unbound. So no
    core is left idle while a task could start on it. *)
Theorem no_idle_core_while_ready (quantum : Z) (debug_mode : bool)
    (num_cores : Z) (g : DAG) (s : Sim) :
  in_run quantum debug_mode num_cores g s ->
  1 <= simulation_time s ->
  forall i c, cores s !! i = Some c -> is_idle c = true ->
    find_highest_priority_ready_task (dag s) = -1 /\
    forall k t, ~ candidate (dag s) k t.
Proof.
  intros Hin Htime i c Hc Hidle.
  assert (find_highest_priority_ready_task (dag s) = -1) as Hnone.
  { assert (exists m, Z.of_nat m <= 10000 /\
              same_schedule s (state_after (S m) quantum debug_mode num_cores g))
      as (m & Hm & Hdag & Hcores & _).
    { destruct Hin as [(m & Hm & ->) | (e & Hrun)].
      - destruct (state_after_inv quantum debug_mode num_cores m g Hm)
          as [_ Hclock].
        destruct m as [|m]; [rewrite Hclock in Htime; lia|].
        exists m. split; [lia | done].
      - destruct (run_ends _ _ _ _ _ _ Hrun) as (m & Hsame & Hm).
        assert (Z.of_nat m <= 10001) as Hle by (destruct e; lia).
        destruct (state_after_inv quantum debug_mode num_cores m g Hle)
          as [_ Hclock].
        destruct Hsame as (Hd & Hcs & Ht & Hn). rewrite Ht, Hclock in Htime.
        destruct m as [|m]; [lia|]. exists m. split; [lia | done]. }
    rewrite Hdag, state_after_S. rewrite Hcores, state_after_S in Hc.
    assert (in_run quantum debug_mode num_cores g
              (state_after m quantum debug_mode num_cores g)) as Hin'.
    { left. exists m. split; [lia | done]. }
    apply (simulation_tick_work quantum debug_mode num_cores TICK_DELAY_MS
             _ (in_run_full _ _ _ _ _ Hin')) with i c; try done.
    destruct (state_after_inv quantum debug_mode num_cores m g) as [_ ->];
      unfold TIME_LIMIT; lia. }
  split; [done|].
  destruct (find_highest_priority_ready_task_cases (dag s))
    as [[_ Hno] | (r & tr & Hsel & _)]; [done | lia].
Qed.

Lemma no_idle_core_while_ready_witness :
  in_run 2 true 2 pair_dag_01 (state_after 1 2 true 2 pair_dag_01) /\
  1 <= simulation_time (state_after 1 2 true 2 pair_dag_01) /\
  cores (state_after 1 2 true 2 pair_dag_01) !! 1%nat
    = Some (mkCore 1 None 0 true 1) /\
  find_highest_priority_ready_task (dag (state_after 1 2 true 2 pair_dag_01)) = -1.
Proof.
  assert (in_run 2 true 2 pair_dag_01 (state_after 1 2 true 2 pair_dag_01))
    as Hrun.
  { left. exists 1%nat. split; [lia | reflexivity]. }
  assert (1 <= simulation_time (state_after 1 2 true 2 pair_dag_01)) as Htime
    by (vm_compute; discriminate).
  assert (cores (state_after 1 2 true 2 pair_dag_01) !! 1%nat
          = Some (mkCore 1 None 0 true 1)) as Hc by (vm_compute; reflexivity).
  split; [exact Hrun|]. split; [exact Htime|]. split; [exact Hc|].
  exact (proj1 (no_idle_core_while_ready 2 true 2 pair_dag_01 _ Hrun Htime
                  1%nat _ Hc eq_refl)).
Defined.

(** ** Busy time accounts for the work done *)

Lemma total_add {A} (f h : A -> Z) l :
  total (fun a => f a + h a) l = total f l + total h l.
Proof.
  unfold total. induction l as [|x l IH]; cbn; [done|]. rewrite IH. lia.
Qed.

Lemma total_nil {A} (f : A -> Z) : total f [] = 0.
Proof. done. Qed.

Lemma total_cons {A} (f : A -> Z) x l : total f (x :: l) = f x + total f l.
Proof. done. Qed.

(** The third pass as a whole. *)
Lemma count_idle_pass s :
  fold_left count_idle (seq 0 (length (cores s))) s
  = mkSim (dag s) (map count_tick (cores s)) (simulation_time s)
          (completed_tasks s) (console s).
Proof.
  assert (forall j, (j <= length (cores s))%nat ->
            fold_left count_idle (seq 0 j) s
            = mkSim (dag s) (map count_tick (take j (cores s)) ++ drop j (cores s))
                    (simulation_time s) (completed_tasks s) (console s)) as H.
  { induction j as [|j IH]; intros Hj.
    - cbn. rewrite drop_0. by destruct s.
    - rewrite seq_S, fold_left_app, IH by lia. cbn [fold_left Nat.add].
      destruct (lookup_lt_is_Some_2 (cores s) j) as [c Hc]; [lia|].
      rewrite (take_S_r _ _ _ Hc), (drop_S _ _ _ Hc).
      assert (length (map count_tick (take j (cores s))) = j) as Hlen
        by (rewrite length_map, length_take; lia).
      unfold count_idle. cbn [cores].
      rewrite lookup_app_r by lia. rewrite Hlen, Nat.sub_diag. cbn [lookup list_lookup].
      rewrite map_app, <- app_assoc. cbn [map app].
      assert (count_tick c
              = if is_idle c
                then mkCore (core_id c) (current_task c) (time_slice_remaining c)
                            (is_idle c) (int_add (total_idle_time c) 1)
                else c) as -> by done.
      destruct (is_idle c) eqn:Hidle; [|done].
      unfold set_core. cbn [dag cores simulation_time completed_tasks console].
      f_equal. rewrite insert_app_r_alt by lia.
      by rewrite Hlen, Nat.sub_diag. }
  rewrite H by done. by rewrite firstn_all, drop_all, app_nil_r.
Qed.

Lemma durations_ok_update g k t t' :
  durations_ok g -> tasks g !! k = Some t -> duration t' = duration t ->
  durations_ok (set_tasks (<[k := t']> (tasks g)) g).
Proof.
  intros Hd Hk Heq. unfold durations_ok. cbn [tasks set_tasks].
  apply Forall_insert; [done|]. rewrite Heq.
  apply (Forall_lookup_1 _ _ _ _ Hd Hk).
Qed.

Lemma busy_total_update s i c c' dag' count' out' :
  cores s !! i = Some c -> total_idle_time c' = total_idle_time c ->
  busy_total (mkSim dag' (<[i := c']> (cores s)) (simulation_time s) count' out')
  = busy_total s.
Proof.
  intros Hc Hidle. unfold busy_total. cbn [cores simulation_time].
  rewrite (total_insert _ _ _ _ c Hc), Hidle. lia.
Qed.

Lemma check_completed_accounting debug_mode num_cores s j :
  full_inv num_cores s -> accounting j s ->
  accounting (S j) (check_completed debug_mode s j).
Proof.
  intros (Hinv & _) [Hd Hacc].
  assert (running (drop j (cores s))
          = match cores s !! j with
            | Some c => (if is_idle c then 0 else 1) + running (drop (S j) (cores s))
            | None => running (drop (S j) (cores s))
            end) as Hrun.
  { destruct (cores s !! j) as [c|] eqn:Hc.
    - by rewrite (drop_S _ _ _ Hc).
    - apply lookup_ge_None in Hc. rewrite !drop_ge by lia. done. }
  destruct (check_completed_cases debug_mode s j Hinv)
    as [[Heq Hidle] | (c & k & t & Hcore & Hidle & Hcur & Htask & Hc & Ha & Hr &
                       Hok & Hcases)].
  { rewrite Heq. split; [done|]. rewrite Hacc, Hrun.
    destruct (cores s !! j) as [c|] eqn:Hc; [|done].
    by rewrite (Hidle c). }
  rewrite Hcore, Hidle in Hrun. cbv iota in Hrun.
  pose proof (Forall_lookup_1 _ _ _ _ Hd Htask) as Hdur. cbv beta in Hdur.
  destruct Hok as (_ & _ & Hrem). rewrite Hc in Hrem. specialize (Hrem Hdur).
  assert (forall t' c' count' out',
            duration t' = duration t ->
            remaining_time t' = remaining_time t - 1 ->
            total_idle_time c' = total_idle_time c ->
            accounting (S j)
              (mkSim (set_tasks (<[k := t']> (tasks (dag s))) (dag s))
                     (<[j := c']> (cores s)) (simulation_time s) count' out'))
    as Hstep.
  { intros t' c' count' out' Hd' Hr' Hi'. split.
    - by apply (durations_ok_update (dag s) k t).
    - rewrite (busy_total_update s j c) by done.
      unfold work_done in *. cbn [dag tasks set_tasks cores].
      rewrite (total_insert _ _ _ _ t Htask), Hd', Hr'.
      rewrite drop_insert_lt by lia. lia. }
  destruct Hcases as [(_ & ->) | [(_ & _ & ->) | (_ & _ & ->)]].
  all: apply Hstep; cbn; try done; apply int_sub_1; lia.
Qed.

Lemma assign_idle_accounted quantum debug_mode s j :
  accounted s -> accounted (assign_idle quantum debug_mode s j).
Proof.
  intros [Hd Hacc].
  destruct (assign_idle_cases quantum debug_mode s j)
    as [[-> _] | (c & k & t & Hcore & Hidle & Hsel & (Htask & Hr & Ha) & Hc & ->)];
    [done|].
  split.
  - apply (durations_ok_update (dag s) k t); try done.
    by destruct (start_time t =? -1).
  - rewrite (busy_total_update s j c) by done.
    unfold work_done in *. cbn [dag tasks set_tasks].
    rewrite (total_insert _ _ _ _ t Htask), Hacc.
    destruct (start_time t =? -1); cbn; lia.
Qed.

Lemma end_of_tick_cores_value num_cores tick_delay s :
  length (cores s) = Z.to_nat num_cores ->
  cores (end_of_tick num_cores tick_delay s) = map count_tick (cores s).
Proof.
  intros Hlen. unfold end_of_tick, core_ids. rewrite <- Hlen.
  change (length (cores s))
    with (length (cores (set_simulation_time (int_add (simulation_time s) 1) s))).
  rewrite count_idle_pass. cbn [cores set_simulation_time].
  by destruct (_ =? 0).
Qed.

Lemma end_of_tick_accounting num_cores tick_delay s :
  full_inv num_cores s -> 0 <= simulation_time s <= TIME_LIMIT ->
  accounted s -> accounting 0 (end_of_tick num_cores tick_delay s).
Proof.
  intros (_ & _ & [Hlen Hcs] & _) Htime [Hd Hacc]. split.
  - by rewrite end_of_tick_dag.
  - unfold busy_total, running.
    rewrite end_of_tick_dag, end_of_tick_time, int_add_1 by done.
    rewrite drop_0, (end_of_tick_cores_value _ _ _ Hlen), !total_fmap.
    rewrite <- Hacc. unfold busy_total. rewrite <- total_add.
    apply total_ext. intros c Hc.
    apply list_elem_of_lookup in Hc as [i Hi].
    destruct (Hcs i c Hi) as [_ Hidle].
    unfold count_tick. destruct (is_idle c) eqn:Hi'; cbn; rewrite ?Hi'; [|lia].
    unfold int_add. rewrite wrap_id; [lia|].
    unfold in_int, INT_MIN, INT_MAX, TIME_LIMIT in *. lia.
Qed.

Lemma simulation_tick_accounting quantum debug_mode num_cores tick_delay s :
  full_inv num_cores s -> 0 <= simulation_time s <= TIME_LIMIT ->
  accounting 0 s ->
  accounting 0 (simulation_tick quantum debug_mode num_cores tick_delay s).
Proof.
  intros Hfull Htime Hp.
  apply (simulation_tick_passes quantum debug_mode num_cores tick_delay
           (accounting 0) (accounting 0) accounting (fun _ => accounted));
    try done.
  - intros s' j _. apply check_completed_accounting.
  - intros s' (_ & _ & [Hlen _] & _) [Hd Hacc]. split; [done|].
    rewrite Hacc, drop_ge by lia. unfold running. rewrite total_nil. lia.
  - intros s' j _ _. apply assign_idle_accounted.
  - apply end_of_tick_accounting.
Qed.

Lemma init_sim_accounting num_cores g :
  durations_ok g -> accounting 0 (init_sim num_cores g).
Proof.
  intros Hd. split.
  - unfold durations_ok in *.
    cbn [init_sim dag reset_dag_execution tasks set_tasks].
    apply Forall_fmap. eapply Forall_impl; [exact Hd|]. done.
  - unfold busy_total, work_done, running.
    cbn [init_sim dag reset_dag_execution tasks set_tasks cores simulation_time].
    rewrite drop_0, !total_fmap.
    rewrite !total_zero; [done | intros; cbn; lia ..].
Qed.

Lemma in_run_accounting quantum debug_mode num_cores g s :
  durations_ok g ->
  in_run quantum debug_mode num_cores g s -> accounting 0 s.
Proof.
  intros Hd. apply in_run_invariant_full.
  - apply simulation_tick_accounting.
  - done.
  - by apply init_sim_accounting.
Qed.

Lemma run_all_completed quantum debug_mode num_cores g s :
  num_tasks g <= INT_MAX ->
  simulate_hybrid_scheduler quantum debug_mode g num_cores = Some (s, AllCompleted) ->
  (forall k t, tasks (dag s) !! k = Some t -> completed t = true) /\
  (forall i c, cores s !! i = Some c -> is_idle c = true).
Proof.
  intros Hn Hrun.
  assert (in_run quantum debug_mode num_cores g s) as Hin
    by (right; by exists AllCompleted).
  pose proof (in_run_count _ _ _ _ _ Hn Hin) as [_ Hcount].
  pose proof (in_run_inv _ _ _ _ _ Hin) as [Hcores _].
  destruct (run_ends _ _ _ _ _ _ Hrun) as (m & _ & _ & Hall).
  assert (forall k t, tasks (dag s) !! k = Some t -> completed t = true) as Hdone.
  { apply count_completed_all. by rewrite <- Hcount. }
  split; [done|]. intros i c Hc. destruct (is_idle c) eqn:Hidle; [done|].
  destruct (Hcores i c Hc Hidle) as (k & t & _ & Ht & Hopen & _).
  rewrite (Hdone k t Ht) in Hopen. done.
Qed.

Lemma same_graph_total_duration g g' :
  same_graph g g' -> total duration (tasks g') = total duration (tasks g).
Proof.
  intros (Hs & _).
  assert (forall l, total duration l
                    = total (fun x : Z * Z * Z * Z * list Z => x.1.1.1.2)
                        (map static l)) as H
    by (intros l; by rewrite total_fmap).
  by rewrite (H (tasks g')), Hs, <- H.
Qed.

(** X8. Busy time accounts for the work done. For a graph whose durations
    are all at least 1: between iterations and at the end of a run, the
    busy times of the cores (clock minus idle time, as the report computes
    them) add up to the ticks of execution the tasks have received
    (duration minus remaining time, summed) plus one tick for every core
    that is running. When the run ends with every task completed, the
    busy times add up to the sum of the durations. *)
Theorem busy_time_accounts_for_work (quantum : Z) (debug_mode : bool)
    (num_cores : Z) (g : DAG) :
  (forall t, t ∈ tasks g -> 1 <= duration t <= INT_MAX) ->
  (forall s, in_run quantum debug_mode num_cores g s ->
     total (busy_time s) (cores s)
     = total (fun t => duration t - remaining_time t) (tasks (dag s))
       + total (fun c => if is_idle c then 0 else 1) (cores s)) /\
  (forall s, num_tasks g <= INT_MAX ->
     simulate_hybrid_scheduler quantum debug_mode g num_cores
       = Some (s, AllCompleted) ->
     total (busy_time s) (cores s) = total duration (tasks g)).
Proof.
  intros Hd. apply Forall_forall in Hd.
  assert (forall s, in_run quantum debug_mode num_cores g s ->
            total (busy_time s) (cores s) = busy_total s) as Hbusy.
  { intros s Hin. apply total_ext. intros c Hc.
    apply list_elem_of_lookup in Hc as [i Hi].
    destruct (in_run_cores _ _ _ _ _ Hin) as [_ Hcs].
    destruct (Hcs i c Hi) as [_ Hidle].
    pose proof (in_run_time _ _ _ _ _ Hin) as Htime.
    unfold busy_time, int_sub. apply wrap_id.
    unfold in_int, INT_MIN, INT_MAX. lia. }
  split.
  - intros s Hin. rewrite (Hbusy s Hin).
    destruct (in_run_accounting _ _ _ _ _ Hd Hin) as [_ Hacc].
    by rewrite drop_0 in Hacc.
  - intros s Hn Hrun.
    assert (in_run quantum debug_mode num_cores g s) as Hin
      by (right; by exists AllCompleted).
    rewrite (Hbusy s Hin).
    destruct (in_run_accounting _ _ _ _ _ Hd Hin) as [Hds Hacc].
    destruct (run_all_completed _ _ _ _ _ Hn Hrun) as [Hdone Hidle].
    destruct (in_run_inv _ _ _ _ _ Hin) as [_ Hok].
    rewrite Hacc, drop_0, <- (same_graph_total_duration g (dag s))
      by (by apply (in_run_graph quantum debug_mode num_cores)).
    unfold running, work_done.
    rewrite (total_zero (fun c => if is_idle c then 0 else 1)).
    2:{ intros c Hc. apply list_elem_of_lookup in Hc as [i Hi].
        by rewrite (Hidle i c Hi). }
    rewrite Z.add_0_r. apply total_ext. intros t Ht.
    pose proof (proj1 (Forall_forall _ _) Hds t Ht) as Hdur. cbv beta in Hdur.
    pose proof (proj1 (Forall_forall _ _) Hok t Ht) as (_ & _ & Hrem).
    apply list_elem_of_lookup in Ht as [k Hk].
    rewrite (Hdone k t Hk) in Hrem. rewrite (Hrem Hdur). lia.
Qed.

Lemma busy_time_accounts_for_work_witness :
  (forall t, t ∈ tasks (three_tasks 100) -> 1 <= duration t <= INT_MAX) /\
  exists s, simulate_hybrid_scheduler 2 true (three_tasks 100) 2
              = Some (s, AllCompleted) /\
    total (busy_time s) (cores s) = 9.
Proof.
  assert (forall t, t ∈ tasks (three_tasks 100) -> 1 <= duration t <= INT_MAX)
    as Hd.
  { intros t Ht. apply list_elem_of_In in Ht. vm_compute in Ht.
    destruct Ht as [<- | [<- | [<- | []]]]; vm_compute; split; discriminate. }
  split; [exact Hd|].
  destruct (run_simulation_total 2 true 2 TICK_DELAY_MS (three_tasks 100))
    as [[s e] Hrun].
  assert (e = AllCompleted) as ->.
  { revert Hrun. unfold run_simulation. vm_compute. by intros [= _ <-]. }
  exists s. split; [exact Hrun|].
  refine (eq_trans
            (proj2 (busy_time_accounts_for_work 2 true 2 (three_tasks 100) Hd)
               s _ Hrun) _).
  - vm_compute. discriminate.
  - vm_compute. reflexivity.
Defined.

(** ** Tasks that can never start *)

Lemma same_graph_get_task_none g g' d :
  same_graph g g' -> get_task g d = None -> get_task g' d = None.
Proof.
  intros Hg. pose proof (same_graph_num_tasks g g' Hg) as Hn.
  unfold get_task, num_tasks in *. destruct (d <? 0); [done|].
  rewrite !lookup_ge_None. lia.
Qed.

Lemma blocked_not_ready g S s k :
  blocked_set g S -> blocked_inv g S s -> S k -> ~ ready (dag s) k.
Proof.
  intros Hset [Hg Hinv] Hk (t' & Ht' & _ & Hdeps).
  destruct (Hset k Hk) as (t & d & Ht & Hd & Hcase).
  destruct (same_graph_lookup g (dag s) k t' Hg Ht') as (t0 & Ht0 & Hst).
  assert (t0 = t) as -> by congruence.
  assert (dependencies t' = dependencies t) as Heq
    by (unfold static in Hst; congruence).
  rewrite <- Heq in Hd.
  destruct (Hdeps d Hd) as (td & Htd & Hc).
  destruct Hcase as [Hnone | [H0 Hmem]].
  - rewrite (same_graph_get_task_none g (dag s) d Hg Hnone) in Htd. done.
  - destruct (Hinv _ Hmem) as (t1 & Ht1 & Hopen & _).
    unfold get_task in Htd. destruct (Z.ltb_spec d 0); [lia|]. congruence.
Qed.

Lemma blocked_inv_update g S s k t t' cores' time' count' out' :
  blocked_set g S -> blocked_inv g S s ->
  tasks (dag s) !! k = Some t -> ready (dag s) k -> static t' = static t ->
  blocked_inv g S
    (mkSim (set_tasks (<[k := t']> (tasks (dag s))) (dag s)) cores' time'
           count' out').
Proof.
  intros Hset Hinv Ht Hr Hst. split.
  - apply (same_graph_update g (dag s) k t); [apply Hinv | done | done].
  - intros k' Hk'. cbn [dag tasks set_tasks].
    destruct (decide (k = k')) as [<-|Hne].
    + destruct (blocked_not_ready g S s k Hset Hinv Hk' Hr).
    + rewrite list_lookup_insert_ne by done. by apply Hinv.
Qed.

Lemma check_completed_blocked debug_mode g S s i :
  blocked_set g S -> engine_inv s ->
  blocked_inv g S s -> blocked_inv g S (check_completed debug_mode s i).
Proof.
  intros Hset Hinv Hb.
  destruct (check_completed_cases debug_mode s i Hinv)
    as [[-> _] | (c & k & t & Hcore & Hidle & Hcur & Htask & Hc & Ha & Hr & Hok &
              [(_ & ->) | [(_ & _ & ->) | (_ & _ & ->)]])]; [done| ..].
  all: by apply (blocked_inv_update g S s k t).
Qed.

Lemma assign_idle_blocked quantum debug_mode g S s i :
  blocked_set g S ->
  blocked_inv g S s -> blocked_inv g S (assign_idle quantum debug_mode s i).
Proof.
  intros Hset Hb.
  destruct (assign_idle_cases quantum debug_mode s i)
    as [[-> _] | (c & k & t & Hcore & Hidle & Hsel & (Htask & Hr & Ha) & Hc & ->)];
    [done|].
  apply (blocked_inv_update g S s k t); try done.
  by destruct (start_time t =? -1).
Qed.

Lemma blocked_inv_ext g S s s' :
  dag s' = dag s -> blocked_inv g S s -> blocked_inv g S s'.
Proof. unfold blocked_inv. by intros ->. Qed.

Lemma simulation_tick_blocked quantum debug_mode num_cores tick_delay g S s :
  blocked_set g S ->
  engine_inv s -> 0 <= simulation_time s <= TIME_LIMIT ->
  blocked_inv g S s ->
  blocked_inv g S (simulation_tick quantum debug_mode num_cores tick_delay s).
Proof.
  intros Hset. apply simulation_tick_invariant.
  - intros s' i. by apply check_completed_blocked.
  - intros s' i _. by apply assign_idle_blocked.
  - intros s' _ _. apply blocked_inv_ext. apply end_of_tick_dag.
Qed.

Lemma init_sim_blocked num_cores g S :
  blocked_set g S -> blocked_inv g S (init_sim num_cores g).
Proof.
  intros Hset. split; [apply reset_dag_execution_graph|].
  intros k Hk. destruct (Hset k Hk) as (t & d & Ht & _).
  exists (reset_task t). cbn [init_sim dag reset_dag_execution tasks set_tasks].
  by rewrite list_lookup_fmap, Ht.
Qed.

Lemma in_run_blocked quantum debug_mode num_cores g S s :
  blocked_set g S ->
  in_run quantum debug_mode num_cores g s -> blocked_inv g S s.
Proof.
  intros Hset. apply in_run_invariant.
  - intros s'. by apply simulation_tick_blocked.
  - intros s' out. by apply blocked_inv_ext.
  - by apply init_sim_blocked.
Qed.



(** ** Acyclic graphs run to completion *)

Lemma total_app {A} (f : A -> Z) l1 l2 :
  total f (l1 ++ l2) = total f l1 + total f l2.
Proof.
  unfold total. induction l1 as [|x l1 IH]; cbn; [done|]. rewrite IH. lia.
Qed.

Lemma total_le {A} (f h : A -> Z) l :
  (forall x, x ∈ l -> f x <= h x) -> total f l <= total h l.
Proof.
  unfold total. induction l as [|x l IH]; intros H; cbn; [done|].
  pose proof (H x ltac:(left)).
  assert (foldr (fun a n => f a + n) 0 l <= foldr (fun a n => h a + n) 0 l)
    by (apply IH; intros y Hy; apply H; by right).
  lia.
Qed.

Lemma total_lt {A} (f h : A -> Z) l k y :
  (forall x, x ∈ l -> f x <= h x) -> l !! k = Some y -> f y + 1 <= h y ->
  total f l + 1 <= total h l.
Proof.
  intros Hle Hk Hy.
  rewrite <- (take_drop_middle l k y Hk), !total_app, !total_cons.
  assert (total f (take k l) <= total h (take k l)).
  { apply total_le. intros x Hx. apply Hle.
    by apply (subseteq_take k l). }
  assert (total f (drop (S k) l) <= total h (drop (S k) l)).
  { apply total_le. intros x Hx. apply Hle.
    by apply (subseteq_drop (S k) l). }
  lia.
Qed.

Lemma running_pos cs i c :
  cs !! i = Some c -> is_idle c = false -> 1 <= running cs.
Proof.
  intros Hc Hidle. unfold running.
  pose proof (total_lt (fun _ => 0) (fun c => if is_idle c then 0 else 1)
                cs i c) as H.
  rewrite total_zero in H by done. apply H; [|done|by rewrite Hidle].
  intros x _. destruct (is_idle x); lia.
Qed.

Lemma count_short_open g :
  count_completed g < num_tasks g ->
  exists k t, tasks g !! k = Some t /\ completed t = false.
Proof.
  intros Hshort.
  destruct (decide (Forall (fun t => completed t = true) (tasks g)))
    as [Hall|Hopen].
  - exfalso. unfold count_completed, num_tasks in Hshort.
    pose proof (total_bounds (fun t => if completed t then 1 else 0)
                  (tasks g) 1 1) as Hb.
    destruct Hb; [|lia]. intros t Ht.
    rewrite (proj1 (Forall_forall _ _) Hall t Ht). lia.
  - apply (not_Forall_Exists _) in Hopen.
    apply Exists_exists in Hopen as (t & Ht & Hc).
    apply list_elem_of_lookup in Ht as [k Hk].
    exists k, t. split; [done|]. cbn in Hc. by destruct (completed t).
Qed.

(** In an acyclic graph with a task left, some task left is ready. *)
Lemma ranked_graph_ready g rank s :
  ranked_graph g rank -> same_graph g (dag s) ->
  forall k t, tasks (dag s) !! k = Some t -> completed t = false ->
    exists k' t', tasks (dag s) !! k' = Some t' /\ completed t' = false /\
      ready (dag s) k'.
Proof.
  intros Hrank Hg.
  assert (forall n k, (rank k < n)%nat ->
            forall t, tasks (dag s) !! k = Some t -> completed t = false ->
              exists k' t', tasks (dag s) !! k' = Some t' /\
                completed t' = false /\ ready (dag s) k') as H.
  2:{ intros k. apply (H (S (rank k))). lia. }
  induction n as [|n IH]; intros k Hn t Ht Hc; [lia|].
  destruct (decide (Forall (fun d => task_completed (dag s) d = true)
                      (dependencies t))) as [Hall|Hopen].
  - exists k, t. split_and!; try done. exists t. split_and!; try done.
    intros d Hd. pose proof (proj1 (Forall_forall _ _) Hall d Hd) as Hcd.
    cbv beta in Hcd. unfold task_completed in Hcd.
    destruct (get_task (dag s) d) as [td|]; [|done]. by exists td.
  - apply (not_Forall_Exists _) in Hopen.
    apply Exists_exists in Hopen as (d & Hd & Hcd). cbn in Hcd.
    destruct (same_graph_lookup g (dag s) k t Hg Ht) as (t0 & Ht0 & Hst).
    assert (dependencies t = dependencies t0) as Heq
      by (unfold static in Hst; congruence).
    rewrite Heq in Hd. destruct (Hrank k t0 d Ht0 Hd) as [Hvalid Hlt].
    rewrite <- (same_graph_num_tasks g (dag s) Hg) in Hvalid.
    unfold task_completed, get_task in Hcd.
    destruct (Z.ltb_spec d 0); [lia|].
    destruct (lookup_lt_is_Some_2 (tasks (dag s)) (Z.to_nat d)) as [td Htd];
      [unfold num_tasks in Hvalid; lia|].
    rewrite Htd in Hcd.
    apply (IH (Z.to_nat d)) with td; try done.
    + lia.
    + by destruct (completed td).
Qed.

Lemma forward_graph_ranked g :
  forward_graph g = true -> ranked_graph g (fun k => k).
Proof.
  intros Hf k t d Ht Hd. unfold forward_graph in Hf.
  pose proof (lookup_lt_Some _ _ _ Ht) as Hk.
  rewrite forallb_forall in Hf. specialize (Hf k).
  rewrite Ht in Hf. cbn in Hf. unfold forward_task in Hf.
  rewrite forallb_forall in Hf.
  assert (In k (seq 0 (length (tasks g)))) as Hin by (apply in_seq; lia).
  specialize (Hf Hin d). apply list_elem_of_In in Hd. specialize (Hf Hd).
  unfold num_tasks. lia.
Qed.

Lemma check_completed_busy_total debug_mode s j :
  engine_inv s -> busy_total (check_completed debug_mode s j) = busy_total s.
Proof.
  intros Hinv.
  destruct (check_completed_cases debug_mode s j Hinv)
    as [[-> _] | (c & k & t & Hcore & _ & _ & _ & _ & _ & _ & _ &
              [(_ & ->) | [(_ & _ & ->) | (_ & _ & ->)]])]; [done| ..].
  all: by apply (busy_total_update s j c).
Qed.

Lemma assign_idle_busy_total quantum debug_mode s j :
  busy_total (assign_idle quantum debug_mode s j) = busy_total s.
Proof.
  destruct (assign_idle_cases quantum debug_mode s j)
    as [[-> _] | (c & k & t & Hcore & _ & _ & _ & _ & ->)]; [done|].
  by apply (busy_total_update s j c).
Qed.

(** In one iteration the tasks receive one tick of execution for every
    core that was running at its head. *)
Lemma simulation_tick_work_done quantum debug_mode num_cores tick_delay s :
  full_inv num_cores s -> 0 <= simulation_time s <= TIME_LIMIT ->
  accounting 0 s ->
  work_done (dag (simulation_tick quantum debug_mode num_cores tick_delay s))
  = work_done (dag s) + running (cores s).
Proof.
  intros Hfull Htime Hacc.
  pose proof (proj2 Hacc) as Hlaw. rewrite drop_0 in Hlaw. rewrite <- Hlaw.
  refine (proj2 (simulation_tick_passes quantum debug_mode num_cores tick_delay
                   (fun a => accounting 0 a /\ busy_total a = busy_total s)
                   (fun a => work_done (dag a) = busy_total s)
                   (fun j a => accounting j a /\ busy_total a = busy_total s)
                   (fun _ a => accounted a /\ busy_total a = busy_total s)
                   _ _ _ _ _ s Hfull Htime (conj Hacc eq_refl))).
  - done.
  - intros a j _ Ha [Hq Hb]. split.
    + by apply (check_completed_accounting debug_mode num_cores).
    + rewrite check_completed_busy_total; [done | apply Ha].
  - intros a (_ & _ & [Hlen _] & _) [[Hd Hq] Hb]. split; [|done].
    split; [done|]. rewrite Hq, drop_ge by lia.
    unfold running. rewrite total_nil. lia.
  - intros a j _ _ [Hr Hb]. split.
    + by apply assign_idle_accounted.
    + by rewrite assign_idle_busy_total.
  - intros a _ _ [[_ Hr] Hb]. rewrite end_of_tick_dag. congruence.
Qed.

Section Liveness.

Variables (quantum : Z) (debug_mode : bool) (num_cores : Z).
Variables (g : DAG) (rank : nat -> nat).

Hypothesis Hdurations : durations_ok g.
Hypothesis Hranked : ranked_graph g rank.
Hypothesis Hcores : 1 <= num_cores.
Hypothesis Hfits : total duration (tasks g) + 1 <= 10000.

Lemma num_tasks_le_total_duration : num_tasks g <= total duration (tasks g).
Proof.
  unfold num_tasks.
  pose proof (total_bounds duration (tasks g) 1 INT_MAX) as H.
  destruct H; [|lia]. intros t Ht.
  apply (proj1 (Forall_forall _ _) Hdurations t Ht).
Qed.

Lemma work_done_bounds s :
  in_run quantum debug_mode num_cores g s ->
  0 <= work_done (dag s) <= total duration (tasks g) /\
  ((exists k t, tasks (dag s) !! k = Some t /\ completed t = false) ->
   work_done (dag s) + 1 <= total duration (tasks g)).
Proof.
  intros Hin.
  destruct (in_run_accounting _ _ _ _ _ Hdurations Hin) as [Hd _].
  destruct (in_run_inv _ _ _ _ _ Hin) as [_ Hok].
  rewrite <- (same_graph_total_duration g (dag s))
    by (by apply (in_run_graph quantum debug_mode num_cores)).
  assert (forall t, t ∈ tasks (dag s) ->
            0 <= duration t - remaining_time t <= duration t /\
            (completed t = false -> duration t - remaining_time t + 1 <= duration t))
    as Hpoint.
  { intros t Ht.
    pose proof (proj1 (Forall_forall _ _) Hd t Ht) as Hdur. cbv beta in Hdur.
    pose proof (proj1 (Forall_forall _ _) Hok t Ht) as (_ & _ & Hrem).
    specialize (Hrem Hdur). destruct (completed t); [split; [lia | done]|].
    split; [lia|]. intros _. lia. }
  unfold work_done. split_and!.
  - pose proof (total_le (fun _ => 0) (fun t => duration t - remaining_time t)
                  (tasks (dag s))) as H.
    rewrite total_zero in H by done. apply H. intros t Ht.
    apply (Hpoint t Ht).
  - apply total_le. intros t Ht. apply (Hpoint t Ht).
  - intros (k & t & Ht & Hc).
    apply (total_lt _ _ _ k t); [|done|].
    + intros x Hx. apply (Hpoint x Hx).
    + apply Hpoint; [|done]. by apply (list_elem_of_lookup_2 _ k).
Qed.

(** After the first iteration, a core is running as long as a task is
    left. *)
Lemma head_running m :
  Z.of_nat m <= 10000 ->
  (exists k t,
     tasks (dag (state_after (S m) quantum debug_mode num_cores g)) !! k = Some t /\
     completed t = false) ->
  1 <= running (cores (state_after (S m) quantum debug_mode num_cores g)).
Proof.
  intros Hm (k & t & Ht & Hc).
  assert (in_run quantum debug_mode num_cores g
            (state_after (S m) quantum debug_mode num_cores g)) as Hin.
  { left. exists (S m). split; [lia | done]. }
  assert (in_run quantum debug_mode num_cores g
            (state_after m quantum debug_mode num_cores g)) as Hin0.
  { left. exists m. split; [lia | done]. }
  destruct (ranked_graph_ready g rank _ Hranked (in_run_graph _ _ _ _ _ Hin)
              k t Ht Hc) as (k' & t' & Ht' & Hc' & Hready).
  destruct (in_run_binding _ _ _ _ _ Hin) as [Htb _].
  destruct (Htb k' t' Ht') as [_ [Hfree | (i & c & _ & Hcore & Hidle & _)]].
  2:{ by apply (running_pos _ i c). }
  destruct (in_run_cores _ _ _ _ _ Hin) as [Hlen _].
  destruct (lookup_lt_is_Some_2
              (cores (state_after (S m) quantum debug_mode num_cores g)) 0)
    as [c Hcore]; [lia|].
  destruct (is_idle c) eqn:Hidle; [|by apply (running_pos _ 0%nat c)].
  exfalso. revert Hcore. rewrite state_after_S. intros Hcore.
  pose proof (simulation_tick_work quantum debug_mode num_cores TICK_DELAY_MS
                _ (in_run_full _ _ _ _ _ Hin0)) as Hwork.
  rewrite <- state_after_S in Hwork, Hcore.
  destruct (state_after_inv quantum debug_mode num_cores m g) as [_ Htime];
    [lia|].
  rewrite Htime in Hwork. specialize (Hwork ltac:(unfold TIME_LIMIT; lia) 0%nat c Hcore Hidle).
  destruct (find_highest_priority_ready_task_cases
              (dag (state_after (S m) quantum debug_mode num_cores g)))
    as [[_ Hno] | (r & tr & Hsel & _)]; [|lia].
  by apply (Hno k' t').
Qed.

Lemma simulation_loop_live fuel m :
  Z.of_nat (S m) <= total duration (tasks g) + 1 ->
  Z.of_nat m <= work_done (dag (state_after (S m) quantum debug_mode num_cores g)) ->
  (Z.to_nat (total duration (tasks g) + 1 - Z.of_nat m) <= fuel)%nat ->
  exists s,
    simulation_loop quantum debug_mode num_cores TICK_DELAY_MS fuel
      (state_after (S m) quantum debug_mode num_cores g) = Some (s, AllCompleted) /\
    simulation_time s <= total duration (tasks g) + 1.
Proof.
  revert m. induction fuel as [|fuel IH]; intros m Hm Hwork Hfuel; [lia|].
  assert (in_run quantum debug_mode num_cores g
            (state_after (S m) quantum debug_mode num_cores g)) as Hin.
  { left. exists (S m). split; [lia | done]. }
  destruct (state_after_inv quantum debug_mode num_cores (S m) g) as [_ Htime];
    [lia|].
  cbn [simulation_loop].
  destruct (Z.ltb_spec
              (completed_tasks (state_after (S m) quantum debug_mode num_cores g))
              (num_tasks (dag (state_after (S m) quantum debug_mode num_cores g))))
    as [Hshort|Hall].
  2:{ eexists. split; [reflexivity|]. rewrite Htime. lia. }
  pose proof num_tasks_le_total_duration as Hn.
  assert (num_tasks g <= INT_MAX) as Hn' by (unfold INT_MAX; lia).
  destruct (in_run_count _ _ _ _ _ Hn' Hin) as [_ Hcount].
  rewrite Hcount in Hshort. apply count_short_open in Hshort.
  destruct (work_done_bounds _ Hin) as [_ Hbound]. specialize (Hbound Hshort).
  pose proof (head_running m ltac:(lia) Hshort) as Hrun.
  pose proof (simulation_tick_work_done quantum debug_mode num_cores TICK_DELAY_MS
                _ (in_run_full _ _ _ _ _ Hin)) as Hstep.
  rewrite Htime in Hstep.
  specialize (Hstep ltac:(unfold TIME_LIMIT; lia)
                    (in_run_accounting _ _ _ _ _ Hdurations Hin)).
  rewrite <- state_after_S in Hstep |- *.
  destruct (state_after_inv quantum debug_mode num_cores (S (S m)) g)
    as [_ Htime']; [lia|].
  rewrite Htime'.
  destruct (Z.gtb_spec (Z.of_nat (S (S m))) TIME_LIMIT) as [Hover|_];
    [unfold TIME_LIMIT in Hover; lia|].
  apply IH; lia.
Qed.

Lemma run_live :
  exists s,
    simulate_hybrid_scheduler quantum debug_mode g num_cores
      = Some (s, AllCompleted) /\
    simulation_time s <= total duration (tasks g) + 1.
Proof.
  unfold simulate_hybrid_scheduler, run_simulation, run_fuel.
  cbn [simulation_loop].
  destruct (completed_tasks (init_sim num_cores g)
            <? num_tasks (dag (init_sim num_cores g))).
  2:{ eexists. split; [reflexivity|]. cbn.
      pose proof num_tasks_le_total_duration. unfold num_tasks in *. lia. }
  change (init_sim num_cores g)
    with (state_after 0 quantum debug_mode num_cores g).
  rewrite <- state_after_S.
  destruct (state_after_inv quantum debug_mode num_cores 1 g) as [_ Htime];
    [lia|].
  rewrite Htime.
  destruct (Z.gtb_spec (Z.of_nat 1) TIME_LIMIT) as [Hover|_];
    [unfold TIME_LIMIT in Hover; lia|].
  assert (in_run quantum debug_mode num_cores g
            (state_after 1 quantum debug_mode num_cores g)) as Hin.
  { left. exists 1%nat. split; [lia | done]. }
  destruct (work_done_bounds _ Hin) as [[Hpos _] _].
  apply simulation_loop_live.
  - pose proof num_tasks_le_total_duration. unfold num_tasks in *. lia.
  - lia.
  - unfold TIME_LIMIT. lia.
Qed.

End Liveness.

(** X10. Acyclic graphs run to completion. Let every duration be at least
    1, let the dependencies be acyclic and designate tasks of the graph
    (a rank decreases along every dependency), let there be at least one
    core, and let the durations add up to at most 9999. Then, whatever
    the quantum, the run ends with every task completed, all cores idle,
    before the safety limit: the clock is then at most the sum of the
    durations plus 1. *)
Theorem acyclic_run_completes (quantum : Z) (debug_mode : bool)
    (num_cores : Z) (g : DAG) (rank : nat -> nat) :
  (forall t, t ∈ tasks g -> 1 <= duration t <= INT_MAX) ->
  ranked_graph g rank ->
  1 <= num_cores ->
  total duration (tasks g) + 1 <= 10000 ->
  exists s,
    simulate_hybrid_scheduler quantum debug_mode g num_cores
      = Some (s, AllCompleted) /\
    simulation_time s <= total duration (tasks g) + 1 /\
    (forall k t, tasks (dag s) !! k = Some t ->
       completed t = true /\ remaining_time t = 0) /\
    (forall i c, cores s !! i = Some c -> is_idle c = true).
Proof.
  intros Hd Hrank Hcores Hfits. apply Forall_forall in Hd.
  destruct (run_live quantum debug_mode num_cores g rank Hd Hrank Hcores Hfits)
    as (s & Hrun & Htime).
  exists s. split; [done|]. split; [done|].
  pose proof (num_tasks_le_total_duration g Hd) as Hn.
  assert (num_tasks g <= INT_MAX) as Hn' by (unfold INT_MAX; lia).
  destruct (run_all_completed _ _ _ _ _ Hn' Hrun) as [Hdone Hidle].
  split; [|done]. intros k t Ht. split; [by apply (Hdone k)|].
  assert (in_run quantum debug_mode num_cores g s) as Hin
    by (right; by exists AllCompleted).
  destruct (in_run_accounting _ _ _ _ _ Hd Hin) as [Hds _].
  destruct (in_run_inv _ _ _ _ _ Hin) as [_ Hok].
  pose proof (Forall_lookup_1 _ _ _ _ Hds Ht) as Hdur. cbv beta in Hdur.
  pose proof (Forall_lookup_1 _ _ _ _ Hok Ht) as (_ & _ & Hrem).
  rewrite (Hdone k t Ht) in Hrem. by apply Hrem.
Qed.

Lemma durations_check g :
  forallb (fun t => (1 <=? duration t) && (duration t <=? INT_MAX)) (tasks g)
  = true ->
  forall t, t ∈ tasks g -> 1 <= duration t <= INT_MAX.
Proof.
  intros H t Ht. rewrite forallb_forall in H.
  apply list_elem_of_In in Ht. specialize (H t Ht). lia.
Qed.

Lemma acyclic_run_completes_witness :
  (forall t, t ∈ tasks (create_sample_dag false).1 -> 1 <= duration t <= INT_MAX) /\
  ranked_graph (create_sample_dag false).1 (fun k => k) /\
  1 <= 4 /\
  total duration (tasks (create_sample_dag false).1) + 1 <= 10000 /\
  exists s,
    simulate_hybrid_scheduler 50 false (create_sample_dag false).1 4
      = Some (s, AllCompleted) /\
    simulation_time s <= 1254.
Proof.
  assert (forall t, t ∈ tasks (create_sample_dag false).1 ->
            1 <= duration t <= INT_MAX) as Hd.
  { apply durations_check. vm_compute. reflexivity. }
  assert (ranked_graph (create_sample_dag false).1 (fun k => k)) as Hrank
    by (apply forward_graph_ranked; vm_compute; reflexivity).
  assert (total duration (tasks (create_sample_dag false).1) + 1 <= 10000)
    as Hfits by (vm_compute; discriminate).
  split; [exact Hd|]. split; [exact Hrank|]. split; [lia|]. split; [exact Hfits|].
  destruct (acyclic_run_completes 50 false 4 (create_sample_dag false).1
              (fun k => k) Hd Hrank ltac:(lia) Hfits)
    as (s & Hrun & Htime & _).
  exists s. split; [exact Hrun|].
  refine (Z.le_trans _ _ _ Htime _). vm_compute. discriminate.
Defined.

(** ** Graph construction *)

Lemma edge_spec g u v :
  edge g u v = true <->
  exists row x, adjacency_matrix g !! u = Some row /\ row !! v = Some x /\ x <> 0.
Proof.
  unfold edge. destruct (adjacency_matrix g !! u) as [row|].
  2:{ split; [done | intros (? & ? & ? & _); done]. }
  destruct (row !! v) as [x|] eqn:Hx; cbn [from_option negb].
  2:{ split; [done|]. intros (r & x & [= <-] & Hx' & _). congruence. }
  destruct (Z.eqb_spec 0 x) as [<-|Hne]; cbn [negb].
  - split; [done|]. intros (r & x' & [= <-] & Hx' & Hne). congruence.
  - split; [|done]. intros _. exists row, x. split_and!; [done | done | lia].
Qed.

Lemma create_dag_wf n : wf_graph (create_dag n).
Proof.
  unfold create_dag. split_and!; cbn [tasks adjacency_matrix].
  - by rewrite length_replicate, length_map, length_seq.
  - intros u row Hrow. apply lookup_replicate in Hrow as [-> _].
    by rewrite length_replicate, length_map, length_seq.
  - intros k t. rewrite list_lookup_fmap.
    destruct (seq 0 (Z.to_nat n) !! k) as [j|] eqn:Hj; [|done].
    apply lookup_seq in Hj as [-> _]. intros [= <-]. cbn.
    split_and!; [done | apply NoDup_nil_2 |]. intros d Hd.
    by apply not_elem_of_nil in Hd.
  - intros u v. rewrite edge_spec. cbn [adjacency_matrix tasks]. split.
    + intros (row & x & Hrow & Hx & Hne).
      apply lookup_replicate in Hrow as [-> _].
      apply lookup_replicate in Hx as [-> _]. done.
    + intros (t & Ht & Hd). rewrite list_lookup_fmap in Ht.
      destruct (seq 0 (Z.to_nat n) !! v); [|done]. injection Ht as <-.
      by apply not_elem_of_nil in Hd.
Qed.

Lemma create_dag_num_tasks n : 0 <= n -> num_tasks (create_dag n) = n.
Proof.
  intros Hn. unfold num_tasks, create_dag. cbn [tasks].
  rewrite length_map, length_seq. lia.
Qed.

Lemma create_dag_entered n k t :
  tasks (create_dag n) !! k = Some t ->
  completed t = false /\ core_assigned t = -1 /\ start_time t = -1 /\
  finish_time t = -1.
Proof.
  unfold create_dag. cbn [tasks]. rewrite list_lookup_fmap.
  destruct (seq 0 (Z.to_nat n) !! k); [|done]. by intros [= <-].
Qed.

(** Rewriting the fields of the tasks that the graph structure does not
    mention keeps the graph well formed. *)
Lemma wf_graph_tasks g ts :
  wf_graph g ->
  map (fun t => (task_id t, dependencies t)) ts
  = map (fun t => (task_id t, dependencies t)) (tasks g) ->
  wf_graph (set_tasks ts g).
Proof.
  intros (Hm & Hrows & Htasks & Hedge) Heq.
  assert (length ts = length (tasks g)) as Hlen.
  { by rewrite <- (length_map (fun t => (task_id t, dependencies t)) ts), Heq,
      length_map. }
  assert (forall k t, ts !! k = Some t ->
            exists t0, tasks g !! k = Some t0 /\ task_id t = task_id t0 /\
              dependencies t = dependencies t0) as Hsame.
  { intros k t Ht.
    assert (map (fun t => (task_id t, dependencies t)) ts !! k
            = Some (task_id t, dependencies t)) as H
      by (by rewrite list_lookup_fmap, Ht).
    rewrite Heq, list_lookup_fmap in H.
    destruct (tasks g !! k) as [t0|]; [|done]. exists t0. cbn in H.
    split_and!; congruence. }
  assert (forall k t0, tasks g !! k = Some t0 ->
            exists t, ts !! k = Some t /\ task_id t = task_id t0 /\
              dependencies t = dependencies t0) as Hsame'.
  { intros k t0 Ht0.
    destruct (lookup_lt_is_Some_2 ts k) as [t Ht];
      [rewrite Hlen; by apply (lookup_lt_Some _ _ t0)|].
    exists t. split; [done|].
    destruct (Hsame k t Ht) as (t1 & Ht1 & ? & ?).
    assert (t1 = t0) as -> by congruence. done. }
  unfold wf_graph, num_tasks, edge. cbn [tasks adjacency_matrix set_tasks].
  rewrite Hlen. split_and!; try done.
  - intros k t Ht. destruct (Hsame k t Ht) as (t0 & Ht0 & -> & ->).
    by apply Htasks.
  - intros u v. unfold edge in Hedge. rewrite Hedge. split.
    + intros (t0 & Ht0 & Hd). destruct (Hsame' v t0 Ht0) as (t & Ht & _ & Hdeps).
      exists t. by rewrite Hdeps.
    + intros (t & Ht & Hd). destruct (Hsame v t Ht) as (t0 & Ht0 & _ & Hdeps).
      exists t0. by rewrite <- Hdeps.
Qed.

Lemma wf_graph_has_cycles g b : wf_graph g -> wf_graph (set_has_cycles b g).
Proof. done. Qed.

Lemma add_dependency_wf g task depends_on :
  wf_graph g -> valid_id g task -> valid_id g depends_on ->
  task <> depends_on -> has_dependency g task depends_on = false ->
  wf_graph (add_dependency g task depends_on).
Proof.
  intros (Hm & Hrows & Htasks & Hedge) Htask Hdep Hne Hnew.
  unfold valid_id, num_tasks in Htask, Hdep.
  assert (~ exists t, get_task g task = Some t /\ depends_on ∈ dependencies t)
    as Hfresh.
  { intros H. apply has_dependency_spec in H. congruence. }
  destruct (lookup_lt_is_Some_2 (tasks g) (Z.to_nat task)) as [tt Htt]; [lia|].
  destruct (lookup_lt_is_Some_2 (adjacency_matrix g) (Z.to_nat depends_on))
    as [rd Hrd]; [lia|].
  pose proof (Hrows _ _ Hrd) as Hrdlen.
  assert (depends_on ∉ dependencies tt) as Hnotin.
  { intros Hin. apply Hfresh. exists tt. split; [|done].
    unfold get_task. destruct (Z.ltb_spec task 0); [lia | done]. }
  unfold wf_graph, add_dependency, num_tasks.
  cbn [tasks adjacency_matrix set_tasks set_adjacency_matrix].
  rewrite !length_alter. split_and!; try done.
  - intros u row. destruct (decide (u = Z.to_nat depends_on)) as [->|Hu].
    + rewrite list_lookup_alter_eq, Hrd. intros [= <-].
      by rewrite length_insert.
    + rewrite list_lookup_alter_ne by done. apply Hrows.
  - intros k t. destruct (decide (k = Z.to_nat task)) as [->|Hk].
    + rewrite list_lookup_alter_eq, Htt. intros [= <-]. cbn.
      destruct (Htasks _ _ Htt) as (Hid & Hnd & Hrange).
      split_and!; [done | |].
      * apply NoDup_app. split_and!; [done | | apply NoDup_singleton].
        intros x Hx Hx'. apply list_elem_of_singleton in Hx'. by subst x.
      * intros d Hd. apply elem_of_app in Hd as [Hd|Hd]; [by apply Hrange|].
        apply list_elem_of_singleton in Hd. subst d. unfold num_tasks. lia.
    + rewrite list_lookup_alter_ne by done. apply Htasks.
  - intros u v. rewrite edge_spec.
    cbn [adjacency_matrix set_adjacency_matrix set_tasks].
    specialize (Hedge u v). rewrite edge_spec in Hedge.
    destruct (decide (u = Z.to_nat depends_on)) as [->|Hu];
      destruct (decide (v = Z.to_nat task)) as [->|Hv].
    + rewrite list_lookup_alter_eq, Hrd, list_lookup_alter_eq, Htt. cbn. split.
      * intros _. eexists. split; [done|]. cbn. apply elem_of_app. right.
        apply list_elem_of_singleton. lia.
      * intros _. exists (<[Z.to_nat task := 1]> rd), 1. split; [done|].
        split; [|done]. apply list_lookup_insert_eq. lia.
    + rewrite list_lookup_alter_eq, Hrd, list_lookup_alter_ne by done. cbn.
      rewrite <- Hedge. split.
      * intros (row & x & [= <-] & Hx & Hx0).
        rewrite list_lookup_insert_ne in Hx by done. by exists rd, x.
      * intros (row & x & Hrow & Hx & Hx0).
        assert (row = rd) as -> by congruence.
        exists (<[Z.to_nat task := 1]> rd), x. split; [done|].
        by rewrite list_lookup_insert_ne.
    + rewrite list_lookup_alter_ne, list_lookup_alter_eq, Htt by done. cbn.
      rewrite Hedge. split.
      * intros (t & Ht & Hd). assert (t = tt) as -> by congruence.
        eexists. split; [done|]. cbn. apply elem_of_app. by left.
      * intros (t & [= <-] & Hd). cbn in Hd.
        apply elem_of_app in Hd as [Hd|Hd]; [by exists tt|].
        apply list_elem_of_singleton in Hd. lia.
    + rewrite !list_lookup_alter_ne by done. done.
Qed.

Lemma add_dependency_num_tasks g task depends_on :
  num_tasks (add_dependency g task depends_on) = num_tasks g.
Proof.
  unfold num_tasks, add_dependency. cbn [tasks set_tasks]. by rewrite length_alter.
Qed.

Lemma map_alter_same {A B} (key : A -> B) (f : A -> A) i l :
  (forall a, key (f a) = key a) -> map key (alter f i l) = map key l.
Proof.
  intros Hf. revert i. induction l as [|a l IH]; intros [|i]; cbn; try done.
  - by rewrite Hf.
  - f_equal. apply IH.
Qed.

Lemma read_tasks_spec count i dag input dag' rest out :
  read_tasks count i dag input = Some (dag', rest, out) ->
  wf_graph dag ->
  Forall (fun t => completed t = false /\ core_assigned t = -1 /\
                   start_time t = -1 /\ finish_time t = -1) (tasks dag) ->
  (forall k t, (k < i)%nat -> tasks dag !! k = Some t -> entered t) ->
  wf_graph dag' /\ length (tasks dag') = length (tasks dag) /\
  (forall k t, (k < i + count)%nat -> tasks dag' !! k = Some t -> entered t).
Proof.
  revert i dag input dag' rest out.
  induction count as [|count IH]; intros i dag input dag' rest out.
  { cbn. intros [= <- <- <-] Hwf Hu He. split_and!; try done.
    intros k t Hk. apply He. lia. }
  cbn [read_tasks]. destruct input as [|d [|p input]]; try done.
  destruct (read_tasks count (S i) _ input) as [[[dag1 rest1] out1]|] eqn:Hrec;
    [|done].
  intros [= <- <- <-] Hwf Hu He.
  apply IH in Hrec as (Hwf' & Hlen & He').
  - cbn [tasks set_tasks] in Hlen. rewrite length_alter in Hlen.
    split_and!; try done. intros k t Hk. apply He'. lia.
  - apply wf_graph_tasks; [done|]. by apply map_alter_same.
  - cbn [tasks set_tasks]. apply Forall_alter; [done|]. intros t Ht. done.
  - cbn [tasks set_tasks]. intros k t Hk.
    destruct (decide (k = i)) as [->|Hne].
    + rewrite list_lookup_alter_eq.
      destruct (tasks dag !! i) as [t0|] eqn:Ht0; [|done]. intros [= <-].
      pose proof (Forall_lookup_1 _ _ _ _ Hu Ht0) as (H1 & H2 & H3 & H4).
      unfold entered. cbn. split_and!; try done.
      destruct (Z.ltb_spec p 0); lia.
    + rewrite list_lookup_alter_ne by done. apply He. lia.
Qed.

Lemma apply_rate_monotonic_scheduling_wf g :
  wf_graph g -> wf_graph (apply_rate_monotonic_scheduling g).
Proof.
  intros Hwf. unfold apply_rate_monotonic_scheduling.
  apply wf_graph_tasks; [done|]. rewrite map_map. by apply map_ext.
Qed.

Lemma apply_rate_monotonic_scheduling_described g :
  (forall k t, tasks g !! k = Some t -> entered t) ->
  Forall described (tasks (apply_rate_monotonic_scheduling g)).
Proof.
  intros He. unfold apply_rate_monotonic_scheduling. cbn [tasks set_tasks].
  apply Forall_fmap, Forall_lookup. intros k t Ht.
  destruct (He k t Ht) as (? & ? & ? & ? & ? & ?).
  unfold described. cbn. done.
Qed.

Lemma report_Some line r g out :
  report line r = Some (g, out) ->
  exists out', r = Some (g, out') /\ out = line :: out'.
Proof.
  destruct r as [[g' out']|]; [|done]. cbn. intros [= <- <-]. by exists out'.
Qed.

Lemma add_dependency_described g task depends_on :
  Forall described (tasks g) ->
  Forall described (tasks (add_dependency g task depends_on)).
Proof.
  intros Hd. unfold add_dependency. cbn [tasks set_tasks].
  apply Forall_alter; [done|]. intros t Ht. done.
Qed.

Lemma read_dependencies_spec input dag dag' out :
  read_dependencies dag input = Some (dag', out) ->
  wf_graph dag -> Forall described (tasks dag) ->
  wf_graph dag' /\ num_tasks dag' = num_tasks dag /\
  Forall described (tasks dag').
Proof.
  assert (forall n input dag dag' out,
            (length input <= n)%nat ->
            read_dependencies dag input = Some (dag', out) ->
            wf_graph dag -> Forall described (tasks dag) ->
            wf_graph dag' /\ num_tasks dag' = num_tasks dag /\
            Forall described (tasks dag')) as H.
  2:{ apply (H (length input)). lia. }
  clear. induction n as [|n IH]; intros input dag dag' out Hlen.
  { destruct input; [done | cbn in Hlen; lia]. }
  destruct input as [|task rest]; [done|]. cbn [read_dependencies].
  cbn [length] in Hlen.
  destruct (task =? -1); [by intros [= <- <-]|].
  destruct ((task <? 0) || (task >=? num_tasks dag)) eqn:Htask.
  { intros Hr. apply report_Some in Hr as (out' & Hr & _).
    apply (IH rest dag dag' out'); [lia | done]. }
  destruct rest as [|depends_on rest]; [done|]. cbn [length] in Hlen.
  destruct ((depends_on <? 0) || (depends_on >=? num_tasks dag)) eqn:Hdep.
  { intros Hr. apply report_Some in Hr as (out' & Hr & _).
    apply (IH rest dag dag' out'); [lia | done]. }
  destruct (Z.eqb_spec task depends_on) as [Heq|Hne].
  { intros Hr. apply report_Some in Hr as (out' & Hr & _).
    apply (IH rest dag dag' out'); [lia | done]. }
  destruct (has_dependency dag task depends_on) eqn:Hdup.
  { intros Hr. apply report_Some in Hr as (out' & Hr & _).
    apply (IH rest dag dag' out'); [lia | done]. }
  intros Hr Hwf Hd. apply report_Some in Hr as (out' & Hr & _).
  destruct (IH rest _ dag' out' ltac:(lia) Hr) as (Hwf' & Hn & Hd').
  - apply add_dependency_wf; try done; unfold valid_id; lia.
  - by apply add_dependency_described.
  - split_and!; try done. by rewrite Hn, add_dependency_num_tasks.
Qed.

Lemma dependencies_length_bound (l : list Z) (n k : nat) :
  NoDup l -> (forall d, d ∈ l -> 0 <= d < Z.of_nat n /\ d <> Z.of_nat k) ->
  (k < n)%nat -> (length l < n)%nat.
Proof.
  intros Hnd Hrange Hk.
  assert (NoDup (Z.of_nat k :: l)) as Hnd'.
  { apply NoDup_cons. split; [|done]. intros Hin. by destruct (Hrange _ Hin). }
  assert (Z.of_nat k :: l ⊆+ map Z.of_nat (seq 0 n)) as Hsub.
  { apply NoDup_submseteq; [done|]. intros x Hx.
    assert (0 <= x < Z.of_nat n) as Hx'.
    { apply elem_of_cons in Hx as [->|Hx]; [lia|]. by destruct (Hrange _ Hx). }
    apply list_elem_of_fmap. exists (Z.to_nat x). split; [lia|].
    apply elem_of_seq. lia. }
  apply submseteq_length in Hsub.
  rewrite length_map, length_seq in Hsub. cbn in Hsub. lia.
Qed.

Lemma entered_count_bounds n : 1 <= entered_count n <= MAX_TASKS.
Proof.
  unfold entered_count, MAX_TASKS.
  destruct (Z.ltb_spec n 1), (Z.gtb_spec n 100); cbn; lia.
Qed.

Lemma read_tasks_out count i dag input dag' rest out :
  read_tasks count i dag input = Some (dag', rest, out) ->
  CycleWarningLine ∉ out.
Proof.
  revert i dag input dag' rest out.
  induction count as [|count IH]; intros i dag input dag' rest out.
  { cbn. intros [= <- <- <-]. apply not_elem_of_nil. }
  cbn [read_tasks]. destruct input as [|d [|p input]]; try done.
  destruct (read_tasks count (S i) _ input) as [[[dag1 rest1] out1]|] eqn:Hrec;
    [|done].
  intros [= <- <- <-]. apply IH in Hrec. rewrite elem_of_app. intros [H|H]; [|done].
  destruct (p <? 0); [|by apply not_elem_of_nil in H].
  apply list_elem_of_singleton in H. done.
Qed.

Lemma read_dependencies_out input dag dag' out :
  read_dependencies dag input = Some (dag', out) ->
  CycleWarningLine ∉ out.
Proof.
  assert (forall n input dag dag' out,
            (length input <= n)%nat ->
            read_dependencies dag input = Some (dag', out) ->
            CycleWarningLine ∉ out) as H.
  2:{ apply (H (length input)). lia. }
  clear. induction n as [|n IH]; intros input dag dag' out Hlen.
  { destruct input; [done | cbn in Hlen; lia]. }
  destruct input as [|task rest]; [done|]. cbn [read_dependencies].
  cbn [length] in Hlen.
  destruct (task =? -1); [intros [= <- <-]; apply not_elem_of_nil|].
  destruct ((task <? 0) || (task >=? num_tasks dag)).
  { intros Hr. apply report_Some in Hr as (out' & Hr & ->).
    apply not_elem_of_cons. split; [done|].
    apply (IH rest dag dag' out'); [lia | done]. }
  destruct rest as [|depends_on rest]; [done|]. cbn [length] in Hlen.
  repeat case_match.
  all: intros Hr; apply report_Some in Hr as (out' & Hr & ->).
  all: apply not_elem_of_cons; split; [done|].
  all: eapply (IH rest _ dag' out'); [lia | exact Hr].
Qed.

Lemma rms_debug_lines_out debug_mode g :
  CycleWarningLine ∉ rms_debug_lines debug_mode g.
Proof.
  unfold rms_debug_lines. destruct debug_mode; [|apply not_elem_of_nil].
  intros H. apply list_elem_of_fmap in H as (t & Ht & _). done.
Qed.

(** What [create_custom_dag] returns: the graph the two input loops
    build, with the verdict of [detect_cycles]. *)
Lemma create_custom_dag_spec debug_mode input g out :
  create_custom_dag debug_mode input = Some (g, out) ->
  exists n rest g0, input = n :: rest /\
    num_tasks g0 = entered_count n /\ wf_graph g0 /\
    Forall described (tasks g0) /\
    g = (detect_cycles g0).1 /\
    (CycleWarningLine ∈ out <-> has_cycles g = true).
Proof.
  unfold create_custom_dag. destruct input as [|n rest]; [done|].
  fold (entered_count n).
  destruct (read_tasks _ 0 _ rest) as [[[dag1 rest1] out1]|] eqn:Hread; [|done].
  destruct (read_dependencies _ rest1) as [[dag2 out3]|] eqn:Hdeps; [|done].
  destruct (detect_cycles dag2) as [dag3 out4] eqn:Hdet.
  intros [= <- <-].
  pose proof (entered_count_bounds n) as Hn.
  pose proof (read_tasks_out _ _ _ _ _ _ _ Hread) as Hout1.
  pose proof (read_dependencies_out _ _ _ _ Hdeps) as Hout3.
  apply read_tasks_spec in Hread as (Hwf1 & Hlen1 & He1).
  2:{ apply create_dag_wf. }
  2:{ apply Forall_lookup. intros k t Ht. by apply create_dag_entered in Ht. }
  2:{ intros k t Hk. lia. }
  apply read_dependencies_spec in Hdeps as (Hwf2 & Hn2 & Hd2).
  2:{ by apply apply_rate_monotonic_scheduling_wf. }
  2:{ apply apply_rate_monotonic_scheduling_described. intros k t Ht.
      apply (He1 k t); [|done]. apply lookup_lt_Some in Ht.
      rewrite Hlen1 in Ht. unfold create_dag in Ht. cbn [tasks] in Ht.
      rewrite length_map, length_seq in Ht. lia. }
  exists n, rest, dag2. split; [done|]. split_and!; try done.
  - unfold num_tasks in *.
    rewrite Hn2. unfold apply_rate_monotonic_scheduling. cbn [tasks set_tasks].
    rewrite length_map, Hlen1. unfold create_dag. cbn [tasks].
    rewrite length_map, length_seq. lia.
  - by rewrite Hdet.
  - unfold detect_cycles in Hdet. injection Hdet as <- <-.
    cbn [has_cycles set_has_cycles].
    pose proof (rms_debug_lines_out debug_mode dag1) as Hout2.
    rewrite !elem_of_app.
    match goal with |- context [has_cycle ?st] => destruct (has_cycle st) end.
    + split; [done|]. intros _. right. right. right. right.
      apply list_elem_of_here.
    + split; [|done]. intros [H | [H | [H | [H | H]]]]; try done.
      * destruct ((n <? 1) || (n >? MAX_TASKS)); [|by apply not_elem_of_nil in H].
        apply list_elem_of_singleton in H. done.
      * by apply not_elem_of_nil in H.
Qed.

Lemma detect_cycles_tasks g : tasks (detect_cycles g).1 = tasks g.
Proof. done. Qed.

Lemma detect_cycles_wf g : wf_graph g -> wf_graph (detect_cycles g).1.
Proof. unfold detect_cycles. cbn [fst]. apply wf_graph_has_cycles. Qed.

(** X11. What [create_custom_dag] builds. Whenever it returns a graph:
    the task count is the entered count, or 5 if that was outside 1..100;
    task [k] has id [k], nothing of a run recorded, its whole duration
    left, a period that is not negative and the priority of that period,
    which lies in 1..10; a dependency list holds ids of other tasks of the
    graph, each at most once, so it has fewer entries than there are
    tasks (the fixed-size array is never overrun); the adjacency matrix is
    square of that size and has an edge from [u] to [v] exactly when [u]
    is in the dependency list of [v]. *)
Theorem create_custom_dag_well_formed (debug_mode : bool) (input : list Z)
    (g : DAG) (out : list Output) :
  create_custom_dag debug_mode input = Some (g, out) ->
  (exists n rest, input = n :: rest /\ num_tasks g = entered_count n) /\
  1 <= num_tasks g <= MAX_TASKS /\
  wf_graph g /\
  forall k t, tasks g !! k = Some t ->
    described t /\ 1 <= priority t <= 10 /\ dep_count t < num_tasks g.
Proof.
  intros Hg.
  destruct (create_custom_dag_spec _ _ _ _ Hg)
    as (n & rest & g0 & -> & Hn & Hwf & Hd & -> & _).
  assert (num_tasks (detect_cycles g0).1 = entered_count n) as Hn' by done.
  split_and!.
  - by exists n, rest.
  - rewrite Hn'. apply entered_count_bounds.
  - rewrite Hn'. apply entered_count_bounds.
  - by apply detect_cycles_wf.
  - intros k t Ht. rewrite detect_cycles_tasks in Ht.
    pose proof (Forall_lookup_1 _ _ _ _ Hd Ht) as Hdesc. cbv beta in Hdesc.
    split; [done|]. split.
    + destruct Hdesc as (_ & _ & _ & _ & _ & _ & ->). apply rms_priority_bounds.
    + destruct Hwf as (_ & _ & Htasks & _).
      destruct (Htasks k t Ht) as (_ & Hnd & Hrange).
      pose proof (lookup_lt_Some _ _ _ Ht) as Hk.
      pose proof (dependencies_length_bound (dependencies t)
                    (length (tasks g0)) k Hnd Hrange Hk) as Hlen.
      unfold dep_count, num_tasks. cbn [tasks detect_cycles fst set_has_cycles].
      lia.
Qed.

Lemma create_custom_dag_well_formed_witness :
  create_custom_dag false [2; 5; 100; 5; 100; 0; 1; -1]
    = Some (pair_dag_01, [AddedLine 0 1]) /\
  wf_graph pair_dag_01.
Proof.
  assert (create_custom_dag false [2; 5; 100; 5; 100; 0; 1; -1]
          = Some (pair_dag_01, [AddedLine 0 1])) as Hg by (vm_compute; reflexivity).
  split; [exact Hg|].
  exact (proj1 (proj2 (proj2
           (create_custom_dag_well_formed false _ _ _ Hg)))).
Defined.

(** ** The priority scale *)

(** X12. The priority scale of [apply_rate_monotonic_scheduling]. The
    call rewrites the priorities and nothing else, and a second call
    changes nothing. Every priority lies in 1..10; period 0 gets 1. For
    periods from 1 to 238609294 (where [period * 9] fits an [int]) the
    priority is 10 - period * 9 / 1000, at least 1: a shorter period never
    gets a lower priority, periods up to 111 get 10, and periods from
    1000 on get 1, the priority of an aperiodic task. *)
Theorem rate_monotonic_scale (g : DAG) :
  let g' := apply_rate_monotonic_scheduling g in
  apply_rate_monotonic_scheduling g' = g' /\
  adjacency_matrix g' = adjacency_matrix g /\ has_cycles g' = has_cycles g /\
  num_tasks g' = num_tasks g /\
  (forall k t', tasks g' !! k = Some t' ->
     exists t, tasks g !! k = Some t /\ t' = set_priority (priority t') t /\
       1 <= priority t' <= 10 /\
       (period t = 0 -> priority t' = 1) /\
       (0 < period t <= MAX_EXACT_PERIOD ->
          priority t' = Z.max 1 (10 - period t * 9 / 1000) /\
          (period t <= 111 <-> priority t' = 10) /\
          (1000 <= period t <-> priority t' = 1))) /\
  (forall k1 k2 t1 t2, tasks g' !! k1 = Some t1 -> tasks g' !! k2 = Some t2 ->
     0 < period t1 -> period t1 <= period t2 -> period t2 <= MAX_EXACT_PERIOD ->
     priority t2 <= priority t1).
Proof.
  intros g'. subst g'. unfold apply_rate_monotonic_scheduling, num_tasks.
  cbn [tasks set_tasks adjacency_matrix has_cycles]. split_and!; try done.
  - unfold set_tasks. cbn. f_equal. rewrite map_map. by apply map_ext.
  - by rewrite length_map.
  - intros k t'. rewrite list_lookup_fmap.
    destruct (tasks g !! k) as [t|]; [|done]. intros [= <-].
    exists t. cbn. split_and!; try done.
    + apply rms_priority_bounds.
    + apply rms_priority_bounds.
    + by intros ->.
    + intros Hp. rewrite rms_priority_exact by done.
      unfold MAX_EXACT_PERIOD in Hp.
      assert (period t <= 111 <-> period t * 9 / 1000 <= 0) as H10.
      { split; intros H.
        - assert (period t * 9 / 1000 < 1); [|lia].
          apply Z.div_lt_upper_bound; lia.
        - destruct (Z.le_gt_cases (period t) 111); [done|].
          assert (1 <= period t * 9 / 1000); [|lia].
          apply Z.div_le_lower_bound; lia. }
      assert (1000 <= period t <-> 9 <= period t * 9 / 1000) as H1.
      { split; intros H.
        - apply Z.div_le_lower_bound; lia.
        - destruct (Z.le_gt_cases 1000 (period t)); [done|].
          assert (period t * 9 / 1000 < 9); [|lia].
          apply Z.div_lt_upper_bound; lia. }
      assert (0 <= period t * 9 / 1000) by (apply Z.div_pos; lia).
      split_and!; lia.
  - intros k1 k2 t1 t2. rewrite !list_lookup_fmap.
    destruct (tasks g !! k1) as [u1|]; [|done].
    destruct (tasks g !! k2) as [u2|]; [|done].
    intros [= <-] [= <-]. cbn. intros H1 H12 H2.
    destruct (decide (period u1 = period u2)) as [->|Hne]; [lia|].
    apply rms_priority_monotonic; lia.
Qed.

(** ** Cycle detection *)

Lemma dfs_cycle_detection_S fuel g node st :
  dfs_cycle_detection (S fuel) g node st =
  if has_cycle st then st
  else
    let st2 := fold_left (dfs_visit fuel g node) (seq 0 (length (tasks g)))
                 (mkDfs (<[node := true]> (visited st))
                        (<[node := true]> (rec_stack st)) false) in
    if has_cycle st2 then st2
    else mkDfs (visited st2) (<[node := false]> (rec_stack st2)) false.
Proof. reflexivity. Qed.

Lemma detect_cycles_fold g :
  detect_cycles g =
  let st := fold_left (dfs_start g) (seq 0 (length (tasks g)))
              (mkDfs (replicate (length (tasks g)) false)
                     (replicate (length (tasks g)) false) false) in
  (set_has_cycles (has_cycle st) g,
   if has_cycle st then [CycleWarningLine] else []).
Proof. reflexivity. Qed.

Lemma reaches_trans g u v w : reaches g u v -> reaches g v w -> reaches g u w.
Proof.
  intros Huv Hvw. induction Hvw as [v w Hw | v w x _ IH Hx].
  - by apply (reaches_step g u v w).
  - apply (reaches_step g u w x); [by apply IH | done].
Qed.

Lemma reaches_first g u w :
  reaches g u w -> exists v, edge g u v = true /\ (v = w \/ reaches g v w).
Proof.
  induction 1 as [u v Hv | u v w _ (x & Hx & IH) Hw].
  - exists v. split; [done | by left].
  - exists x. split; [done|]. right. destruct IH as [->|IH].
    + by apply reaches_arc.
    + by apply (reaches_step g x v w).
Qed.

Lemma reaches_last g u w :
  reaches g u w -> exists v, edge g v w = true /\ (u = v \/ reaches g u v).
Proof.
  destruct 1 as [u v Hv | u v w Huv Hw].
  - exists u. split; [done | by left].
  - exists v. split; [done | by right].
Qed.

Lemma marked_insert l i j b :
  (i < length l)%nat ->
  marked (<[i := b]> l) j = if decide (i = j) then b else marked l j.
Proof.
  intros Hi. unfold marked. case_decide as Hij.
  - subst j. by rewrite list_lookup_insert_eq.
  - by rewrite list_lookup_insert_ne.
Qed.

Lemma marked_lt l i : marked l i = true -> (i < length l)%nat.
Proof.
  unfold marked. destruct (l !! i) eqn:H; [|done]. intros _.
  by apply lookup_lt_Some in H.
Qed.

Lemma marked_false_lookup l i :
  (i < length l)%nat -> marked l i = false -> l !! i = Some false.
Proof.
  intros Hi. unfold marked. destruct (lookup_lt_is_Some_2 l i Hi) as [b ->].
  cbn. by intros ->.
Qed.

Lemma unvisited_bounds st : 0 <= unvisited st <= Z.of_nat (length (visited st)).
Proof.
  unfold unvisited.
  pose proof (total_bounds (fun b : bool => if b then 0 else 1) (visited st) 0 1)
    as H.
  destruct H; [intros b _; destruct b; lia | lia].
Qed.

Lemma nat_sum_bound (rank : nat -> nat) n v :
  (v < n)%nat -> (rank v <= foldr Nat.add 0%nat (map rank (seq 0 n)))%nat.
Proof.
  intros Hv. induction n as [|n IH]; [lia|].
  rewrite seq_S, map_app, foldr_app. cbn [map foldr Nat.add].
  assert (forall l a, (a <= foldr Nat.add a l)%nat) as Hmono.
  { induction l as [|x l IHl]; intros a; cbn; [lia|].
    specialize (IHl a). lia. }
  assert (forall l a b, (a <= b)%nat ->
            (foldr Nat.add a l <= foldr Nat.add b l)%nat) as Hmono2.
  { induction l as [|x l IHl]; intros a b Hab; cbn; [lia|].
    specialize (IHl a b Hab). lia. }
  destruct (decide (v = n)) as [->|Hne].
  - cbn. etransitivity; [|apply Hmono]. lia.
  - etransitivity; [apply IH; lia|]. apply Hmono2. lia.
Qed.

Lemma dfs_has_cycle fuel g node st :
  has_cycle st = true -> dfs_cycle_detection fuel g node st = st.
Proof.
  intros H. destruct fuel; [done|]. by rewrite dfs_cycle_detection_S, H.
Qed.

Lemma black_later st st' u :
  rec_stack st' = rec_stack st ->
  (forall w, marked (visited st) w = true -> marked (visited st') w = true) ->
  black st u -> black st' u.
Proof.
  intros Hrec Hmono [Hv Hr]. split; [by apply Hmono | by rewrite Hrec].
Qed.

(** Entering a node. *)
Lemma dfs_ok_enter g st node :
  dfs_ok g st -> (node < length (tasks g))%nat ->
  marked (visited st) node = false ->
  let st1 := mkDfs (<[node := true]> (visited st))
                   (<[node := true]> (rec_stack st)) false in
  dfs_ok g st1 /\ unvisited st1 = unvisited st - 1 /\
  (forall w, marked (visited st) w = true -> marked (visited st1) w = true) /\
  marked (visited st1) node = true /\ marked (rec_stack st1) node = true /\
  (forall w, marked (rec_stack st1) w = true ->
     w = node \/ marked (rec_stack st) w = true).
Proof.
  intros (Hlv & Hlr & Hgray & rank & Hrank) Hnode Hnew st1. subst st1.
  cbn [visited rec_stack].
  assert (marked (rec_stack st) node = false) as Hnr.
  { destruct (marked (rec_stack st) node) eqn:H; [|done].
    apply Hgray in H. congruence. }
  split_and!.
  - split_and!; cbn [visited rec_stack].
    + by rewrite length_insert.
    + by rewrite length_insert.
    + intros u. rewrite !marked_insert by lia. case_decide; [done|]. apply Hgray.
    + exists rank. intros u v [Hu1 Hu2]. cbn [visited rec_stack] in Hu1, Hu2.
      rewrite marked_insert in Hu1, Hu2 by lia.
      destruct (decide (node = u)) as [->|Hne]; [done|].
      intros He. destruct (Hrank u v (conj Hu1 Hu2) He) as [[Hv1 Hv2] Hlt].
      split; [|done]. split; cbn [visited rec_stack].
      * rewrite marked_insert by lia. by case_decide.
      * rewrite marked_insert by lia. case_decide; [|done]. subst v. congruence.
  - unfold unvisited. cbn [visited].
    rewrite (total_insert _ _ _ _ false); [lia|].
    apply marked_false_lookup; [lia | done].
  - intros w Hw. rewrite marked_insert by lia. by case_decide.
  - rewrite marked_insert by lia. by rewrite decide_True.
  - rewrite marked_insert by lia. by rewrite decide_True.
  - intros w. rewrite marked_insert by lia. case_decide; [by left | by right].
Qed.

(** Leaving a node all of whose successors are done. *)
Lemma dfs_ok_leave g st node :
  arcs_bounded g -> dfs_ok g st -> (node < length (tasks g))%nat ->
  marked (visited st) node = true -> marked (rec_stack st) node = true ->
  (forall i, edge g node i = true -> black st i) ->
  dfs_ok g (mkDfs (visited st) (<[node := false]> (rec_stack st)) false).
Proof.
  intros Hb (Hlv & Hlr & Hgray & rank & Hrank) Hnode Hvis Hrec Hsucc.
  split_and!; cbn [visited rec_stack].
  - done.
  - by rewrite length_insert.
  - intros u. rewrite marked_insert by lia. case_decide; [done|]. apply Hgray.
  - exists (fun x => if decide (x = node)
                     then S (foldr Nat.add 0%nat
                               (map rank (seq 0 (length (tasks g)))))
                     else rank x).
    intros u v [Hu1 Hu2] He. cbn [visited rec_stack] in Hu1, Hu2.
    rewrite marked_insert in Hu2 by lia.
    assert (black st v /\ v <> node /\
            (u <> node -> (rank v < rank u)%nat)) as ([Hv1 Hv2] & Hvn & Hlt).
    { destruct (decide (node = u)) as [<-|Hne].
      - pose proof (Hsucc v He) as Hbv. split; [done|]. split; [|done].
        intros ->. destruct Hbv. congruence.
      - destruct (Hrank u v (conj Hu1 Hu2) He) as [Hbv Hlt].
        split; [done|]. split; [|done]. intros ->. destruct Hbv. congruence. }
    split.
    + split; cbn [visited rec_stack]; [done|].
      rewrite marked_insert by lia. by destruct (decide (node = v)).
    + rewrite (decide_False (P := v = node)) by done.
      destruct (decide (u = node)) as [Hun|Hun]; [|by apply Hlt].
      destruct (Hb u v He) as [_ Hvn'].
      pose proof (nat_sum_bound rank (length (tasks g)) v Hvn'). lia.
Qed.

Lemma dfs_cycle_detection_spec fuel g node st :
  arcs_bounded g -> has_cycle st = false -> dfs_ok g st ->
  (node < length (tasks g))%nat -> marked (visited st) node = false ->
  (forall w, marked (rec_stack st) w = true -> reaches g w node) ->
  unvisited st < Z.of_nat fuel ->
  if has_cycle (dfs_cycle_detection fuel g node st) then has_cycle_path g
  else
    dfs_ok g (dfs_cycle_detection fuel g node st) /\
    rec_stack (dfs_cycle_detection fuel g node st) = rec_stack st /\
    (forall w, marked (visited st) w = true ->
       marked (visited (dfs_cycle_detection fuel g node st)) w = true) /\
    marked (visited (dfs_cycle_detection fuel g node st)) node = true /\
    unvisited (dfs_cycle_detection fuel g node st) <= unvisited st.
Proof.
  intros Hb. revert node st.
  induction fuel as [|fuel IH]; intros node st Hnc Hok Hnode Hnew Hpath Hfuel.
  { pose proof (unvisited_bounds st). lia. }
  rewrite dfs_cycle_detection_S, Hnc. cbv zeta.
  destruct (dfs_ok_enter g st node Hok Hnode Hnew)
    as (Hok1 & Hun1 & Hmono1 & Hvis1 & Hrec1 & Hgray1).
  set (st1 := mkDfs (<[node := true]> (visited st))
                    (<[node := true]> (rec_stack st)) false) in *.
  assert (if has_cycle (fold_left (dfs_visit fuel g node)
                          (seq 0 (length (tasks g))) st1)
          then has_cycle_path g
          else
            dfs_ok g (fold_left (dfs_visit fuel g node)
                        (seq 0 (length (tasks g))) st1) /\
            rec_stack (fold_left (dfs_visit fuel g node)
                         (seq 0 (length (tasks g))) st1) = rec_stack st1 /\
            (forall w, marked (visited st1) w = true ->
               marked (visited (fold_left (dfs_visit fuel g node)
                                  (seq 0 (length (tasks g))) st1)) w = true) /\
            unvisited (fold_left (dfs_visit fuel g node)
                         (seq 0 (length (tasks g))) st1) <= unvisited st1 /\
            (forall i, (i < length (tasks g))%nat -> edge g node i = true ->
               black (fold_left (dfs_visit fuel g node)
                        (seq 0 (length (tasks g))) st1) i)) as Hloop.
  { apply (fold_left_seq_invariant
             (fun j a =>
                if has_cycle a then has_cycle_path g
                else dfs_ok g a /\ rec_stack a = rec_stack st1 /\
                     (forall w, marked (visited st1) w = true ->
                        marked (visited a) w = true) /\
                     unvisited a <= unvisited st1 /\
                     (forall i, (i < j)%nat -> edge g node i = true -> black a i))).
    { cbn [has_cycle st1]. split_and!; try done. intros i Hi. lia. }
    intros j a Hj Ha. unfold dfs_visit.
    destruct (has_cycle a) eqn:Hca; [by rewrite Hca|].
    destruct Ha as (Hoka & Hreca & Hmonoa & Huna & Hdone).
    destruct (edge g node j) eqn:Hedge.
    2:{ rewrite Hca. split_and!; try done. intros i Hi Hei.
        destruct (decide (i = j)) as [->|Hne]; [congruence|].
        apply Hdone; [lia | done]. }
    destruct (marked (visited a) j) eqn:Hvj; cbn [negb].
    - destruct (marked (rec_stack a) j) eqn:Hrj.
      + cbn [has_cycle]. rewrite Hreca in Hrj.
        destruct (Hgray1 j Hrj) as [->|Hold].
        * exists node. by apply reaches_arc.
        * exists j. apply (reaches_step g j node j); [by apply Hpath | done].
      + rewrite Hca. split_and!; try done. intros i Hi Hei.
        destruct (decide (i = j)) as [->|Hne]; [done|].
        apply Hdone; [lia | done].
    - assert (forall w, marked (rec_stack a) w = true -> reaches g w j) as Hpathj.
      { intros w Hw. rewrite Hreca in Hw. destruct (Hgray1 w Hw) as [->|Hold].
        - by apply reaches_arc.
        - apply (reaches_step g w node j); [by apply Hpath | done]. }
      pose proof (IH j a Hca Hoka Hj Hvj Hpathj ltac:(lia)) as Hrec.
      destruct (has_cycle (dfs_cycle_detection fuel g j a)); [done|].
      destruct Hrec as (Hok' & Hrec' & Hmono' & Hvis' & Hun').
      split_and!; try done.
      + congruence.
      + intros w Hw. by apply Hmono', Hmonoa.
      + lia.
      + intros i Hi Hei. destruct (decide (i = j)) as [->|Hne].
        * split; [done|]. rewrite Hrec'.
          destruct (marked (rec_stack a) j) eqn:Hrj; [|done].
          destruct Hoka as (_ & _ & Hgraya & _). apply Hgraya in Hrj. congruence.
        * apply (black_later a); try done. apply Hdone; [lia | done]. }
  destruct (has_cycle (fold_left (dfs_visit fuel g node)
                         (seq 0 (length (tasks g))) st1)) eqn:Hc2;
    cbv iota; rewrite ?Hc2; [done|].
  destruct Hloop as (Hok2 & Hrec2 & Hmono2 & Hun2 & Hdone2).
  cbn [has_cycle visited rec_stack].
  destruct Hok as (Hlv & Hlr & Hgray & _).
  assert (marked (rec_stack st) node = false) as Hnr.
  { destruct (marked (rec_stack st) node) eqn:H; [|done].
    apply Hgray in H. congruence. }
  split_and!.
  - apply dfs_ok_leave; try done.
    + by apply Hmono2.
    + by rewrite Hrec2.
    + intros i Hei. apply Hdone2; [|done]. by destruct (Hb node i Hei).
  - rewrite Hrec2. cbn [st1 rec_stack].
    rewrite list_insert_insert_eq. apply list_insert_id.
    apply marked_false_lookup; [lia | done].
  - intros w Hw. by apply Hmono2, Hmono1.
  - by apply Hmono2.
  - unfold unvisited in *. cbn [visited]. lia.
Qed.

Lemma marked_replicate n i : marked (replicate n false) i = false.
Proof.
  unfold marked. destruct (replicate n false !! i) as [b|] eqn:H; [|done].
  by apply lookup_replicate in H as [-> _].
Qed.

Lemma wf_graph_arcs_bounded g : wf_graph g -> arcs_bounded g.
Proof.
  intros (Hm & Hrows & _) u v He.
  apply edge_spec in He as (row & x & Hrow & Hx & _).
  pose proof (Hrows u row Hrow) as Hlen.
  apply lookup_lt_Some in Hrow, Hx. lia.
Qed.

(** The verdict of the search over all nodes. *)
Lemma detect_cycles_spec g :
  arcs_bounded g ->
  if has_cycles (detect_cycles g).1 then has_cycle_path g
  else exists rank : nat -> nat,
         forall u v, edge g u v = true -> (rank v < rank u)%nat.
Proof.
  intros Hb. rewrite detect_cycles_fold. cbv zeta. cbn [fst has_cycles set_has_cycles].
  set (n := length (tasks g)).
  assert (if has_cycle (fold_left (dfs_start g) (seq 0 n)
                          (mkDfs (replicate n false) (replicate n false) false))
          then has_cycle_path g
          else
            dfs_ok g (fold_left (dfs_start g) (seq 0 n)
                        (mkDfs (replicate n false) (replicate n false) false)) /\
            rec_stack (fold_left (dfs_start g) (seq 0 n)
                         (mkDfs (replicate n false) (replicate n false) false))
            = replicate n false /\
            (forall i, (i < n)%nat ->
               marked (visited (fold_left (dfs_start g) (seq 0 n)
                          (mkDfs (replicate n false) (replicate n false) false)))
                      i = true)) as Hloop.
  { apply (fold_left_seq_invariant
             (fun j a =>
                if has_cycle a then has_cycle_path g
                else dfs_ok g a /\ rec_stack a = replicate n false /\
                     (forall i, (i < j)%nat -> marked (visited a) i = true))).
    { cbn [has_cycle]. split_and!; cbn [visited rec_stack]; try done.
      - split_and!; cbn [visited rec_stack].
        + by rewrite length_replicate.
        + by rewrite length_replicate.
        + intros u. by rewrite marked_replicate.
        + exists (fun _ => 0%nat). intros u v [Hu _]. cbn [visited] in Hu.
          by rewrite marked_replicate in Hu.
      - intros i Hi. lia. }
    intros j a Hj Ha. unfold dfs_start.
    destruct (has_cycle a) eqn:Hca.
    { destruct (negb (marked (visited a) j)); [|by rewrite Hca].
      by rewrite dfs_has_cycle, Hca. }
    destruct Ha as (Hoka & Hreca & Hdone).
    destruct (marked (visited a) j) eqn:Hvj; cbn [negb].
    - rewrite Hca. split_and!; try done. intros i Hi.
      destruct (decide (i = j)) as [->|Hne]; [done|]. apply Hdone. lia.
    - pose proof (dfs_cycle_detection_spec (S (length (tasks g))) g j a Hb Hca
                    Hoka Hj Hvj) as Hrec.
      assert (forall w, marked (rec_stack a) w = true -> reaches g w j) as Hpath.
      { intros w. rewrite Hreca, marked_replicate. done. }
      assert (unvisited a < Z.of_nat (S (length (tasks g)))) as Hfuel.
      { pose proof (unvisited_bounds a) as Hu.
        destruct Hoka as (Hlv & _). rewrite Hlv in Hu. lia. }
      specialize (Hrec Hpath Hfuel).
      destruct (has_cycle (dfs_cycle_detection (S (length (tasks g))) g j a));
        [done|].
      destruct Hrec as (Hok' & Hrec' & Hmono' & Hvis' & _).
      split_and!; try done; [congruence|]. intros i Hi.
      destruct (decide (i = j)) as [->|Hne]; [done|].
      apply Hmono', Hdone. lia. }
  destruct (has_cycle (fold_left (dfs_start g) (seq 0 n)
                         (mkDfs (replicate n false) (replicate n false) false)));
    [done|].
  destruct Hloop as ((_ & _ & _ & rank & Hrank) & Hrec & Hall).
  exists rank. intros u v He. destruct (Hb u v He) as [Hu _].
  apply (Hrank u v); [|done]. split; [by apply Hall|].
  rewrite Hrec. apply marked_replicate.
Qed.

Lemma reaches_rank g rank u w :
  (forall u v, edge g u v = true -> (rank u < rank v)%nat) ->
  reaches g u w -> (rank u < rank w)%nat.
Proof.
  intros Hrank. induction 1 as [u v Hv | u v w _ IH Hw].
  - by apply Hrank.
  - specialize (Hrank v w Hw). lia.
Qed.

Lemma ranked_graph_edges g rank :
  wf_graph g -> ranked_graph g rank ->
  forall u v, edge g u v = true -> (rank u < rank v)%nat.
Proof.
  intros (_ & _ & _ & Hedge) Hrank u v He.
  apply Hedge in He as (t & Ht & Hd).
  destruct (Hrank v t _ Ht Hd) as [_ Hlt]. by rewrite Nat2Z.id in Hlt.
Qed.

Lemma ranked_graph_no_cycle g rank :
  wf_graph g -> ranked_graph g rank -> ~ has_cycle_path g.
Proof.
  intros Hwf Hrank [u Hu].
  pose proof (reaches_rank g rank u u (ranked_graph_edges g rank Hwf Hrank) Hu).
  lia.
Qed.

Lemma detect_cycles_ranked g :
  wf_graph g -> has_cycles (detect_cycles g).1 = false ->
  exists rank, ranked_graph g rank.
Proof.
  intros Hwf Hnc. pose proof (wf_graph_arcs_bounded g Hwf) as Hb.
  pose proof (detect_cycles_spec g Hb) as H. rewrite Hnc in H.
  destruct H as [rank Hrank].
  exists (fun x => (foldr Nat.add 0 (map rank (seq 0 (length (tasks g))))
                    - rank x)%nat).
  intros k t d Ht Hd. destruct Hwf as (_ & _ & Htasks & Hedge).
  destruct (Htasks k t Ht) as (_ & _ & Hrange).
  destruct (Hrange d Hd) as [Hvalid _]. split; [done|].
  assert (edge g (Z.to_nat d) k = true) as He.
  { apply Hedge. exists t. split; [done|]. by rewrite Z2Nat.id by lia. }
  specialize (Hrank _ _ He). destruct (Hb _ _ He) as [Hdn Hkn].
  pose proof (nat_sum_bound rank (length (tasks g)) (Z.to_nat d) Hdn).
  lia.
Qed.

Lemma detect_cycles_cycle g :
  wf_graph g -> has_cycles (detect_cycles g).1 = true -> has_cycle_path g.
Proof.
  intros Hwf Hc. pose proof (detect_cycles_spec g (wf_graph_arcs_bounded g Hwf)) as H.
  by rewrite Hc in H.
Qed.

(** X13. [detect_cycles] is right. For a graph as [create_dag] and the
    dependency declarations build it, the flag it sets is true exactly
    when the adjacency matrix has a cycle (a path of one or more edges
    from a node back to itself), and false exactly when the tasks can be
    ranked so that every dependency designates a task of the graph of
    smaller rank; the warning is printed exactly when the flag is set, and
    nothing else of the graph changes. *)
Theorem detect_cycles_correct (g : DAG) :
  wf_graph g ->
  (has_cycles (detect_cycles g).1 = true <-> has_cycle_path g) /\
  (has_cycles (detect_cycles g).1 = false <-> exists rank, ranked_graph g rank) /\
  (detect_cycles g).2
  = (if has_cycles (detect_cycles g).1 then [CycleWarningLine] else []) /\
  tasks (detect_cycles g).1 = tasks g /\
  adjacency_matrix (detect_cycles g).1 = adjacency_matrix g.
Proof.
  intros Hwf. split_and!; try done.
  - split; [by apply detect_cycles_cycle|]. intros Hcyc.
    destruct (has_cycles (detect_cycles g).1) eqn:Hc; [done|].
    destruct (detect_cycles_ranked g Hwf Hc) as [rank Hrank].
    destruct (ranked_graph_no_cycle g rank Hwf Hrank Hcyc).
  - split; [by apply detect_cycles_ranked|]. intros [rank Hrank].
    destruct (has_cycles (detect_cycles g).1) eqn:Hc; [|done].
    destruct (ranked_graph_no_cycle g rank Hwf Hrank).
    by apply detect_cycles_cycle.
Qed.

Lemma detect_cycles_correct_witness :
  wf_graph (add_dependency (add_dependency (create_dag 2) 0 1) 1 0) /\
  has_cycle_path (add_dependency (add_dependency (create_dag 2) 0 1) 1 0).
Proof.
  assert (wf_graph (add_dependency (add_dependency (create_dag 2) 0 1) 1 0))
    as Hwf.
  { apply add_dependency_wf; [apply add_dependency_wf; [apply create_dag_wf|..]|..].
    all: try (vm_compute; split; [discriminate | reflexivity]).
    all: try (vm_compute; reflexivity).
    all: lia. }
  split; [exact Hwf|].
  apply (proj1 (detect_cycles_correct _ Hwf)). vm_compute. reflexivity.
Defined.

(** ** From the cycle warning to the outcome of a run *)

Lemma reaches_ext g g' u w :
  (forall u v, edge g' u v = edge g u v) -> reaches g u w -> reaches g' u w.
Proof.
  intros Hedge. induction 1 as [u v Hv | u v w _ IH Hw].
  - apply reaches_arc. by rewrite Hedge.
  - apply (reaches_step g' u v w); [done | by rewrite Hedge].
Qed.

Lemma cycle_blocked_set g :
  wf_graph g -> blocked_set g (fun k => reaches g k k).
Proof.
  intros (_ & _ & _ & Hedge) k Hk.
  destruct (reaches_last g k k Hk) as (v & He & Hv).
  pose proof He as He'. apply Hedge in He' as (t & Ht & Hd).
  exists t, (Z.of_nat v). split_and!; try done. right.
  split; [lia|]. rewrite Nat2Z.id. destruct Hv as [<-|Hv]; [done|].
  apply (reaches_trans g v k v); [by apply reaches_arc | done].
Qed.

Lemma blocked_run_time_limit quantum debug_mode num_cores g S :
  blocked_set g S -> num_tasks g <= INT_MAX -> (exists k, S k) ->
  exists s, simulate_hybrid_scheduler quantum debug_mode g num_cores
              = Some (s, TimeLimitExceeded) /\
    simulation_time s = 10001.
Proof.
  intros Hset Hn [k Hk].
  destruct (run_simulation_total quantum debug_mode num_cores TICK_DELAY_MS g)
    as [[s e] Hrun].
  assert (in_run quantum debug_mode num_cores g s) as Hin
    by (right; by exists e).
  destruct (in_run_blocked _ _ _ _ _ _ Hset Hin) as [_ Hb].
  destruct (Hb k Hk) as (t & Ht & Hc & _).
  destruct e.
  - destruct (run_all_completed _ _ _ _ _ Hn Hrun) as [Hdone _].
    rewrite (Hdone k t Ht) in Hc. done.
  - exists s. split; [exact Hrun|].
    destruct (run_ends _ _ _ _ _ _ Hrun) as (m & (_ & _ & -> & _) & Hm & _).
    destruct (state_after_inv quantum debug_mode num_cores m g) as [_ ->]; lia.
Qed.

(** X14. The cycle warning predicts the run. Let [create_custom_dag]
    return a graph. If it printed the cycle warning, every run of the
    graph ends by the safety check with the clock at 10001, whatever the
    quantum and the number of cores. If it did not, and the durations are
    at least 1 and add up to at most 9999, every run on at least one core
    ends with all tasks completed, with the clock at most the sum of the
    durations plus 1. *)
Theorem cycle_warning_predicts_run (debug_mode : bool) (input : list Z)
    (g : DAG) (out : list Output) (quantum : Z) (trace : bool) (num_cores : Z) :
  create_custom_dag debug_mode input = Some (g, out) ->
  (CycleWarningLine ∈ out ->
   exists s, simulate_hybrid_scheduler quantum trace g num_cores
               = Some (s, TimeLimitExceeded) /\
     simulation_time s = 10001) /\
  (CycleWarningLine ∉ out ->
   (forall t, t ∈ tasks g -> 1 <= duration t <= INT_MAX) ->
   1 <= num_cores ->
   total duration (tasks g) + 1 <= 10000 ->
   exists s, simulate_hybrid_scheduler quantum trace g num_cores
               = Some (s, AllCompleted) /\
     simulation_time s <= total duration (tasks g) + 1).
Proof.
  intros Hg.
  destruct (create_custom_dag_spec _ _ _ _ Hg)
    as (n & rest & g0 & -> & Hn & Hwf & Hd & -> & Hwarn).
  pose proof (detect_cycles_wf g0 Hwf) as Hwf'.
  split.
  - intros Hw. apply Hwarn in Hw.
    pose proof (detect_cycles_cycle g0 Hwf Hw) as [u Hu].
    apply (blocked_run_time_limit _ _ _ _ (fun k => reaches (detect_cycles g0).1 k k)).
    + by apply cycle_blocked_set.
    + assert (num_tasks (detect_cycles g0).1 = entered_count n) as -> by done.
      pose proof (entered_count_bounds n). unfold MAX_TASKS, INT_MAX in *. lia.
    + exists u. by apply (reaches_ext g0).
  - intros Hw Hdur Hcores Hfits.
    assert (has_cycles (detect_cycles g0).1 = false) as Hnc.
    { destruct (has_cycles (detect_cycles g0).1); [|done].
      destruct Hw. by apply Hwarn. }
    destruct (detect_cycles_ranked g0 Hwf Hnc) as [rank Hrank].
    apply Forall_forall in Hdur.
    by apply (run_live quantum trace num_cores _ rank).
Qed.

Lemma cycle_warning_predicts_run_witness :
  create_custom_dag false [2; 3; 100; 4; 100; 0; 1; 1; 0; -1]
    = Some (two_cycle 3 100 4 100,
            [AddedLine 0 1; AddedLine 1 0; CycleWarningLine]) /\
  CycleWarningLine ∈ [AddedLine 0 1; AddedLine 1 0; CycleWarningLine] /\
  exists s, simulate_hybrid_scheduler 50 false (two_cycle 3 100 4 100) 4
              = Some (s, TimeLimitExceeded) /\
    simulation_time s = 10001.
Proof.
  assert (create_custom_dag false [2; 3; 100; 4; 100; 0; 1; 1; 0; -1]
          = Some (two_cycle 3 100 4 100,
                  [AddedLine 0 1; AddedLine 1 0; CycleWarningLine])) as Hg
    by (vm_compute; reflexivity).
  assert (CycleWarningLine ∈ [AddedLine 0 1; AddedLine 1 0; CycleWarningLine])
    as Hw by (do 2 apply list_elem_of_further; apply list_elem_of_here).
  split; [exact Hg|]. split; [exact Hw|].
  exact (proj1 (cycle_warning_predicts_run false _ _ _ 50 false 4 Hg) Hw).
Defined.

(** ** The quantum *)

Lemma check_completed_idle_slice quantum debug_mode s i :
  quantum <= INT_MAX ->
  engine_inv s -> slice_inv quantum s -> idle_slice_inv s ->
  idle_slice_inv (check_completed debug_mode s i).
Proof.
  intros Hq Hinv Hs Hi.
  destruct (check_completed_cases debug_mode s i Hinv)
    as [[-> _] | (c & k & t & Hcore & Hidle & Hcur & Htask & _ & _ & _ & _ &
              [(_ & ->) | [(_ & Hslice & ->) | (_ & _ & ->)]])]; [done| ..].
  all: pose proof (lookup_lt_Some _ _ _ Hcore) as Hlt.
  all: intros j cj; cbn [cores].
  all: destruct (decide (i = j)) as [<-|Hne];
    [rewrite list_lookup_insert_eq by done; intros [= <-]; cbn
    |rewrite list_lookup_insert_ne by done; apply Hi].
  - done.
  - intros _. pose proof (Hs i c Hcore Hidle) as Hr.
    rewrite int_sub_1 in Hslice |- * by lia. lia.
  - done.
Qed.

Lemma assign_idle_idle_slice quantum debug_mode s i :
  idle_slice_inv s -> idle_slice_inv (assign_idle quantum debug_mode s i).
Proof.
  intros Hi.
  destruct (assign_idle_cases quantum debug_mode s i)
    as [[-> _] | (c & k & t & Hcore & Hidle & Hsel & _ & _ & ->)]; [done|].
  pose proof (lookup_lt_Some _ _ _ Hcore) as Hlt.
  intros j cj. cbn [cores]. destruct (decide (i = j)) as [<-|Hne].
  - rewrite list_lookup_insert_eq by done. by intros [= <-].
  - rewrite list_lookup_insert_ne by done. apply Hi.
Qed.

Lemma count_idle_idle_slice s i :
  idle_slice_inv s -> idle_slice_inv (count_idle s i).
Proof.
  intros Hi j cj Hcj Hidle.
  destruct (count_idle_core s i j cj Hcj) as (c & Hc & Hidle' & _ & Hslice & _).
  rewrite Hslice. apply (Hi j c Hc). congruence.
Qed.

Lemma simulation_tick_slices quantum debug_mode num_cores tick_delay s :
  1 <= quantum <= INT_MAX ->
  engine_inv s -> 0 <= simulation_time s <= TIME_LIMIT ->
  slice_inv quantum s /\ idle_slice_inv s ->
  slice_inv quantum (simulation_tick quantum debug_mode num_cores tick_delay s) /\
  idle_slice_inv (simulation_tick quantum debug_mode num_cores tick_delay s).
Proof.
  intros Hq.
  apply (simulation_tick_invariant quantum debug_mode num_cores tick_delay
           (fun s => slice_inv quantum s /\ idle_slice_inv s)).
  - intros s' i Hinv [Hs Hi]. split.
    + apply check_completed_slice; [lia | done | done].
    + apply (check_completed_idle_slice quantum); [lia | done | done | done].
  - intros s' i _ [Hs Hi]. split.
    + apply assign_idle_slice; [lia | done].
    + by apply assign_idle_idle_slice.
  - apply (end_of_tick_invariant num_cores tick_delay
             (fun s => slice_inv quantum s /\ idle_slice_inv s)).
    + done.
    + intros s' i _ [Hs Hi]. split;
        [by apply count_idle_slice | by apply count_idle_idle_slice].
    + done.
Qed.

Lemma in_run_slices quantum debug_mode num_cores g s :
  1 <= quantum <= INT_MAX ->
  in_run quantum debug_mode num_cores g s ->
  slice_inv quantum s /\ idle_slice_inv s.
Proof.
  intros Hq.
  apply (in_run_invariant quantum debug_mode num_cores g
           (fun s => slice_inv quantum s /\ idle_slice_inv s)).
  - intros s'. by apply simulation_tick_slices.
  - done.
  - split; intros i c; cbn [init_sim cores]; rewrite list_lookup_fmap;
      (destruct (seq 0 (Z.to_nat num_cores) !! i); [|done]); by intros [= <-].
Qed.

(** What the first pass leaves alone. *)
Lemma check_completed_core_frame debug_mode s j i :
  engine_inv s -> i <> j ->
  cores (check_completed debug_mode s j) !! i = cores s !! i.
Proof.
  intros Hinv Hne.
  destruct (check_completed_cases debug_mode s j Hinv)
    as [[-> _] | (c & k & t & Hcore & _ & _ & _ & _ & _ & _ & _ &
              [(_ & ->) | [(_ & _ & ->) | (_ & _ & ->)]])]; [done| ..].
  all: cbn [cores]; by rewrite list_lookup_insert_ne.
Qed.

Lemma check_completed_task_frame debug_mode s j k t :
  engine_inv s -> tasks (dag s) !! k = Some t ->
  core_assigned t <> Z.of_nat j \/ completed t = true ->
  tasks (dag (check_completed debug_mode s j)) !! k = Some t.
Proof.
  intros Hinv Ht Hfree.
  destruct (check_completed_cases debug_mode s j Hinv)
    as [[-> _] | (c & k0 & t0 & _ & _ & _ & Ht0 & Hc0 & Ha0 & _ & _ &
              [(_ & ->) | [(_ & _ & ->) | (_ & _ & ->)]])]; [done| ..].
  all: cbn [dag tasks set_tasks]; rewrite list_lookup_insert_ne; [done|].
  all: intros ->; assert (t0 = t) as -> by congruence.
  all: destruct Hfree; congruence.
Qed.

(** What the second pass leaves alone. *)
Lemma assign_idle_core_frame quantum debug_mode s j i c :
  cores s !! i = Some c -> i <> j \/ is_idle c = false ->
  cores (assign_idle quantum debug_mode s j) !! i = Some c.
Proof.
  intros Hc Hfree.
  destruct (assign_idle_cases quantum debug_mode s j)
    as [[-> _] | (cj & k & t & Hcore & Hidle & _ & _ & _ & ->)]; [done|].
  cbn [cores]. rewrite list_lookup_insert_ne; [done|].
  intros <-. destruct Hfree as [?|Hrun]; [done|]. congruence.
Qed.

Lemma assign_idle_task_frame quantum debug_mode s j k t :
  tasks (dag s) !! k = Some t ->
  core_assigned t <> -1 \/ completed t = true ->
  tasks (dag (assign_idle quantum debug_mode s j)) !! k = Some t.
Proof.
  intros Ht Hfree.
  destruct (assign_idle_cases quantum debug_mode s j)
    as [[-> _] | (cj & k0 & t0 & _ & _ & _ & (Ht0 & _ & Ha0) & Hc0 & ->)];
    [done|].
  cbn [dag tasks set_tasks]. rewrite list_lookup_insert_ne; [done|].
  intros ->. assert (t0 = t) as -> by congruence.
  destruct Hfree; congruence.
Qed.

(** One iteration, seen from a core that is running at its head. *)
Section RunningCore.

Variables (quantum : Z) (debug_mode : bool) (num_cores tick_delay : Z).
Variables (s : Sim) (i k : nat) (c : Core) (t : Task).

Hypothesis Hfull : full_inv num_cores s.
Hypothesis Htime : 0 <= simulation_time s <= TIME_LIMIT.
Hypothesis Hcore : cores s !! i = Some c.
Hypothesis Hbusy : is_idle c = false.
Hypothesis Hcur : current_task c = Some k.
Hypothesis Htask : tasks (dag s) !! k = Some t.
Hypothesis Hslice : 1 <= time_slice_remaining c <= INT_MAX.
Hypothesis Hrem : 1 <= remaining_time t <= INT_MAX.

Lemma running_task_facts :
  completed t = false /\ core_assigned t = Z.of_nat i /\ start_time t <> -1 /\
  (i < Z.to_nat num_cores)%nat.
Proof.
  destruct Hfull as ([Hcb _] & _ & [Hlen _] & Ht & _).
  destruct (Hcb i c Hcore Hbusy) as (k' & t' & Hcur' & Ht' & Hc & Ha & _).
  assert (k' = k) as -> by congruence. assert (t' = t) as -> by congruence.
  split_and!; try done.
  - destruct (Ht k t Htask) as [(_ & _ & Hun & _) | (Hstart & _)]; lia.
  - apply lookup_lt_Some in Hcore. lia.
Qed.

Lemma check_completed_outcome a j :
  (j < Z.to_nat num_cores)%nat -> full_inv num_cores a ->
  (simulation_time a = simulation_time s /\
   if decide (j <= i)%nat
   then cores a !! i = Some c /\ tasks (dag a) !! k = Some t
   else advance_outcome (simulation_time s) i k c t a) ->
  simulation_time (check_completed debug_mode a j) = simulation_time s /\
  if decide (S j <= i)%nat
  then cores (check_completed debug_mode a j) !! i = Some c /\
       tasks (dag (check_completed debug_mode a j)) !! k = Some t
  else advance_outcome (simulation_time s) i k c t (check_completed debug_mode a j).
Proof.
  intros Hj Ha [Hta HQ]. destruct running_task_facts as (Hc & Hca & Hst & Hi).
  pose proof (proj1 Ha) as Hinv.
  split; [by rewrite check_completed_time|].
  destruct (decide (j <= i)%nat) as [Hle|Hgt].
  - destruct HQ as [Hci Htk].
    destruct (decide (S j <= i)%nat) as [Hlt|Heq].
    + split.
      * rewrite check_completed_core_frame; [done | done | lia].
      * apply check_completed_task_frame; [done | done | left; lia].
    + assert (j = i) as -> by lia. unfold advance_outcome.
      destruct (Z.eqb_spec (remaining_time t) 1) as [Hr1|Hr1].
      * rewrite (check_completed_completes debug_mode a i k c t Hci Hbusy Hcur Htk)
          by (rewrite int_sub_1 by lia; lia).
        cbn [dag tasks set_tasks]. rewrite list_lookup_insert_eq
          by (by apply (lookup_lt_Some _ _ t)).
        rewrite Hta, int_sub_1 by lia. by rewrite Hr1.
      * destruct (Z.eqb_spec (time_slice_remaining c) 1) as [Hs1|Hs1].
        -- rewrite (check_completed_preempts debug_mode a i k c t Hci Hbusy Hcur Htk)
             by (rewrite int_sub_1 by lia; lia).
           cbn [dag tasks set_tasks]. rewrite list_lookup_insert_eq
             by (by apply (lookup_lt_Some _ _ t)).
           by rewrite int_sub_1 by lia.
        -- rewrite (check_completed_continues debug_mode a i k c t Hci Hbusy Hcur Htk)
             by (rewrite int_sub_1 by lia; lia).
           cbn [dag tasks set_tasks cores].
           rewrite !list_lookup_insert_eq
             by (first [by apply (lookup_lt_Some _ _ t)
                       | by apply (lookup_lt_Some _ _ c)]).
           by rewrite !int_sub_1 by lia.
  - rewrite decide_False by lia. unfold advance_outcome in *.
    destruct (remaining_time t =? 1).
    { apply check_completed_task_frame; [done | done | by right]. }
    destruct (time_slice_remaining c =? 1).
    { apply check_completed_task_frame; [done | done | left; cbn; lia]. }
    destruct HQ as [Hci Htk]. split.
    + rewrite check_completed_core_frame; [done | done | lia].
    + apply check_completed_task_frame; [done | done | left; cbn; lia].
Qed.

Lemma assign_idle_outcome a j :
  tick_outcome quantum (simulation_time s) i k c t a ->
  tick_outcome quantum (simulation_time s) i k c t
    (assign_idle quantum debug_mode a j).
Proof.
  destruct running_task_facts as (Hc & Hca & Hst & Hi).
  unfold tick_outcome. destruct (remaining_time t =? 1).
  { intros Htk. apply assign_idle_task_frame; [done | by right]. }
  destruct (time_slice_remaining c =? 1).
  2:{ intros [Hci Htk]. split.
      - apply assign_idle_core_frame; [done | by right].
      - apply assign_idle_task_frame; [done | left; cbn; lia]. }
  intros (t' & Ht' & Hr' & Hc' & Hs' & Hwhere).
  destruct Hwhere as [Hfree | (i' & c' & Ha' & Hci' & Hidle' & Hcur' & Hq')].
  2:{ exists t'. split_and!; try done.
      - apply assign_idle_task_frame; [done | left; lia].
      - right. exists i', c'. split_and!; try done.
        apply assign_idle_core_frame; [done | by right]. }
  destruct (assign_idle_cases quantum debug_mode a j)
    as [[-> _] | (cj & k0 & t0 & Hcj & Hidlej & _ & (Ht0 & _ & Ha0) & Hc0 & ->)].
  { exists t'. split_and!; try done. by left. }
  pose proof (lookup_lt_Some _ _ _ Ht0) as Hk0.
  pose proof (lookup_lt_Some _ _ _ Hcj) as Hj.
  destruct (decide (k0 = k)) as [->|Hne].
  - assert (t0 = t') as -> by congruence.
    destruct (Z.eqb_spec (start_time t') (-1)) as [Heq|_]; [congruence|].
    exists (set_core_assigned (Z.of_nat j) t'). cbn [dag tasks set_tasks cores].
    rewrite list_lookup_insert_eq by done. split_and!; try done.
    right. eexists j, _. rewrite list_lookup_insert_eq by done. done.
  - exists t'. cbn [dag tasks set_tasks]. rewrite list_lookup_insert_ne by done.
    split_and!; try done. by left.
Qed.

Lemma end_of_tick_outcome a :
  length (cores a) = Z.to_nat num_cores ->
  tick_outcome quantum (simulation_time s) i k c t a ->
  tick_outcome quantum (simulation_time s) i k c t
    (end_of_tick num_cores tick_delay a).
Proof.
  intros Hlen. unfold tick_outcome, requeued.
  rewrite end_of_tick_dag, (end_of_tick_cores_value _ _ _ Hlen).
  destruct (remaining_time t =? 1); [done|].
  destruct (time_slice_remaining c =? 1).
  - intros (t' & Ht' & Hr' & Hc' & Hs' & Hwhere). exists t'.
    split_and!; try done.
    destruct Hwhere as [Hfree | (i' & c' & Ha' & Hci' & Hidle' & Hcur' & Hq')];
      [by left|].
    right. exists i', c'. split_and!; try done.
    rewrite list_lookup_fmap, Hci'. cbn. unfold count_tick. by rewrite Hidle'.
  - intros [Hci Htk]. split; [|done].
    by rewrite list_lookup_fmap, Hci.
Qed.

Lemma simulation_tick_outcome :
  tick_outcome quantum (simulation_time s) i k c t
    (simulation_tick quantum debug_mode num_cores tick_delay s).
Proof.
  destruct running_task_facts as (Hc & Hca & Hst & Hi).
  refine (proj2 (simulation_tick_passes quantum debug_mode num_cores tick_delay
                   (fun a => a = s)
                   (tick_outcome quantum (simulation_time s) i k c t)
                   (fun j a =>
                      simulation_time a = simulation_time s /\
                      if decide (j <= i)%nat
                      then cores a !! i = Some c /\ tasks (dag a) !! k = Some t
                      else advance_outcome (simulation_time s) i k c t a)
                   (fun _ a => tick_outcome quantum (simulation_time s) i k c t a)
                   _ _ _ _ _ s Hfull Htime eq_refl)).
  - intros a _ ->. split; [done|]. by rewrite decide_True by lia.
  - intros a j Hj Ha HQ. by apply check_completed_outcome.
  - intros a _ [_ HQ]. rewrite decide_False in HQ by lia.
    unfold advance_outcome, tick_outcome in *.
    destruct (remaining_time t =? 1); [done|].
    destruct (time_slice_remaining c =? 1); [|done].
    eexists. split; [exact HQ|]. cbn. split_and!; try done. by left.
  - intros a j _ _. apply assign_idle_outcome.
  - intros a (_ & _ & [Hlen _] & _) _. by apply end_of_tick_outcome.
Qed.

End RunningCore.

(** X15. The quantum. Let the quantum be at least 1. Between iterations
    and at the end of a run, an idle core has no slice left and a running
    core has between 1 and [quantum] ticks of its slice left. If at the
    head of an iteration core [i] runs a task of duration at least 1 with
    [r] ticks of execution and [q] ticks of slice left, then at the head
    of the next iteration: if [r] was 1 the task is completed, with the
    clock of that iteration as finish time; otherwise, if [q] was 1, it
    has been taken off the core with [r - 1] ticks left, and is unbound or
    has been started again on a core with a whole quantum; otherwise core
    [i] still runs it, with [r - 1] and [q - 1] left. So an unfinished task
    keeps a core for exactly [quantum] ticks before the selection is made
    again. *)
Theorem quantum_bounds_a_slice (quantum : Z) (debug_mode : bool)
    (num_cores : Z) (g : DAG) :
  1 <= quantum <= INT_MAX ->
  (forall s i c, in_run quantum debug_mode num_cores g s ->
     cores s !! i = Some c ->
     if is_idle c then time_slice_remaining c = 0
     else 1 <= time_slice_remaining c <= quantum) /\
  (forall m i c k t,
     Z.of_nat m <= 10000 ->
     let s := state_after m quantum debug_mode num_cores g in
     let s' := state_after (S m) quantum debug_mode num_cores g in
     cores s !! i = Some c -> is_idle c = false -> current_task c = Some k ->
     tasks (dag s) !! k = Some t -> 1 <= duration t <= INT_MAX ->
     1 <= remaining_time t <= duration t /\
     (remaining_time t = 1 ->
        tasks (dag s') !! k
        = Some (set_finish_time (Z.of_nat m) (set_core_assigned (-1)
                  (set_completed true (set_remaining_time 0 t))))) /\
     (1 < remaining_time t -> time_slice_remaining c = 1 ->
        requeued quantum s' k t) /\
     (1 < remaining_time t -> 1 < time_slice_remaining c ->
        cores s' !! i
        = Some (mkCore (core_id c) (Some k) (time_slice_remaining c - 1) false
                       (total_idle_time c)) /\
        tasks (dag s') !! k = Some (set_remaining_time (remaining_time t - 1) t))).
Proof.
  intros Hq. split.
  - intros s i c Hin Hc. destruct (in_run_slices _ _ _ _ _ Hq Hin) as [Hs Hi].
    destruct (is_idle c) eqn:Hidle; [by apply (Hi i) | by apply (Hs i)].
  - intros m i c k t Hm s s' Hc Hbusy Hcur Ht Hd.
    assert (in_run quantum debug_mode num_cores g s) as Hin.
    { left. exists m. split; [lia | done]. }
    destruct (in_run_slices _ _ _ _ _ Hq Hin) as [Hs _].
    pose proof (Hs i c Hc Hbusy) as Hslice.
    pose proof (in_run_full _ _ _ _ _ Hin) as Hfull.
    destruct (state_after_inv quantum debug_mode num_cores m g) as [_ Htime];
      [lia|]. fold s in Htime.
    assert (1 <= remaining_time t <= duration t) as Hrem.
    { destruct Hfull as ([Hcb Hok] & _).
      destruct (Hcb i c Hc Hbusy) as (k' & t' & Hcur' & Ht' & Hopen & _).
      assert (k' = k) as -> by congruence. assert (t' = t) as -> by congruence.
      pose proof (Forall_lookup_1 _ _ _ _ Hok Ht) as (_ & _ & Hr).
      rewrite Hopen in Hr. by apply Hr. }
    pose proof (simulation_tick_outcome quantum debug_mode num_cores TICK_DELAY_MS
                  s i k c t Hfull ltac:(rewrite Htime; unfold TIME_LIMIT; lia)
                  Hc Hbusy Hcur Ht ltac:(lia) ltac:(lia)) as Hout.
    rewrite Htime in Hout. unfold s in Hout. rewrite <- state_after_S in Hout.
    fold s' in Hout. unfold tick_outcome in Hout.
    split; [done|]. split_and!.
    + intros Hr1. by rewrite Hr1 in Hout.
    + intros Hr1 Hs1. destruct (Z.eqb_spec (remaining_time t) 1); [lia|].
      by rewrite Hs1 in Hout.
    + intros Hr1 Hs1. destruct (Z.eqb_spec (remaining_time t) 1); [lia|].
      destruct (Z.eqb_spec (time_slice_remaining c) 1); [lia | done].
Qed.

Lemma quantum_bounds_a_slice_witness :
  1 <= 2 <= INT_MAX /\
  requeued 2 (state_after 3 2 true 1 (three_tasks 100)) 0
    (mkTask 0 4 100 10 [] false 3 0 0 (-1)).
Proof.
  assert (1 <= 2 <= INT_MAX) as Hq by (unfold INT_MAX; lia).
  split; [exact Hq|].
  refine (proj1 (proj2 (proj2
            (proj2 (quantum_bounds_a_slice 2 true 1 (three_tasks 100) Hq)
               2%nat 0%nat (mkCore 0 (Some 0%nat) 1 false 0) 0%nat
               (mkTask 0 4 100 10 [] false 3 0 0 (-1)) _ _ _ _ _ _))) _ _).
  - lia.
  - vm_compute. reflexivity.
  - reflexivity.
  - reflexivity.
  - vm_compute. reflexivity.
  - unfold INT_MAX. cbn. lia.
  - cbn. lia.
  - reflexivity.
Defined.

(** ** Completed tasks are left alone *)

Lemma settled_refl s : settled s s.
Proof. intros k t Ht. exists t. split_and!; try done; lia. Qed.

Lemma settled_trans s1 s2 s3 :
  (forall k t, tasks (dag s1) !! k = Some t ->
     forall t', tasks (dag s2) !! k = Some t' -> duration t' = duration t) ->
  settled s1 s2 -> settled s2 s3 -> settled s1 s3.
Proof.
  intros Hdur H12 H23 k t Ht.
  destruct (H12 k t Ht) as (t2 & Ht2 & Hs2 & Hc2 & Hr2).
  destruct (H23 k t2 Ht2) as (t3 & Ht3 & Hs3 & Hc3 & Hr3).
  exists t3. split_and!; try done.
  - intros Hs. rewrite <- (Hs2 Hs). apply Hs3. rewrite (Hs2 Hs). done.
  - intros Hc. rewrite <- (Hc2 Hc). apply Hc3. by rewrite (Hc2 Hc).
  - intros Hd. specialize (Hr2 Hd). rewrite <- (Hdur k t Ht t2 Ht2) in Hd.
    specialize (Hr3 Hd). lia.
Qed.

Lemma settled_update s k t t' cores' time' count' out' :
  tasks (dag s) !! k = Some t -> completed t = false ->
  (start_time t <> -1 -> start_time t' = start_time t) ->
  (1 <= duration t <= INT_MAX -> remaining_time t' <= remaining_time t) ->
  settled s (mkSim (set_tasks (<[k := t']> (tasks (dag s))) (dag s)) cores'
                   time' count' out').
Proof.
  intros Ht Hc Hs Hr k0 t0 Ht0. cbn [dag tasks set_tasks].
  pose proof (lookup_lt_Some _ _ _ Ht) as Hk.
  destruct (decide (k = k0)) as [<-|Hne].
  - assert (t0 = t) as -> by congruence. exists t'.
    rewrite list_lookup_insert_eq by done. split_and!; try done; congruence.
  - exists t0. rewrite list_lookup_insert_ne by done. split_and!; try done; lia.
Qed.

Lemma settled_ext s s' : dag s' = dag s -> settled s s'.
Proof. intros Hd k t Ht. exists t. rewrite Hd. split_and!; try done; lia. Qed.

Lemma check_completed_settled debug_mode s i :
  engine_inv s -> settled s (check_completed debug_mode s i).
Proof.
  intros Hinv.
  destruct (check_completed_cases debug_mode s i Hinv)
    as [[-> _] | (c & k & t & Hcore & Hidle & Hcur & Htask & Hc & Ha & Hr & Hok &
              [(_ & ->) | [(_ & _ & ->) | (_ & _ & ->)]])];
    [apply settled_refl| ..].
  all: apply (settled_update s k t); try done.
  all: intros Hd; destruct Hok as (_ & _ & Hrem); rewrite Hc in Hrem.
  all: specialize (Hrem Hd); cbn; rewrite int_sub_1 by lia; lia.
Qed.

Lemma assign_idle_settled quantum debug_mode s i :
  settled s (assign_idle quantum debug_mode s i).
Proof.
  destruct (assign_idle_cases quantum debug_mode s i)
    as [[-> _] | (c & k & t & Hcore & Hidle & Hsel & (Htask & Hr & Ha) & Hc & ->)];
    [apply settled_refl|].
  apply (settled_update s k t); try done.
  - intros Hs. destruct (Z.eqb_spec (start_time t) (-1)); [done|]. done.
  - intros _. destruct (start_time t =? -1); cbn; lia.
Qed.

Lemma simulation_tick_settled quantum debug_mode num_cores tick_delay s :
  engine_inv s -> 0 <= simulation_time s <= TIME_LIMIT ->
  settled s (simulation_tick quantum debug_mode num_cores tick_delay s).
Proof.
  intros Hinv Htime.
  apply (simulation_tick_invariant quantum debug_mode num_cores tick_delay
           (fun a => same_graph (dag s) (dag a) /\ settled s a)); try done.
  - intros a i Ha [Hg Hs]. split; [by apply check_completed_graph|].
    apply (settled_trans s a); [|done | by apply check_completed_settled].
    intros k t Ht t' Ht'.
    destruct (same_graph_lookup _ _ _ _ Hg Ht') as (t0 & Ht0 & Hst).
    assert (t0 = t) as -> by congruence. unfold static in Hst. congruence.
  - intros a i Ha [Hg Hs]. split; [by apply assign_idle_graph|].
    apply (settled_trans s a); [|done | by apply assign_idle_settled].
    intros k t Ht t' Ht'.
    destruct (same_graph_lookup _ _ _ _ Hg Ht') as (t0 & Ht0 & Hst).
    assert (t0 = t) as -> by congruence. unfold static in Hst. congruence.
  - intros a Ha _ [Hg Hs]. split; [by rewrite end_of_tick_dag|].
    intros k t Ht. destruct (Hs k t Ht) as (t' & Ht' & H).
    exists t'. by rewrite end_of_tick_dag.
  - split; [done | apply settled_refl].
Qed.

Lemma state_after_settled quantum debug_mode num_cores g m j :
  Z.of_nat (m + j) <= 10001 ->
  settled (state_after m quantum debug_mode num_cores g)
          (state_after (m + j) quantum debug_mode num_cores g).
Proof.
  induction j as [|j IH]; intros Hj.
  { rewrite Nat.add_0_r. apply settled_refl. }
  replace (m + S j)%nat with (S (m + j)) by lia. rewrite state_after_S.
  assert (in_run quantum debug_mode num_cores g
            (state_after m quantum debug_mode num_cores g)) as Hin
    by (left; exists m; split; [lia | done]).
  assert (in_run quantum debug_mode num_cores g
            (state_after (m + j) quantum debug_mode num_cores g)) as Hin'
    by (left; exists (m + j)%nat; split; [lia | done]).
  apply (settled_trans _ (state_after (m + j) quantum debug_mode num_cores g)).
  - intros k t Ht t' Ht'.
    destruct (same_graph_lookup _ _ _ _ (in_run_graph _ _ _ _ _ Hin) Ht)
      as (t0 & Ht0 & Hst).
    destruct (same_graph_lookup _ _ _ _ (in_run_graph _ _ _ _ _ Hin') Ht')
      as (t1 & Ht1 & Hst').
    assert (t1 = t0) as -> by congruence. unfold static in *. congruence.
  - apply IH. lia.
  - destruct (state_after_inv quantum debug_mode num_cores (m + j) g)
      as [Hinv Htime]; [lia|].
    apply simulation_tick_settled; [done|]. rewrite Htime. unfold TIME_LIMIT. lia.
Qed.

(** X16. Completed tasks are left alone. From a state of a run at the
    head of the loop to any later one, and to the state the run ends in: a
    task that had started keeps its start time (it is the tick of its
    first start), a completed task is unchanged in every field, and a
    task of duration at least 1 never has more execution left than
    before. *)
Theorem completed_tasks_are_final (quantum : Z) (debug_mode : bool)
    (num_cores : Z) (g : DAG) (m : nat) (k : nat) (t : Task) :
  tasks (dag (state_after m quantum debug_mode num_cores g)) !! k = Some t ->
  (forall j, Z.of_nat (m + j) <= 10001 ->
     exists t',
       tasks (dag (state_after (m + j) quantum debug_mode num_cores g)) !! k
         = Some t' /\
       (start_time t <> -1 -> start_time t' = start_time t) /\
       (completed t = true -> t' = t) /\
       (1 <= duration t <= INT_MAX -> remaining_time t' <= remaining_time t)) /\
  (forall s e,
     simulate_hybrid_scheduler quantum debug_mode g num_cores = Some (s, e) ->
     Z.of_nat m <= simulation_time s ->
     exists t', tasks (dag s) !! k = Some t' /\
       (start_time t <> -1 -> start_time t' = start_time t) /\
       (completed t = true -> t' = t) /\
       (1 <= duration t <= INT_MAX -> remaining_time t' <= remaining_time t)).
Proof.
  intros Ht. split.
  - intros j Hj. by apply (state_after_settled quantum debug_mode num_cores g m j).
  - intros s e Hrun Hm.
    destruct (run_ends _ _ _ _ _ _ Hrun) as (m' & (Hd & _ & Htime & _) & Hm').
    assert (Z.of_nat m' <= 10001) as Hle by (destruct e; lia).
    destruct (state_after_inv quantum debug_mode num_cores m' g Hle) as [_ Hclock].
    rewrite Htime, Hclock in Hm. rewrite Hd.
    replace m' with (m + (m' - m))%nat by lia.
    apply (state_after_settled quantum debug_mode num_cores g m (m' - m));
      [lia | done].
Qed.

Lemma completed_tasks_are_final_witness :
  tasks (dag (state_after 5 2 true 1 (three_tasks 100))) !! 0%nat
    = Some (mkTask 0 4 100 10 [] true 0 (-1) 0 4) /\
  exists t',
    tasks (dag (state_after (5 + 4) 2 true 1 (three_tasks 100))) !! 0%nat
      = Some t' /\
    t' = mkTask 0 4 100 10 [] true 0 (-1) 0 4.
Proof.
  assert (tasks (dag (state_after 5 2 true 1 (three_tasks 100))) !! 0%nat
          = Some (mkTask 0 4 100 10 [] true 0 (-1) 0 4)) as Ht
    by (vm_compute; reflexivity).
  split; [exact Ht|].
  destruct (proj1 (completed_tasks_are_final 2 true 1 (three_tasks 100) 5 0 _ Ht)
              4%nat ltac:(lia)) as (t' & Ht' & _ & Hsame & _).
  exists t'. split; [exact Ht'|]. exact (Hsame eq_refl).
Defined.

(** ** What is printed *)

Lemma count_lines_app p out1 out2 :
  count_lines p (out1 ++ out2) = count_lines p out1 + count_lines p out2.
Proof. apply total_app. Qed.

Lemma running_insert cs i c c' :
  cs !! i = Some c ->
  running (<[i := c']> cs)
  = running cs - (if is_idle c then 0 else 1) + (if is_idle c' then 0 else 1).
Proof. intros Hc. unfold running. by rewrite (total_insert _ _ _ _ c Hc). Qed.

Lemma div_20_succ t :
  0 <= t -> (t + 1) / 20 = t / 20 + (if Z.rem (t + 1) 20 =? 0 then 1 else 0).
Proof.
  intros Ht. rewrite Z.rem_mod_nonneg by lia.
  destruct (Z.eqb_spec ((t + 1) mod 20) 0); Z.div_mod_to_equations; lia.
Qed.

Lemma check_completed_console debug_mode s i :
  engine_inv s -> count_inv s ->
  console_inv debug_mode s -> console_inv debug_mode (check_completed debug_mode s i).
Proof.
  intros Hinv [Hn Hcount] (H1 & H2 & H3 & H4 & H5).
  destruct (check_completed_cases debug_mode s i Hinv)
    as [[-> _] | (c & k & t & Hcore & Hidle & Hcur & Htask & Hc & Ha & Hr & Hok &
              [(_ & ->) | [(_ & _ & ->) | (_ & _ & ->)]])]; [done| ..].
  all: unfold console_inv; cbn [console cores completed_tasks simulation_time].
  all: rewrite (running_insert _ _ _ _ Hcore), Hidle; cbn [is_idle].
  all: rewrite ?count_lines_app.
  - assert (int_add (completed_tasks s) 1 = completed_tasks s + 1) as ->.
    { pose proof (count_completed_open (dag s) k t Htask Hc) as Hlt.
      pose proof (count_completed_bounds (dag s)) as Hb.
      unfold int_add. apply wrap_id.
      unfold in_int, INT_MIN, INT_MAX in *. lia. }
    destruct debug_mode; cbn; rewrite ?count_lines_app; cbn; lia.
  - destruct debug_mode; cbn; lia.
  - destruct debug_mode; lia.
Qed.

Lemma assign_idle_console quantum debug_mode s i :
  console_inv debug_mode s ->
  console_inv debug_mode (assign_idle quantum debug_mode s i).
Proof.
  intros (H1 & H2 & H3 & H4 & H5).
  destruct (assign_idle_cases quantum debug_mode s i)
    as [[-> _] | (c & k & t & Hcore & Hidle & Hsel & (Htask & Hr & Ha) & Hc & ->)];
    [done|].
  unfold console_inv; cbn [console cores completed_tasks simulation_time].
  rewrite (running_insert _ _ _ _ Hcore), Hidle; cbn [is_idle].
  rewrite ?count_lines_app.
  destruct debug_mode; cbn; lia.
Qed.

Lemma count_idle_console s i : console (count_idle s i) = console s.
Proof. unfold count_idle. repeat case_match; reflexivity. Qed.

Lemma end_of_tick_console num_cores tick_delay s :
  console (end_of_tick num_cores tick_delay s)
  = console s
    ++ (if int_rem (int_add (simulation_time s) 1) 20 =? 0
        then [ProgressBar (completed_tasks s) (num_tasks (dag s))] else [])
    ++ delay_ms tick_delay.
Proof.
  unfold end_of_tick.
  assert (forall a,
            simulation_time a = int_add (simulation_time s) 1 ->
            completed_tasks a = completed_tasks s -> dag a = dag s ->
            console a = console s ->
            console (print (delay_ms tick_delay)
                       (if int_rem (simulation_time a) 20 =? 0
                        then print [ProgressBar (completed_tasks a)
                                      (num_tasks (dag a))] a
                        else a))
            = console s
              ++ (if int_rem (int_add (simulation_time s) 1) 20 =? 0
                  then [ProgressBar (completed_tasks s) (num_tasks (dag s))]
                  else [])
              ++ delay_ms tick_delay) as H.
  { intros a -> -> -> Hc. cbn [print console].
    destruct (_ =? 0); cbn [print console]; rewrite Hc; [|by rewrite app_nil_l].
    by rewrite <- app_assoc. }
  apply H.
  - apply (fold_left_invariant
             (fun a => simulation_time a = int_add (simulation_time s) 1));
      [intros a b <-; apply count_idle_time | done].
  - apply (fold_left_invariant (fun a => completed_tasks a = completed_tasks s));
      [intros a b <-; apply count_idle_completed_tasks | done].
  - apply (fold_left_invariant (fun a => dag a = dag s));
      [intros a b <-; apply count_idle_dag | done].
  - apply (fold_left_invariant (fun a => console a = console s));
      [intros a b <-; apply count_idle_console | done].
Qed.

Lemma end_of_tick_running num_cores tick_delay s :
  length (cores s) = Z.to_nat num_cores ->
  running (cores (end_of_tick num_cores tick_delay s)) = running (cores s).
Proof.
  intros Hlen. rewrite (end_of_tick_cores_value _ _ _ Hlen).
  unfold running. rewrite total_fmap. apply total_ext. intros c _.
  unfold count_tick. by destruct (is_idle c) eqn:H; cbn; rewrite ?H.
Qed.

Lemma end_of_tick_console_inv debug_mode num_cores s :
  length (cores s) = Z.to_nat num_cores ->
  0 <= simulation_time s <= TIME_LIMIT ->
  console_inv debug_mode s ->
  console_inv debug_mode (end_of_tick num_cores TICK_DELAY_MS s).
Proof.
  intros Hlen Htime (H1 & H2 & H3 & H4 & H5). unfold console_inv.
  rewrite end_of_tick_console, end_of_tick_time, end_of_tick_completed_tasks,
    (end_of_tick_running _ _ _ Hlen), int_add_1 by done.
  rewrite (div_20_succ (simulation_time s)) by lia.
  assert (int_rem (simulation_time s + 1) 20 = Z.rem (simulation_time s + 1) 20)
    as ->.
  { unfold int_rem. apply wrap_id.
    pose proof (Z.rem_bound_pos (simulation_time s + 1) 20 ltac:(lia) ltac:(lia)).
    unfold in_int, INT_MIN, INT_MAX. lia. }
  rewrite !count_lines_app.
  change (delay_ms TICK_DELAY_MS) with [Usleep 10000].
  destruct (Z.rem (simulation_time s + 1) 20 =? 0), debug_mode;
    cbn -[Z.div Z.rem Z.add]; lia.
Qed.

Lemma simulation_tick_console quantum debug_mode num_cores s :
  full_inv num_cores s -> 0 <= simulation_time s <= TIME_LIMIT ->
  count_inv s /\ console_inv debug_mode s ->
  count_inv (simulation_tick quantum debug_mode num_cores TICK_DELAY_MS s) /\
  console_inv debug_mode
    (simulation_tick quantum debug_mode num_cores TICK_DELAY_MS s).
Proof.
  intros Hfull Htime HP.
  apply (simulation_tick_passes quantum debug_mode num_cores TICK_DELAY_MS
           (fun a => count_inv a /\ console_inv debug_mode a)
           (fun a => count_inv a /\ console_inv debug_mode a)
           (fun _ a => count_inv a /\ console_inv debug_mode a)
           (fun _ a => count_inv a /\ console_inv debug_mode a)); try done.
  - intros a j _ (Hinv & _) [Hc Hp]. split.
    + by apply check_completed_count.
    + by apply check_completed_console.
  - intros a j _ _ [Hc Hp]. split.
    + by apply assign_idle_count.
    + by apply assign_idle_console.
  - intros a (_ & _ & [Hlen _] & _) Hta [Hc Hp]. split.
    + apply (count_inv_ext a); [apply end_of_tick_dag
                               | apply end_of_tick_completed_tasks | done].
    + by apply end_of_tick_console_inv.
Qed.

Lemma state_after_console quantum debug_mode num_cores g m :
  num_tasks g <= INT_MAX -> Z.of_nat m <= 10001 ->
  console_inv debug_mode (state_after m quantum debug_mode num_cores g).
Proof.
  intros Hn Hm.
  apply (state_after_invariant quantum debug_mode num_cores
           (fun a => full_inv num_cores a /\ count_inv a /\
                     console_inv debug_mode a)); [| |done].
  - intros a _ Hta (Hf & Hc). split; [by apply simulation_tick_full|].
    by apply simulation_tick_console.
  - split; [apply init_sim_full|]. split; [by apply init_sim_count|].
    assert (running (cores (init_sim num_cores g)) = 0) as Hrun.
    { unfold running. cbn [init_sim cores]. rewrite total_fmap.
      by apply total_zero. }
    unfold console_inv. rewrite Hrun.
    cbn [init_sim console completed_tasks simulation_time].
    destruct debug_mode; cbn; rewrite Z.div_0_l by lia; lia.
Qed.

(** The state a run ends in, with its console. *)
Lemma simulation_loop_ends_exact quantum debug_mode num_cores g fuel m s e :
  Z.of_nat m <= 10000 ->
  simulation_loop quantum debug_mode num_cores TICK_DELAY_MS fuel
    (state_after m quantum debug_mode num_cores g) = Some (s, e) ->
  exists m', Z.of_nat m' <= 10001 /\
    s = match e with
        | AllCompleted => state_after m' quantum debug_mode num_cores g
        | TimeLimitExceeded =>
            print [TimeLimitLine] (state_after m' quantum debug_mode num_cores g)
        end.
Proof.
  revert m. induction fuel as [|fuel IH]; intros m Hm; [done|].
  cbn [simulation_loop].
  destruct (_ <? _).
  2:{ intros [= <- <-]. exists m. split; [lia | done]. }
  rewrite <- state_after_S.
  destruct (state_after_inv quantum debug_mode num_cores (S m) g) as [_ Htime];
    [lia|].
  rewrite Htime.
  destruct (Z.gtb_spec (Z.of_nat (S m)) TIME_LIMIT) as [Hover|Hin].
  - intros [= <- <-]. exists (S m). split; [lia | done].
  - unfold TIME_LIMIT in Hin. apply IH. lia.
Qed.

Lemma print_execution_trace_no_limit debug_mode time i t ev :
  TimeLimitLine ∉ print_execution_trace debug_mode time i t ev.
Proof.
  unfold print_execution_trace. destruct debug_mode; [|apply not_elem_of_nil].
  intros H. apply list_elem_of_singleton in H. done.
Qed.

Lemma state_after_no_limit_line quantum debug_mode num_cores g m :
  Z.of_nat m <= 10001 ->
  TimeLimitLine ∉ console (state_after m quantum debug_mode num_cores g).
Proof.
  apply (state_after_invariant quantum debug_mode num_cores
           (fun a => TimeLimitLine ∉ console a)); [|apply not_elem_of_nil].
  intros a0 Hinv0 Hta0.
  apply (simulation_tick_invariant quantum debug_mode num_cores TICK_DELAY_MS
           (fun a => TimeLimitLine ∉ console a)); [ | | | done | done].
  - intros a i Hinv Ha.
    destruct (check_completed_cases debug_mode a i Hinv)
      as [[-> _] | (c & k & t & _ & _ & _ & _ & _ & _ & _ & _ &
                [(_ & ->) | [(_ & _ & ->) | (_ & _ & ->)]])]; [done| ..].
    all: cbn [console]; rewrite ?elem_of_app; try done.
    + intros [H | [H | H]]; [done | |].
      * by apply print_execution_trace_no_limit in H.
      * apply list_elem_of_singleton in H. done.
    + intros [H | H]; [done|]. by apply print_execution_trace_no_limit in H.
  - intros a i _ Ha.
    destruct (assign_idle_cases quantum debug_mode a i)
      as [[-> _] | (c & k & t & _ & _ & _ & _ & _ & ->)]; [done|].
    cbn [console]. rewrite ?elem_of_app. intros [H | [H | H]]; [done | |].
    + by apply print_execution_trace_no_limit in H.
    + apply list_elem_of_singleton in H. done.
  - intros a _ _ Ha. rewrite end_of_tick_console, !elem_of_app.
    intros [H | [H | H]]; [done | |].
    + destruct (_ =? 0); [|by apply not_elem_of_nil in H].
      apply list_elem_of_singleton in H. done.
    + apply list_elem_of_singleton in H. done.
Qed.

(** X17. What a run prints. For a graph whose task count fits an [int],
    between iterations and at the end of a run: there is one "Completed
    Task" line per completed task, one pacing sleep of 10000 microseconds
    per tick of the clock, and one progress bar per 20 ticks; there are at
    least as many "Executing Task" lines as tasks completed or running.
    In debug mode every such line comes with a "Started" trace line, there
    is one "Completed" trace line per completed task, and the starts are
    exactly the completions, the preemptions traced and the tasks
    running; without debug mode no trace line is printed. The time-limit
    message is printed exactly by the run that ends by the safety
    check. *)
Theorem console_accounts_for_run (quantum : Z) (debug_mode : bool)
    (num_cores : Z) (g : DAG) (s : Sim) :
  num_tasks g <= INT_MAX ->
  in_run quantum debug_mode num_cores g s ->
  count_lines is_completed_line (console s) = completed_tasks s /\
  count_lines is_tick_sleep (console s) = simulation_time s /\
  count_lines is_progress_bar (console s) = simulation_time s / 20 /\
  completed_tasks s + running (cores s)
  <= count_lines is_executing_line (console s) /\
  (if debug_mode then
     count_lines (is_trace Started) (console s)
     = count_lines is_executing_line (console s) /\
     count_lines (is_trace Completed) (console s) = completed_tasks s /\
     count_lines is_executing_line (console s)
     = completed_tasks s + running (cores s)
       + count_lines (is_trace Preempted) (console s)
   else count_lines is_trace_line (console s) = 0) /\
  (TimeLimitLine ∈ console s <->
   simulate_hybrid_scheduler quantum debug_mode g num_cores
   = Some (s, TimeLimitExceeded)).
Proof.
  intros Hn Hin.
  assert (forall m, Z.of_nat m <= 10001 ->
            simulate_hybrid_scheduler quantum debug_mode g num_cores
            <> Some (state_after m quantum debug_mode num_cores g,
                     TimeLimitExceeded)) as Hhead.
  { intros m Hm Hrun.
    destruct (simulation_loop_time_limit_line _ _ _ _ _ _ _ Hrun) as [out Hout].
    apply (state_after_no_limit_line quantum debug_mode num_cores g m Hm).
    rewrite Hout. apply elem_of_app. right. apply list_elem_of_here. }
  destruct Hin as [(m & Hm & ->) | (e & Hrun)].
  { pose proof (state_after_console quantum debug_mode num_cores g m Hn Hm)
      as (H1 & H2 & H3 & H4 & H5).
    split_and!; try done. split.
    - intros H. by apply state_after_no_limit_line in H.
    - intros H. by apply Hhead in H. }
  pose proof Hrun as Hrun'.
  apply (simulation_loop_ends_exact quantum debug_mode num_cores g run_fuel 0)
    in Hrun' as (m & Hm & Hs); [|lia].
  pose proof (state_after_console quantum debug_mode num_cores g m Hn Hm)
    as (H1 & H2 & H3 & H4 & H5).
  pose proof (state_after_no_limit_line quantum debug_mode num_cores g m Hm)
    as Hno.
  destruct e; subst s.
  - split_and!; try done. split; [done|]. intros H. by apply Hhead in H.
  - unfold console_inv.
    cbn [print console cores completed_tasks simulation_time].
    rewrite !count_lines_app. split_and!.
    + cbn. lia.
    + cbn. lia.
    + cbn -[Z.div]. lia.
    + cbn. lia.
    + destruct debug_mode; cbn; lia.
    + split; [done|]. intros _. apply elem_of_app. right. apply list_elem_of_here.
Qed.

Lemma console_accounts_for_run_witness :
  num_tasks (three_tasks 100) <= INT_MAX /\
  in_run 2 true 1 (three_tasks 100) (state_after 10 2 true 1 (three_tasks 100)) /\
  count_lines is_tick_sleep (console (state_after 10 2 true 1 (three_tasks 100)))
  = simulation_time (state_after 10 2 true 1 (three_tasks 100)).
Proof.
  assert (num_tasks (three_tasks 100) <= INT_MAX) as Hn
    by (vm_compute; discriminate).
  assert (in_run 2 true 1 (three_tasks 100)
            (state_after 10 2 true 1 (three_tasks 100))) as Hin.
  { left. exists 10%nat. split; [lia | reflexivity]. }
  split; [exact Hn|]. split; [exact Hin|].
  exact (proj1 (proj2
           (console_accounts_for_run 2 true 1 (three_tasks 100) _ Hn Hin))).
Defined.

(** ** The comparison run *)

Lemma checked_num_cores_bounds n : 1 <= checked_num_cores n <= MAX_CORES.
Proof.
  unfold checked_num_cores, MAX_CORES.
  destruct (Z.ltb_spec n 1), (Z.gtb_spec n 16); cbn; lia.
Qed.

Lemma checked_quantum_bounds q : MIN_QUANTUM <= checked_quantum q.
Proof.
  unfold checked_quantum, MIN_QUANTUM, DEFAULT_QUANTUM.
  destruct (Z.ltb_spec q 10); lia.
Qed.

Lemma create_sample_dag_graph debug_mode :
  (create_sample_dag debug_mode).1 = (create_sample_dag false).1.
Proof. destruct debug_mode; vm_compute; reflexivity. Qed.

Lemma sample_dag_live quantum debug_mode num_cores :
  1 <= num_cores ->
  exists s,
    simulate_hybrid_scheduler quantum debug_mode (create_sample_dag false).1
      num_cores = Some (s, AllCompleted) /\
    simulation_time s <= 1254.
Proof.
  intros Hcores.
  assert (durations_ok (create_sample_dag false).1) as Hd
    by (apply Forall_forall, durations_check; vm_compute; reflexivity).
  assert (ranked_graph (create_sample_dag false).1 (fun k => k)) as Hr
    by (apply forward_graph_ranked; vm_compute; reflexivity).
  assert (total duration (tasks (create_sample_dag false).1) + 1 <= 10000) as Hf
    by (vm_compute; discriminate).
  destruct (run_live quantum debug_mode num_cores (create_sample_dag false).1
              (fun k => k) Hd Hr Hcores Hf) as (s & Hrun & Htime).
  exists s. split; [exact Hrun|].
  refine (Z.le_trans _ _ _ Htime _). vm_compute. discriminate.
Qed.

Lemma run_performance_comparison_none quantum debug_mode num_cores :
  run_performance_comparison quantum debug_mode None num_cores
  = mkComparison true (create_sample_dag debug_mode).2
      (num_tasks (create_sample_dag false).1) num_cores
      (simulate_hybrid_scheduler quantum debug_mode (create_sample_dag false).1
         num_cores)
      (Some (from_option (fun x => dag x.1) (create_sample_dag false).1
               (simulate_hybrid_scheduler quantum debug_mode
                  (create_sample_dag false).1 num_cores))).
Proof.
  rewrite <- (create_sample_dag_graph debug_mode).
  unfold run_performance_comparison.
  by destruct (create_sample_dag debug_mode).
Qed.

Lemma sample_dag_num_tasks : num_tasks (create_sample_dag false).1 = 10.
Proof. vm_compute. reflexivity. Qed.

(** X18. The comparison run of the menu. Whatever core count and quantum
    are entered, the run is made with 1 to 16 cores (4 if the entry was
    outside that range) and a quantum of at least 10 (50 if the entry was
    smaller), on the current graph. If there is no current graph, the
    sample graph of 10 tasks is created first, and the run then ends with
    all its tasks completed and all cores idle before the safety limit,
    with the clock at most 1254; the graph left as current is the graph
    of that final state. *)
Theorem menu_comparison_completes (entered_cores entered_quantum : Z)
    (debug_mode : bool) :
  1 <= checked_num_cores entered_cores <= MAX_CORES /\
  MIN_QUANTUM <= checked_quantum entered_quantum /\
  (1 <= entered_cores <= MAX_CORES -> checked_num_cores entered_cores = entered_cores) /\
  (MIN_QUANTUM <= entered_quantum -> checked_quantum entered_quantum = entered_quantum) /\
  (forall g,
     comparison_run (menu_run_comparison entered_cores entered_quantum
                       debug_mode (Some g))
     = simulate_hybrid_scheduler (checked_quantum entered_quantum) debug_mode g
         (checked_num_cores entered_cores)) /\
  let r := menu_run_comparison entered_cores entered_quantum debug_mode None in
  created r = true /\ reported_tasks r = 10 /\
  reported_cores r = checked_num_cores entered_cores /\
  exists s,
    comparison_run r = Some (s, AllCompleted) /\
    current_dag r = Some (dag s) /\
    simulation_time s <= 1254 /\
    length (cores s) = Z.to_nat (checked_num_cores entered_cores) /\
    num_tasks (dag s) = 10 /\
    (forall k t, tasks (dag s) !! k = Some t -> completed t = true) /\
    (forall i c, cores s !! i = Some c -> is_idle c = true).
Proof.
  pose proof (checked_num_cores_bounds entered_cores) as Hc.
  pose proof (checked_quantum_bounds entered_quantum) as Hq.
  split; [exact Hc|]. split; [exact Hq|]. split; [|split; [|split]].
  - unfold checked_num_cores, MAX_CORES. intros H.
    destruct (Z.ltb_spec entered_cores 1), (Z.gtb_spec entered_cores 16); cbn; lia.
  - unfold checked_quantum, MIN_QUANTUM. intros H.
    destruct (Z.ltb_spec entered_quantum 10); lia.
  - intros g. reflexivity.
  - intros r. subst r. unfold menu_run_comparison.
    rewrite run_performance_comparison_none.
    destruct (sample_dag_live (checked_quantum entered_quantum) debug_mode
                (checked_num_cores entered_cores)) as (s & Hrun & Htime); [lia|].
    rewrite Hrun. cbn [created reported_tasks reported_cores comparison_run
                       current_dag from_option fst].
    split; [reflexivity|]. split; [apply sample_dag_num_tasks|].
    split; [reflexivity|].
    exists s. split; [reflexivity|]. split; [reflexivity|]. split; [exact Htime|].
    assert (in_run (checked_quantum entered_quantum) debug_mode
              (checked_num_cores entered_cores) (create_sample_dag false).1 s)
      as Hin by (right; by exists AllCompleted).
    destruct (in_run_cores _ _ _ _ _ Hin) as [Hlen _].
    assert (num_tasks (create_sample_dag false).1 <= INT_MAX) as Hn
      by (rewrite sample_dag_num_tasks; unfold INT_MAX; lia).
    destruct (run_all_completed _ _ _ _ _ Hn Hrun) as [Hdone Hidle].
    split; [exact Hlen|]. split; [|split; [exact Hdone | exact Hidle]].
    rewrite (same_graph_num_tasks _ _ (in_run_graph _ _ _ _ _ Hin)).
    apply sample_dag_num_tasks.
Qed.

(** ** Lower bounds of the makespan *)

Lemma chain_finish quantum debug_mode num_cores g s l k t :
  in_run quantum debug_mode num_cores g s ->
  durations_ok (dag s) ->
  chain (dag s) (l ++ [k]) ->
  tasks (dag s) !! k = Some t -> completed t = true ->
  chain_duration (dag s) (l ++ [k]) <= finish_time t.
Proof.
  intros Hin Hd. revert k t.
  induction l as [|k0 l IH] using rev_ind; intros k t Hchain Ht Hc.
  - cbn [app]. unfold chain_duration. rewrite total_cons, total_nil, Ht. cbn.
    pose proof (in_run_progress _ _ _ _ _ Hin k t Ht) as Hp.
    unfold progress_ok in Hp. rewrite Hc in Hp. destruct Hp as [_ Hdur].
    pose proof (Forall_lookup_1 _ _ _ _ Hd Ht) as Hdt. cbv beta in Hdt.
    specialize (Hdur Hdt).
    destruct (in_run_timing _ _ _ _ _ Hin k t Ht)
      as [(_ & Hopen & _) | (Hstart & _)]; [congruence | lia].
  - assert (chain (dag s) (l ++ [k0]) /\
            exists t2, tasks (dag s) !! k = Some t2 /\
              Z.of_nat k0 ∈ dependencies t2) as [Hchain0 (t2 & Ht2 & Hdep)].
    { clear -Hchain. induction l as [|x l IHl]; cbn in *.
      - destruct Hchain as [H _]. done.
      - destruct (l ++ [k0]) as [|y r] eqn:Hl0;
          [by destruct l|].
        destruct ((l ++ [k0]) ++ [k]) as [|y' r'] eqn:Hl1;
          [by destruct l|].
        rewrite Hl0 in Hl1. cbn in Hl1. injection Hl1 as <- <-.
        destruct Hchain as [Hx Hrest].
        destruct (IHl Hrest) as [Hc0 Hk]. done. }
    assert (t2 = t) as -> by congruence.
    destruct (in_run_timing _ _ _ _ _ Hin k t Ht)
      as [(_ & Hopen & _) | (Hstart & _ & Hdeps)]; [congruence|].
    destruct (Hdeps _ Hdep) as (td & Htd & Hcd & Hle).
    unfold get_task in Htd. destruct (Z.ltb_spec (Z.of_nat k0) 0); [lia|].
    rewrite Nat2Z.id in Htd.
    specialize (IH k0 td Hchain0 Htd Hcd).
    unfold chain_duration in *. rewrite total_app, total_cons, total_nil, Ht. cbn.
    pose proof (in_run_progress _ _ _ _ _ Hin k t Ht) as Hp.
    unfold progress_ok in Hp. rewrite Hc in Hp. destruct Hp as [_ Hdur].
    pose proof (Forall_lookup_1 _ _ _ _ Hd Ht) as Hdt. cbv beta in Hdt.
    specialize (Hdur Hdt). lia.
Qed.

(** X19. Lower bounds of the makespan. For a graph whose durations are
    all at least 1, when a run ends with every task completed: the last
    task of every dependency chain finished no earlier than the durations
    of the chain add up to (the critical path bounds the clock from
    below), and the durations of all tasks add up to at most the number
    of cores times the clock. *)
Theorem makespan_lower_bounds (quantum : Z) (debug_mode : bool)
    (num_cores : Z) (g : DAG) (s : Sim) :
  (forall t, t ∈ tasks g -> 1 <= duration t <= INT_MAX) ->
  num_tasks g <= INT_MAX ->
  simulate_hybrid_scheduler quantum debug_mode g num_cores
    = Some (s, AllCompleted) ->
  (forall l k t, chain g (l ++ [k]) -> tasks (dag s) !! k = Some t ->
     chain_duration g (l ++ [k]) <= finish_time t /\
     finish_time t <= simulation_time s) /\
  total duration (tasks g) <= Z.of_nat (Z.to_nat num_cores) * simulation_time s.
Proof.
  intros Hd Hn Hrun. apply Forall_forall in Hd.
  assert (in_run quantum debug_mode num_cores g s) as Hin
    by (right; by exists AllCompleted).
  destruct (in_run_accounting _ _ _ _ _ Hd Hin) as [Hds Hacc].
  destruct (run_all_completed _ _ _ _ _ Hn Hrun) as [Hdone Hidle].
  pose proof (in_run_graph _ _ _ _ _ Hin) as Hg.
  assert (forall k, from_option duration 0 (tasks (dag s) !! k)
                    = from_option duration 0 (tasks g !! k)) as Hdur.
  { intros k. destruct (tasks (dag s) !! k) as [t'|] eqn:Ht'.
    - destruct (same_graph_lookup _ _ _ _ Hg Ht') as (t0 & -> & Hst).
      unfold static in Hst. cbn. congruence.
    - apply lookup_ge_None in Ht'.
      pose proof (same_graph_num_tasks _ _ Hg) as Hnum. unfold num_tasks in Hnum.
      rewrite (proj2 (lookup_ge_None (tasks g) k)); [done | lia]. }
  assert (forall l, chain g l -> chain (dag s) l) as Hchain.
  { induction l as [|k1 [|k2 l] IH]; try done.
    intros [(t2 & Ht2 & Hdep) Hrest]. split; [|by apply IH].
    destruct (lookup_lt_is_Some_2 (tasks (dag s)) k2) as [t2' Ht2'].
    { pose proof (same_graph_num_tasks _ _ Hg) as Hnum. unfold num_tasks in Hnum.
      apply lookup_lt_Some in Ht2. lia. }
    destruct (same_graph_lookup _ _ _ _ Hg Ht2') as (t0 & Ht0 & Hst).
    assert (t0 = t2) as -> by congruence.
    exists t2'. split; [done|]. unfold static in Hst.
    assert (dependencies t2' = dependencies t2) as -> by congruence. done. }
  split.
  - intros l k t Hc Ht. split.
    + assert (chain_duration g (l ++ [k]) = chain_duration (dag s) (l ++ [k]))
        as ->.
      { unfold chain_duration. apply total_ext. intros x _. by rewrite Hdur. }
      apply (chain_finish quantum debug_mode num_cores g); try done.
      * by apply Hchain.
      * by apply (Hdone k).
    + destruct (in_run_timing _ _ _ _ _ Hin k t Ht)
        as [(_ & Hopen & _) | (_ & Hfin & _)].
      * rewrite (Hdone k t Ht) in Hopen. done.
      * rewrite (Hdone k t Ht) in Hfin. lia.
  - rewrite <- (same_graph_total_duration g (dag s) Hg).
    assert (work_done (dag s) = total duration (tasks (dag s))) as Hwork.
    { unfold work_done. apply total_ext. intros t Ht.
      pose proof (proj1 (Forall_forall _ _) Hds t Ht) as Hdt. cbv beta in Hdt.
      destruct (in_run_inv _ _ _ _ _ Hin) as [_ Hok].
      pose proof (proj1 (Forall_forall _ _) Hok t Ht) as (_ & _ & Hrem).
      apply list_elem_of_lookup in Ht as [k Hk].
      rewrite (Hdone k t Hk) in Hrem. rewrite (Hrem Hdt). lia. }
    rewrite <- Hwork.
    assert (running (cores s) = 0) as Hrun0.
    { unfold running. apply total_zero. intros c Hc.
      apply list_elem_of_lookup in Hc as [i Hi]. by rewrite (Hidle i c Hi). }
    rewrite drop_0, Hrun0 in Hacc. rewrite Z.add_0_r in Hacc. rewrite <- Hacc.
    destruct (in_run_cores _ _ _ _ _ Hin) as [Hlen Hcs].
    unfold busy_total.
    pose proof (total_bounds (fun c => simulation_time s - total_idle_time c)
                  (cores s) 0 (simulation_time s)) as Hb.
    rewrite Hlen in Hb. destruct Hb as [_ Hb]; [|lia].
    intros c Hc. apply list_elem_of_lookup in Hc as [i Hi].
    destruct (Hcs i c Hi) as [_ Hidle']. lia.
Qed.

Lemma makespan_lower_bounds_witness :
  (forall t, t ∈ tasks pair_dag_01 -> 1 <= duration t <= INT_MAX) /\
  num_tasks pair_dag_01 <= INT_MAX /\
  exists s, simulate_hybrid_scheduler 2 true pair_dag_01 2 = Some (s, AllCompleted) /\
    total duration (tasks pair_dag_01) <= Z.of_nat (Z.to_nat 2) * simulation_time s.
Proof.
  assert (forall t, t ∈ tasks pair_dag_01 -> 1 <= duration t <= INT_MAX) as Hd
    by (apply durations_check; vm_compute; reflexivity).
  assert (num_tasks pair_dag_01 <= INT_MAX) as Hn by (vm_compute; discriminate).
  split; [exact Hd|]. split; [exact Hn|].
  destruct (run_simulation_total 2 true 2 TICK_DELAY_MS pair_dag_01)
    as [[s e] Hrun].
  assert (e = AllCompleted) as ->.
  { revert Hrun. unfold run_simulation. vm_compute. by intros [= _ <-]. }
  exists s. split; [exact Hrun|].
  exact (proj2 (makespan_lower_bounds 2 true 2 pair_dag_01 s Hd Hn Hrun)).
Defined.

(** X20. What the report shows for a task that was not completed (after
    a run that ended by the safety check). Between iterations and at the
    end of a run, a task that is not completed has finish time -1, so the
    turnaround the report computes for it, finish minus start, is 0 if it
    never started and the negative number -1 - start otherwise. *)
Theorem unfinished_turnaround (quantum : Z) (debug_mode : bool)
    (num_cores : Z) (g : DAG) (s : Sim) (k : nat) (t : Task) :
  in_run quantum debug_mode num_cores g s ->
  tasks (dag s) !! k = Some t -> completed t = false ->
  finish_time t = -1 /\
  turnaround t = (if start_time t =? -1 then 0 else -1 - start_time t) /\
  turnaround t <= 0.
Proof.
  intros Hin Ht Hc.
  pose proof (in_run_time _ _ _ _ _ Hin) as Htime.
  destruct (in_run_timing _ _ _ _ _ Hin k t Ht)
    as [(Hs & _ & _ & _ & Hf) | (Hstart & Hfin & _)].
  - rewrite Hs. unfold turnaround. rewrite Hs, Hf. cbn. done.
  - rewrite Hc in Hfin.
    assert (turnaround t = -1 - start_time t) as Hturn.
    { unfold turnaround, int_sub. rewrite Hfin. apply wrap_id.
      unfold in_int, INT_MIN, INT_MAX. lia. }
    destruct (Z.eqb_spec (start_time t) (-1)); [lia|].
    split_and!; [done | done | lia].
Qed.

Lemma unfinished_turnaround_witness :
  in_run 2 true 1 (three_tasks 100) (state_after 2 2 true 1 (three_tasks 100)) /\
  tasks (dag (state_after 2 2 true 1 (three_tasks 100))) !! 0%nat
    = Some (mkTask 0 4 100 10 [] false 3 0 0 (-1)) /\
  turnaround (mkTask 0 4 100 10 [] false 3 0 0 (-1)) <= 0.
Proof.
  assert (in_run 2 true 1 (three_tasks 100)
            (state_after 2 2 true 1 (three_tasks 100))) as Hin.
  { left. exists 2%nat. split; [lia | reflexivity]. }
  assert (tasks (dag (state_after 2 2 true 1 (three_tasks 100))) !! 0%nat
          = Some (mkTask 0 4 100 10 [] false 3 0 0 (-1))) as Ht
    by (vm_compute; reflexivity).
  split; [exact Hin|]. split; [exact Ht|].
  exact (proj2 (proj2 (unfinished_turnaround 2 true 1 (three_tasks 100) _
                         0%nat _ Hin Ht eq_refl))).
Defined.
